(* ===== verification/_CoqProject ===== *)
-Q . S2P
Prelude.v
Crypto.v
ToyCurve.v
Async.v
Rely.v
Platform.v
ToyPlatform.v
Core.v
Poly.v
Wire.v
MintBase.v
Vss.v
Sign.v
Dkg.v
Rotation.v
Refresh.v
RefreshProps.v
Instruction.v
Program.v
Solana.v
Ed25519.v
Sbf.v
SbfFrame.v
SbfDemo.v
SbfProps.v
SbfRefine.v
ClientBase.v
Invoice.v
Client.v
Storage.v
Transparency.v
Sessions.v
Validator.v
ToyValidator.v
ValidatorRun.v
ValidatorProps.v
ValidatorGuard.v
ValidatorDkg.v
ValidatorTypes.v
Relay.v
RelayProps.v
Daemons.v
Parallel.v
Pkcs11.v
Keys.v
WalletStore.v
Wallet.v
Services.v
WalletMint.v
WalletFront.v
WalletCli.v
WalletRun.v
WalletInbox.v
WalletPay.v
Devnet.v
WalletGui.v
WalletGuiProps.v
WalletGuiRefresh.v
RecordSet.v
GuiApp.v
GuiAppProps.v
CliDemo.v
CliTools.v
DevnetCli.v
Chain.v
SimChain.v
ChainProps.v
ChainSetup.v
ChainTakeover.v
