(* ===== verification/Prelude.v ===== *)
(** * TARDUS: verification development

    TARDUS is a mint for anonymous coins on Solana.  [n] validators hold shares
    of a Schnorr key and jointly sign blinded coin keys; a coin is refreshed
    into a new one by a cut-and-choose protocol; a program on the chain holds
    the collateral, registers the keys of the mint and records the nullifiers
    of spent coins.  Wallets mint, refresh, send (through a relay) and withdraw
    coins; a command line sets up and inspects a deployment.  This library
    models these crates and proves what makes them correct.  Paths are
    relative to [src/crates/].

    ** Files: foundations

    - [Prelude]: the result type [res] ([Ok], [Err], and [Panic] for [expect],
      indexing and division by zero), machine integers as [Z] with their range
      predicates ([u16], [u64], [in_width]) and wrapping, saturating and checked
      operations, bytes, the tactics [step], [inv_ok], [inv_res], [vm_refl].
    - [Crypto]: the class [Curve] of the third-party operations the crates use
      (curve25519-dalek, sha2, hkdf, rand_core) and [CurveOk], the documented
      laws the theorems rely on; the group keeps its cofactor.  [ToyCurve] is
      a small instance that satisfies them, on which every witness runs.
    - [Async]: an [async fn] as a sequence of atomic sections ([prog], [io]),
      [run] alone and [exec] under a schedule; [Rely]: invariants of
      interleaved tasks; [Parallel]: [try_join_all] over separate parts of a
      state.
    - [Platform]: other crates and the standard library as classes (an AEAD,
      hexadecimal, directories), clocks, the generator, a disk with faults;
      [ToyPlatform]: instances.
    - [Wire]: Borsh readers and writers; [reads] (decodes its encoding) and
      [streaming] (ignores what follows).  [Poly]: polynomials over the
      scalars, Lagrange interpolation at zero.

    ** Files: the mint and the program

    - [Core]: [tardus-core/src/{error,hash,group,signature,blind}.rs].
    - [MintBase]: [tardus-mint/src/{error,transcript}.rs].  [Vss], [Sign],
      [Dkg], [Rotation]: the files of the same name (in lower case) of
      [tardus-mint/src/].  The loops of [dkg_finalize] and [reshare_finalize]
      are folds of [dkg_check_peer]/[reshare_check_peer] followed by
      [dkg_combine]/[reshare_combine].
    - [Refresh], [RefreshProps]: [tardus-refresh/src/{error,derivation,coin,
      refresh}.rs] and their properties.
    - [Instruction]: [tardus-program/src/{instruction,pda}.rs].  [Program]:
      [tardus-program/src/{error,state,processor}.rs]; [ledger_run] runs the
      pure processors in sequence.  [Ed25519]: [ed25519_verifier.rs].
    - [Solana]: the class [Solana] of what the program calls of the runtime
      and its laws [SolanaOk]; [sim] is an instance.  Accounts are one finite
      map from keys, so two [AccountInfo]s of one key alias.
    - [Sbf]: [tardus-program/src/{sbf_processor,entrypoint}.rs]; a handler maps
      the account store to the store it leaves.  [SbfFrame]: the effect of each
      handler and what it leaves alone; [SbfDemo]: a small chain for the
      witnesses; [SbfProps]: properties over the life of the chain;
      [SbfRefine]: the handlers against the pure processors.

    ** Files: client, validator, relay

    - [ClientBase], [Invoice], [Client]: [tardus-client/src/{error,invoice,
      coin_store,issue,backup}.rs].
    - [Storage], [Transparency], [Sessions]: [tardus-validator/src/{error,
      storage,share_store,transparency_log,sign_sessions,refresh_sessions,
      dkg_sessions,reshare_sessions}.rs].  [Validator]: [state.rs] and
      [api.rs], a handler for each route; [ToyValidator]: a daemon for the
      witnesses.  [ValidatorRun]: handlers run alone; [ValidatorProps],
      [ValidatorGuard], [ValidatorDkg], [ValidatorTypes]: their properties.
    - [Relay], [RelayProps]: [tardus-relay/src/{error,state,inbox,api}.rs].
    - [Daemons]: the [main.rs] of both daemons, from their arguments to the
      state the handlers start with and the server (plain, TLS or mutual TLS).
      [Pkcs11]: [pkcs11_store.rs], a third [ShareStore], and the shares kept
      on a token; [seals] and [token_laws] are what PKCS#11 promises.

    ** Files: wallets and command line

    - [Keys], [WalletStore], [Wallet]: [tardus-wallet/src/{error,mnemonic,
      sealed_box,wallet_db,keysets,client_pool,issue,refresh}.rs].  [Services]
      puts the daemons and relays of [Validator] and [Relay] behind the
      wallet's URLs; [WalletMint]: issuance and refresh against them.
    - [WalletFront]: what the two front ends share; [WalletCli]:
      [tardus-wallet/src/bin/wallet.rs], a definition for each command;
      [WalletRun], [WalletInbox], [WalletPay]: commands evaluated, receiving,
      paying.
    - [Devnet]: the Solana client ([Cluster]) and the instructions the clients
      build; [WalletGui]: [tardus-wallet-gui/src/runtime.rs], the commands as
      interleaved tasks; [WalletGuiProps], [WalletGuiRefresh].  [GuiApp]:
      [tardus-wallet-gui/src/{main,config}.rs], the state of the window with
      every event handler and widget: a frame maps the state, the events that
      arrived and the user's input to the next state and the commands sent;
      [GuiAppProps]: window and runtime together.  [RecordSet]: notations to
      update records.
    - [CliDemo], [CliTools], [DevnetCli]: [tardus-cli/src/commands/{demo,coin,
      invoice,devnet}.rs].
    - [Chain]: the runtime that executes transactions around [Sbf] and the RPC
      node, with their laws; [SimChain]: an instance; [ChainProps]: a
      withdrawal of the graphical wallet executed by the program; [ChainSetup]:
      a deployment set up by the command line; [ChainTakeover]: a keyset
      registered by a stranger.

    ** State and operations

    Structures are records with the fields of the source, enumerations are
    inductive types with its constructors, one definition per function, by its
    name ([Type_method] for a method).  A [&mut] argument is returned with the
    result, also on failure ([process_*]).  A generator of randomness is a
    state that is threaded through.  Arithmetic is that of the release profile
    (wrapping where the source does not check).  A handler or command is an
    [io] program over the state of its daemon ([AppState], [RelayApp]) or over
    a [world]: the host, the network, and what was shown ([Out]: printed JSON
    as constructors with its values, events of the interface).  Each lock,
    clock reading, draw and disk access is a section of its own; the writing of
    a log entry under the logger's mutex is one.  HTTP requests and answers are
    the decoded bodies; [Transport] carries them.

    ** What is proved

    - Cryptographic core and mint: blind issuance is correct and unlinkable;
      any [t] holders of an honestly generated key sign; exactly what
      [dkg_finalize] accepts, indices out of range included; an honest rotation
      adds to each share what the dealers dealt and keeps the secret, and one
      dishonest dealer can shift it.
    - Refresh: the six rounds succeed and give a valid coin; the mint accepts a
      reveal exactly when its entries open every candidate but one; [kappa]
      chosen by the user defeats the check.
    - Program: codecs; registry invariant; conservation of a vault; the bridge
      accepts exactly the canonical precompile layout; a coin is spent once; a
      withdrawal moves its denomination and nothing else; instructions are
      isolated; the handlers refine the pure processors, except that they do
      not decode the key of the coin.
    - Validator, under every interleaving: a nonce answers once; the state
      keeps its types, and the one request that can panic is a finalisation,
      of a ceremony with an empty Feldman vector; a key generation over HTTP
      agrees on one key; what the nullifier guard and round 5 check and do not
      check; two logs that end alike hold the same entries, unless entries of
      theirs collide; the file store is the in-memory store.
    - Start-up: a restarted validator gets the share that its directory lists
      last, which is the one it had persisted if there is no other, and no
      daemon serves without the protection its arguments ask for.  A share on a
      token is hidden or readable, never both.
    - Relay: a message is kept until it expires or is removed, as long as no
      deposit asks for a lifetime out of the clock's range; one that does
      disables the inboxes.
    - Client and wallets: invoices and backups round-trip; the coin store is
      monotone; saves are atomic; issuance and refresh against the daemons end
      in a valid coin exactly when their errors cancel; a payment arrives at
      its recipient; what receiving and refreshing do to files and relays,
      also under failures and concurrency; errors shown are redacted.
    - Window: what each command is answered with under every interleaving,
      what a click may send, one command at a time beside listings of the
      keysets, and how a failed listing or a late answer breaks that.
    - Clients and chain together: the protocol simulations succeed; a new
      deployment is set up in two commands; a withdrawal is executed and a
      second one refused; since registrations are not authorised, a stranger
      can take the collateral of a denomination in two transactions.

    ** Bounds and fuel

    [h_generator] tries [u32] counters; its fuel bounds the attempts, and
    [h_generator_spec] gives the result for every fuel beyond the first
    candidate that decodes.  All other recursion is structural.  Lagrange
    weights need distinct indices below [2^16], the type of an index.
    [INSTANT_LIMIT] is that of 64-bit Unix.

    ** Assumptions

    Laws of code outside the repository, each a class with an instance on
    which the witnesses run: [CurveOk]; [SolanaOk] (program addresses of
    different seeds differ; system transfers debit only accounts of the system
    program; a created account was empty; [realloc] appends zeros);
    [precompile_honest]; [AeadOk], [HexOk], [JsonOk], [PayloadJsonOk],
    [DirOrderOk], [RowOrderOk], [X25519Ok], [Bip39Ok]; [seals], [token_laws]
    (records, with an instance in [Pkcs11]); [RuntimeOk] and
    [ClusterOk] (the sysvar shows the transaction, the precompile accepts a
    valid signature, rent, the node answers and submits).  [chain_step] lets
    anything else happen to the store that the runtime allows: lamports
    arrive, accounts without lamports vanish.  The construction of an HTTP
    client succeeds; [redact] works on the UTF-8 bytes of a text, whose
    hexadecimal digits are those of its characters.

    ** Not modelled, and why

    Waiting: read guards that [metrics] and [relay_health] keep over awaits are
    not expressed, and a call that never returns (a disk, an RPC node) is a task
    that is not scheduled again; deadlock and progress are not stated.
    Zeroize, Display, log messages, metrics text and elapsed times have no
    functional content.  HTTP, JSON and TLS are third-party; of an error
    answer only the status is kept.  clap parses the command lines; rustls,
    axum, SQLite's opening, cryptoki and egui are classes or inputs: what is
    only drawn (layout, colours, [theme.rs]) is left out.  Two demos of
    [devnet.rs] and the example of [tardus-wallet] start the daemons as
    processes and call the functions modelled here. *)
From Stdlib Require Import Strings.String.
From Stdlib Require Export ZArith Lia.
From Stdlib Require Import Strings.Byte.
From stdpp Require Export prelude gmap list list_numbers sorting.

Export Strings.String.StringSyntax.

#[global] Open Scope Z_scope.

Create HintDb tardus discriminated.
Create Rewrite HintDb tardus_len.

(** ** Results of Rust functions

    [Ok] and [Err] are the two constructors of [core::result::Result];
    [Panic] is an [expect], an out-of-range index or a division by zero,
    which aborts the process ([panic = "abort"] in the release profile). *)
Inductive res (E A : Type) : Type :=
| Ok (a : A)
| Err (e : E)
| Panic.
Arguments Ok {E A} a.
Arguments Err {E A} e.
Arguments Panic {E A}.

#[global] Instance res_ret {E} : MRet (res E) := fun A a => Ok a.
#[global] Instance res_bind {E} : MBind (res E) := fun A B f m =>
  match m with Ok a => f a | Err e => Err e | Panic => Panic end.
#[global] Instance res_fmap {E} : FMap (res E) := fun A B f m =>
  match m with Ok a => Ok (f a) | Err e => Err e | Panic => Panic end.

(** [o.ok_or(e)?] *)
Definition ok_or {E A} (e : E) (o : option A) : res E A :=
  match o with Some a => Ok a | None => Err e end.

(** [o.expect(..)] and indexing [v\[i\]]. *)
Definition expect {E A} (o : option A) : res E A :=
  match o with Some a => Ok a | None => Panic end.

(** [r.expect(..)] on a [Result]. *)
Definition expect_res {E E' A} (r : res E A) : res E' A :=
  match r with Ok a => Ok a | _ => Panic end.

(** [if c { return Err(e); }] *)
Definition reject_if {E} (c : bool) (e : E) : res E unit :=
  if c then Err e else Ok tt.

(** [r.map_err(f)], and the conversion [?] performs through [From]. *)
Definition map_err {E E' A} (f : E -> E') (r : res E A) : res E' A :=
  match r with Ok a => Ok a | Err e => Err (f e) | Panic => Panic end.

(** A [for] loop whose body may return early. *)
Fixpoint res_fold {E A S} (f : S -> A -> res E S) (s : S) (l : list A) : res E S :=
  match l with
  | [] => Ok s
  | a :: l' => s' ← f s a; res_fold f s' l'
  end.

Definition is_ok {E A} (r : res E A) : bool :=
  match r with Ok _ => true | _ => false end.

Definition is_panic {E A} (r : res E A) : bool :=
  match r with Panic => true | _ => false end.

#[global] Instance Ok_inj {E A} : Inj (=) (=) (@Ok E A).
Proof. by intros a b [= ->]. Qed.

Lemma bind_ok_inv {E A B} (m : res E A) (f : A -> res E B) b :
  (m ≫= f) = Ok b -> exists a, m = Ok a /\ f a = Ok b.
Proof. destruct m; cbn; naive_solver. Qed.

Lemma bind_ok {E A B} (m : res E A) (f : A -> res E B) a :
  m = Ok a -> (m ≫= f) = f a.
Proof. by intros ->. Qed.

Lemma reject_if_ok {E} c (e : E) u : reject_if c e = Ok u -> c = false.
Proof. by destruct c. Qed.

Lemma ok_or_ok {E A} (e : E) (o : option A) a : ok_or e o = Ok a -> o = Some a.
Proof. destruct o; cbn; congruence. Qed.

Lemma expect_ok {E A} (o : option A) a : expect (E := E) o = Ok a -> o = Some a.
Proof. destruct o; cbn; congruence. Qed.

Lemma map_err_ok {E E' A} (f : E -> E') (r : res E A) a :
  map_err f r = Ok a -> r = Ok a.
Proof. destruct r; cbn; congruence. Qed.

Lemma expect_res_ok {E E' A} (r : res E A) a :
  expect_res (E' := E') r = Ok a -> r = Ok a.
Proof. destruct r; cbn; congruence. Qed.

(** Splits every successful bind of the hypotheses into its steps. *)
Ltac inv_ok :=
  repeat match goal with
  | H : (_ ≫= _) = Ok _ |- _ =>
      let a := fresh "r" in let H1 := fresh "Hb" in
      apply bind_ok_inv in H as (a & H1 & H)
  | H : reject_if _ _ = Ok _ |- _ => apply reject_if_ok in H
  | H : ok_or _ _ = Ok _ |- _ => apply ok_or_ok in H
  | H : expect _ = Ok _ |- _ => apply expect_ok in H
  | H : map_err _ _ = Ok _ |- _ => apply map_err_ok in H
  | H : expect_res _ = Ok _ |- _ => apply expect_res_ok in H
  | H : Ok _ = Ok _ |- _ => injection H as H
  | H : Err _ = Ok _ |- _ => discriminate H
  | H : Panic = Ok _ |- _ => discriminate H
  | H : mret _ = Ok _ |- _ => injection H as H
  end.

(** Evaluates the steps of a [res] computation whose conditions are known. *)
Ltac step :=
  cbn [negb reject_if mbind res_bind fmap res_fmap ok_or expect map_err expect_res fst snd].

Lemma res_fold_app {E A S} (f : S -> A -> res E S) s l1 l2 :
  res_fold f s (l1 ++ l2) = (s' ← res_fold f s l1; res_fold f s' l2).
Proof.
  revert s; induction l1 as [|a l1 IH]; intros s; [done|].
  cbn. destruct (f s a); cbn; auto.
Qed.

(** The loop rule: an invariant over the part of the list already
    consumed. *)
Lemma res_fold_ok_ind {E A S} (f : S -> A -> res E S) (P : list A -> S -> Prop) s0 l s :
  P [] s0 ->
  (forall done s a s', P done s -> f s a = Ok s' -> P (done ++ [a]) s') ->
  res_fold f s0 l = Ok s -> P l s.
Proof.
  intros H0 Hstep Hl.
  enough (forall done s0, P done s0 -> res_fold f s0 l = Ok s -> P (done ++ l) s) as Hg
    by exact (Hg [] s0 H0 Hl).
  clear H0 Hl s0. induction l as [|a l IH]; intros done s0 HP Hl; cbn in Hl.
  - inv_ok. subst. by rewrite app_nil_r.
  - apply bind_ok_inv in Hl as (s' & H1 & H2).
    rewrite (cons_middle a done l), app_assoc. eapply IH; eauto.
Qed.

(** A loop all of whose bodies succeed, succeeds. *)
Lemma res_fold_ok_intro {E A S} (f : S -> A -> res E S) (g : S -> A -> S)
    (P : S -> list A -> Prop) s l :
  P s l ->
  (forall s a l, P s (a :: l) -> f s a = Ok (g s a) /\ P (g s a) l) ->
  res_fold f s l = Ok (foldl g s l).
Proof.
  intros HP Hstep. revert s HP; induction l as [|a l IH]; intros s HP; [done|].
  cbn. destruct (Hstep s a l HP) as [-> HP']. cbn. by apply IH.
Qed.

Lemma bind_panic_inv {E A B} (m : res E A) (f : A -> res E B) :
  (m ≫= f) = Panic -> m = Panic \/ exists a, m = Ok a /\ f a = Panic.
Proof. destruct m; cbn; naive_solver. Qed.

Lemma reject_if_panic {E} c (e : E) : reject_if c e <> Panic.
Proof. by destruct c. Qed.

Lemma ok_or_panic {E A} (e : E) (o : option A) : ok_or e o <> Panic.
Proof. by destruct o. Qed.

Lemma map_err_panic {E E' A} (f : E -> E') (r : res E A) : map_err f r = Panic -> r = Panic.
Proof. by destruct r. Qed.

(** Follows a panic to the step that raised it. *)
Ltac inv_panic :=
  repeat match goal with
  | H : (_ ≫= _) = Panic |- _ =>
      let a := fresh "r" in let H1 := fresh "Hb" in
      apply bind_panic_inv in H as [H|(a & H1 & H)]
  | H : reject_if _ _ = Panic |- _ => destruct (reject_if_panic _ _ H)
  | H : ok_or _ _ = Panic |- _ => destruct (ok_or_panic _ _ H)
  | H : map_err _ _ = Panic |- _ => apply map_err_panic in H
  | H : Ok _ = Panic |- _ => discriminate H
  | H : Err _ = Panic |- _ => discriminate H
  end.

(** A loop panics only in one of its bodies. *)
Lemma res_fold_panic {E A S} (f : S -> A -> res E S) s l :
  res_fold f s l = Panic -> exists s' a, a ∈ l /\ f s' a = Panic.
Proof.
  revert s; induction l as [|a l IH]; intros s H; [done|]. cbn in H.
  apply bind_panic_inv in H as [H|(s' & _ & H)]; [exists s, a; set_solver|].
  apply IH in H as (s'' & b & Hb & H). exists s'', b. set_solver.
Qed.

(** ** Machine integers *)

Definition wrap (w z : Z) : Z := z mod 2 ^ w.
Definition in_width (w z : Z) : Prop := 0 <= z < 2 ^ w.
Definition u16 (z : Z) : Prop := in_width 16 z.
Definition u64 (z : Z) : Prop := in_width 64 z.
Definition u64_max : Z := 2 ^ 64 - 1.

(** [u64::saturating_add] / [saturating_sub] / [checked_add]. *)
Definition sat_add (a b : Z) : Z := Z.min (a + b) u64_max.
Definition sat_sub (a b : Z) : Z := Z.max 0 (a - b).
Definition checked_add (a b : Z) : option Z :=
  if a + b <=? u64_max then Some (a + b) else None.

#[global] Instance in_width_dec w z : Decision (in_width w z).
Proof. unfold in_width. apply _. Defined.

Lemma wrap_small w z : in_width w z -> wrap w z = z.
Proof. apply Z.mod_small. Qed.

Lemma wrap_range w z : 0 <= w -> in_width w (wrap w z).
Proof. intros. apply Z.mod_pos_bound. by apply Z.pow_pos_nonneg. Qed.

Lemma sat_add_range a b : u64 a -> 0 <= b -> u64 (sat_add a b).
Proof. unfold u64, in_width, sat_add, u64_max. lia. Qed.

#[export] Hint Resolve wrap_range sat_add_range : tardus.

(** ** Bytes and little-endian integers *)

Abbreviation byte := Byte.byte.
Abbreviation bytes := (list Byte.byte).

Definition byte_of_Z (z : Z) : byte :=
  default Byte.x00 (Byte.of_N (Z.to_N (z mod 256))).
Definition Z_of_byte (b : byte) : Z := Z.of_N (Byte.to_N b).

#[global] Instance byte_eq_dec : EqDecision byte := Byte.byte_eq_dec.
#[global] Instance byte_countable : Countable byte :=
  inj_countable Byte.to_N Byte.of_N Byte.of_to_N.

Lemma Z_of_byte_range b : 0 <= Z_of_byte b < 256.
Proof. unfold Z_of_byte. pose proof (Byte.to_N_bounded b). lia. Qed.

Lemma byte_of_Z_of_byte b : byte_of_Z (Z_of_byte b) = b.
Proof.
  unfold byte_of_Z. rewrite Z.mod_small by apply Z_of_byte_range.
  unfold Z_of_byte. by rewrite N2Z.id, Byte.of_to_N.
Qed.

Lemma Z_of_byte_of_Z z : Z_of_byte (byte_of_Z z) = z mod 256.
Proof.
  unfold byte_of_Z. pose proof (Z.mod_pos_bound z 256 ltac:(lia)) as Hz.
  destruct (Byte.of_N (Z.to_N (z mod 256))) as [b|] eqn:Hb; cbn.
  - apply Byte.to_of_N in Hb. unfold Z_of_byte. rewrite Hb. lia.
  - apply Byte.of_N_None_iff in Hb. lia.
Qed.

Lemma Z_of_byte_inj b1 b2 : Z_of_byte b1 = Z_of_byte b2 -> b1 = b2.
Proof. intros H. by rewrite <- (byte_of_Z_of_byte b1), H, byte_of_Z_of_byte. Qed.

(** [to_le_bytes] of an [n]-byte integer, and [from_le_bytes]. *)
Fixpoint le_bytes (n : nat) (z : Z) : bytes :=
  match n with
  | O => []
  | S n => byte_of_Z z :: le_bytes n (z / 256)
  end.

Fixpoint le_Z (bs : bytes) : Z :=
  match bs with
  | [] => 0
  | b :: bs => Z_of_byte b + 256 * le_Z bs
  end.

Lemma length_le_bytes n z : length (le_bytes n z) = n.
Proof. revert z; induction n; intros; cbn; auto. Qed.

Lemma le_Z_range bs : 0 <= le_Z bs < 256 ^ Z.of_nat (length bs).
Proof.
  induction bs as [|b bs IH]; cbn [le_Z length]; [lia|].
  pose proof (Z_of_byte_range b). rewrite Nat2Z.inj_succ, Z.pow_succ_r; lia.
Qed.

Lemma le_Z_le_bytes n z : le_Z (le_bytes n z) = z mod 256 ^ Z.of_nat n.
Proof.
  revert z; induction n as [|n IH]; intros z; cbn [le_bytes le_Z].
  - by rewrite Z.mod_1_r.
  - rewrite IH, Z_of_byte_of_Z, Nat2Z.inj_succ, Z.pow_succ_r by lia.
    rewrite Z.rem_mul_r; lia.
Qed.

Lemma le_Z_le_bytes_small n z :
  0 <= z < 256 ^ Z.of_nat n -> le_Z (le_bytes n z) = z.
Proof. intros. by rewrite le_Z_le_bytes, Z.mod_small. Qed.

Lemma le_bytes_le_Z bs : le_bytes (length bs) (le_Z bs) = bs.
Proof.
  induction bs as [|b bs IH]; cbn [le_bytes le_Z length]; [done|].
  pose proof (Z_of_byte_range b) as Hb. f_equal.
  - apply Z_of_byte_inj. rewrite Z_of_byte_of_Z.
    rewrite Z.mul_comm, Z.mod_add, Z.mod_small; lia.
  - rewrite Z.mul_comm, Z.div_add, Z.div_small by lia. by rewrite Z.add_0_l.
Qed.

Lemma le_bytes_inj n a b :
  0 <= a < 256 ^ Z.of_nat n -> 0 <= b < 256 ^ Z.of_nat n ->
  le_bytes n a = le_bytes n b -> a = b.
Proof.
  intros Ha Hb H. rewrite <- (le_Z_le_bytes_small n a), H by done.
  by apply le_Z_le_bytes_small.
Qed.

#[export] Hint Rewrite length_le_bytes : tardus_len.
#[export] Hint Resolve length_le_bytes : tardus.

(** ASCII string literals [b"..."]. *)
Definition ascii (s : String.string) : bytes := String.list_byte_of_string s.
Arguments ascii s%_string : simpl never.

(** The smallest [contains] check of the code: membership in a [Vec]. *)
Definition contains {A} `{EqDecision A} (x : A) (l : list A) : bool :=
  bool_decide (x ∈ l).

Lemma contains_true {A} `{EqDecision A} (x : A) l : contains x l = true <-> x ∈ l.
Proof. apply bool_decide_eq_true. Qed.

Lemma contains_false {A} `{EqDecision A} (x : A) l : contains x l = false <-> x ∉ l.
Proof. apply bool_decide_eq_false. Qed.

(** A filter that keeps everything. *)
Lemma filter_id_list {A} (P : A -> Prop) `{!forall x, Decision (P x)} (l : list A) :
  (forall x, x ∈ l -> P x) -> filter P l = l.
Proof.
  induction l as [|a l IH]; intros Hl; [done|].
  rewrite filter_cons_True by set_solver. f_equal. apply IH. set_solver.
Qed.

(** Closed equations of a witness: the kernel evaluates both sides, no normal
    form is built in the proof. *)
Ltac vm_refl :=
  match goal with |- _ = ?b => vm_cast_no_check (@eq_refl _ b) end.

(** ** Loops over messages

    A loop that checks each message and remembers the indices seen. *)
Section seen_loop.
Context {E A I : Type} (f : list I -> A -> res E (list I)) (P : A -> Prop) (idx : A -> I).
Hypothesis f_ok : forall seen a seen',
  f seen a = Ok seen' <-> P a /\ idx a ∉ seen /\ seen' = seen ++ [idx a].

Lemma seen_loop_ok l seen seen' :
  res_fold f seen l = Ok seen' <->
  Forall P l /\ NoDup (idx <$> l) /\ (forall a, a ∈ l -> idx a ∉ seen) /\
  seen' = seen ++ (idx <$> l).
Proof using f_ok.
  revert seen. induction l as [|a l IH]; intros seen; cbn [res_fold].
  - cbn. rewrite app_nil_r. split; [|by intros (_ & _ & _ & ->)].
    intros [= <-]. split_and!; [constructor|constructor|set_solver|done].
  - rewrite fmap_cons, NoDup_cons, Forall_cons. split.
    + intros H. inv_ok. apply f_ok in Hb as (HP & Hn & ->).
      apply IH in H as (H1 & H2 & H3 & ->). rewrite <- app_assoc.
      split_and!; [done|done| |done| |done].
      * intros (b & Hb & Hin)%list_elem_of_fmap. apply (H3 b Hin). rewrite <- Hb. set_solver.
      * intros b [->|Hb]%elem_of_cons; [done|]. specialize (H3 b Hb). set_solver.
    + intros ((HP & H1) & (Hn & H2) & H3 & ->).
      rewrite (bind_ok _ _ (seen ++ [idx a])) by (apply f_ok; set_solver).
      apply IH. rewrite <- app_assoc. split_and!; [done|done| |done].
      intros b Hb [Hs|Hs%list_elem_of_singleton]%elem_of_app.
      * by apply (H3 b); [set_solver|].
      * apply Hn. rewrite <- Hs. by apply list_elem_of_fmap_2.
Qed.
End seen_loop.

(** [inv_ok] followed by the reading of the conditions that were passed. *)
Ltac inv_res :=
  inv_ok;
  repeat match goal with u : unit |- _ => destruct u end;
  repeat match goal with
  | H : negb _ = false |- _ => apply negb_false_iff in H
  | H : negb _ = true |- _ => apply negb_true_iff in H
  | H : _ || _ = false |- _ => apply orb_false_iff in H as [? H]
  | H : (_ =? _) = true |- _ => apply Z.eqb_eq in H
  | H : (_ =? _) = false |- _ => apply Z.eqb_neq in H
  | H : (_ <? _) = true |- _ => apply Z.ltb_lt in H
  | H : (_ <? _) = false |- _ => apply Z.ltb_ge in H
  | H : (_ <=? _) = true |- _ => apply Z.leb_le in H
  | H : (_ <=? _) = false |- _ => apply Z.leb_gt in H
  | H : (_ =? _)%nat = true |- _ => apply Nat.eqb_eq in H
  | H : (_ =? _)%nat = false |- _ => apply Nat.eqb_neq in H
  | H : bool_decide _ = true |- _ => apply bool_decide_eq_true in H
  | H : bool_decide _ = false |- _ => apply bool_decide_eq_false in H
  | H : contains _ _ = true |- _ => apply contains_true in H
  | H : contains _ _ = false |- _ => apply contains_false in H
  end.

(** A loop that accumulates a decoded value per message. *)
Lemma sum_loop {E A V} (decode : A -> res E V) (add : V -> V -> V) (g : A -> V) l acc :
  (forall a, a ∈ l -> decode a = Ok (g a)) ->
  res_fold (λ acc a, v ← decode a; Ok (add acc v)) acc l = Ok (foldl add acc (g <$> l)).
Proof.
  revert acc; induction l as [|a l IH]; intros acc H; [done|].
  cbn [res_fold]. rewrite H by set_solver. cbn. apply IH. set_solver.
Qed.

(** A [mapM] all of whose calls succeed. *)
Lemma mapM_decode {A V} (decode : A -> option V) (g : A -> V) l :
  (forall a, a ∈ l -> decode a = Some (g a)) -> mapM decode l = Some (g <$> l).
Proof.
  intros H. apply mapM_Some. apply Forall2_fmap_r, Forall_Forall2_diag, Forall_forall. exact H.
Qed.

Lemma mapM_decode_fmap {A B V} (f : A -> B) (decode : B -> option V) (g : A -> V) l :
  (forall a, a ∈ l -> decode (f a) = Some (g a)) -> mapM decode (f <$> l) = Some (g <$> l).
Proof.
  intros H. apply mapM_Some, Forall2_fmap, Forall_Forall2_diag, Forall_forall. exact H.
Qed.

(** Removing one element of a duplicate-free list. *)
Lemma length_filter_ne {A} `{EqDecision A} (x : A) l : NoDup l -> x ∈ l ->
  S (length (filter (λ y, y <> x) l)) = length l.
Proof.
  intros Hnd Hx. apply elem_of_Permutation in Hx as [l' Hl].
  rewrite Hl in *. apply NoDup_cons in Hnd as [Hx Hnd].
  rewrite filter_cons_False by (intros H; by apply H). cbn. f_equal.
  f_equal. apply filter_id_list. intros y Hy ->. done.
Qed.

(** A duplicate-free list that fills its bound is a permutation of it. *)
Lemma NoDup_fill {A} (l k : list A) : NoDup l -> l ⊆ k -> (length k <= length l)%nat -> l ≡ₚ k.
Proof.
  intros Hnd Hsub Hlen. apply submseteq_length_Permutation; [by apply NoDup_submseteq|done].
Qed.
