(* ===== verification/Crypto.v ===== *)
(** * The cryptographic libraries the crates call

    [curve25519-dalek] (scalars of the prime field of order l, edwards25519
    points), [sha2], [hkdf] and [rand_core] are third-party crates.  They are
    parameters here: [Curve] lists the operations the code uses, [CurveOk] the
    documented behaviour the theorems rely on.  The group is not assumed to
    have prime order: as in dalek, multiplication by a scalar is only additive
    in the scalar for torsion-free points, and [decompress] may return a point
    with a torsion component. *)
From Stdlib Require Export Field Field_theory Ring_theory.
From AAC_tactics Require Export AAC.
From S2P Require Import Prelude.

Class Curve : Type := {
  (** [curve25519_dalek::scalar::Scalar] *)
  scalar : Type;
  sc_zero : scalar;
  sc_one : scalar;
  sc_add : scalar -> scalar -> scalar;
  sc_sub : scalar -> scalar -> scalar;
  sc_mul : scalar -> scalar -> scalar;
  sc_opp : scalar -> scalar;
  sc_inv : scalar -> scalar;
  sc_eq_dec :: EqDecision scalar;
  sc_of_u64 : Z -> scalar;
  sc_to_bytes : scalar -> bytes;
  sc_from_canonical : bytes -> option scalar;
  sc_from_wide : bytes -> scalar;
  (** [curve25519_dalek::edwards::{EdwardsPoint, CompressedEdwardsY}] *)
  point : Type;
  pt_eq_dec :: EqDecision point;
  pt_id : point;
  pt_add : point -> point -> point;
  pt_mul : scalar -> point -> point;
  pt_base : point;
  pt_mul_by_cofactor : point -> point;
  pt_torsion_free : point -> bool;
  pt_compress : point -> bytes;
  pt_decompress : bytes -> option point;
  (** [sha2], [hkdf] *)
  sha256 : bytes -> bytes;
  sha512 : bytes -> bytes;
  hkdf_sha512 : bytes -> bytes -> bytes -> nat -> bytes;
  (** [rand_core::CryptoRngCore], as explicit generator state *)
  rng : Type;
  sc_random : rng -> scalar * rng;
  rng_fill : nat -> rng -> bytes * rng;
}.

Declare Scope sc_scope.
Declare Scope pt_scope.
Delimit Scope sc_scope with sc.
Delimit Scope pt_scope with pt.
Bind Scope sc_scope with scalar.
Bind Scope pt_scope with point.
Notation "0" := sc_zero : sc_scope.
Notation "1" := sc_one : sc_scope.
Notation "a + b" := (sc_add a b) : sc_scope.
Notation "a - b" := (sc_sub a b) : sc_scope.
Notation "a * b" := (sc_mul a b) : sc_scope.
Notation "- a" := (sc_opp a) : sc_scope.
Notation "P + Q" := (pt_add P Q) : pt_scope.
Notation "a ⋅ P" := (pt_mul a P) (at level 40, left associativity) : pt_scope.

Definition sc_div `{Curve} (a b : scalar) : scalar := sc_mul a (sc_inv b).

(** [IsIdentity::is_identity] *)
Definition is_identity `{Curve} (P : point) : bool := bool_decide (P = pt_id).

Class CurveOk (C : Curve) : Prop := {
  sc_field : field_theory sc_zero sc_one sc_add sc_mul sc_sub sc_opp sc_div sc_inv eq;
  sc_of_u64_0 : sc_of_u64 0 = sc_zero;
  sc_of_u64_inj a b : u16 a -> u16 b -> sc_of_u64 a = sc_of_u64 b -> a = b;
  sc_to_bytes_length s : length (sc_to_bytes s) = 32%nat;
  sc_canonical_to_bytes s : sc_from_canonical (sc_to_bytes s) = Some s;
  sc_canonical_unique b s : sc_from_canonical b = Some s -> b = sc_to_bytes s;
  pt_add_comm P Q : pt_add P Q = pt_add Q P;
  pt_add_assoc P Q R : pt_add P (pt_add Q R) = pt_add (pt_add P Q) R;
  pt_add_id_l P : pt_add pt_id P = P;
  pt_add_cancel_l P Q R : pt_add P Q = pt_add P R -> Q = R;
  pt_mul_one P : pt_mul sc_one P = P;
  pt_mul_zero P : pt_mul sc_zero P = pt_id;
  pt_mul_pt_add a P Q : pt_mul a (pt_add P Q) = pt_add (pt_mul a P) (pt_mul a Q);
  pt_mul_add a b P : pt_torsion_free P = true ->
    pt_mul (sc_add a b) P = pt_add (pt_mul a P) (pt_mul b P);
  pt_mul_mul a b P : pt_torsion_free P = true ->
    pt_mul (sc_mul a b) P = pt_mul a (pt_mul b P);
  pt_base_order a : pt_mul a pt_base = pt_id -> a = sc_zero;
  pt_tf_base : pt_torsion_free pt_base = true;
  pt_tf_id : pt_torsion_free pt_id = true;
  pt_tf_add P Q : pt_torsion_free P = true -> pt_torsion_free Q = true ->
    pt_torsion_free (pt_add P Q) = true;
  pt_tf_mul a P : pt_torsion_free P = true -> pt_torsion_free (pt_mul a P) = true;
  pt_tf_cofactor P : pt_torsion_free (pt_mul_by_cofactor P) = true;
  pt_compress_length P : length (pt_compress P) = 32%nat;
  pt_decompress_compress P : pt_decompress (pt_compress P) = Some P;
  sha256_length m : length (sha256 m) = 32%nat;
  rng_fill_length n r : length (rng_fill n r).1 = n;
}.

#[export] Hint Resolve pt_tf_base pt_tf_id pt_tf_add pt_tf_mul pt_tf_cofactor
  sc_to_bytes_length pt_compress_length sha256_length rng_fill_length : tardus.

(** ** Consequences *)
Section consequences.
Context `{CO : CurveOk}.
Add Field sc_field_ring : sc_field.

Lemma pt_add_id_r P : pt_add P pt_id = P.
Proof. by rewrite pt_add_comm, pt_add_id_l. Qed.

Lemma pt_compress_inj P Q : pt_compress P = pt_compress Q -> P = Q.
Proof.
  intros H. apply (inj Some).
  by rewrite <- (pt_decompress_compress P), H, pt_decompress_compress.
Qed.

Lemma sc_to_bytes_inj a b : sc_to_bytes a = sc_to_bytes b -> a = b.
Proof.
  intros H. apply (inj Some).
  by rewrite <- (sc_canonical_to_bytes a), H, sc_canonical_to_bytes.
Qed.

Lemma pt_mul_inj a b : pt_mul a pt_base = pt_mul b pt_base -> a = b.
Proof.
  intros H.
  enough (sc_add a (sc_opp b) = sc_zero) as Hab.
  { transitivity (sc_add (sc_add a (sc_opp b)) b); [ring|]. rewrite Hab. ring. }
  apply pt_base_order. rewrite pt_mul_add by auto with tardus. rewrite H.
  rewrite <- pt_mul_add by auto with tardus.
  replace (sc_add b (sc_opp b)) with sc_zero by ring. apply pt_mul_zero.
Qed.

Lemma is_identity_true P : is_identity P = true <-> P = pt_id.
Proof. apply bool_decide_eq_true. Qed.

(** Sums of points are rearranged by [aac_reflexivity] / [aac_normalise]. *)
#[global] Instance pt_eq_lift : AAC_lift (@eq point) (@eq point).
Proof.
  assert (Proper (eq ==> eq ==> iff) (@eq point)) by solve_proper.
  eapply aac_lift_proper.
Qed.
#[global] Instance pt_add_Associative : Associative eq pt_add := pt_add_assoc.
#[global] Instance pt_add_Commutative : Commutative eq pt_add := pt_add_comm.
#[global] Instance pt_add_Unit : Unit eq pt_add pt_id.
Proof. split; [apply pt_add_id_l|apply pt_add_id_r]. Qed.
End consequences.

(** ** Sums of scalars and points *)
Definition sc_sum `{Curve} (l : list scalar) : scalar := foldr sc_add sc_zero l.
Definition pt_sum `{Curve} (l : list point) : point := foldr pt_add pt_id l.

Section sums.
Context `{CO : CurveOk}.
Add Field sc_field_ring2 : sc_field.

Lemma sc_sum_nil : sc_sum [] = sc_zero.
Proof. done. Qed.

Lemma pt_sum_nil : pt_sum [] = pt_id.
Proof. done. Qed.

Lemma sc_sum_cons a l : sc_sum (a :: l) = sc_add a (sc_sum l).
Proof. done. Qed.

Lemma pt_sum_cons P l : pt_sum (P :: l) = pt_add P (pt_sum l).
Proof. done. Qed.

Lemma sc_sum_app l1 l2 : sc_sum (l1 ++ l2) = sc_add (sc_sum l1) (sc_sum l2).
Proof.
  induction l1 as [|a l1 IH]; [rewrite app_nil_l, sc_sum_nil; ring|].
  rewrite <- app_comm_cons, !sc_sum_cons, IH. ring.
Qed.

Lemma pt_sum_app l1 l2 : pt_sum (l1 ++ l2) = pt_add (pt_sum l1) (pt_sum l2).
Proof.
  induction l1 as [|a l1 IH]; [by rewrite app_nil_l, pt_sum_nil, pt_add_id_l|].
  by rewrite <- app_comm_cons, !pt_sum_cons, IH, pt_add_assoc.
Qed.

(** The code's accumulators add on the right. *)
Lemma foldl_sc_add l a : foldl sc_add a l = sc_add a (sc_sum l).
Proof.
  revert a; induction l as [|b l IH]; intros a; cbn [foldl]; [rewrite sc_sum_nil; ring|].
  rewrite IH, sc_sum_cons. ring.
Qed.

Lemma foldl_pt_add l P : foldl pt_add P l = pt_add P (pt_sum l).
Proof.
  revert P; induction l as [|Q l IH]; intros P; cbn [foldl]; [by rewrite pt_sum_nil, pt_add_id_r|].
  by rewrite IH, pt_sum_cons, pt_add_assoc.
Qed.

Lemma pt_sum_mul_base {A} (f : A -> scalar) (l : list A) :
  pt_sum ((λ x, pt_mul (f x) pt_base) <$> l) = pt_mul (sc_sum (f <$> l)) pt_base.
Proof.
  induction l as [|a l IH]; [by rewrite !fmap_nil, pt_sum_nil, sc_sum_nil, pt_mul_zero|].
  rewrite !fmap_cons, pt_sum_cons, sc_sum_cons, IH.
  by rewrite pt_mul_add by auto with tardus.
Qed.

Lemma sc_sum_mul_l {A} (f : A -> scalar) c (l : list A) :
  sc_sum ((λ x, sc_mul c (f x)) <$> l) = sc_mul c (sc_sum (f <$> l)).
Proof.
  induction l as [|a l IH]; [rewrite !fmap_nil, !sc_sum_nil; ring|].
  rewrite !fmap_cons, !sc_sum_cons, IH. ring.
Qed.

Lemma sc_sum_add {A} (f g : A -> scalar) (l : list A) :
  sc_sum ((λ x, sc_add (f x) (g x)) <$> l) = sc_add (sc_sum (f <$> l)) (sc_sum (g <$> l)).
Proof.
  induction l as [|a l IH]; [rewrite !fmap_nil, !sc_sum_nil; ring|].
  rewrite !fmap_cons, !sc_sum_cons, IH. ring.
Qed.

Lemma sc_sum_zero {A} (f : A -> scalar) (l : list A) :
  (forall x, x ∈ l -> f x = sc_zero) -> sc_sum (f <$> l) = sc_zero.
Proof.
  intros Hf. induction l as [|a l IH]; [done|].
  rewrite fmap_cons, sc_sum_cons, Hf, IH by set_solver. ring.
Qed.

Lemma sc_sum_perm l1 l2 : l1 ≡ₚ l2 -> sc_sum l1 = sc_sum l2.
Proof.
  induction 1 as [|a l1 l2 _ IH|a b l|l1 l2 l3 _ IH1 _ IH2];
    rewrite ?sc_sum_cons; [done|by rewrite IH|ring|congruence].
Qed.

Lemma pt_sum_perm l1 l2 : l1 ≡ₚ l2 -> pt_sum l1 = pt_sum l2.
Proof.
  induction 1 as [|a l1 l2 _ IH|a b l|l1 l2 l3 _ IH1 _ IH2];
    rewrite ?pt_sum_cons; [done|by rewrite IH| |congruence].
  rewrite !pt_add_assoc. f_equal. apply pt_add_comm.
Qed.

#[global] Instance sc_sum_Proper : Proper ((≡ₚ) ==> eq) sc_sum := sc_sum_perm.
#[global] Instance pt_sum_Proper : Proper ((≡ₚ) ==> eq) pt_sum := pt_sum_perm.

(** Exchange of two finite sums. *)
Lemma sc_sum_swap {A B} (f : A -> B -> scalar) (la : list A) (lb : list B) :
  sc_sum ((λ a, sc_sum (f a <$> lb)) <$> la) =
  sc_sum ((λ b, sc_sum ((λ a, f a b) <$> la)) <$> lb).
Proof.
  induction la as [|a la IH].
  - symmetry. by apply sc_sum_zero.
  - rewrite fmap_cons, sc_sum_cons, IH. symmetry. apply sc_sum_add.
Qed.
End sums.
