(* ===== verification/ToyCurve.v ===== *)
(** * A concrete instance of the curve interface

    [toy] has the group structure of edwards25519 in small: the scalars are
    the prime field of order 65537, the points the cyclic group of order
    8 * 65537 (cofactor 8), the base point generates the subgroup of prime
    order.  It satisfies [CurveOk], so every theorem proved against the
    interface can be evaluated on it: a file's witnesses declare it as a local
    instance. *)
From Stdlib Require Import Znumtheory Zmod.
From S2P Require Import Prelude Crypto.

Definition q : Z := 65537.
Definition cofactor : Z := 8.

(** No divisor up to the square root. *)
Lemma q_trial_division d : 2 <= d <= 256 -> q mod d <> 0.
Proof.
  intros Hd.
  assert (forallb (fun n => negb (q mod n =? 0)) (seqZ 2 255) = true) as Hq
    by (vm_compute; reflexivity).
  rewrite forallb_forall in Hq. specialize (Hq d).
  rewrite <- list_elem_of_In, elem_of_seqZ in Hq. assert (2 <= d < 2 + 255) as Hd2 by lia. specialize (Hq Hd2).
  intros H. by rewrite H in Hq.
Qed.

Lemma q_prime : Z.prime q.
Proof.
  split; [done|]. intros n Hn [m Hm].
  destruct (Z.le_gt_cases n 256) as [Hn'|Hn'].
  - apply (q_trial_division n); [lia|]. rewrite Hm. apply Z.mod_mul. lia.
  - assert (q = 65537) as Hq by done. rewrite Hq in Hn, Hm.
    assert (2 <= m) by (apply Z.nlt_ge; intros ?; nia).
    assert (m <= 256) by (apply Z.nlt_ge; intros ?; nia).
    apply (q_trial_division m); [done|]. rewrite Hq, Hm, Z.mul_comm. apply Z.mod_mul. lia.
Qed.

Definition zq := Zmod.Zmod q.
Definition zp := Zmod.Zmod (cofactor * q).

#[global] Instance zmod_eq_dec m : EqDecision (Zmod.Zmod m).
Proof.
  intros x y. destruct (decide (Zmod.to_Z x = Zmod.to_Z y)) as [H|H].
  - left. by apply Zmod.to_Z_inj.
  - right. intros ->. done.
Defined.

(** A polynomial hash with a length prefix, padded to [n] bytes; its values
    are small, so that a candidate point usually decompresses. *)
Definition toy_digest (n : nat) (m : bytes) : bytes :=
  le_bytes n (foldl (fun acc b => (acc * 263 + Z_of_byte b + 1) mod 2 ^ 64)
                    (Z.of_nat n + Z.of_nat (length m)) m mod (cofactor * q)).

Definition zq_from_canonical (b : bytes) : option zq :=
  if decide (length b = 32%nat /\ le_Z b < q) then Some (Zmod.of_Z q (le_Z b)) else None.

Definition zp_decompress (b : bytes) : option zp :=
  if decide (length b = 32%nat /\ le_Z b < cofactor * q)
  then Some (Zmod.of_Z (cofactor * q) (le_Z b)) else None.

Definition toy : Curve := {|
  scalar := zq;
  sc_zero := Zmod.zero;
  sc_one := Zmod.one;
  sc_add := Zmod.add;
  sc_sub := Zmod.sub;
  sc_mul := Zmod.mul;
  sc_opp := Zmod.opp;
  sc_inv := Zmod.inv;
  sc_of_u64 z := Zmod.of_Z q z;
  sc_to_bytes s := le_bytes 32 (Zmod.to_Z s);
  sc_from_canonical := zq_from_canonical;
  sc_from_wide b := Zmod.of_Z q (le_Z b);
  point := zp;
  pt_id := Zmod.zero;
  pt_add := Zmod.add;
  pt_mul a P := Zmod.of_Z _ (Zmod.to_Z a * Zmod.to_Z P);
  pt_base := Zmod.of_Z _ cofactor;
  pt_mul_by_cofactor P := Zmod.of_Z _ (cofactor * Zmod.to_Z P);
  pt_torsion_free P := Zmod.to_Z P mod cofactor =? 0;
  pt_compress P := le_bytes 32 (Zmod.to_Z P);
  pt_decompress := zp_decompress;
  sha256 := toy_digest 32;
  sha512 := toy_digest 64;
  hkdf_sha512 salt ikm info n := toy_digest n (salt ++ ikm ++ info);
  rng := Z;
  sc_random r := (Zmod.of_Z q (r * 7919 + 104729), (r * 48271 + 11) mod 2147483647);
  rng_fill n r := (le_bytes n (r * 7919 + 104729), (r * 48271 + 11) mod 2147483647);
|}.

Lemma zq_range (s : zq) : 0 <= Zmod.to_Z s < q.
Proof. by apply Zmod.unsigned_pos_bound. Qed.

Lemma zp_range (s : zp) : 0 <= Zmod.to_Z s < cofactor * q.
Proof. by apply Zmod.unsigned_pos_bound. Qed.

Lemma q_pow : q < 256 ^ Z.of_nat 32 /\ cofactor * q < 256 ^ Z.of_nat 32.
Proof. done. Qed.

(** Encoding of a residue on 32 bytes, for both types. *)
Lemma residue_roundtrip m (s : Zmod.Zmod m) : 0 < m -> m < 256 ^ Z.of_nat 32 ->
  length (le_bytes 32 (Zmod.to_Z s)) = 32%nat /\
  le_Z (le_bytes 32 (Zmod.to_Z s)) = Zmod.to_Z s.
Proof.
  intros Hm Hm'. split; [apply length_le_bytes|].
  apply le_Z_le_bytes_small. pose proof (Zmod.unsigned_pos_bound s Hm). lia.
Qed.

Lemma zq_canonical_to_bytes (s : zq) :
  zq_from_canonical (le_bytes 32 (Zmod.to_Z s)) = Some s.
Proof.
  destruct (residue_roundtrip q s) as [H1 H2]; [done..|].
  unfold zq_from_canonical. rewrite H1, H2. pose proof (zq_range s).
  rewrite decide_True by (split; [done|lia]). by rewrite Zmod.of_Z_to_Z.
Qed.

Lemma zq_canonical_unique b s :
  zq_from_canonical b = Some s -> b = le_bytes 32 (Zmod.to_Z s).
Proof.
  unfold zq_from_canonical. case_decide as H; [|done]. intros [= <-].
  rewrite Zmod.to_Z_of_Z. pose proof (le_Z_range b). destruct H as [<- H].
  rewrite Z.mod_small by lia. by rewrite le_bytes_le_Z.
Qed.

Lemma zp_decompress_compress (P : zp) :
  zp_decompress (le_bytes 32 (Zmod.to_Z P)) = Some P.
Proof.
  destruct (residue_roundtrip _ P) as [H1 H2]; [done..|].
  unfold zp_decompress. rewrite H1, H2. pose proof (zp_range P).
  rewrite decide_True by (split; [done|lia]). by rewrite Zmod.of_Z_to_Z.
Qed.

(** Scalars act on the points of order q through representatives modulo q. *)
Lemma zp_torsion_free P : (Zmod.to_Z (m := cofactor * q) P mod cofactor =? 0) = true ->
  exists k, Zmod.to_Z P = cofactor * k.
Proof. intros H%Z.eqb_eq%Z.mod_divide; [|done]. destruct H as [k ->]. exists k. lia. Qed.

Lemma mod_cofactor x : (x mod (cofactor * q)) mod cofactor = x mod cofactor.
Proof.
  rewrite (Z.mod_eq x (cofactor * q)) by done.
  replace (x - cofactor * q * (x / (cofactor * q)))
    with (x + (- (q * (x / (cofactor * q)))) * cofactor) by ring.
  by apply Z.mod_add.
Qed.

Lemma scalar_mod_q x k : (x mod q * (cofactor * k)) mod (cofactor * q) =
  (x * (cofactor * k)) mod (cofactor * q).
Proof.
  rewrite (Z.mod_eq x q) by done.
  replace ((x - q * (x / q)) * (cofactor * k))
    with (x * (cofactor * k) + (- (x / q * k)) * (cofactor * q)) by ring.
  by apply Z.mod_add.
Qed.

Ltac zmod := apply Zmod.to_Z_inj;
  repeat first [rewrite Zmod.to_Z_of_Z | rewrite Zmod.to_Z_add | rewrite Zmod.to_Z_mul
               | rewrite Zmod.to_Z_0].

Lemma toy_ok : CurveOk toy.
Proof.
  split; cbn -[Zmod.to_Z Zmod.of_Z le_bytes q cofactor toy_digest Zmod.zero Zmod.one].
  - apply (Zmod.field_theory q q_prime).
  - done.
  - unfold u16, in_width. intros a b Ha Hb H%(f_equal Zmod.to_Z).
    rewrite !Zmod.to_Z_of_Z in H. rewrite !Z.mod_small in H by (unfold q; lia). done.
  - intros. apply length_le_bytes.
  - apply zq_canonical_to_bytes.
  - apply zq_canonical_unique.
  - intros. apply Zmod.add_comm.
  - intros. apply Zmod.add_assoc.
  - intros. apply Zmod.add_0_l.
  - intros P Q R H. apply (f_equal (Zmod.add (Zmod.opp P))) in H.
    rewrite !Zmod.add_assoc, !Zmod.add_opp_same_l, !Zmod.add_0_l in H. done.
  - intros P. zmod. rewrite Zmod.unsigned_1_pos, Z.mul_1_l by done.
    apply Z.mod_small, zp_range.
  - intros P. zmod. done.
  - intros a P Q. zmod. by rewrite Zmult_mod_idemp_r, Z.mul_add_distr_l, Zplus_mod.
  - intros a b P [k Hk]%zp_torsion_free. zmod. rewrite Hk.
    by rewrite scalar_mod_q, Z.mul_add_distr_r, Zplus_mod.
  - intros a b P [k Hk]%zp_torsion_free. zmod. rewrite Hk.
    rewrite scalar_mod_q, Zmult_mod_idemp_r. f_equal. lia.
  - intros a H%(f_equal Zmod.to_Z). rewrite !Zmod.to_Z_of_Z, Zmod.to_Z_0 in H.
    pose proof (zq_range a). rewrite (Z.mod_small cofactor) in H by done.
    rewrite Z.mod_small in H by (unfold cofactor, q in *; lia).
    apply Zmod.to_Z_inj. rewrite Zmod.to_Z_0. unfold cofactor in H. lia.
  - done.
  - done.
  - intros P Q [k1 H1]%zp_torsion_free [k2 H2]%zp_torsion_free.
    apply Z.eqb_eq. rewrite Zmod.to_Z_add, mod_cofactor, H1, H2, <- Z.mul_add_distr_l.
    rewrite Z.mul_comm. by apply Z.mod_mul.
  - intros a P [k Hk]%zp_torsion_free.
    apply Z.eqb_eq. rewrite Zmod.to_Z_of_Z, mod_cofactor, Hk, Z.mul_shuffle3.
    rewrite Z.mul_comm. by apply Z.mod_mul.
  - intros P. apply Z.eqb_eq. rewrite Zmod.to_Z_of_Z, mod_cofactor, Z.mul_comm.
    by apply Z.mod_mul.
  - intros. apply length_le_bytes.
  - apply zp_decompress_compress.
  - intros. apply length_le_bytes.
  - intros. apply length_le_bytes.
Qed.
