(* ===== verification/Async.v ===== *)
(** * Asynchronous handlers over shared state

    An [async fn] of the daemons is a sequence of atomic sections: every
    access to a lock, the clock, the random generator or the disk is one
    section, and other tasks may run between any two of them.  [prog] is that
    sequence, [run] executes it alone and [exec] executes several of them
    under an arbitrary schedule.  [io] adds the early returns of [?].

    A section always returns: waiting (for a lock, the disk, the network, or
    for ever) is a task that the schedule leaves alone.  Where the code keeps a
    guard across several awaits, the model does one of two things, named at the
    definition: it lets other tasks run that would have to wait, which adds
    runs, or it takes the awaits together as one section, where only the holder
    of the guard touches what they are about.  So what is stated for all
    schedules is about what may happen; that something does happen, a lock
    freed or a request answered, is not stated. *)
From S2P Require Import Prelude.

Section prog.
Context {S : Type}.

Inductive prog (A : Type) : Type :=
| Done (a : A)
| Atomic {B : Type} (section : S -> B * S) (next : B -> prog A).

Fixpoint run {A} (p : prog A) (s : S) : A * S :=
  match p with
  | Done _ a => (a, s)
  | Atomic _ f k => let '(b, s') := f s in run (k b) s'
  end.

(** Tasks and the state they share; a schedule names the task that runs its
    next section. *)
Definition step_task {A} (c : S * list (prog A)) (i : nat) : S * list (prog A) :=
  let '(s, ps) := c in
  match ps !! i with
  | Some (Atomic _ f k) => let '(b, s') := f s in (s', <[i := k b]> ps)
  | _ => (s, ps)
  end.
Definition exec {A} (schedule : list nat) (c : S * list (prog A)) : S * list (prog A) :=
  foldl step_task c schedule.

End prog.
Arguments prog S A : clear implicits.
Arguments Done {S A} a.
Arguments Atomic {S A B} section next.

(** ** Handlers that may return early *)
Definition io (S E A : Type) : Type := prog S (res E A).

#[global] Instance io_ret S E : MRet (io S E) := fun A a => Done (Ok a).

Fixpoint io_bind_prog {S E A B} (f : A -> io S E B) (p : prog S (res E A)) : prog S (res E B) :=
  match p with
  | Done (Ok a) => f a
  | Done (Err e) => Done (Err e)
  | Done Panic => Done Panic
  | Atomic g k => Atomic g (λ b, io_bind_prog f (k b))
  end.
#[global] Instance io_bind S E : MBind (io S E) := fun A B f p => io_bind_prog f p.

(** One atomic section; a read of the state; a computation without effects. *)
Definition atomically {S E A} (f : S -> A * S) : io S E A := Atomic f (λ a, Done (Ok a)).
Definition reads_state {S E A} (f : S -> A) : io S E A := atomically (λ s, (f s, s)).
Definition updates {S E} (f : S -> S) : io S E unit := atomically (λ s, (tt, f s)).
Definition lift {S E A} (r : res E A) : io S E A := Done r.

Section run_lemmas.
Context {S E : Type}.

Lemma run_bind {A B} (m : io S E A) (f : A -> io S E B) s :
  run (m ≫= f) s = match run m s with
                   | (Ok a, s') => run (f a) s'
                   | (Err e, s') => (Err e, s')
                   | (Panic, s') => (Panic, s')
                   end.
Proof.
  revert s. unfold mbind, io_bind. induction m as [[a|e|]|X g k IH]; intros s; [done..|].
  cbn. destruct (g s) as [b s']. apply IH.
Qed.

Lemma run_bind_ok {A B} (m : io S E A) (f : A -> io S E B) s b s2 :
  run (m ≫= f) s = (Ok b, s2) ->
  exists a s1, run m s = (Ok a, s1) /\ run (f a) s1 = (Ok b, s2).
Proof. rewrite run_bind. destruct (run m s) as [[a|e|] s1]; [eauto|done..]. Qed.

Lemma run_atomically {A} (f : S -> A * S) s :
  run (atomically (E := E) f) s = (Ok (f s).1, (f s).2).
Proof. cbn. by destruct (f s). Qed.

Lemma run_mret {A} (a : A) (s : S) : run (mret a : io S E A) s = (Ok a, s).
Proof. done. Qed.
Lemma run_lift {A} (r : res E A) (s : S) : run (lift r) s = (r, s).
Proof. done. Qed.

End run_lemmas.

(** A run that succeeded, taken apart at its binds. *)
Ltac inv_run :=
  repeat match goal with
  | H : run (_ ≫= _) _ = (Ok _, _) |- _ =>
      let a := fresh "a" in let s := fresh "s" in let H1 := fresh "Hr" in
      apply run_bind_ok in H as (a & s & H1 & H)
  | H : run (lift _) _ = (Ok _, _) |- _ => rewrite run_lift in H; injection H as H <-
  | H : run (mret _) _ = (Ok _, _) |- _ => rewrite run_mret in H; injection H as <- <-
  end.

(** ** Schedules *)
Section schedules.
Context {S A : Type}.
Implicit Types (p : prog S A) (ps : list (prog S A)) (c : S * list (prog S A)).

Lemma exec_app l1 l2 c : exec (l1 ++ l2) c = exec l2 (exec l1 c).
Proof. apply foldl_app. Qed.

Lemma step_task_lookup_ne c i j : i <> j -> (step_task c i).2 !! j = c.2 !! j.
Proof.
  destruct c as [s ps]. intros Hij. cbn. destruct (ps !! i) as [[a|X f k]|]; [done| |done].
  destruct (f s) as [b s']. by apply list_lookup_insert_ne.
Qed.

Lemma step_task_done c i a : c.2 !! i = Some (Done a) -> step_task c i = c.
Proof. destruct c as [s ps]. cbn. by intros ->. Qed.

Lemma step_task_atomic s ps i X (f : S -> X * S) k : ps !! i = Some (Atomic f k) ->
  step_task (s, ps) i = ((f s).2, <[i := k (f s).1]> ps).
Proof. cbn. intros ->. by destruct (f s). Qed.

Lemma length_exec schedule c : length (exec schedule c).2 = length c.2.
Proof.
  revert c; induction schedule as [|i schedule IH]; intros c; [done|].
  cbn [exec foldl]. fold (exec schedule (step_task c i)). rewrite IH. destruct c as [s ps].
  unfold step_task. destruct (ps !! i) as [[a|X f k]|]; [done| |done]. destruct (f s).
  apply length_insert.
Qed.

End schedules.

(** ** Accounting

    [mu] measures a resource of the shared state.  [acct] states, for one task
    and whatever the others do, by how much the task itself has changed the
    measure: [mid] bounds the change of a task still running, [post] the
    change of one that has returned.  Over any schedule the changes add up. *)
Record account (A : Type) : Type := { acc_mid : Z -> Prop; acc_post : A -> Z -> Prop }.
Arguments acc_mid {A}. Arguments acc_post {A}.

Section accounting.
Context {S A : Type} (mu : S -> Z).
Implicit Types (p : prog S A) (ps : list (prog S A)) (a : account A).

Fixpoint acct (a : account A) (p : prog S A) (c : Z) : Prop :=
  match p with
  | Done x => acc_post a x c
  | Atomic f k => acc_mid a c /\ forall s, acct a (k (f s).1) (c + (mu (f s).2 - mu s))
  end.

Definition zsum (l : list Z) : Z := foldr Z.add 0 l.

Lemma zsum_insert l i c d : l !! i = Some c -> zsum (<[i := d]> l) = zsum l - c + d.
Proof.
  unfold zsum. revert i; induction l as [|x l IH]; intros [|i] Hi; try done; cbn in *.
  - injection Hi as ->. lia.
  - rewrite IH by done. lia.
Qed.

Lemma exec_acct (accs : list (account A)) schedule s0 s ps cs :
  length cs = length ps ->
  (forall i p, ps !! i = Some p -> exists a c, accs !! i = Some a /\ cs !! i = Some c /\ acct a p c) ->
  zsum cs = mu s - mu s0 ->
  exists cs', length cs' = length ps /\
    (forall i p, (exec schedule (s, ps)).2 !! i = Some p ->
       exists a c, accs !! i = Some a /\ cs' !! i = Some c /\ acct a p c) /\
    zsum cs' = mu (exec schedule (s, ps)).1 - mu s0.
Proof.
  revert s ps cs; induction schedule as [|j schedule IH]; intros s ps cs Hl Hacc Hsum.
  - by exists cs.
  - cbn [exec foldl]. fold (exec schedule (step_task (s, ps) j)).
    destruct (ps !! j) as [[x|X f k]|] eqn:Hj.
    + rewrite (step_task_done _ _ x) by done. by apply IH with cs.
    + rewrite (step_task_atomic _ _ _ _ f k) by done.
      destruct (Hacc _ _ Hj) as (a & c & Ha & Hc & _ & Hk).
      edestruct (IH (f s).2 (<[j := k (f s).1]> ps) (<[j := c + (mu (f s).2 - mu s)]> cs))
        as (cs' & Hl' & H1 & H2); [by rewrite !length_insert| | |].
      * intros i p Hi. destruct (decide (i = j)) as [->|Hne].
        -- rewrite list_lookup_insert_eq in Hi by (by eapply lookup_lt_Some). injection Hi as <-.
           exists a, (c + (mu (f s).2 - mu s)). split_and!; [done| |apply Hk].
           apply list_lookup_insert_eq. by eapply lookup_lt_Some.
        -- rewrite list_lookup_insert_ne in Hi by done. setoid_rewrite list_lookup_insert_ne; [|done].
           by apply Hacc.
      * rewrite (zsum_insert _ _ c) by done. lia.
      * rewrite length_insert in Hl'. exists cs'. by split_and!.
    + replace (step_task (s, ps) j) with (s, ps) by (cbn; by rewrite Hj). by apply IH with cs.
Qed.
End accounting.

(** Rules for handlers: a section that leaves the measure alone costs
    nothing. *)
Section account_rules.
Context {S E A : Type} (mu : S -> Z).

Lemma acct_silent {B} (a : account (res E A)) (f : S -> B * S) (g : B -> io S E A) c :
  acc_mid a c -> (forall s, mu (f s).2 = mu s) -> (forall b, acct mu a (g b) c) ->
  acct mu a (atomically f ≫= g) c.
Proof.
  intros Hm Hf Hg. cbn. split; [done|]. intros s.
  replace (c + (mu (f s).2 - mu s)) with c by (rewrite Hf; lia). apply Hg.
Qed.

Lemma acct_section {B} (a : account (res E A)) (f : S -> B * S) (g : B -> io S E A) c :
  acc_mid a c -> (forall s, acct mu a (g (f s).1) (c + (mu (f s).2 - mu s))) ->
  acct mu a (atomically f ≫= g) c.
Proof. intros Hm Hf. by split. Qed.

Lemma acct_lift {B} (a : account (res E A)) (r : res E B) (g : B -> io S E A) c :
  (forall e, acc_post a (Err e) c) -> acc_post a Panic c -> (forall b, r = Ok b -> acct mu a (g b) c) ->
  acct mu a (lift r ≫= g) c.
Proof. intros He Hp Hg. destruct r as [b|e|]; cbn; [by apply Hg|apply He|done]. Qed.
End account_rules.

(** A program none of whose sections changes the measure. *)
Section silent.
Context {S : Type} (mu : S -> Z).

Fixpoint silent {A} (p : prog S A) : Prop :=
  match p with
  | Done _ => True
  | Atomic f k => forall s, mu (f s).2 = mu s /\ silent (k (f s).1)
  end.

Lemma silent_acct {A} (a : account A) (p : prog S A) c :
  silent p -> acc_mid a c -> (forall r, acc_post a r c) -> acct mu a p c.
Proof.
  intros Hp Hm Hr. induction p as [r|X f k IH]; cbn in *; [apply Hr|].
  split; [done|]. intros s. destruct (Hp s) as [Hf Hk].
  replace (c + (mu (f s).2 - mu s)) with c by lia. by apply IH.
Qed.

Lemma silent_bind {E A B} (m : io S E A) (f : A -> io S E B) :
  silent m -> (forall a, silent (f a)) -> silent (m ≫= f).
Proof.
  intros Hm Hf. unfold mbind, io_bind. induction m as [[a|e|]|X g k IH]; cbn in *; [apply Hf|done..|].
  intros s. destruct (Hm s) as [H1 H2]. split; [done|]. by apply IH.
Qed.

Lemma silent_atomically {E A} (f : S -> A * S) :
  (forall s, mu (f s).2 = mu s) -> silent (atomically (E := E) f).
Proof. by intros H s. Qed.

Lemma silent_lift {E A} (r : res E A) : silent (lift (S := S) r).
Proof. done. Qed.

(** After a silent prefix. *)
Lemma acct_silent_bind {E A B} (a : account (res E B)) (m : io S E A) (f : A -> io S E B) c :
  silent m -> acc_mid a c -> (forall e, acc_post a (Err e) c) -> acc_post a Panic c ->
  (forall x, acct mu a (f x) c) -> acct mu a (m ≫= f) c.
Proof.
  intros Hm Hmid He Hp Hf. unfold mbind, io_bind.
  induction m as [[x|e|]|X g k IH]; cbn in *; [apply Hf|apply He|done|].
  split; [done|]. intros s. destruct (Hm s) as [Hg Hk].
  replace (c + (mu (g s).2 - mu s)) with c by lia. by apply IH.
Qed.
End silent.
