(* ===== verification/Rely.v ===== *)
(** * Invariants of interleaved tasks

    [safe s0 Q p] : whatever the other tasks do, as long as they keep the
    invariant [I] and move the state along [R] only, [p] does so too, and
    returns a value and a last seen state in [Q]; [s0] is a state that [p] has
    seen.  It is a weakest precondition, computed by the rules below. *)
From S2P Require Import Prelude Async.

Section rely.
Context {S : Type} (I : S -> Prop) (R : relation S) `{!PreOrder R}.

Fixpoint safe {A} (s0 : S) (Q : A -> S -> Prop) (p : prog S A) : Prop :=
  match p with
  | Done a => Q a s0
  | Atomic f k => forall s, I s -> R s0 s -> I (f s).2 /\ R s (f s).2 /\ safe (f s).2 Q (k (f s).1)
  end.

(** A postcondition that later states still satisfy. *)
Definition stable {A} (Q : A -> S -> Prop) : Prop := forall a s s', R s s' -> Q a s -> Q a s'.

Lemma safe_later {A} s s' (Q : A -> S -> Prop) p : stable Q -> R s s' -> safe s Q p -> safe s' Q p.
Proof using All.
  intros HQ Hs. destruct p as [a|X f k]; cbn; [by apply HQ|].
  intros H s1 Hi H1. apply H; [done|]. by etrans.
Qed.

Lemma safe_mono {A} s (Q Q' : A -> S -> Prop) p :
  (forall a s', Q a s' -> Q' a s') -> safe s Q p -> safe s Q' p.
Proof.
  intros HQ. revert s. induction p as [a|X f k IH]; cbn; intros s H; [by apply HQ|].
  intros s1 Hi H1. destruct (H s1 Hi H1) as (? & ? & ?). by auto.
Qed.

Lemma safe_bind {E A B} s (Q : res E B -> S -> Prop) (m : io S E A) (f : A -> io S E B) :
  safe s (λ r s', match r with Ok a => safe s' Q (f a) | Err e => Q (Err e) s' | Panic => Q Panic s' end) m ->
  safe s Q (m ≫= f).
Proof.
  unfold mbind, io_bind. revert s. induction m as [[a|e|]|X g k IH]; cbn; intros s H; [done..|].
  intros s1 Hi H1. destruct (H s1 Hi H1) as (? & ? & ?). by auto.
Qed.

Lemma safe_lift {E A} s (Q : res E A -> S -> Prop) r : Q r s -> safe s Q (lift r).
Proof. done. Qed.

Lemma safe_atomically {E A} s (Q : res E A -> S -> Prop) (f : S -> A * S) :
  (forall s', I s' -> R s s' -> I (f s').2 /\ R s' (f s').2 /\ Q (Ok (f s').1) (f s').2) ->
  safe s Q (atomically f).
Proof. done. Qed.

(** All tasks safe, under every schedule. *)
Lemma exec_safe {A} (Qs : list (A -> S -> Prop)) schedule s ps :
  Forall stable Qs -> I s ->
  Forall2 (λ Q p, exists s0, R s0 s /\ safe s0 Q p) Qs ps ->
  I (exec schedule (s, ps)).1 /\ R s (exec schedule (s, ps)).1 /\
  Forall2 (λ Q p, exists s0, R s0 (exec schedule (s, ps)).1 /\ safe s0 Q p) Qs (exec schedule (s, ps)).2.
Proof using All.
  intros HQ. revert s ps; induction schedule as [|j schedule IH]; intros s ps Hi Hps; [done|].
  cbn [exec foldl]. fold (exec schedule (step_task (s, ps) j)).
  destruct (ps !! j) as [[x|X f k]|] eqn:Hj.
  - rewrite (step_task_done _ _ x) by done. by apply IH.
  - rewrite (step_task_atomic _ _ _ _ f k) by done.
    destruct (Forall2_lookup_r _ _ _ _ _ Hps Hj) as (Q & HQj & s0 & H0 & Hsafe).
    destruct (Hsafe s Hi H0) as (Hi' & Hr & Hk).
    destruct (IH (f s).2 (<[j := k (f s).1]> ps)) as (H1 & H2 & H3); [done| |].
    + rewrite <- (list_insert_id Qs j Q) by done. apply Forall2_insert; [|by exists (f s).2].
      eapply Forall2_impl; [exact Hps|]. intros Q' p (s1 & ? & ?). exists s1. split; [by etrans|done].
    + split_and!; [done|by etrans|done].
  - replace (step_task (s, ps) j) with (s, ps) by (cbn; by rewrite Hj). by apply IH.
Qed.
End rely.

(** No assumption on the other tasks. *)
#[export] Instance any_preorder {S : Type} : PreOrder (λ _ _ : S, True).
Proof. by split. Qed.

(** ** Programs that return only values in [P] *)
Section always.
Context {S : Type}.

Fixpoint always {A} (P : A -> Prop) (p : prog S A) : Prop :=
  match p with
  | Done a => P a
  | Atomic f k => forall s, always P (k (f s).1)
  end.

Lemma always_bind {E A B} (P : res E B -> Prop) (m : io S E A) (f : A -> io S E B) :
  always (λ r, match r with Ok a => always P (f a) | Err e => P (Err e) | Panic => P Panic end) m ->
  always P (m ≫= f).
Proof.
  unfold mbind, io_bind. induction m as [[a|e|]|X g k IH]; cbn; intros H; [done..|].
  intros s. apply IH, H.
Qed.

Lemma always_atomically {E A} (P : res E A -> Prop) (f : S -> A * S) :
  (forall s, P (Ok (f s).1)) -> always P (atomically f).
Proof. done. Qed.
Lemma always_lift {E A} (P : res E A -> Prop) r : P r -> always P (lift (S := S) r).
Proof. done. Qed.
Lemma always_mono {A} (P Q : A -> Prop) (p : prog S A) :
  (forall a, P a -> Q a) -> always P p -> always Q p.
Proof. intros HP. induction p as [a|X f k IH]; cbn; [by auto|]. intros H s. apply IH, H. Qed.
End always.

(** A call whose error is converted. *)
Section converted.
Context {S : Type} (I : S -> Prop) (R : relation S).
Lemma safe_converted {E E' A} (conv : (E -> E') -> io S E A -> io S E' A) (f : E -> E') s
    (Q : res E' A -> S -> Prop) (p : io S E A) :
  (forall r, conv f (Done r) = Done (map_err f r)) ->
  (forall B (g : S -> B * S) k, conv f (Atomic g k) = Atomic g (λ b, conv f (k b))) ->
  safe I R s (λ r s', Q (map_err f r) s') p -> safe I R s Q (conv f p).
Proof.
  intros H1 H2. revert s. induction p as [r|B g k IH]; intros s; [by rewrite H1|].
  rewrite H2. cbn. intros H s' Hi Hr. destruct (H s' Hi Hr) as (? & ? & ?). by auto.
Qed.
End converted.
