(* ===== verification/Platform.v ===== *)
(** * What the daemons take from outside the repository

    Third-party crates as classes with the laws the theorems use
    ([chacha20poly1305], [hex]), and the parts of the Rust standard library
    that have a state: clocks, the generator, files.  Paths are byte strings;
    an I/O operation may fail, as told by a list of faults that the state
    carries. *)
From S2P Require Import Prelude Crypto Async.

(** ** chacha20poly1305: key, nonce, text *)
Class Aead : Type := {
  aead_encrypt : bytes -> bytes -> bytes -> option bytes;
  aead_decrypt : bytes -> bytes -> bytes -> option bytes;
}.
Class AeadOk (A : Aead) : Prop := {
  aead_decrypt_encrypt k n p c : aead_encrypt k n p = Some c -> aead_decrypt k n c = Some p;
  aead_length k n p c : aead_encrypt k n p = Some c -> length c = (length p + 16)%nat;
  aead_total k n p : Z.of_nat (length p) < 2 ^ 36 -> is_Some (aead_encrypt k n p);
}.

(** ** hex *)
Class Hex : Type := {
  hex_encode : bytes -> bytes;
  hex_decode : bytes -> option bytes;
}.
Class HexOk (H : Hex) : Prop := {
  hex_decode_encode b : hex_decode (hex_encode b) = Some b;
  hex_encode_length b : length (hex_encode b) = (2 * length b)%nat;
  hex_alphabet b c : c ∈ hex_encode b -> c ∈ ascii "0123456789abcdef";
  hex_decode_zeros n : hex_decode (replicate (2 * n) (byte_of_Z 48)) = Some (replicate n (byte_of_Z 0));
}.

Lemma hex_encode_inj `{HexOk} b1 b2 : hex_encode b1 = hex_encode b2 -> b1 = b2.
Proof. intros E. apply (inj Some). by rewrite <- !hex_decode_encode, E. Qed.

(** ** Paths: [Path::{join, file_name, extension, with_extension}] *)
Definition dot : byte := byte_of_Z 46.
Definition slash : byte := byte_of_Z 47.

(** The parts before and after the last [c]. *)
Fixpoint rsplit_once (c : byte) (s : bytes) : option (bytes * bytes) :=
  match s with
  | [] => None
  | a :: s =>
      match rsplit_once c s with
      | Some (before, after) => Some (a :: before, after)
      | None => if decide (a = c) then Some ([], s) else None
      end
  end.

Definition path_join (dir name : bytes) : bytes :=
  if decide (head name = Some slash) then name
  else if decide (dir = [] \/ last dir = Some slash) then dir ++ name
  else dir ++ slash :: name.

Definition path_file_name (p : bytes) : bytes :=
  match rsplit_once slash p with Some (_, name) => name | None => p end.

(** A leading dot does not start an extension. *)
Definition name_split (name : bytes) : bytes * option bytes :=
  match rsplit_once dot name with
  | Some (stem, ext) => if decide (stem = []) then (name, None) else (stem, Some ext)
  | None => (name, None)
  end.
Definition path_extension (p : bytes) : option bytes := (name_split (path_file_name p)).2.
Definition path_with_extension (p ext : bytes) : bytes :=
  let name := (name_split (path_file_name p)).1 ++ dot :: ext in
  match rsplit_once slash p with Some (dir, _) => dir ++ slash :: name | None => name end.

(** ** Files *)
Inductive io_error : Type := NotFound | OtherIo.

(** A fault makes the next operation fail; a write that fails leaves the bytes
    the fault names in the file. *)
Record disk : Type := { d_files : gmap bytes bytes; d_faults : list (option bytes) }.

Definition set_files (d : disk) (f : gmap bytes bytes) : disk :=
  {| d_files := f; d_faults := d_faults d |}.
Definition next_fault (d : disk) : option bytes * disk :=
  match d_faults d with
  | [] => (None, d)
  | f :: faults => (f, {| d_files := d_files d; d_faults := faults |})
  end.

(** [std::fs::{read, write, rename}] and appending to an open file. *)
Definition disk_read (path : bytes) (d : disk) : res io_error bytes * disk :=
  let '(fault, d) := next_fault d in
  match fault with
  | Some _ => (Err OtherIo, d)
  | None => (ok_or NotFound (d_files d !! path), d)
  end.
Definition disk_write (path content : bytes) (d : disk) : res io_error unit * disk :=
  let '(fault, d) := next_fault d in
  match fault with
  | Some kept => (Err OtherIo, set_files d (<[path := kept]> (d_files d)))
  | None => (Ok tt, set_files d (<[path := content]> (d_files d)))
  end.
Definition disk_append (path content : bytes) (d : disk) : res io_error unit * disk :=
  let '(fault, d) := next_fault d in
  let old := default [] (d_files d !! path) in
  match fault with
  | Some kept => (Err OtherIo, set_files d (<[path := old ++ kept]> (d_files d)))
  | None => (Ok tt, set_files d (<[path := old ++ content]> (d_files d)))
  end.
Definition disk_rename (from to : bytes) (d : disk) : res io_error unit * disk :=
  let '(fault, d) := next_fault d in
  match fault, d_files d !! from with
  | Some _, _ => (Err OtherIo, d)
  | None, None => (Err NotFound, d)
  | None, Some content => (Ok tt, set_files d (<[to := content]> (delete from (d_files d))))
  end.

(** [std::fs::create_dir_all]: the disk of the model has files only. *)
Definition disk_create_dir_all (path : bytes) (d : disk) : res io_error unit * disk :=
  let '(fault, d) := next_fault d in
  (match fault with Some _ => Err OtherIo | None => Ok tt end, d).

(** [std::fs::read_dir]: the files of a directory, in an order of the
    platform's choosing. *)
Class DirOrder : Type := { dir_order : list bytes -> list bytes }.
Class DirOrderOk (O : DirOrder) : Prop := { dir_order_perm l : dir_order l ≡ₚ l }.

Definition dir_files (d : disk) (dir : bytes) : list bytes :=
  filter (λ p, p = path_join dir (path_file_name p)) (map_to_list (d_files d)).*1.
Definition disk_read_dir `{DirOrder} (dir : bytes) (d : disk) : res io_error (list bytes) * disk :=
  let '(fault, d) := next_fault d in
  match fault with
  | Some _ => (Err OtherIo, d)
  | None => (Ok (dir_order (dir_files d dir)), d)
  end.

(** ** The host: disk, operating system generator, clocks in nanoseconds *)
Section host.
Context `{C : Curve}.

Record host : Type :=
  { h_disk : disk; h_rng : rng; h_instant : Z; h_unix : Z }.

Definition set_disk (h : host) (d : disk) : host :=
  {| h_disk := d; h_rng := h_rng h; h_instant := h_instant h; h_unix := h_unix h |}.
Definition set_rng (h : host) (r : rng) : host :=
  {| h_disk := h_disk h; h_rng := r; h_instant := h_instant h; h_unix := h_unix h |}.

(** One disk operation; its error converted by [f]. *)
Definition on_disk {E A} (f : io_error -> E) (op : disk -> res io_error A * disk) : io host E A :=
  r ← atomically (λ h, let '(r, d) := op (h_disk h) in (r, set_disk h d)); lift (map_err f r).
Definition draw {E A} (f : rng -> A * rng) : io host E A :=
  atomically (λ h, let '(a, r) := f (h_rng h) in (a, set_rng h r)).
Definition instant_now {E} : io host E Z := reads_state h_instant.

(** [SystemTime::now().duration_since(UNIX_EPOCH).map_or(0, |d| d.as_millis())] *)
Definition unix_ms (t : Z) : Z := if t <? 0 then 0 else t / 1000000.
Definition unix_ms_now {E} : io host E Z := reads_state (λ h, unix_ms (h_unix h)).
End host.

(** ** Lemmas *)
Lemma rsplit_once_app c a b : c ∉ b -> rsplit_once c (a ++ c :: b) = Some (a, b).
Proof.
  intros Hb. induction a as [|x a IH]; cbn; [|by rewrite IH].
  assert (rsplit_once c b = None) as ->; [|by rewrite decide_True].
  induction b as [|y b IHb]; cbn; [done|]. apply not_elem_of_cons in Hb as [Hy Hb].
  rewrite IHb by done. by rewrite decide_False.
Qed.

Lemma rsplit_once_Some c s a b : rsplit_once c s = Some (a, b) -> s = a ++ c :: b /\ c ∉ b.
Proof.
  revert a; induction s as [|x s IH]; intros a; cbn; [done|].
  destruct (rsplit_once c s) as [[a' b']|] eqn:E.
  - intros [= <- <-]. destruct (IH a' eq_refl) as [-> ?]. done.
  - case_decide as Hx; [|done]. intros [= <- <-]. subst x. split; [done|]. intros Hin. clear IH.
    revert E; induction s as [|y s IH]; [by apply not_elem_of_nil in Hin|]. cbn.
    apply elem_of_cons in Hin as [->|Hin].
    + destruct (rsplit_once y s) as [[??]|]; [done|]. by rewrite decide_True.
    + destruct (rsplit_once c s) as [[??]|]; [done|]. by specialize (IH Hin).
Qed.

Lemma rsplit_once_none c s : c ∉ s -> rsplit_once c s = None.
Proof.
  induction s as [|y s IH]; intros Hs; cbn; [done|]. apply not_elem_of_cons in Hs as [Hy Hs].
  rewrite IH by done. by rewrite decide_False.
Qed.

Lemma path_join_name dir name : slash ∉ name -> path_file_name (path_join dir name) = name.
Proof.
  intros Hn. unfold path_join, path_file_name.
  destruct (decide (head name = Some slash)) as [Hh|_].
  { destruct name; [done|]. injection Hh as ->. set_solver. }
  destruct (decide (dir = [] \/ last dir = Some slash)) as [[->|(d & ->)%last_Some]|_].
  - cbn. by rewrite rsplit_once_none.
  - rewrite <- app_assoc. cbn. by rewrite rsplit_once_app.
  - by rewrite rsplit_once_app.
Qed.

Lemma path_join_inj dir n1 n2 : slash ∉ n1 -> slash ∉ n2 ->
  path_join dir n1 = path_join dir n2 -> n1 = n2.
Proof. intros H1 H2 E. by rewrite <- (path_join_name dir n1), E, path_join_name. Qed.

(** The temporary file is another one, unless it has that extension. *)
Lemma path_with_extension_ne p ext : path_extension p <> Some ext -> path_with_extension p ext <> p.
Proof.
  unfold path_extension, path_with_extension, path_file_name. intros H E.
  assert (forall name, (name_split name).1 ++ dot :: ext = name -> (name_split name).2 = Some ext) as Hname.
  { intros name. unfold name_split. destruct (rsplit_once dot name) as [[a b]|] eqn:Hn.
    - apply rsplit_once_Some in Hn as [-> _]. case_decide; cbn; intros Hx.
      + apply (f_equal length) in Hx. rewrite !length_app in Hx. cbn in Hx. lia.
      + by apply app_inv_head in Hx as [= ->].
    - cbn. intros Hx. apply (f_equal length) in Hx. rewrite length_app in Hx. cbn in Hx. lia. }
  destruct (rsplit_once slash p) as [[d n]|] eqn:Hp; [|by apply H, Hname].
  apply rsplit_once_Some in Hp as [Hp _]. rewrite Hp in E. apply app_inv_head in E. injection E as E.
  by apply H, Hname.
Qed.

Lemma name_split_ext stem ext : stem <> [] -> dot ∉ ext ->
  name_split (stem ++ dot :: ext) = (stem, Some ext).
Proof. intros Hs He. unfold name_split. rewrite rsplit_once_app by done. by rewrite decide_False. Qed.

(** An operation on a disk without faults. *)
Section disk_lemmas.
Context `{C : Curve} {E : Type}.
Implicit Types (h : host) (f : io_error -> E).

Definition no_faults (h : host) : Prop := d_faults (h_disk h) = [].
Definition files (h : host) : gmap bytes bytes := d_files (h_disk h).
Definition with_files (h : host) (m : gmap bytes bytes) : host := set_disk h (set_files (h_disk h) m).

Lemma run_disk_read f p h : no_faults h ->
  run (on_disk f (disk_read p)) h = (map_err f (ok_or NotFound (files h !! p)), h).
Proof.
  unfold no_faults, on_disk, disk_read, next_fault, files. destruct h as [[m l] r i u]. cbn.
  by intros ->.
Qed.

(** A read that succeeded, whatever the faults. *)
Lemma run_disk_read_ok f p h b h' : run (on_disk f (disk_read p)) h = (Ok b, h') ->
  files h !! p = Some b /\ files h' = files h.
Proof.
  unfold on_disk, disk_read, next_fault, files. destruct h as [[m l] r i u]. cbn.
  destruct l as [|[x|] l]; cbn; [|by intros [=]|]; destruct (m !! p) eqn:Hp; cbn;
    intros [= <- <-]; cbn; done.
Qed.

Lemma run_disk_write f p b h : no_faults h ->
  run (on_disk f (disk_write p b)) h = (Ok tt, with_files h (<[p := b]> (files h))).
Proof.
  unfold no_faults, on_disk, disk_write, next_fault, files, with_files, set_files, set_disk.
  destruct h as [[m l] r i u]. cbn. by intros ->.
Qed.

Lemma run_disk_append f p b h : no_faults h ->
  run (on_disk f (disk_append p b)) h =
    (Ok tt, with_files h (<[p := default [] (files h !! p) ++ b]> (files h))).
Proof.
  unfold no_faults, on_disk, disk_append, next_fault, files, with_files, set_files, set_disk.
  destruct h as [[m l] r i u]. cbn. by intros ->.
Qed.

Lemma run_disk_rename f p q b h : no_faults h -> files h !! p = Some b ->
  run (on_disk f (disk_rename p q)) h = (Ok tt, with_files h (<[q := b]> (delete p (files h)))).
Proof.
  unfold no_faults, on_disk, disk_rename, next_fault, files, with_files, set_files, set_disk.
  destruct h as [[m l] r i u]. cbn. intros -> Hp. cbn. by rewrite Hp.
Qed.

Lemma run_disk_read_dir `{DirOrder} f dir h : no_faults h ->
  run (on_disk f (disk_read_dir dir)) h = (Ok (dir_order (dir_files (h_disk h) dir)), h).
Proof.
  unfold no_faults, on_disk, disk_read_dir, next_fault. destruct h as [[m l] r i u]. cbn.
  by intros ->.
Qed.
End disk_lemmas.
