(* ===== verification/ToyPlatform.v ===== *)
(** * A concrete platform

    Executable instances of the classes of [Platform], on which the witnesses
    evaluate: an AEAD that appends a digest, hexadecimal, listings in order. *)
From S2P Require Import Prelude Crypto ToyCurve Async Platform.

Definition toy_tag (k n p : bytes) : bytes := toy_digest 16 (k ++ n ++ p).
Definition toy_aead : Aead := {|
  aead_encrypt k n p := Some (p ++ toy_tag k n p);
  aead_decrypt k n c :=
    let p := take (length c - 16) c in
    if decide (drop (length c - 16) c = toy_tag k n p) then Some p else None;
|}.

Lemma toy_aead_ok : AeadOk toy_aead.
Proof.
  assert (forall k n p, length (toy_tag k n p) = 16%nat) as Ht by (intros; apply length_le_bytes).
  split; cbn [toy_aead aead_encrypt aead_decrypt]; intros k n p; [intros c [= <-]|intros c [= <-]|done];
    rewrite length_app, Ht; [|done].
  cbn zeta. rewrite Nat.add_sub, take_app_length, drop_app_length. by rewrite decide_True.
Qed.

(** Hexadecimal, low nibble first. *)
Definition hex_digits : bytes := ascii "0123456789abcdef".
Definition toy_hex_char (n : Z) : byte := default dot (hex_digits !! Z.to_nat n).
Definition toy_hex_value (c : byte) : option Z :=
  Z.of_nat <$> (fst <$> list_find (λ x, x = c) hex_digits).
Definition toy_hex_byte (b : byte) : bytes :=
  [toy_hex_char (Z_of_byte b mod 16); toy_hex_char (Z_of_byte b / 16)].
Fixpoint toy_hex_decode (s : bytes) : option bytes :=
  match s with
  | [] => Some []
  | [_] => None
  | a :: b :: s =>
      lo ← toy_hex_value a; hi ← toy_hex_value b; rest ← toy_hex_decode s;
      Some (byte_of_Z (hi * 16 + lo) :: rest)
  end.
Definition toy_hex : Hex :=
  {| hex_encode b := b ≫= toy_hex_byte; hex_decode := toy_hex_decode |}.

Lemma toy_hex_value_char n : 0 <= n < 16 -> toy_hex_value (toy_hex_char n) = Some n.
Proof.
  intros H. assert (In n (seqZ 0 16)) as Hin by (by apply list_elem_of_In, elem_of_seqZ).
  vm_compute in Hin. by repeat destruct Hin as [<-|Hin].
Qed.

Lemma toy_hex_char_in n : 0 <= n < 16 -> toy_hex_char n ∈ hex_digits.
Proof.
  intros H. assert (In n (seqZ 0 16)) as Hin by (by apply list_elem_of_In, elem_of_seqZ).
  vm_compute in Hin. by repeat destruct Hin as [<-|Hin]; [apply list_elem_of_In; vm_compute; tauto..|].
Qed.

Lemma nibbles b : 0 <= Z_of_byte b mod 16 < 16 /\ 0 <= Z_of_byte b / 16 < 16 /\
  Z_of_byte b / 16 * 16 + Z_of_byte b mod 16 = Z_of_byte b.
Proof. pose proof (Z_of_byte_range b). Z.to_euclidean_division_equations. lia. Qed.

Lemma toy_hex_ok : HexOk toy_hex.
Proof.
  split; [intros b|intros b|intros b|intros n]; cbn [toy_hex hex_encode hex_decode].
  - induction b as [|x b IH]; [done|]. destruct (nibbles x) as (H1 & H2 & H3).
    cbn -[toy_hex_value toy_hex_char]. rewrite !toy_hex_value_char by done. cbn -[Z.mul Z.add].
    rewrite IH. cbn -[Z.mul Z.add]. by rewrite H3, byte_of_Z_of_byte.
  - induction b as [|x b IH]; [done|]. rewrite bind_cons, length_app, IH. cbn. lia.
  - intros c (x & Hc & _)%list_elem_of_bind. destruct (nibbles x) as (H1 & H2 & _).
    unfold toy_hex_byte in Hc. apply elem_of_cons in Hc as [->|Hc]; [|apply list_elem_of_singleton in Hc as ->];
      by apply toy_hex_char_in.
  - induction n as [|n IH]; [done|]. rewrite Nat.mul_succ_r, Nat.add_comm. cbn [Nat.add replicate].
    cbn -[toy_hex_value replicate Nat.mul]. by rewrite IH.
Qed.

Definition toy_order : DirOrder := {| dir_order l := l |}.
Lemma toy_order_ok : DirOrderOk toy_order.
Proof. by split. Qed.
