(* ===== verification/Core.v ===== *)
(** * tardus-core: keys, Schnorr signatures, blind Schnorr signatures

    Models [crates/tardus-core/src/{error,hash,group,signature,blind}.rs].
    Secret wiping ([Zeroize]) has no functional content and is left out. *)
From S2P Require Import Prelude Crypto ToyCurve.

Module CoreError.
Inductive t : Type := InvalidPoint | InvalidScalar | InvalidSignature.
#[global] Instance t_eq_dec : EqDecision t.
Proof. solve_decision. Defined.
End CoreError.

Section core.
Context `{C : Curve}.

(** ** hash.rs *)
Definition hash_to_scalar (input : bytes) : scalar := sc_from_wide (sha512 input).

Definition schnorr_challenge (r_compressed pk msg : bytes) : scalar :=
  hash_to_scalar (r_compressed ++ pk ++ msg).

(** ** group.rs *)
Definition basepoint : point := pt_base.

Record SecretKey : Type := { sk_scalar : scalar }.
Record PublicKey : Type := { pk_bytes : bytes }.
Record Keypair : Type := { kp_secret : SecretKey; kp_public : PublicKey }.

#[global] Instance PublicKey_eq_dec : EqDecision PublicKey.
Proof. solve_decision. Defined.

Definition SecretKey_random (r : rng) : SecretKey * rng :=
  let '(s, r) := sc_random r in ({| sk_scalar := s |}, r).

Definition SecretKey_from_bytes (b : bytes) : res CoreError.t SecretKey :=
  s ← ok_or CoreError.InvalidScalar (sc_from_canonical b);
  Ok {| sk_scalar := s |}.

Definition SecretKey_to_bytes (sk : SecretKey) : bytes := sc_to_bytes (sk_scalar sk).

Definition PublicKey_from_secret (sk : SecretKey) : PublicKey :=
  {| pk_bytes := pt_compress (sk_scalar sk ⋅ basepoint)%pt |}.

Definition PublicKey_from_bytes (b : bytes) : res CoreError.t PublicKey :=
  pt ← ok_or CoreError.InvalidPoint (pt_decompress b);
  if pt_torsion_free pt then Ok {| pk_bytes := b |} else Err CoreError.InvalidPoint.

Definition PublicKey_to_bytes (pk : PublicKey) : bytes := pk_bytes pk.

Definition PublicKey_point (pk : PublicKey) : res CoreError.t point :=
  ok_or CoreError.InvalidPoint (pt_decompress (pk_bytes pk)).

Definition Keypair_random (r : rng) : Keypair * rng :=
  let '(secret, r) := SecretKey_random r in
  ({| kp_secret := secret; kp_public := PublicKey_from_secret secret |}, r).

(** ** signature.rs *)
Record Signature : Type := { sig_r : bytes; sig_s : bytes }.

#[global] Instance Signature_eq_dec : EqDecision Signature.
Proof. solve_decision. Defined.

Definition Signature_to_bytes (sig : Signature) : bytes := sig_r sig ++ sig_s sig.

Definition Signature_from_bytes (b : bytes) : Signature :=
  {| sig_r := take 32 b; sig_s := drop 32 b |}.

Definition schnorr_sign (sk : SecretKey) (pk : PublicKey) (msg : bytes) (r : rng)
    : Signature * rng :=
  let '(k, r) := sc_random r in
  let r_pt := (k ⋅ basepoint)%pt in
  let r_bytes := pt_compress r_pt in
  let c := schnorr_challenge r_bytes (PublicKey_to_bytes pk) msg in
  let s := (k + c * sk_scalar sk)%sc in
  ({| sig_r := r_bytes; sig_s := sc_to_bytes s |}, r).

Definition schnorr_verify (pk : PublicKey) (msg : bytes) (sig : Signature)
    : res CoreError.t bool :=
  pk_pt ← PublicKey_point pk;
  r_pt ← ok_or CoreError.InvalidPoint (pt_decompress (sig_r sig));
  s ← ok_or CoreError.InvalidScalar (sc_from_canonical (sig_s sig));
  let c := schnorr_challenge (sig_r sig) (PublicKey_to_bytes pk) msg in
  let lhs := (s ⋅ basepoint)%pt in
  let rhs := (r_pt + c ⋅ pk_pt)%pt in
  Ok (bool_decide (lhs = rhs)).

(** ** blind.rs *)
Record BlindCommit : Type := { bc_r : bytes }.
Record SignerState : Type := { ss_k : scalar }.
Record BlindChallenge : Type := { bch_c : bytes }.
Record UserState : Type := { us_alpha : scalar; us_beta : scalar; us_r_prime : bytes }.
Record BlindResponse : Type := { br_s : bytes }.

Definition issue_round1 (r : rng) : BlindCommit * SignerState * rng :=
  let '(k, r) := sc_random r in
  let r_bytes := pt_compress (k ⋅ basepoint)%pt in
  ({| bc_r := r_bytes |}, {| ss_k := k |}, r).

Definition blind_request (commit : BlindCommit) (pk : PublicKey) (msg : bytes) (r : rng)
    : res CoreError.t (BlindChallenge * UserState * rng) :=
  r_pt ← ok_or CoreError.InvalidPoint (pt_decompress (bc_r commit));
  pk_pt ← PublicKey_point pk;
  let '(alpha, r) := sc_random r in
  let '(beta, r) := sc_random r in
  let r_prime_pt := (r_pt + alpha ⋅ basepoint + beta ⋅ pk_pt)%pt in
  let r_prime_bytes := pt_compress r_prime_pt in
  let c_prime := schnorr_challenge r_prime_bytes (PublicKey_to_bytes pk) msg in
  let c := (c_prime + beta)%sc in
  Ok ({| bch_c := sc_to_bytes c |},
      {| us_alpha := alpha; us_beta := beta; us_r_prime := r_prime_bytes |}, r).

Definition issue_round2 (state : SignerState) (challenge : BlindChallenge) (sk : SecretKey)
    : res CoreError.t BlindResponse :=
  c ← ok_or CoreError.InvalidScalar (sc_from_canonical (bch_c challenge));
  let s := (ss_k state + c * sk_scalar sk)%sc in
  Ok {| br_s := sc_to_bytes s |}.

Definition unblind (state : UserState) (response : BlindResponse)
    : res CoreError.t Signature :=
  s ← ok_or CoreError.InvalidScalar (sc_from_canonical (br_s response));
  let s_prime := (s + us_alpha state)%sc in
  Ok {| sig_r := us_r_prime state; sig_s := sc_to_bytes s_prime |}.
End core.

(** ** Lemmas *)
Section core_lemmas.
Context `{CO : CurveOk}.
Add Field core_field : sc_field.

(** A public key that passed [from_bytes] or was derived from a secret. *)
Definition valid_pk (pk : PublicKey) (P : point) : Prop :=
  pt_decompress (pk_bytes pk) = Some P /\ pt_torsion_free P = true.

Lemma PublicKey_from_secret_valid sk :
  valid_pk (PublicKey_from_secret sk) (sk_scalar sk ⋅ pt_base)%pt.
Proof. split; [apply pt_decompress_compress|auto with tardus]. Qed.

Lemma PublicKey_from_bytes_compress P : pt_torsion_free P = true ->
  PublicKey_from_bytes (pt_compress P) = Ok {| pk_bytes := pt_compress P |}.
Proof. intros H. unfold PublicKey_from_bytes. rewrite pt_decompress_compress. cbn. by rewrite H. Qed.

Lemma PublicKey_from_bytes_valid b pk :
  PublicKey_from_bytes b = Ok pk -> pk_bytes pk = b /\ exists P, valid_pk pk P.
Proof.
  unfold PublicKey_from_bytes. intros H. inv_ok.
  destruct (pt_torsion_free r) eqn:Ht; inv_ok; subst. split; [done|]. by exists r.
Qed.

Lemma SecretKey_roundtrip sk : SecretKey_from_bytes (SecretKey_to_bytes sk) = Ok sk.
Proof.
  unfold SecretKey_from_bytes, SecretKey_to_bytes. rewrite sc_canonical_to_bytes.
  by destruct sk.
Qed.

(** What acceptance by [schnorr_verify] means. *)
Lemma schnorr_verify_spec pk P msg sig :
  pt_decompress (pk_bytes pk) = Some P ->
  schnorr_verify pk msg sig = Ok true <->
  exists R s, pt_decompress (sig_r sig) = Some R /\ sc_from_canonical (sig_s sig) = Some s /\
    (s ⋅ pt_base = R + schnorr_challenge (sig_r sig) (pk_bytes pk) msg ⋅ P)%pt.
Proof.
  intros HP. unfold schnorr_verify, PublicKey_point. rewrite HP. cbn.
  destruct (pt_decompress (sig_r sig)) as [R|]; cbn; [|naive_solver].
  destruct (sc_from_canonical (sig_s sig)) as [s|]; cbn; [|naive_solver].
  split.
  - intros [= H%bool_decide_eq_true]. eauto.
  - intros (R' & s' & [= <-] & [= <-] & H). f_equal. by apply bool_decide_eq_true.
Qed.

(** The signing equation, in the group. *)
Lemma response_equation k c x :
  ((k + c * x)%sc ⋅ pt_base = k ⋅ pt_base + c ⋅ (x ⋅ pt_base))%pt.
Proof. rewrite pt_mul_add, pt_mul_mul by auto with tardus. done. Qed.

(** Unblinding turns a response to the blinded challenge into a signature. *)
Lemma unblind_equation R s c' beta alpha P :
  pt_torsion_free P = true ->
  (s ⋅ pt_base = R + (c' + beta)%sc ⋅ P)%pt ->
  ((s + alpha)%sc ⋅ pt_base = (R + alpha ⋅ pt_base + beta ⋅ P) + c' ⋅ P)%pt.
Proof.
  intros HP Hs. rewrite !pt_mul_add in * by auto with tardus.
  rewrite Hs. aac_reflexivity.
Qed.

(** [unblind] after an aggregated or single-signer response that satisfies
    the verification equation for the blinded challenge. *)
Lemma response_unblinds_iff R s c' beta alpha P : pt_torsion_free P = true ->
  ((s + alpha)%sc ⋅ pt_base = (R + alpha ⋅ pt_base + beta ⋅ P) + c' ⋅ P)%pt <->
  (s ⋅ pt_base = R + (c' + beta)%sc ⋅ P)%pt.
Proof.
  intros HP. split; [|by apply unblind_equation].
  rewrite !pt_mul_add by auto with tardus. intros H.
  apply (pt_add_cancel_l (alpha ⋅ pt_base)%pt).
  rewrite (pt_add_comm _ (s ⋅ pt_base)%pt), H. aac_reflexivity.
Qed.

Lemma schnorr_verify_bool pk P msg sig R s : pt_decompress (pk_bytes pk) = Some P ->
  pt_decompress (sig_r sig) = Some R -> sc_from_canonical (sig_s sig) = Some s ->
  schnorr_verify pk msg sig =
    Ok (bool_decide (s ⋅ pt_base = R + schnorr_challenge (sig_r sig) (pk_bytes pk) msg ⋅ P)%pt).
Proof. intros HP HR Hs. unfold schnorr_verify, PublicKey_point. by rewrite HP, HR, Hs. Qed.

Lemma unblind_verifies commit pk P R msg r ch us r' resp s c :
  valid_pk pk P -> pt_decompress (bc_r commit) = Some R ->
  blind_request commit pk msg r = Ok (ch, us, r') ->
  sc_from_canonical (bch_c ch) = Some c ->
  sc_from_canonical (br_s resp) = Some s ->
  (s ⋅ pt_base = R + c ⋅ P)%pt ->
  exists sig, unblind us resp = Ok sig /\ schnorr_verify pk msg sig = Ok true.
Proof.
  intros [HP HtP] HR Hb Hc Hs Heq.
  unfold blind_request, PublicKey_point in Hb. rewrite HP, HR in Hb. cbn in Hb.
  destruct (sc_random r) as [alpha r1]. destruct (sc_random r1) as [beta r2].
  injection Hb as <- <- <-. cbn in Hc. rewrite sc_canonical_to_bytes in Hc.
  injection Hc as <-. unfold unblind. rewrite Hs. cbn. eexists; split; [done|].
  apply (schnorr_verify_spec _ P); [done|]. cbn.
  rewrite pt_decompress_compress, sc_canonical_to_bytes. do 2 eexists. split_and!; [done..|].
  by apply unblind_equation.
Qed.

Lemma issue_round1_spec r : exists k r', sc_random r = (k, r') /\
  issue_round1 r = ({| bc_r := pt_compress (k ⋅ pt_base)%pt |}, {| ss_k := k |}, r').
Proof. unfold issue_round1. destruct (sc_random r) as [k r']. eauto. Qed.

Lemma blind_request_ok commit pk P R msg r :
  pt_decompress (pk_bytes pk) = Some P -> pt_decompress (bc_r commit) = Some R ->
  exists ch us r' c, blind_request commit pk msg r = Ok (ch, us, r') /\
    sc_from_canonical (bch_c ch) = Some c.
Proof.
  intros HP HR. unfold blind_request, PublicKey_point. rewrite HP, HR. cbn.
  destruct (sc_random r) as [a r1], (sc_random r1) as [b r2].
  repeat eexists. cbn. apply sc_canonical_to_bytes.
Qed.

Lemma schnorr_verify_no_panic pk msg sig : schnorr_verify pk msg sig <> Panic.
Proof. unfold schnorr_verify, PublicKey_point. intros H. by inv_panic. Qed.

Lemma PublicKey_from_bytes_no_panic b : PublicKey_from_bytes b <> Panic.
Proof. unfold PublicKey_from_bytes. intros H. inv_panic. by destruct (pt_torsion_free _). Qed.

(** Signing and verifying agree. *)
Lemma schnorr_sign_ok sk msg r :
  schnorr_verify (PublicKey_from_secret sk) msg
    (schnorr_sign sk (PublicKey_from_secret sk) msg r).1 = Ok true.
Proof.
  destruct (PublicKey_from_secret_valid sk) as [HP Ht].
  unfold schnorr_sign. destruct (sc_random r) as [k r']. cbn [fst].
  eapply schnorr_verify_spec; [done|]. cbn.
  rewrite pt_decompress_compress, sc_canonical_to_bytes.
  do 2 eexists. split_and!; [done..|]. apply response_equation.
Qed.

(** The 64-byte wire encoding of a signature loses nothing. *)
Lemma Signature_from_to_bytes sig : length (sig_r sig) = 32%nat ->
  Signature_from_bytes (Signature_to_bytes sig) = sig.
Proof.
  intros Hr. unfold Signature_from_bytes, Signature_to_bytes.
  rewrite take_app_length', drop_app_length' by done. by destruct sig.
Qed.

Lemma Signature_to_from_bytes b : Signature_to_bytes (Signature_from_bytes b) = b.
Proof. apply take_drop. Qed.
End core_lemmas.

(** ** Properties *)
Section core_properties.
Context `{CO : CurveOk}.
Add Field core_field2 : sc_field.

(** An honest Schnorr signature verifies under the derived public key,
    for every key, message and generator state, and still does after a trip
    through its 64-byte encoding. *)
Theorem schnorr_sign_verifies sk msg r :
  let sig := (schnorr_sign sk (PublicKey_from_secret sk) msg r).1 in
  length (Signature_to_bytes sig) = 64%nat /\
  schnorr_verify (PublicKey_from_secret sk) msg
    (Signature_from_bytes (Signature_to_bytes sig)) = Ok true.
Proof.
  intros sig. assert (length (sig_r sig) = 32%nat /\ length (sig_s sig) = 32%nat) as [Hr Hs].
  { unfold sig, schnorr_sign. destruct (sc_random r). cbn. auto with tardus. }
  split; [unfold Signature_to_bytes; rewrite length_app; lia|].
  rewrite Signature_from_to_bytes by done. apply schnorr_sign_ok.
Qed.

(** The four rounds of blind issuance never fail for an honest signer and
    user and end in a signature that verifies under the signer's key on the
    message only the user knows. *)
Theorem blind_issue_correct sk msg r_signer r_user :
  let pk := PublicKey_from_secret sk in
  let '(commit, signer, _) := issue_round1 r_signer in
  exists challenge user r' response sig,
    blind_request commit pk msg r_user = Ok (challenge, user, r') /\
    issue_round2 signer challenge sk = Ok response /\
    unblind user response = Ok sig /\
    schnorr_verify pk msg sig = Ok true.
Proof.
  intros pk. pose proof (PublicKey_from_secret_valid sk) as Hpk. fold pk in Hpk.
  destruct (issue_round1_spec r_signer) as (k & r1 & _ & ->).
  set (commit := {| bc_r := _ |}).
  assert (pt_decompress (bc_r commit) = Some (k ⋅ pt_base)%pt) as HR
    by apply pt_decompress_compress.
  destruct (blind_request_ok commit pk _ _ msg r_user (proj1 Hpk) HR)
    as (ch & us & r' & c & Hb & Hc).
  exists ch, us, r', {| br_s := sc_to_bytes (k + c * sk_scalar sk)%sc |}.
  destruct (unblind_verifies commit pk _ _ msg r_user ch us r'
    {| br_s := sc_to_bytes (k + c * sk_scalar sk)%sc |} (k + c * sk_scalar sk)%sc c
    Hpk HR Hb Hc (sc_canonical_to_bytes _)) as (sig & Hu & Hv).
  { apply response_equation. }
  exists sig. split_and!; [done| |done..].
  unfold issue_round2. by rewrite Hc.
Qed.

(** C22: blindness. Take any signer transcript (commitment, challenge [c],
    response [s]) and any valid signature on any message under the same key:
    exactly one pair of blinding factors links them, so with uniform factors
    every transcript is equally likely to have produced every signature. *)
Theorem blind_issue_unlinkable pk P commit R c s msg sig s' R' alpha beta r r1 r2 :
  valid_pk pk P -> pt_decompress (bc_r commit) = Some R ->
  (s ⋅ pt_base = R + c ⋅ P)%pt ->
  schnorr_verify pk msg sig = Ok true ->
  sig_r sig = pt_compress R' -> sc_from_canonical (sig_s sig) = Some s' ->
  sc_random r = (alpha, r1) -> sc_random r1 = (beta, r2) ->
  (exists us, blind_request commit pk msg r = Ok ({| bch_c := sc_to_bytes c |}, us, r2) /\
              unblind us {| br_s := sc_to_bytes s |} = Ok sig) <->
  alpha = (s' - s)%sc /\
  beta = (c - schnorr_challenge (sig_r sig) (pk_bytes pk) msg)%sc.
Proof.
  intros [HP Ht] HR Hs Hv HR' Hs' Hr1 Hr2.
  apply (schnorr_verify_spec _ P) in Hv as (R0 & s0 & HR0 & Hs0 & Hv); [|done].
  rewrite HR', pt_decompress_compress in HR0. injection HR0 as <-.
  rewrite Hs' in Hs0. injection Hs0 as <-.
  unfold blind_request, PublicKey_point, unblind. rewrite HP, HR. cbn.
  rewrite Hr1, Hr2. cbn. rewrite sc_canonical_to_bytes. cbn. unfold PublicKey_to_bytes.
  set (Rp := (R + alpha ⋅ basepoint + beta ⋅ P)%pt). split.
  - intros (us & [= Hc <-] & [= <-]). cbn in *. apply sc_to_bytes_inj in Hc.
    rewrite sc_canonical_to_bytes in Hs'. injection Hs' as <-. rewrite <- Hc. split; ring.
  - intros [Ha Hb]. apply sc_canonical_unique in Hs'.
    assert (Rp = R') as HRp.
    { apply (pt_add_cancel_l (schnorr_challenge (sig_r sig) (pk_bytes pk) msg ⋅ P)%pt).
      rewrite (pt_add_comm _ R'), <- Hv. unfold Rp.
      replace s' with (s + alpha)%sc by (rewrite Ha; ring).
      rewrite (unblind_equation R s (schnorr_challenge (sig_r sig) (pk_bytes pk) msg) beta _ P);
        [unfold basepoint; aac_reflexivity|done|].
      rewrite Hs. f_equal. f_equal. rewrite Hb. ring. }
    rewrite HRp, <- HR'. eexists. split; [|].
    + repeat f_equal. rewrite Hb. ring.
    + cbn. f_equal. destruct sig as [sr ss]. cbn in *. f_equal.
      rewrite Hs', Ha. f_equal. ring.
Qed.

(** Nonce reuse is fatal. Two responses a signer gives for the same
    commitment and different challenges determine its secret key. *)
Theorem nonce_reuse_extracts_key signer sk ch1 ch2 c1 c2 resp1 resp2 :
  issue_round2 signer ch1 sk = Ok resp1 -> issue_round2 signer ch2 sk = Ok resp2 ->
  sc_from_canonical (bch_c ch1) = Some c1 -> sc_from_canonical (bch_c ch2) = Some c2 ->
  c1 <> c2 ->
  exists s1 s2, sc_from_canonical (br_s resp1) = Some s1 /\
    sc_from_canonical (br_s resp2) = Some s2 /\
    sk_scalar sk = sc_div (s1 - s2)%sc (c1 - c2)%sc.
Proof.
  intros H1 H2 Hc1 Hc2 Hne. unfold issue_round2 in *. rewrite Hc1 in H1. rewrite Hc2 in H2.
  cbn in *. injection H1 as <-. injection H2 as <-. cbn. rewrite !sc_canonical_to_bytes.
  do 2 eexists. split_and!; [done..|]. field.
  intros H. apply Hne. replace c1 with (c1 - c2 + c2)%sc by ring. rewrite H. ring.
Qed.

End core_properties.

(** ** Witnesses *)
#[local] Existing Instance toy.
#[local] Existing Instance toy_ok.

Definition demo_sk : SecretKey := {| sk_scalar := sc_of_u64 31337 |}.
(** A generator state of the instance. *)
Definition demo_rng (n : Z) : rng := n.
Definition demo_msg : bytes := ascii "coin".

Lemma schnorr_sign_verifies_witness :
  let sig := (schnorr_sign demo_sk (PublicKey_from_secret demo_sk) demo_msg (demo_rng 7)).1 in
  length (Signature_to_bytes sig) = 64%nat /\
  schnorr_verify (PublicKey_from_secret demo_sk) demo_msg
    (Signature_from_bytes (Signature_to_bytes sig)) = Ok true.
Proof. exact (schnorr_sign_verifies demo_sk demo_msg (demo_rng 7)). Defined.

Lemma blind_issue_correct_witness :
  let pk := PublicKey_from_secret demo_sk in
  let '(commit, signer, _) := issue_round1 (demo_rng 7) in
  exists challenge user r' response sig,
    blind_request commit pk demo_msg (demo_rng 8) = Ok (challenge, user, r') /\
    issue_round2 signer challenge demo_sk = Ok response /\
    unblind user response = Ok sig /\
    schnorr_verify pk demo_msg sig = Ok true.
Proof. exact (blind_issue_correct demo_sk demo_msg (demo_rng 7) (demo_rng 8)). Defined.

(** One blind issuance run in full: signer nonce from state 7, user factors
    from state 9. *)
Definition demo_commit : BlindCommit := (issue_round1 (demo_rng 7)).1.1.
Definition demo_signer : SignerState := (issue_round1 (demo_rng 7)).1.2.
Definition demo_pk : PublicKey := PublicKey_from_secret demo_sk.
Definition demo_request : option (BlindChallenge * UserState * rng) :=
  match blind_request demo_commit demo_pk demo_msg (demo_rng 9) with Ok x => Some x | _ => None end.
Definition demo_user : UserState :=
  default {| us_alpha := sc_zero; us_beta := sc_zero; us_r_prime := [] |}
    ((λ x, x.1.2) <$> demo_request).
Definition demo_c : scalar :=
  default sc_zero (x ← demo_request; sc_from_canonical (bch_c x.1.1)).
Definition demo_s : scalar := (ss_k demo_signer + demo_c * sk_scalar demo_sk)%sc.
Definition demo_sig : Signature :=
  default {| sig_r := []; sig_s := [] |}
    (match unblind demo_user {| br_s := sc_to_bytes demo_s |} with Ok g => Some g | _ => None end).

Lemma blind_issue_unlinkable_witness :
  exists s' : scalar, sc_from_canonical (sig_s demo_sig) = Some s' /\
  (sc_random (demo_rng 9)).1 = (s' - demo_s)%sc /\
  (sc_random (sc_random (demo_rng 9)).2).1 =
    (demo_c - schnorr_challenge (sig_r demo_sig) (pk_bytes demo_pk) demo_msg)%sc.
Proof.
  eexists. split; [vm_compute; reflexivity|].
  apply (blind_issue_unlinkable demo_pk (sk_scalar demo_sk ⋅ pt_base)%pt demo_commit
    (ss_k demo_signer ⋅ pt_base)%pt demo_c demo_s demo_msg demo_sig _
    (default pt_id (pt_decompress (sig_r demo_sig))) _ _ (demo_rng 9)
    (sc_random (demo_rng 9)).2 (sc_random (sc_random (demo_rng 9)).2).2).
  - exact (PublicKey_from_secret_valid demo_sk).
  - vm_refl.
  - apply response_equation.
  - vm_refl.
  - vm_refl.
  - vm_refl.
  - vm_refl.
  - vm_refl.
  - exists demo_user. split; vm_refl.
Defined.

Definition demo_response (n : Z) : BlindResponse :=
  {| br_s := sc_to_bytes (ss_k demo_signer + sc_of_u64 n * sk_scalar demo_sk)%sc |}.

Lemma nonce_reuse_extracts_key_witness :
  exists s1 s2,
    sc_from_canonical (br_s (demo_response 3)) = Some s1 /\
    sc_from_canonical (br_s (demo_response 4)) = Some s2 /\
    sk_scalar demo_sk = sc_div (s1 - s2)%sc (sc_of_u64 3 - sc_of_u64 4)%sc.
Proof.
  apply (nonce_reuse_extracts_key demo_signer demo_sk
    {| bch_c := sc_to_bytes (sc_of_u64 3) |} {| bch_c := sc_to_bytes (sc_of_u64 4) |}).
  - vm_refl.
  - vm_refl.
  - vm_refl.
  - vm_refl.
  - intros H%sc_of_u64_inj; [discriminate| |]; unfold u16, in_width; lia.
Defined.
