(* ===== verification/Poly.v ===== *)
(** * Polynomials over the scalar field and Lagrange interpolation

    The mathematics behind [vss.rs] and [lagrange_coefficient_at_zero]: a
    polynomial with at most [n] coefficients that vanishes at [n] distinct
    points is zero, hence interpolation at zero recovers the constant
    coefficient from any [n] distinct evaluation points. *)
From S2P Require Import Prelude Crypto.

Section poly.
Context `{CO : CurveOk}.
Add Field poly_field : sc_field.
#[local] Open Scope sc_scope.

(** Coefficients are listed from the constant term up, as in [f_coeffs]. *)
Fixpoint peval (cs : list scalar) (x : scalar) : scalar :=
  match cs with
  | [] => 0
  | c :: cs => peval cs x * x + c
  end.

Definition sc_prod (l : list scalar) : scalar := foldr sc_mul 1 l.

Lemma sc_prod_nil : sc_prod [] = 1.
Proof. done. Qed.

Lemma sc_prod_cons a l : sc_prod (a :: l) = a * sc_prod l.
Proof. done. Qed.

Lemma sc_mul_0 a b : a * b = 0 -> a = 0 \/ b = 0.
Proof.
  intros H. destruct (decide (a = 0)) as [|Ha]; [by left|right].
  replace b with (sc_inv a * (a * b)) by (field; done). rewrite H. ring.
Qed.

Lemma sc_sub_0 a b : a - b = 0 -> a = b.
Proof. intros H. replace a with (a - b + b) by ring. rewrite H. ring. Qed.

Lemma sc_one_neq_0 : 1 <> 0.
Proof. exact (F_1_neq_0 sc_field). Qed.

Lemma sc_prod_neq_0 l : (forall x, x ∈ l -> x <> 0) -> sc_prod l <> 0.
Proof.
  induction l as [|a l IH]; intros Hl; [apply sc_one_neq_0|].
  rewrite sc_prod_cons. intros [H|H]%sc_mul_0.
  - apply (Hl a); [set_solver|done].
  - apply IH; [|done]. intros x Hx. apply Hl. set_solver.
Qed.

Lemma sc_prod_zero l x : x ∈ l -> x = 0 -> sc_prod l = 0.
Proof.
  intros Hx H0. induction Hx as [l|a b l _ IH]; rewrite sc_prod_cons.
  - rewrite H0. ring.
  - rewrite (IH H0). ring.
Qed.

(** ** Polynomial functions with at most [n] coefficients *)
Definition is_poly (n : nat) (f : scalar -> scalar) : Prop :=
  exists cs, (length cs <= n)%nat /\ forall x, f x = peval cs x.

Lemma peval_0 cs : peval cs 0 = default 0 (head cs).
Proof. destruct cs; cbn; [done|ring]. Qed.

Lemma is_poly_ext n f g : (forall x, f x = g x) -> is_poly n f -> is_poly n g.
Proof. intros H (cs & Hn & Hcs). exists cs. split; [done|]. intros x. by rewrite <- H. Qed.

Lemma is_poly_mono n m f : (n <= m)%nat -> is_poly n f -> is_poly m f.
Proof. intros H (cs & Hn & Hcs). exists cs. split; [lia|done]. Qed.

Lemma is_poly_const c n : is_poly (S n) (λ _, c).
Proof. exists [c]. split; [cbn; lia|]. intros x. cbn. ring. Qed.

Lemma peval_scale c cs x : peval ((λ a, c * a) <$> cs) x = c * peval cs x.
Proof. induction cs as [|a cs IH]; cbn; [ring|]. setoid_rewrite IH. ring. Qed.

Lemma is_poly_scale n c f : is_poly n f -> is_poly n (λ x, c * f x).
Proof.
  intros (cs & Hn & Hcs). exists ((λ a, c * a) <$> cs).
  split; [by rewrite length_fmap|]. intros x. by rewrite peval_scale, Hcs.
Qed.

Fixpoint padd (a b : list scalar) : list scalar :=
  match a, b with
  | [], b => b
  | a, [] => a
  | x :: a, y :: b => (x + y) :: padd a b
  end.

Lemma peval_padd a b x : peval (padd a b) x = peval a x + peval b x.
Proof.
  revert b; induction a as [|c a IH]; intros [|d b]; cbn; try ring.
  rewrite IH. ring.
Qed.

Lemma length_padd a b : length (padd a b) = Nat.max (length a) (length b).
Proof. revert b; induction a as [|c a IH]; intros [|d b]; cbn; auto. Qed.

Lemma is_poly_add n f g : is_poly n f -> is_poly n g -> is_poly n (λ x, f x + g x).
Proof.
  intros (a & Hna & Ha) (b & Hnb & Hb). exists (padd a b).
  split; [rewrite length_padd; lia|]. intros x. by rewrite peval_padd, Ha, Hb.
Qed.

Lemma is_poly_mul_x n f : is_poly n f -> is_poly (S n) (λ x, f x * x).
Proof.
  intros (cs & Hn & Hcs). exists (0 :: cs). split; [cbn; lia|].
  intros x. cbn. rewrite Hcs. ring.
Qed.

Lemma is_poly_mul_linear n f a : is_poly n f -> is_poly (S n) (λ x, (x - a) * f x).
Proof.
  intros Hf. apply (is_poly_ext _ (λ x, f x * x + (- a) * f x)); [intros; ring|].
  apply is_poly_add; [by apply is_poly_mul_x|].
  apply is_poly_scale. apply (is_poly_mono n); [lia|done].
Qed.

Lemma is_poly_sum {A} n (g : A -> scalar -> scalar) (l : list A) :
  (forall a, a ∈ l -> is_poly n (g a)) ->
  is_poly n (λ z, sc_sum ((λ a, g a z) <$> l)).
Proof.
  induction l as [|a l IH]; intros Hg.
  - exists []. split; [cbn; lia|done].
  - apply (is_poly_ext _ (λ z, g a z + sc_sum ((λ a, g a z) <$> l))); [done|].
    apply is_poly_add; [apply Hg|apply IH]; set_solver.
Qed.

(** ** Roots *)

(** Synthetic division by [z - a]. *)
Lemma peval_divide cs a : exists qs, (length qs <= pred (length cs))%nat /\
  forall z, peval cs z = peval cs a + (z - a) * peval qs z.
Proof.
  induction cs as [|c cs (qs & Hl & IH)].
  { exists []. split; [done|]. intros z. cbn. ring. }
  destruct cs as [|c' cs'].
  { exists []. split; [cbn; lia|]. intros z. cbn. ring. }
  exists (peval (c' :: cs') a :: qs). split; [cbn in *; lia|].
  intros z. cbn [peval] in *. rewrite (IH z). ring.
Qed.

Lemma peval_roots cs l : NoDup l -> (length cs <= length l)%nat ->
  (forall x, x ∈ l -> peval cs x = 0) -> forall z, peval cs z = 0.
Proof.
  revert cs; induction l as [|a l IH]; intros cs Hnd Hlen Hroots z.
  { destruct cs; [done|cbn in Hlen; lia]. }
  destruct (peval_divide cs a) as (qs & Hqs & Hdiv).
  apply NoDup_cons in Hnd as [Ha Hnd].
  rewrite Hdiv, (Hroots a) by set_solver.
  rewrite (IH qs); [ring|done|cbn in Hlen; lia|].
  intros x Hx. assert (Hpx := Hroots x ltac:(set_solver)).
  rewrite Hdiv, (Hroots a) in Hpx by set_solver.
  assert ((x - a) * peval qs x = 0) as [H|H]%sc_mul_0.
  { rewrite <- Hpx. ring. }
  - apply sc_sub_0 in H as ->. done.
  - done.
Qed.

(** ** Lagrange interpolation *)
Definition others (l : list scalar) (x : scalar) : list scalar := filter (λ y, y <> x) l.

Definition lagrange_basis (l : list scalar) (x z : scalar) : scalar :=
  sc_prod ((λ y, z - y) <$> others l x) * sc_inv (sc_prod ((λ y, x - y) <$> others l x)).

Lemma length_others l x : NoDup l -> x ∈ l -> S (length (others l x)) = length l.
Proof. apply length_filter_ne. Qed.

Lemma others_denominator l x : sc_prod ((λ y, x - y) <$> others l x) <> 0.
Proof.
  apply sc_prod_neq_0. intros y (z & -> & Hz)%list_elem_of_fmap.
  apply list_elem_of_filter in Hz as [Hne _]. intros H. by apply Hne, symmetry, sc_sub_0.
Qed.

Lemma is_poly_prod (l : list scalar) : is_poly (S (length l)) (λ z, sc_prod ((λ y, z - y) <$> l)).
Proof.
  induction l as [|a l IH]; [exact (is_poly_const 1 0)|].
  exact (is_poly_mul_linear _ (λ z, sc_prod ((λ y, z - y) <$> l)) a IH).
Qed.

Lemma lagrange_basis_poly l x : NoDup l -> x ∈ l ->
  is_poly (length l) (lagrange_basis l x).
Proof.
  intros Hnd Hx. rewrite <- (length_others l x) by done.
  apply (is_poly_ext _ (λ z, sc_inv (sc_prod ((λ y, x - y) <$> others l x)) *
    sc_prod ((λ y, z - y) <$> others l x))); [intros; unfold lagrange_basis; ring|].
  apply is_poly_scale, is_poly_prod.
Qed.

Lemma lagrange_basis_same l x : lagrange_basis l x x = 1.
Proof. unfold lagrange_basis. field. apply others_denominator. Qed.

Lemma lagrange_basis_other l x y : y ∈ l -> y <> x -> lagrange_basis l x y = 0.
Proof.
  intros Hy Hne. unfold lagrange_basis.
  rewrite (sc_prod_zero _ (y - y)); [ring| |ring].
  apply list_elem_of_fmap. exists y. split; [done|]. by apply list_elem_of_filter.
Qed.

Lemma sc_sum_single {A} (g : A -> scalar) (l : list A) a : NoDup l -> a ∈ l ->
  (forall x, x ∈ l -> x <> a -> g x = 0) -> sc_sum (g <$> l) = g a.
Proof.
  intros Hnd Ha Hg. apply elem_of_Permutation in Ha as [l' Hl].
  rewrite Hl in Hnd. apply NoDup_cons in Hnd as [Ha Hnd].
  rewrite (sc_sum_perm _ (g <$> (a :: l'))) by (by rewrite Hl).
  rewrite fmap_cons, sc_sum_cons, sc_sum_zero; [ring|].
  intros x Hx. apply Hg; [rewrite Hl; set_solver|]. by intros ->.
Qed.

(** Interpolation of a polynomial with at most [length l] coefficients is the
    polynomial itself, everywhere. *)
Lemma lagrange_interpolation cs l z : NoDup l -> (length cs <= length l)%nat ->
  sc_sum ((λ x, lagrange_basis l x z * peval cs x) <$> l) = peval cs z.
Proof.
  intros Hnd Hlen.
  set (g := λ z, sc_sum ((λ x, lagrange_basis l x z * peval cs x) <$> l) + (- (1)) * peval cs z).
  assert (is_poly (length l) g) as (ds & Hds & Hg).
  { apply is_poly_add.
    - apply (is_poly_sum _ (λ x z, lagrange_basis l x z * peval cs x)). intros x Hx.
      apply (is_poly_ext _ (λ z, peval cs x * lagrange_basis l x z)); [intros; ring|].
      by apply is_poly_scale, lagrange_basis_poly.
    - apply is_poly_scale. by exists cs. }
  assert (g z = 0) as Hz.
  { rewrite Hg. apply (peval_roots ds l Hnd Hds). intros a Ha. rewrite <- Hg. unfold g.
    rewrite (sc_sum_single _ l a Hnd Ha).
    - rewrite lagrange_basis_same. ring.
    - intros x Hx Hne. rewrite lagrange_basis_other by done. ring. }
  apply sc_sub_0. rewrite <- Hz. unfold g. ring.
Qed.
End poly.
