(* ===== verification/Wire.v ===== *)
(** * Byte readers and the Borsh format

    [reader A] is [R: borsh::io::Read] together with a result: it consumes a
    prefix of the input or fails.  The integer, array, vector, set and option
    encodings are those of the public Borsh specification (little-endian
    integers, [u32] lengths, one-byte tags, sets in ascending order), which
    [tardus-validator/src/api.rs] also decodes by hand. *)
From S2P Require Import Prelude.

Definition reader (A : Type) : Type := bytes -> option (A * bytes).

#[global] Instance reader_ret : MRet reader := fun A a inp => Some (a, inp).
#[global] Instance reader_bind : MBind reader := fun A B f r inp =>
  match r inp with Some (a, inp') => f a inp' | None => None end.

(** [ok_or_else(|| borsh::io::Error::new(..))?] *)
Definition rlift {A} (o : option A) : reader A := fun inp => (λ a, (a, inp)) <$> o.

(** [reader.read_exact(&mut [0u8; n])] *)
Definition read_exact (n : nat) : reader bytes := fun inp =>
  if decide (n <= length inp)%nat then Some (take n inp, drop n inp) else None.

Definition read_uint (n : nat) : reader Z := bs ← read_exact n; mret (le_Z bs).
Definition read_u8 : reader Z := read_uint 1.
Definition read_u16 : reader Z := read_uint 2.
Definition read_u32 : reader Z := read_uint 4.
Definition read_u64 : reader Z := read_uint 8.

(** [for _ in 0..n { v.push(r?) }] *)
Fixpoint read_n {A} (r : reader A) (n : nat) : reader (list A) :=
  match n with
  | O => mret []
  | S n => a ← r; l ← read_n r n; mret (a :: l)
  end.

(** [Vec<T>]: a [u32] length and the elements. *)
Definition borsh_vec {A} (enc : A -> bytes) (l : list A) : bytes :=
  le_bytes 4 (Z.of_nat (length l)) ++ mjoin (enc <$> l).
Definition read_vec {A} (r : reader A) : reader (list A) :=
  n ← read_u32; read_n r (Z.to_nat n).

(** [Option<T>] *)
Definition borsh_option {A} (enc : A -> bytes) (o : option A) : bytes :=
  match o with None => le_bytes 1 0 | Some a => le_bytes 1 1 ++ enc a end.
Definition read_option {A} (r : reader A) : reader (option A) :=
  tag ← read_u8;
  if tag =? 0 then mret None
  else if tag =? 1 then a ← r; mret (Some a)
  else rlift None.

(** [Vec<u8>]: the bytes themselves after the length. *)
Definition borsh_bytes (b : bytes) : bytes := le_bytes 4 (Z.of_nat (length b)) ++ b.
Definition read_bytes : reader bytes := n ← read_u32; read_exact (Z.to_nat n).

(** [T::try_from_slice]: every byte must be consumed. *)
Definition try_from_slice {A} (r : reader A) (inp : bytes) : option A :=
  match r inp with Some (a, []) => Some a | _ => None end.

(** The order of byte arrays and strings. *)
Fixpoint bytes_leb (a b : bytes) : bool :=
  match a, b with
  | [], _ => true
  | _ :: _, [] => false
  | x :: a, y :: b =>
      (Z_of_byte x <? Z_of_byte y) || ((Z_of_byte x =? Z_of_byte y) && bytes_leb a b)
  end.

(** ** UTF-8, as [String::from_utf8] checks it *)
Definition between (lo hi : Z) (b : byte) : bool := (lo <=? Z_of_byte b) && (Z_of_byte b <=? hi).
Definition continuation (b : byte) : bool := between 128 191 b.

Fixpoint utf8_valid (s : bytes) : bool :=
  match s with
  | [] => true
  | a :: s1 =>
      if between 0 127 a then utf8_valid s1
      else
        match s1 with
        | b :: s2 =>
            if between 194 223 a then continuation b && utf8_valid s2
            else
              match s2 with
              | c :: s3 =>
                  if between 224 224 a then between 160 191 b && continuation c && utf8_valid s3
                  else if between 225 236 a || between 238 239 a
                       then continuation b && continuation c && utf8_valid s3
                  else if between 237 237 a then between 128 159 b && continuation c && utf8_valid s3
                  else
                    match s3 with
                    | d :: s4 =>
                        (between 240 240 a && between 144 191 b
                         || between 241 243 a && continuation b
                         || between 244 244 a && between 128 143 b)
                        && continuation c && continuation d && utf8_valid s4
                    | [] => false
                    end
              | [] => false
              end
        | [] => false
        end
  end.

Definition read_string : reader bytes :=
  b ← read_bytes; if utf8_valid b then mret b else rlift None.

Lemma utf8_valid_app s t : utf8_valid s = true -> utf8_valid t = true -> utf8_valid (s ++ t) = true.
Proof.
  intros Hs0 Ht. revert Hs0. cut (forall n s, (length s <= n)%nat -> utf8_valid s = true -> utf8_valid (s ++ t) = true).
  { intros H. by apply (H (length s)). }
  clear s. induction n as [|n IH]; intros s Hn Hs.
  { by destruct s; [|cbn in Hn; lia]. }
  destruct s as [|a s1]; [done|]. cbn in Hn. cbn [app utf8_valid] in *.
  destruct (between 0 127 a); [apply IH; [lia|done]|].
  destruct s1 as [|b s2]; [done|]. cbn in Hn. cbn [app].
  destruct (between 194 223 a).
  { apply andb_true_iff in Hs as [-> Hs]. apply IH; [lia|done]. }
  destruct s2 as [|d s3]; [done|]. cbn in Hn. cbn [app].
  destruct (between 224 224 a).
  { apply andb_true_iff in Hs as [-> Hs]. apply IH; [lia|done]. }
  destruct (between 225 236 a || between 238 239 a).
  { apply andb_true_iff in Hs as [-> Hs]. apply IH; [lia|done]. }
  destruct (between 237 237 a).
  { apply andb_true_iff in Hs as [-> Hs]. apply IH; [lia|done]. }
  destruct s3 as [|e s4]; [done|]. cbn in Hn. cbn [app].
  apply andb_true_iff in Hs as [-> Hs]. apply IH; [lia|done].
Qed.
Lemma utf8_valid_ascii s : (forall c, c ∈ s -> between 0 127 c = true) -> utf8_valid s = true.
Proof.
  induction s as [|c s IH]; intros H; [done|]. cbn [utf8_valid]. rewrite H by (by left). apply IH. intros; apply H; by right.
Qed.

(** ** Round trips, compositionally *)

(** [r] reads the encoding [enc] of [a] and leaves what follows. *)
Definition reads {A} (r : reader A) (enc : bytes) (a : A) : Prop :=
  forall rest, r (enc ++ rest) = Some (a, rest).

Lemma reads_ret {A} (a : A) : reads (mret a) [] a.
Proof. intros rest. done. Qed.

Lemma reads_bind {A B} (r : reader A) (f : A -> reader B) e1 e2 a b :
  reads r e1 a -> reads (f a) e2 b -> reads (r ≫= f) (e1 ++ e2) b.
Proof.
  intros H1 H2 rest. rewrite <- app_assoc.
  unfold mbind, reader_bind. rewrite H1. apply H2.
Qed.

Lemma reads_bind_last {A B} (r : reader A) (g : A -> B) e a :
  reads r e a -> reads (r ≫= λ x, mret (g x)) e (g a).
Proof. intros H rest. unfold mbind, reader_bind. by rewrite H. Qed.

Lemma reads_rlift {A B} (o : option A) a (f : A -> reader B) e b :
  o = Some a -> reads (f a) e b -> reads (rlift o ≫= f) e b.
Proof. intros -> H rest. apply H. Qed.

Lemma reads_exact n b : length b = n -> reads (read_exact n) b b.
Proof.
  intros <- rest. unfold read_exact. rewrite length_app, decide_True by lia.
  by rewrite take_app_length, drop_app_length.
Qed.

Lemma reads_uint n z : 0 <= z < 256 ^ Z.of_nat n -> reads (read_uint n) (le_bytes n z) z.
Proof.
  intros Hz rest. unfold read_uint, mbind, reader_bind.
  rewrite reads_exact by apply length_le_bytes. by rewrite le_Z_le_bytes_small.
Qed.

Lemma reads_u8 z : in_width 8 z -> reads read_u8 (le_bytes 1 z) z.
Proof. intros H. by apply reads_uint. Qed.
Lemma reads_u16 z : u16 z -> reads read_u16 (le_bytes 2 z) z.
Proof. intros H. by apply reads_uint. Qed.
Lemma reads_u32 z : in_width 32 z -> reads read_u32 (le_bytes 4 z) z.
Proof. intros H. by apply reads_uint. Qed.
Lemma reads_u64 z : u64 z -> reads read_u64 (le_bytes 8 z) z.
Proof. intros H. by apply reads_uint. Qed.

Lemma reads_n {A} (r : reader A) (enc : A -> bytes) l :
  (forall a, a ∈ l -> reads r (enc a) a) ->
  reads (read_n r (length l)) (mjoin (enc <$> l)) l.
Proof.
  induction l as [|a l IH]; intros Hl; [apply reads_ret|]. cbn.
  eapply reads_bind; [apply Hl; set_solver|].
  apply reads_bind_last, IH. set_solver.
Qed.

Lemma reads_vec {A} (r : reader A) (enc : A -> bytes) l :
  Z.of_nat (length l) < 2 ^ 32 -> (forall a, a ∈ l -> reads r (enc a) a) ->
  reads (read_vec r) (borsh_vec enc l) l.
Proof.
  intros Hlen Hl. eapply reads_bind; [apply reads_u32; unfold in_width; lia|].
  rewrite Nat2Z.id. by apply reads_n.
Qed.

Lemma reads_bytes b : Z.of_nat (length b) < 2 ^ 32 -> reads read_bytes (borsh_bytes b) b.
Proof.
  intros Hlen. eapply reads_bind; [apply reads_u32; unfold in_width; lia|].
  rewrite Nat2Z.id. by apply reads_exact.
Qed.

Lemma reads_option {A} (r : reader A) (enc : A -> bytes) o :
  (forall a, o = Some a -> reads r (enc a) a) ->
  reads (read_option r) (borsh_option enc o) o.
Proof.
  intros Ho. destruct o as [a|]; unfold read_option, borsh_option.
  - eapply reads_bind; [by apply reads_u8|]. cbn. apply reads_bind_last. by apply Ho.
  - rewrite <- (app_nil_r (le_bytes 1 0)).
    eapply reads_bind; [by apply reads_u8|]. apply reads_ret.
Qed.

Lemma reads_string b : utf8_valid b = true -> Z.of_nat (length b) < 2 ^ 32 ->
  reads read_string (borsh_bytes b) b.
Proof.
  intros Hu Hl. unfold read_string. rewrite <- (app_nil_r (borsh_bytes b)).
  eapply reads_bind; [by apply reads_bytes|]. rewrite Hu. apply reads_ret.
Qed.

Lemma reads_eq_enc {A} (r : reader A) e e' a : e = e' -> reads r e a -> reads r e' a.
Proof. by intros ->. Qed.

Lemma try_from_slice_reads {A} (r : reader A) enc a :
  reads r enc a -> try_from_slice r enc = Some a.
Proof. intros H. unfold try_from_slice. by rewrite <- (app_nil_r enc), H. Qed.

Create HintDb wire discriminated.
#[export] Hint Resolve reads_ret reads_exact reads_u8 reads_u16 reads_u32 reads_u64
  reads_bytes reads_vec reads_option : wire.

(** Decomposes a goal [reads (x ← r; k) (e1 ++ ...) v] along the reader. *)
Ltac solve_reads :=
  repeat first
    [ apply reads_bind_last
    | eapply reads_bind; [solve [eauto with wire]|]; cbn beta
    | eapply reads_rlift; [eassumption|] ];
  try solve [eauto with wire].

(** ** What a successful read consumed *)
Lemma read_exact_Some n inp b rest :
  read_exact n inp = Some (b, rest) -> inp = b ++ rest /\ length b = n.
Proof.
  unfold read_exact. case_decide; [|done]. intros [= <- <-].
  by rewrite take_drop, length_take, Nat.min_l.
Qed.

Lemma reader_bind_Some {A B} (r : reader A) (f : A -> reader B) inp b rest :
  (r ≫= f) inp = Some (b, rest) ->
  exists a inp', r inp = Some (a, inp') /\ f a inp' = Some (b, rest).
Proof. unfold mbind, reader_bind. destruct (r inp) as [[a inp']|]; naive_solver. Qed.

Lemma read_uint_Some n inp z rest :
  read_uint n inp = Some (z, rest) ->
  inp = le_bytes n z ++ rest /\ 0 <= z < 256 ^ Z.of_nat n.
Proof.
  intros (b & inp' & H1 & [= <- <-])%reader_bind_Some.
  apply read_exact_Some in H1 as [-> <-].
  rewrite le_bytes_le_Z. split; [done|apply le_Z_range].
Qed.

Lemma rlift_Some {A} (o : option A) inp a rest :
  rlift o inp = Some (a, rest) -> o = Some a /\ inp = rest.
Proof. unfold rlift. destruct o; cbn; [|done]. by intros [= -> ->]. Qed.

Lemma read_bytes_Some inp b rest :
  read_bytes inp = Some (b, rest) ->
  inp = borsh_bytes b ++ rest /\ Z.of_nat (length b) < 2 ^ 32.
Proof.
  intros (n & inp' & [-> Hn]%(read_uint_Some 4) & [-> Hb]%read_exact_Some)%reader_bind_Some.
  unfold borsh_bytes. rewrite Hb, Z2Nat.id by lia. rewrite <- app_assoc. split; [done|lia].
Qed.

Lemma read_n_Forall {A} (r : reader A) (P : A -> Prop) n inp l rest :
  (forall inp a rest, r inp = Some (a, rest) -> P a) ->
  read_n r n inp = Some (l, rest) -> Forall P l.
Proof.
  intros Hr. revert inp l; induction n as [|n IH]; intros inp l; cbn.
  { intros [= <- <-]. constructor. }
  intros (a & inp1 & Ha & (l' & inp2 & Hl & [= <- <-])%reader_bind_Some)%reader_bind_Some.
  constructor; [by eapply Hr|by eapply IH].
Qed.

(** ** Streaming readers

    A reader that succeeds ignores what follows the bytes it consumes: more
    input at the end changes nothing. *)
Definition streaming {A} (r : reader A) : Prop := forall inp a rest tl,
  r inp = Some (a, rest) -> r (inp ++ tl) = Some (a, rest ++ tl).

Lemma streaming_ret {A} (a : A) : streaming (mret a).
Proof. by intros inp b rest tl [= <- <-]. Qed.

Lemma streaming_bind {A B} (r : reader A) (f : A -> reader B) :
  streaming r -> (forall a, streaming (f a)) -> streaming (r ≫= f).
Proof.
  intros Hr Hf inp b rest tl (a & inp' & H1 & H2)%reader_bind_Some.
  unfold mbind, reader_bind. rewrite (Hr _ _ _ tl H1). by apply Hf.
Qed.

Lemma streaming_exact n : streaming (read_exact n).
Proof.
  intros inp a rest tl [-> Ha]%read_exact_Some. rewrite <- app_assoc. by apply reads_exact.
Qed.

Lemma streaming_rlift {A} (o : option A) : streaming (rlift o).
Proof. intros inp a rest tl [-> ->]%rlift_Some. done. Qed.

Lemma streaming_if {A} (b : bool) (r1 r2 : reader A) :
  streaming r1 -> streaming r2 -> streaming (if b then r1 else r2).
Proof. by destruct b. Qed.

Lemma streaming_uint n : streaming (read_uint n).
Proof. apply streaming_bind; [apply streaming_exact|intros; apply streaming_ret]. Qed.

Lemma streaming_n {A} (r : reader A) n : streaming r -> streaming (read_n r n).
Proof.
  intros Hr. induction n as [|n IH]; cbn; [apply streaming_ret|].
  apply streaming_bind; [done|]. intros a. apply streaming_bind; [done|].
  intros l. apply streaming_ret.
Qed.

Lemma streaming_vec {A} (r : reader A) : streaming r -> streaming (read_vec r).
Proof. intros Hr. apply streaming_bind; [apply streaming_uint|]. intros n. by apply streaming_n. Qed.

#[export] Hint Resolve streaming_ret streaming_exact streaming_rlift streaming_uint
  streaming_vec streaming_bind streaming_if : wire.
