(* ===== verification/MintBase.v ===== *)
(** * tardus-mint: errors, identifiers and transcript messages

    Models [crates/tardus-mint/src/{error,transcript}.rs]. *)
From S2P Require Import Prelude Crypto Wire Core.

Module MintError.
Inductive t : Type :=
| Core (e : CoreError.t)
| VssShareInvalid
| PokInvalid
| InsufficientQualifiedSet
| DomainMismatch
| DuplicateParticipant
| UnknownParticipant
| InsufficientMessages
| NonceReuseDetected
| InvalidSigningSet
| ResharePolyNonZero.
#[global] Instance t_eq_dec : EqDecision t.
Proof. solve_decision. Defined.
End MintError.

(** ** transcript.rs *)
Definition CEREMONY_DOMAIN : bytes := ascii "tardus-ceremony-v1".
Definition H_DOMAIN : bytes := ascii "tardus-pedersen-H-v1".

(** 128-bit identifiers, 16 raw bytes each. *)
Record CeremonyId : Type := { cid : bytes }.
Record SessionId : Type := { sid : bytes }.

#[global] Instance CeremonyId_eq_dec : EqDecision CeremonyId.
Proof. solve_decision. Defined.
#[global] Instance SessionId_eq_dec : EqDecision SessionId.
Proof. solve_decision. Defined.
#[global] Instance CeremonyId_countable : Countable CeremonyId :=
  inj_countable' cid Build_CeremonyId (λ '(Build_CeremonyId b), eq_refl).
#[global] Instance SessionId_countable : Countable SessionId :=
  inj_countable' sid Build_SessionId (λ '(Build_SessionId b), eq_refl).

Record TranscriptSignature : Type := { ts_sig : Signature }.

Definition TranscriptSignature_serialize (t : TranscriptSignature) : bytes :=
  Signature_to_bytes (ts_sig t).
Definition TranscriptSignature_read : reader TranscriptSignature :=
  b ← read_exact 64; mret {| ts_sig := Signature_from_bytes b |}.

Definition ceremony_transcript_message (ceremony_id : CeremonyId) (epoch : Z)
    (transcript_hash : bytes) : bytes :=
  CEREMONY_DOMAIN ++ cid ceremony_id ++ le_bytes 8 epoch ++ transcript_hash.

Definition CeremonyId_read : reader CeremonyId := b ← read_exact 16; mret {| cid := b |}.

(** Both fields of a signature as the code builds it are 32 bytes long. *)
Definition wf_signature (s : Signature) : Prop :=
  length (sig_r s) = 32%nat /\ length (sig_s s) = 32%nat.

Lemma reads_signature s : wf_signature s ->
  reads (b ← read_exact 64; mret (Signature_from_bytes b)) (Signature_to_bytes s) s.
Proof.
  intros [Hr Hs]. rewrite <- (Signature_from_to_bytes s) at 2 by done.
  apply reads_bind_last, reads_exact. unfold Signature_to_bytes. rewrite length_app. lia.
Qed.

Lemma reads_CeremonyId c : length (cid c) = 16%nat -> reads CeremonyId_read (cid c) c.
Proof.
  intros Hc. replace c with (Build_CeremonyId (cid c)) at 2 by (by destruct c).
  by apply reads_bind_last, reads_exact.
Qed.
#[export] Hint Resolve reads_CeremonyId : wire.
