(* ===== verification/Vss.v ===== *)
(** * Pedersen verifiable secret sharing

    Models [crates/tardus-mint/src/vss.rs]: the derivation of the second
    generator, the dealer, the verifier and the wire format of shares and
    commitments. *)
From S2P Require Import Prelude Crypto ToyCurve Wire Core Poly MintBase.

Section vss.
Context `{C : Curve}.

(** [h_generator]: try-and-increment over a [u32] counter. [fuel] bounds the
    number of iterations; running out of the 2^32 counter values is the
    [expect] of [checked_add]. *)
Definition h_candidate (counter : Z) : option point :=
  let h := sha512 (H_DOMAIN ++ le_bytes 4 counter) in
  pt ← pt_decompress (take 32 h);
  let lifted := pt_mul_by_cofactor pt in
  if is_identity lifted then None else Some lifted.

Fixpoint h_generator_from (fuel : nat) (counter : Z) : res MintError.t point :=
  match fuel with
  | O => Panic
  | S fuel =>
      match h_candidate counter with
      | Some lifted => Ok lifted
      | None =>
          if counter =? 2 ^ 32 - 1 then Panic else h_generator_from fuel (counter + 1)
      end
  end.

Definition h_generator (fuel : nat) : res MintError.t point := h_generator_from fuel 0.

(** ** Types *)
Record VssParameters : Type := { vp_n : Z; vp_t : Z }.

Definition VssParameters_new (n t : Z) : res MintError.t VssParameters :=
  _ ← reject_if ((t =? 0) || (n <? t)) MintError.InvalidSigningSet;
  Ok {| vp_n := n; vp_t := t |}.

Record VssShare : Type := { share_index : Z; f_share : scalar; g_share : scalar }.

Definition f_share_bytes (s : VssShare) : bytes := sc_to_bytes (f_share s).
Definition g_share_bytes (s : VssShare) : bytes := sc_to_bytes (g_share s).

Definition VssShare_serialize (s : VssShare) : bytes :=
  le_bytes 2 (share_index s) ++ sc_to_bytes (f_share s) ++ sc_to_bytes (g_share s).

Definition VssShare_read : reader VssShare :=
  index ← read_u16;
  f_bytes ← read_exact 32;
  f ← rlift (sc_from_canonical f_bytes);
  g_bytes ← read_exact 32;
  g ← rlift (sc_from_canonical g_bytes);
  mret {| share_index := index; f_share := f; g_share := g |}.

Record VssCommitments : Type := { vc_coeffs : list point }.
Record FeldmanCommitments : Type := { fc_coeffs : list point }.

(** [&self.coeffs\[0\]], which panics on an empty vector. *)
Definition VssCommitments_secret_commitment {E} (c : VssCommitments) : res E point :=
  expect (head (vc_coeffs c)).
Definition VssCommitments_t (c : VssCommitments) : nat := length (vc_coeffs c).
Definition FeldmanCommitments_secret_commitment {E} (c : FeldmanCommitments) : res E point :=
  expect (head (fc_coeffs c)).
Definition FeldmanCommitments_t (c : FeldmanCommitments) : nat := length (fc_coeffs c).

(** [None] is the [u16::try_from] error of the writer. *)
Definition serialize_point_vec (coeffs : list point) : option bytes :=
  if decide (Z.of_nat (length coeffs) < 2 ^ 16) then
    Some (le_bytes 2 (Z.of_nat (length coeffs)) ++ mjoin (pt_compress <$> coeffs))
  else None.

Definition deserialize_point_vec : reader (list point) :=
  count ← read_u16;
  read_n (b ← read_exact 32; pt ← rlift (pt_decompress b); mret pt) (Z.to_nat count).

Definition VssCommitments_serialize (c : VssCommitments) : option bytes :=
  serialize_point_vec (vc_coeffs c).
Definition VssCommitments_read : reader VssCommitments :=
  l ← deserialize_point_vec; mret {| vc_coeffs := l |}.
Definition FeldmanCommitments_serialize (c : FeldmanCommitments) : option bytes :=
  serialize_point_vec (fc_coeffs c).
Definition FeldmanCommitments_read : reader FeldmanCommitments :=
  l ← deserialize_point_vec; mret {| fc_coeffs := l |}.

(** ** Dealer *)
Fixpoint random_scalars (n : nat) (r : rng) : list scalar * rng :=
  match n with
  | O => ([], r)
  | S n =>
      let '(a, r) := sc_random r in
      let '(l, r) := random_scalars n r in
      (a :: l, r)
  end.

Definition horner_eval_scalar (coeffs : list scalar) (x : scalar) : scalar :=
  foldl (λ acc c, acc * x + c)%sc sc_zero (reverse coeffs).

(** [for k in 0..t] runs over the first [t] entries of both vectors; [j] runs
    over [1..=n]. *)
Definition deal (secret : scalar) (params : VssParameters) (h : point) (r : rng)
    : VssCommitments * FeldmanCommitments * list VssShare * rng :=
  let t := Z.to_nat (vp_t params) in
  let n := Z.to_nat (vp_n params) in
  let '(f_tail, r) := random_scalars (t - 1) r in
  let f_coeffs := secret :: f_tail in
  let '(g_coeffs, r) := random_scalars t r in
  let feldman_coeffs := (λ a, a ⋅ pt_base)%pt <$> take t f_coeffs in
  let pedersen_coeffs := zip_with (λ a_k b, a_k + b ⋅ h)%pt feldman_coeffs g_coeffs in
  let shares := (λ j : nat,
    let j_scalar := sc_of_u64 (Z.of_nat j) in
    {| share_index := Z.of_nat j;
       f_share := horner_eval_scalar f_coeffs j_scalar;
       g_share := horner_eval_scalar g_coeffs j_scalar |}) <$> seq 1 n in
  ({| vc_coeffs := pedersen_coeffs |}, {| fc_coeffs := feldman_coeffs |}, shares, r).

(** ** Verifier *)
Definition horner_eval_point (coeffs : list point) (x : scalar) : point :=
  foldl (λ rhs c_k, x ⋅ rhs + c_k)%pt pt_id (reverse coeffs).

Definition verify_share (share : VssShare) (commitments : VssCommitments) (h : point)
    : res MintError.t unit :=
  _ ← reject_if (share_index share =? 0) MintError.InvalidSigningSet;
  let j_scalar := sc_of_u64 (share_index share) in
  let lhs := (f_share share ⋅ pt_base + g_share share ⋅ h)%pt in
  let rhs := horner_eval_point (vc_coeffs commitments) j_scalar in
  if bool_decide (lhs = rhs) then Ok tt else Err MintError.VssShareInvalid.
End vss.

(** ** Lemmas *)
Section vss_lemmas.
Context `{CO : CurveOk}.
Add Field vss_field : sc_field.

Lemma horner_eval_scalar_peval cs x : horner_eval_scalar cs x = peval cs x.
Proof.
  unfold horner_eval_scalar. induction cs as [|c cs IH]; [done|].
  by rewrite reverse_cons, foldl_app, IH.
Qed.

Lemma horner_eval_point_cons c cs x :
  horner_eval_point (c :: cs) x = (x ⋅ horner_eval_point cs x + c)%pt.
Proof. unfold horner_eval_point. by rewrite reverse_cons, foldl_app. Qed.

Lemma random_scalars_length n r : length (random_scalars n r).1 = n.
Proof.
  revert r; induction n as [|n IH]; intros r; [done|]. cbn.
  destruct (sc_random r) as [a r1]. specialize (IH r1).
  destruct (random_scalars n r1). cbn in *. by rewrite IH.
Qed.

(** The polynomial in the exponent, for Pedersen commitments. *)
Lemma pedersen_eval (fs gs : list scalar) h x : pt_torsion_free h = true ->
  length fs = length gs ->
  horner_eval_point
    (zip_with (λ a_k b, a_k + b ⋅ h)%pt ((λ a, a ⋅ pt_base)%pt <$> fs) gs) x =
  (peval fs x ⋅ pt_base + peval gs x ⋅ h)%pt.
Proof.
  intros Hh. revert gs; induction fs as [|f fs IH]; intros [|g gs] Hlen; try done.
  - unfold horner_eval_point. cbn. by rewrite !pt_mul_zero, pt_add_id_l.
  - injection Hlen as Hlen. rewrite fmap_cons. cbn [zip_with peval].
    rewrite horner_eval_point_cons, IH by done.
    rewrite pt_mul_pt_add, <- !pt_mul_mul, !pt_mul_add by auto with tardus.
    replace (x * peval fs x)%sc with (peval fs x * x)%sc by ring.
    replace (x * peval gs x)%sc with (peval gs x * x)%sc by ring.
    aac_reflexivity.
Qed.

(** ** What the dealer outputs

    [dealt params secret h r] names the two polynomials of a dealing. *)
Record dealing (params : VssParameters) (secret : scalar) (h : point)
    (ped : VssCommitments) (fel : FeldmanCommitments) (shares : list VssShare) : Type := {
  d_f : list scalar;
  d_g : list scalar;
  d_f_head : head d_f = Some secret;
  d_f_length : length d_f = Z.to_nat (vp_t params);
  d_g_length : length d_g = Z.to_nat (vp_t params);
  d_ped : forall x, horner_eval_point (vc_coeffs ped) x =
                    (peval d_f x ⋅ pt_base + peval d_g x ⋅ h)%pt;
  d_fel : fc_coeffs fel = (λ a, a ⋅ pt_base)%pt <$> d_f;
  d_shares : shares = (λ j : nat, {| share_index := Z.of_nat j;
      f_share := peval d_f (sc_of_u64 (Z.of_nat j));
      g_share := peval d_g (sc_of_u64 (Z.of_nat j)) |}) <$> seq 1 (Z.to_nat (vp_n params));
}.

Lemma deal_spec_f secret params h r : 1 <= vp_t params -> pt_torsion_free h = true ->
  let '(ped, fel, shares, _) := deal secret params h r in
  {d : dealing params secret h ped fel shares |
    d_f _ _ _ _ _ _ d = secret :: (random_scalars (Z.to_nat (vp_t params) - 1) r).1}.
Proof.
  intros Ht Hh. unfold deal.
  pose proof (random_scalars_length (Z.to_nat (vp_t params) - 1) r) as H1.
  destruct (random_scalars _ r) as [ft r1].
  pose proof (random_scalars_length (Z.to_nat (vp_t params)) r1) as H2.
  destruct (random_scalars _ r1) as [gs r2]. cbn in H1, H2.
  assert (length (secret :: ft) = Z.to_nat (vp_t params)) as H3 by (cbn; lia).
  rewrite take_ge by lia.
  unshelve eexists {| d_f := secret :: ft; d_g := gs |}; [done|done|done| |done| |done].
  - intros x. apply pedersen_eval; [done|]. by rewrite H3.
  - apply list_fmap_ext. intros i j _. by rewrite !horner_eval_scalar_peval.
Qed.

Lemma deal_spec secret params h r : 1 <= vp_t params -> pt_torsion_free h = true ->
  let '(ped, fel, shares, _) := deal secret params h r in
  dealing params secret h ped fel shares.
Proof.
  intros Ht Hh. pose proof (deal_spec_f secret params h r Ht Hh) as Hd.
  destruct (deal secret params h r) as [[[ped fel] shares] r']. by destruct Hd as [d _].
Qed.

Lemma d_fel_head params secret h ped fel shares
    (d : dealing params secret h ped fel shares) :
  head (fc_coeffs fel) = Some (secret ⋅ pt_base)%pt.
Proof. rewrite (d_fel _ _ _ _ _ _ d). pose proof (d_f_head _ _ _ _ _ _ d) as H.
  destruct (d_f _ _ _ _ _ _ d); [done|]. cbn in *. by injection H as ->. Qed.

Lemma d_share params secret h ped fel shares (d : dealing params secret h ped fel shares) j :
  1 <= j <= vp_n params ->
  shares !! Z.to_nat (j - 1) = Some {| share_index := j;
    f_share := peval (d_f _ _ _ _ _ _ d) (sc_of_u64 j);
    g_share := peval (d_g _ _ _ _ _ _ d) (sc_of_u64 j) |}.
Proof.
  intros Hj. rewrite (d_shares _ _ _ _ _ _ d) at 1.
  rewrite list_lookup_fmap, lookup_seq_lt by lia. cbn.
  by replace (Z.of_nat (S (Z.to_nat (j - 1)))) with j by lia.
Qed.

Lemma verify_share_ok share ped h :
  verify_share share ped h = Ok tt <->
  share_index share <> 0 /\
  (f_share share ⋅ pt_base + g_share share ⋅ h)%pt =
  horner_eval_point (vc_coeffs ped) (sc_of_u64 (share_index share)).
Proof.
  unfold verify_share. destruct (Z.eqb_spec (share_index share) 0); cbn; [naive_solver|].
  case_bool_decide; naive_solver.
Qed.

Lemma verify_share_no_panic share ped h : verify_share share ped h <> Panic.
Proof. unfold verify_share. intros H. inv_panic. by case_bool_decide. Qed.

Lemma dealing_share_verifies params secret h ped fel shares
    (d : dealing params secret h ped fel shares) j share :
  1 <= j <= vp_n params -> shares !! Z.to_nat (j - 1) = Some share ->
  verify_share share ped h = Ok tt.
Proof.
  intros Hj Hs. rewrite (d_share _ _ _ _ _ _ d j Hj) in Hs. injection Hs as <-.
  apply verify_share_ok. cbn. split; [lia|]. by rewrite (d_ped _ _ _ _ _ _ d).
Qed.

Lemma h_candidate_tf counter P : h_candidate counter = Some P ->
  pt_torsion_free P = true /\ P <> pt_id.
Proof.
  unfold h_candidate. intros H. apply bind_Some in H as (pt & _ & H).
  destruct (is_identity (pt_mul_by_cofactor pt)) eqn:Hid; [done|].
  injection H as <-. split; [auto with tardus|]. intros H.
  apply is_identity_true in H. congruence.
Qed.
Lemma h_generator_tf fuel h : h_generator fuel = Ok h -> pt_torsion_free h = true.
Proof.
  unfold h_generator. generalize 0. induction fuel as [|fuel IH]; intros c; [done|]. cbn [h_generator_from].
  destruct (h_candidate c) as [P|] eqn:Hc; [|destruct (_ =? _); [done|apply IH]].
  intros [= <-]. by apply (h_candidate_tf c).
Qed.
End vss_lemmas.

(** ** Properties *)
Section vss_properties.
Context `{CO : CurveOk}.
Add Field vss_field2 : sc_field.

(** Completeness of the verifiable secret sharing: whatever the generator
    state, every one of the [n] shares an honest dealer hands out is accepted
    against the commitments it publishes, and carries its own index. *)
Theorem deal_shares_verify secret n t params h r :
  VssParameters_new n t = Ok params -> u16 n -> u16 t -> pt_torsion_free h = true ->
  let '(ped, fel, shares, _) := deal secret params h r in
  length shares = Z.to_nat n /\
  forall i share, shares !! i = Some share ->
    share_index share = Z.of_nat i + 1 /\ verify_share share ped h = Ok tt.
Proof.
  intros Hp Hn Ht Hh. unfold VssParameters_new in Hp. inv_ok.
  apply orb_false_iff in Hb as [H1%Z.eqb_neq H2%Z.ltb_ge]. subst params.
  unfold u16, in_width in *.
  pose proof (deal_spec secret {| vp_n := n; vp_t := t |} h r ltac:(cbn; lia) Hh) as Hd.
  destruct (deal _ _ _ _) as [[[ped fel] shares] r'].
  split; [rewrite (d_shares _ _ _ _ _ _ Hd), length_fmap, length_seq; done|].
  intros i share Hi.
  assert (i < Z.to_nat n)%nat as Hlt.
  { apply lookup_lt_Some in Hi. rewrite (d_shares _ _ _ _ _ _ Hd) in Hi.
    by rewrite length_fmap, length_seq in Hi. }
  replace i with (Z.to_nat (Z.of_nat i + 1 - 1)) in Hi by lia.
  split.
  - rewrite (d_share _ _ _ _ _ _ Hd) in Hi by (cbn; lia). by injection Hi as <-.
  - eapply (dealing_share_verifies _ _ _ _ _ _ Hd); [|done]. cbn. lia.
Qed.

(** Binding: a dealer that can open one index in two ways knows the
    discrete logarithm of the second generator. *)
Theorem verify_share_binding s1 s2 ped h :
  pt_torsion_free h = true -> share_index s1 = share_index s2 ->
  verify_share s1 ped h = Ok tt -> verify_share s2 ped h = Ok tt ->
  f_share s1 <> f_share s2 ->
  h = (sc_div (f_share s1 - f_share s2)%sc (g_share s2 - g_share s1)%sc ⋅ pt_base)%pt.
Proof.
  intros Hh Hidx [_ H1]%verify_share_ok [_ H2]%verify_share_ok Hne.
  rewrite Hidx, <- H2 in H1.
  assert ((f_share s1 - f_share s2)%sc ⋅ pt_base = (g_share s2 - g_share s1)%sc ⋅ h)%pt as Heq.
  { apply (pt_add_cancel_l (f_share s2 ⋅ pt_base + g_share s1 ⋅ h)%pt).
    transitivity ((f_share s2 + (f_share s1 - f_share s2))%sc ⋅ pt_base + g_share s1 ⋅ h)%pt.
    { rewrite pt_mul_add by auto with tardus. aac_reflexivity. }
    transitivity (f_share s2 ⋅ pt_base + (g_share s1 + (g_share s2 - g_share s1))%sc ⋅ h)%pt.
    2:{ rewrite pt_mul_add by auto with tardus. aac_reflexivity. }
    replace (f_share s2 + (f_share s1 - f_share s2))%sc with (f_share s1) by ring.
    by replace (g_share s1 + (g_share s2 - g_share s1))%sc with (g_share s2) by ring. }
  assert (g_share s2 - g_share s1 <> sc_zero)%sc as Hg.
  { intros Hg. rewrite Hg, pt_mul_zero in Heq. apply pt_base_order in Heq.
    by apply Hne, sc_sub_0. }
  replace (sc_div (f_share s1 - f_share s2)%sc (g_share s2 - g_share s1)%sc)
    with (sc_inv (g_share s2 - g_share s1) * (f_share s1 - f_share s2))%sc by (field; done).
  rewrite pt_mul_mul, Heq, <- pt_mul_mul by auto with tardus.
  replace (sc_inv (g_share s2 - g_share s1) * (g_share s2 - g_share s1))%sc
    with sc_one by (field; done).
  by rewrite pt_mul_one.
Qed.

(** C34: the second generator is found by the first counter whose digest
    decodes to a point outside the small subgroup; it lies in the prime-order
    subgroup and is not the identity. *)
Theorem h_generator_spec k P fuel :
  h_candidate k = Some P -> 0 <= k < 2 ^ 32 ->
  (forall i, 0 <= i < k -> h_candidate i = None) ->
  (Z.to_nat k < fuel)%nat ->
  h_generator fuel = Ok P /\ pt_torsion_free P = true /\ P <> pt_id.
Proof.
  intros HP Hk Hfirst Hfuel. split; [|by apply (h_candidate_tf k)].
  unfold h_generator.
  enough (forall c fuel, 0 <= c <= k -> (Z.to_nat (k - c) < fuel)%nat ->
    h_generator_from fuel c = Ok P) as H by (apply H; [lia|]; by rewrite Z.sub_0_r).
  clear Hfuel fuel. intros c fuel. revert c.
  induction fuel as [|fuel IH]; intros c Hc Hf; [lia|]. cbn [h_generator_from].
  destruct (decide (c = k)) as [->|Hne]; [by rewrite HP|].
  rewrite Hfirst by lia. replace (c =? 2 ^ 32 - 1) with false by lia. apply IH; lia.
Qed.

Lemma reads_VssShare share : u16 (share_index share) ->
  reads VssShare_read (VssShare_serialize share) share.
Proof.
  intros Hi. unfold VssShare_read, VssShare_serialize.
  eapply reads_bind; [by apply reads_u16|].
  eapply reads_bind; [by apply reads_exact, sc_to_bytes_length|].
  eapply reads_rlift; [apply sc_canonical_to_bytes|].
  rewrite <- (app_nil_r (sc_to_bytes (g_share share))).
  eapply reads_bind; [by apply reads_exact, sc_to_bytes_length|].
  eapply reads_rlift; [apply sc_canonical_to_bytes|]. destruct share. apply reads_ret.
Qed.

Lemma reads_points l b : serialize_point_vec l = Some b -> reads deserialize_point_vec b l.
Proof.
  unfold serialize_point_vec. case_decide as Hl; [|done]. intros <-%(inj Some).
  eapply reads_bind; [apply reads_u16; unfold u16, in_width; lia|].
  rewrite Nat2Z.id. apply reads_n. intros P _.
  rewrite <- (app_nil_r (pt_compress P)).
  eapply reads_bind; [by apply reads_exact, pt_compress_length|].
  eapply reads_rlift; [apply pt_decompress_compress|]. apply reads_ret.
Qed.
End vss_properties.

(** ** Witnesses *)
#[local] Existing Instance toy.
#[local] Existing Instance toy_ok.

(** A second generator found by the code, and a dealing for n = 5, t = 3. *)
Definition demo_h : point := match h_generator 64 with Ok P => P | _ => pt_base end.
Definition demo_params : VssParameters := {| vp_n := 5; vp_t := 3 |}.

Lemma h_generator_spec_witness :
  h_generator 64 = Ok demo_h /\ pt_torsion_free demo_h = true /\ demo_h <> pt_id.
Proof.
  apply (h_generator_spec 0); [vm_refl|lia|lia|vm_compute; lia].
Defined.

Lemma deal_shares_verify_witness :
  let '(ped, fel, shares, _) := deal (sk_scalar demo_sk) demo_params demo_h (demo_rng 3) in
  length shares = 5%nat /\
  forall i share, shares !! i = Some share ->
    share_index share = Z.of_nat i + 1 /\ verify_share share ped demo_h = Ok tt.
Proof.
  apply (deal_shares_verify (sk_scalar demo_sk) 5 3 demo_params demo_h (demo_rng 3));
    [vm_refl|unfold u16, in_width; lia|unfold u16, in_width; lia|vm_refl].
Defined.

(** With a known logarithm (here h = 3·G) one index can be opened twice. *)
Lemma verify_share_binding_witness :
  let h := (sc_of_u64 3 ⋅ pt_base)%pt in
  h = (sc_div (sc_of_u64 10 - sc_of_u64 4)%sc (sc_of_u64 3 - sc_of_u64 1)%sc ⋅ pt_base)%pt.
Proof.
  intros h.
  apply (verify_share_binding
    {| share_index := 1; f_share := sc_of_u64 10; g_share := sc_of_u64 1 |}
    {| share_index := 1; f_share := sc_of_u64 4; g_share := sc_of_u64 3 |}
    {| vc_coeffs := [(sc_of_u64 13 ⋅ pt_base)%pt] |} h).
  - vm_refl.
  - reflexivity.
  - vm_refl.
  - vm_refl.
  - intros H%sc_of_u64_inj; [discriminate| |]; unfold u16, in_width; lia.
Defined.
