(* ===== verification/Sign.v ===== *)
(** * Threshold blind Schnorr signing

    Models [crates/tardus-mint/src/sign.rs]: the two validator rounds, the
    aggregators and the Lagrange coefficients at zero. *)
From S2P Require Import Prelude Crypto ToyCurve Core Poly MintBase Wire Vss.

Section sign.
Context `{C : Curve}.

Record ValidatorR1State : Type :=
  { v1s_session_id : SessionId; v1s_my_index : Z; v1s_k_i : scalar }.
Record ValidatorR1Output : Type :=
  { v1o_from_index : Z; v1o_session_id : SessionId; v1o_r_i : bytes }.
Record ValidatorR3Output : Type :=
  { v3o_from_index : Z; v3o_session_id : SessionId; v3o_s_i : bytes }.

Definition validator_round1 (session_id : SessionId) (my_index : Z) (r : rng)
    : ValidatorR1Output * ValidatorR1State * rng :=
  let '(k_i, r) := sc_random r in
  let r_i_bytes := pt_compress (k_i ⋅ pt_base)%pt in
  ({| v1o_from_index := my_index; v1o_session_id := session_id; v1o_r_i := r_i_bytes |},
   {| v1s_session_id := session_id; v1s_my_index := my_index; v1s_k_i := k_i |}, r).

(** The three checks and the push that open the body of both aggregation
    loops; the result is the new [seen]. *)
Definition accept_from (session_id : SessionId) (signing_set seen : list Z)
    (out_session : SessionId) (from_index : Z) : res MintError.t (list Z) :=
  _ ← reject_if (negb (bool_decide (out_session = session_id))) MintError.DomainMismatch;
  _ ← reject_if (negb (contains from_index signing_set)) MintError.UnknownParticipant;
  _ ← reject_if (contains from_index seen) MintError.DuplicateParticipant;
  Ok (seen ++ [from_index]).

Definition aggregate_commitments (session_id : SessionId) (signing_set : list Z)
    (outputs : list ValidatorR1Output) : res MintError.t BlindCommit :=
  _ ← reject_if (negb (length outputs =? length signing_set)%nat) MintError.InsufficientMessages;
  acc ← res_fold (λ '(r_agg, seen) out,
    seen ← accept_from session_id signing_set seen (v1o_session_id out) (v1o_from_index out);
    r_i ← ok_or (MintError.Core CoreError.InvalidPoint) (pt_decompress (v1o_r_i out));
    Ok ((r_agg + r_i)%pt, seen)) (pt_id, []) outputs;
  Ok {| bc_r := pt_compress acc.1 |}.

(** [for &k in signing_set] with its [continue] and early return. *)
Definition lagrange_coefficient_at_zero (signing_set : list Z) (i : Z)
    : res MintError.t scalar :=
  _ ← reject_if (negb (contains i signing_set)) MintError.UnknownParticipant;
  _ ← reject_if (contains 0 signing_set) MintError.InvalidSigningSet;
  let i_scalar := sc_of_u64 i in
  acc ← res_fold (λ '(num, den) k,
    if k =? i then Ok (num, den) else
    let k_scalar := sc_of_u64 k in
    let num := (num * - k_scalar)%sc in
    let diff := (i_scalar - k_scalar)%sc in
    if bool_decide (diff = sc_zero) then Err MintError.InvalidSigningSet
    else Ok (num, (den * diff)%sc)) (sc_one, sc_one) signing_set;
  Ok (acc.1 * sc_inv acc.2)%sc.

Definition partial_sign (state : ValidatorR1State) (challenge : BlindChallenge)
    (my_share : SecretKey) (signing_set : list Z) : res MintError.t ValidatorR3Output :=
  c ← ok_or (MintError.Core CoreError.InvalidScalar) (sc_from_canonical (bch_c challenge));
  lambda ← lagrange_coefficient_at_zero signing_set (v1s_my_index state);
  sk_i ← expect (sc_from_canonical (SecretKey_to_bytes my_share));
  let s_i := (v1s_k_i state + c * lambda * sk_i)%sc in
  Ok {| v3o_from_index := v1s_my_index state; v3o_session_id := v1s_session_id state;
        v3o_s_i := sc_to_bytes s_i |}.

Definition aggregate_responses (session_id : SessionId) (signing_set : list Z)
    (outputs : list ValidatorR3Output) : res MintError.t BlindResponse :=
  _ ← reject_if (negb (length outputs =? length signing_set)%nat) MintError.InsufficientMessages;
  acc ← res_fold (λ '(s_agg, seen) out,
    seen ← accept_from session_id signing_set seen (v3o_session_id out) (v3o_from_index out);
    s_i ← ok_or (MintError.Core CoreError.InvalidScalar) (sc_from_canonical (v3o_s_i out));
    Ok ((s_agg + s_i)%sc, seen)) (sc_zero, []) outputs;
  Ok {| br_s := sc_to_bytes acc.1 |}.
End sign.

(** ** Aggregation loops

    Both loops instantiate one scheme: a message is decoded to an element of
    a commutative sum, after the membership checks. *)
Section aggregation.
Context {Out V : Type} (session_of : Out -> SessionId) (index_of : Out -> Z)
  (decode : Out -> option V) (e : MintError.t) (add : V -> V -> V)
  (session_id : SessionId) (signing_set : list Z).

Definition agg_step : V * list Z -> Out -> res MintError.t (V * list Z) :=
  λ '(acc, seen) out,
    seen ← accept_from session_id signing_set seen (session_of out) (index_of out);
    v ← ok_or e (decode out);
    Ok (add acc v, seen).

(** One message per member, each from the session and decodable. *)
Definition acceptable (outputs : list Out) (vs : list V) : Prop :=
  Forall (λ out, session_of out = session_id) outputs /\
  (index_of <$> outputs) ⊆ signing_set /\
  NoDup (index_of <$> outputs) /\
  mapM decode outputs = Some vs.

Lemma accept_from_ok seen s i seen' :
  accept_from session_id signing_set seen s i = Ok seen' <->
  s = session_id /\ i ∈ signing_set /\ i ∉ seen /\ seen' = seen ++ [i].
Proof.
  unfold accept_from, contains. split.
  - intros H. inv_ok. apply negb_false_iff, bool_decide_eq_true in Hb, Hb0.
    apply bool_decide_eq_false in Hb1. done.
  - intros (Hs & Hi & Hn & ->). rewrite (bool_decide_eq_true_2 _ Hs), (bool_decide_eq_true_2 _ Hi).
    by rewrite (bool_decide_eq_false_2 _ Hn).
Qed.

Lemma agg_step_ok acc seen out acc' seen' :
  agg_step (acc, seen) out = Ok (acc', seen') <->
  session_of out = session_id /\ index_of out ∈ signing_set /\ index_of out ∉ seen /\
  seen' = seen ++ [index_of out] /\ exists v, decode out = Some v /\ acc' = add acc v.
Proof.
  unfold agg_step. split.
  - intros H. inv_ok. apply accept_from_ok in Hb. destruct Hb as (? & ? & ? & ->).
    naive_solver.
  - intros (? & ? & ? & -> & v & Hv & ->).
    rewrite (proj2 (accept_from_ok seen (session_of out) (index_of out) _)) by done.
    cbn. by rewrite Hv.
Qed.

Lemma agg_fold_ok outputs acc seen acc' seen' :
  res_fold agg_step (acc, seen) outputs = Ok (acc', seen') <->
  exists vs, acceptable outputs vs /\ (forall out, out ∈ outputs -> index_of out ∉ seen) /\
    acc' = foldl add acc vs /\ seen' = seen ++ (index_of <$> outputs).
Proof.
  unfold acceptable.
  revert acc seen. induction outputs as [|out outputs IH]; intros acc seen.
  - cbn. rewrite app_nil_r. split.
    + intros [= <- <-]. exists []. split_and!; try done; try constructor; set_solver.
    + intros (vs & (_ & _ & _ & [= <-]) & _ & -> & ->). done.
  - cbn [res_fold mapM fmap list_fmap].
    setoid_rewrite Forall_cons. setoid_rewrite NoDup_cons. split.
    + intros H. inv_ok. destruct r as [acc1 seen1].
      apply agg_step_ok in Hb as (H1 & H2 & H3 & -> & v & Hv & ->).
      apply IH in H as (vs & (F1 & F2 & F3 & F4) & F5 & -> & ->).
      exists (v :: vs). rewrite Hv. cbn. fold (mapM (M := option) decode outputs). rewrite F4. cbn.
      rewrite <- app_assoc. split_and!; try done; [set_solver..|].
      intros o [->|Ho]%elem_of_cons; [done|]. specialize (F5 o Ho). set_solver.
    + intros (vs & ((F1 & F1') & F2 & (F3 & F3') & F4) & F5 & -> & ->).
      apply bind_Some in F4 as (v & Hv & F4). apply bind_Some in F4 as (vs' & Hvs & [= <-]).
      rewrite (proj2 (agg_step_ok acc seen out (add acc v) (seen ++ [index_of out])))
        by (split_and!; [done|set_solver|set_solver|done|by exists v]).
      cbn. apply IH. exists vs'. rewrite <- app_assoc. split_and!; try done; [set_solver|].
      intros o Ho. apply not_elem_of_app. split; [set_solver|].
      intros Hin%list_elem_of_singleton. apply F3. rewrite <- Hin.
      by apply list_elem_of_fmap_2.
Qed.
End aggregation.

(** ** Lemmas *)
Section sign_lemmas.
Context `{CO : CurveOk}.
Add Field sign_field : sc_field.

(** What the aggregators accept, and what they return. *)
Lemma aggregate_commitments_ok session_id S outputs commit :
  aggregate_commitments session_id S outputs = Ok commit <->
  length outputs = length S /\
  exists Rs, acceptable v1o_session_id v1o_from_index (pt_decompress ∘ v1o_r_i)
               session_id S outputs Rs /\
             commit = {| bc_r := pt_compress (pt_sum Rs) |}.
Proof.
  pose proof (agg_fold_ok v1o_session_id v1o_from_index (pt_decompress ∘ v1o_r_i)
    (MintError.Core CoreError.InvalidPoint) pt_add session_id S outputs pt_id []) as Hf.
  unfold aggregate_commitments. split.
  - intros H. inv_ok. apply negb_false_iff, Nat.eqb_eq in Hb. split; [done|].
    destruct r0 as [acc seen]. apply Hf in Hb0 as (Rs & HRs & _ & -> & ->).
    exists Rs. split; [done|]. rewrite <- H. cbn. by rewrite foldl_pt_add, pt_add_id_l.
  - intros (Hl & Rs & HRs & ->). rewrite (proj2 (Nat.eqb_eq _ _) Hl). cbn.
    rewrite (bind_ok _ _ _ (proj2 (Hf _ _) (ex_intro _ Rs (conj HRs (conj
      (λ _ _, not_elem_of_nil _) (conj eq_refl eq_refl)))))). cbn.
    by rewrite foldl_pt_add, pt_add_id_l.
Qed.

Lemma aggregate_responses_ok session_id S outputs resp :
  aggregate_responses session_id S outputs = Ok resp <->
  length outputs = length S /\
  exists ss, acceptable v3o_session_id v3o_from_index (sc_from_canonical ∘ v3o_s_i)
               session_id S outputs ss /\
             resp = {| br_s := sc_to_bytes (sc_sum ss) |}.
Proof.
  pose proof (agg_fold_ok v3o_session_id v3o_from_index (sc_from_canonical ∘ v3o_s_i)
    (MintError.Core CoreError.InvalidScalar) sc_add session_id S outputs sc_zero []) as Hf.
  assert (forall a, sc_add sc_zero a = a) as H0 by (intros; ring).
  unfold aggregate_responses. split.
  - intros H. inv_ok. apply negb_false_iff, Nat.eqb_eq in Hb. split; [done|].
    destruct r0 as [acc seen]. apply Hf in Hb0 as (ss & Hss & _ & -> & ->).
    exists ss. split; [done|]. rewrite <- H. cbn. by rewrite foldl_sc_add, H0.
  - intros (Hl & ss & Hss & ->). rewrite (proj2 (Nat.eqb_eq _ _) Hl). cbn.
    rewrite (bind_ok _ _ _ (proj2 (Hf _ _) (ex_intro _ ss (conj Hss (conj
      (λ _ _, not_elem_of_nil _) (conj eq_refl eq_refl)))))). cbn.
    by rewrite foldl_sc_add, H0.
Qed.

(** The loop computes numerator and denominator of the basis polynomial at
    zero; repeated members simply repeat their factor. *)
Lemma lagrange_loop l i num den : Forall u16 l -> u16 i ->
  res_fold (λ '(num, den) k,
    if k =? i then Ok (num, den) else
    let k_scalar := sc_of_u64 k in
    let num := (num * - k_scalar)%sc in
    let diff := (sc_of_u64 i - k_scalar)%sc in
    if bool_decide (diff = sc_zero) then Err MintError.InvalidSigningSet
    else Ok (num, (den * diff)%sc)) (num, den) l =
  Ok ((num * sc_prod ((λ y, 0 - y) <$> others (sc_of_u64 <$> l) (sc_of_u64 i)))%sc,
      (den * sc_prod ((λ y, sc_of_u64 i - y) <$> others (sc_of_u64 <$> l) (sc_of_u64 i)))%sc).
Proof.
  intros Hl Hi. revert num den. induction Hl as [|k l Hk Hl IH]; intros num den.
  { cbn [res_fold fmap list_fmap others]. unfold others. cbn [filter list_filter fmap list_fmap].
    rewrite !sc_prod_nil. do 2 f_equal; ring. }
  cbn [res_fold]. unfold others in *. rewrite fmap_cons.
  destruct (Z.eqb_spec k i) as [->|Hne].
  { rewrite filter_cons_False by (intros H; by apply H). apply IH. }
  rewrite filter_cons_True by (intros H%sc_of_u64_inj; done).
  rewrite !fmap_cons, !sc_prod_cons. cbn zeta.
  rewrite bool_decide_false by (intros H%sc_sub_0%sc_of_u64_inj; congruence).
  cbn [mbind res_bind]. rewrite IH. do 2 f_equal; ring.
Qed.

Lemma lagrange_ok S i : Forall u16 S -> i ∈ S -> 0 ∉ S ->
  lagrange_coefficient_at_zero S i = Ok (lagrange_basis (sc_of_u64 <$> S) (sc_of_u64 i) sc_zero).
Proof.
  intros HS Hi H0. unfold lagrange_coefficient_at_zero.
  rewrite (proj2 (contains_true _ _) Hi), (proj2 (contains_false _ _) H0).
  cbn [negb reject_if mbind res_bind]. cbn zeta.
  rewrite lagrange_loop by (try done; by rewrite Forall_forall in HS; apply HS).
  assert (forall a, 1 * a = a)%sc as H1 by (intros; ring).
  cbn [mbind res_bind fst snd]. by rewrite !H1.
Qed.

Lemma NoDup_of_u64 S : Forall u16 S -> NoDup S -> NoDup (sc_of_u64 <$> S).
Proof.
  intros HS Hnd. induction Hnd as [|a l Ha Hnd IH]; [constructor|].
  apply Forall_cons in HS as [Hu HS]. rewrite fmap_cons. constructor; [|auto].
  intros (b & Hb & Hin)%list_elem_of_fmap. rewrite Forall_forall in HS.
  apply sc_of_u64_inj in Hb; [|done|by apply HS]. congruence.
Qed.

(** Reconstruction in the scalar field. *)
Lemma lagrange_reconstruct cs S : Forall u16 S -> NoDup S -> (length cs <= length S)%nat ->
  sc_sum ((λ i, lagrange_basis (sc_of_u64 <$> S) (sc_of_u64 i) sc_zero
                * peval cs (sc_of_u64 i))%sc <$> S) = peval cs sc_zero.
Proof.
  intros HS Hnd Hlen.
  rewrite <- (lagrange_interpolation cs (sc_of_u64 <$> S) sc_zero)
    by (try apply NoDup_of_u64; try rewrite length_fmap; done).
  by rewrite <- list_fmap_compose.
Qed.

End sign_lemmas.

(** The contribution of share [i] to a reconstruction over [S]. *)
Definition weighted_share `{C : Curve} (S : list Z) (shares : list VssShare) (i : Z)
    : option scalar :=
  match lagrange_coefficient_at_zero S i, shares !! Z.to_nat (i - 1) with
  | Ok lam, Some s => Some (lam * f_share s)%sc
  | _, _ => None
  end.

(** ** A complete session

    Every member of the signing set runs both rounds on its own generator
    state; the messages reach the aggregator in any order. *)
Section session.
Context `{C : Curve}.
Context (session : SessionId) (S : list Z) (rngs : Z -> rng) (share : Z -> SecretKey).

Definition round1_of (i : Z) : ValidatorR1Output * ValidatorR1State :=
  (validator_round1 session i (rngs i)).1.
Definition round1_msgs : list ValidatorR1Output := (λ i, (round1_of i).1) <$> S.
Definition round3_of (ch : BlindChallenge) (i : Z) : res MintError.t ValidatorR3Output :=
  partial_sign (round1_of i).2 ch (share i) S.
Definition round3_all (ch : BlindChallenge) : option (list ValidatorR3Output) :=
  mapM (λ i, match round3_of ch i with Ok o => Some o | _ => None end) S.
End session.

Section session_lemmas.
Context `{CO : CurveOk}.
Add Field session_field : sc_field.

Lemma round1_of_eq session rngs i :
  round1_of session rngs i =
  ({| v1o_from_index := i; v1o_session_id := session;
      v1o_r_i := pt_compress ((sc_random (rngs i)).1 ⋅ pt_base)%pt |},
   {| v1s_session_id := session; v1s_my_index := i; v1s_k_i := (sc_random (rngs i)).1 |}).
Proof. unfold round1_of, validator_round1. by destruct (sc_random (rngs i)). Qed.

(** Round 1 messages, permuted, aggregate to the sum of the nonces. *)
Lemma aggregate_round1 session S rngs outs : NoDup S ->
  outs ≡ₚ round1_msgs session S rngs ->
  aggregate_commitments session S outs =
  Ok {| bc_r := pt_compress (sc_sum ((λ i, (sc_random (rngs i)).1) <$> S) ⋅ pt_base)%pt |}.
Proof.
  intros Hnd (S' & -> & HS)%Permutation_map_inv.
  apply aggregate_commitments_ok. split.
  { etransitivity; [apply length_map|by rewrite HS]. }
  exists ((λ i, (sc_random (rngs i)).1 ⋅ pt_base)%pt <$> S'). split; [split_and!|].
  - apply Forall_fmap, Forall_true. intros i. cbn. by rewrite round1_of_eq.
  - change (map ?f S') with (f <$> S'). rewrite <- list_fmap_compose.
    rewrite (list_fmap_ext _ id) by (intros; cbn; by rewrite round1_of_eq).
    rewrite list_fmap_id. intros x. by rewrite HS.
  - change (map ?f S') with (f <$> S'). rewrite <- list_fmap_compose.
    rewrite (list_fmap_ext _ id) by (intros; cbn; by rewrite round1_of_eq).
    rewrite list_fmap_id. by rewrite <- HS.
  - apply mapM_decode_fmap. intros i _. cbn. rewrite round1_of_eq. apply pt_decompress_compress.
  - by rewrite pt_sum_mul_base, HS.
Qed.

(** The partial signature of signer [i] on the challenge [c]. *)
Definition partial_of (S : list Z) (rngs : Z -> rng) (cs : list scalar) (c : scalar) (i : Z) : scalar :=
  ((sc_random (rngs i)).1 +
    c * lagrange_basis (sc_of_u64 <$> S) (sc_of_u64 i) 0 * peval cs (sc_of_u64 i))%sc.

Lemma round3_of_eq session S rngs share cs ch c i : Forall u16 S -> i ∈ S -> 0 ∉ S ->
  sk_scalar (share i) = peval cs (sc_of_u64 i) -> sc_from_canonical (bch_c ch) = Some c ->
  round3_of session S rngs share ch i =
    Ok {| v3o_from_index := i; v3o_session_id := session; v3o_s_i := sc_to_bytes (partial_of S rngs cs c i) |}.
Proof.
  intros HS Hi H0 Hsh Hc. unfold round3_of, partial_sign, SecretKey_to_bytes. rewrite round1_of_eq, Hc. cbn.
  rewrite lagrange_ok by done. cbn. rewrite sc_canonical_to_bytes. cbn. by rewrite Hsh.
Qed.

Lemma sum_partials S rngs cs c : NoDup S -> Forall u16 S -> (length cs <= length S)%nat ->
  sc_sum (partial_of S rngs cs c <$> S) =
    (sc_sum ((λ i, (sc_random (rngs i)).1) <$> S) + c * peval cs 0)%sc.
Proof.
  intros Hnd HS Hlen. rewrite <- (lagrange_reconstruct cs S) by done.
  rewrite <- sc_sum_mul_l, <- sc_sum_add. f_equal. apply list_fmap_ext. intros. unfold partial_of. ring.
Qed.

(** Responses of all signers, permuted, aggregate to their sum. *)
Lemma aggregate_responses_sum {X} session (l : list X) (idx : X -> Z) (s_of : X -> scalar) outs :
  NoDup (idx <$> l) ->
  outs ≡ₚ (λ x, {| v3o_from_index := idx x; v3o_session_id := session; v3o_s_i := sc_to_bytes (s_of x) |}) <$> l ->
  aggregate_responses session (idx <$> l) outs = Ok {| br_s := sc_to_bytes (sc_sum (s_of <$> l)) |}.
Proof.
  intros Hnd (l' & -> & HP)%Permutation_map_inv.
  assert (idx <$> l' ≡ₚ idx <$> l) as HI by (by rewrite HP).
  apply aggregate_responses_ok. split.
  { change (map ?f l') with (f <$> l'). by rewrite !length_fmap, HP. }
  exists (s_of <$> l'). split; [split_and!|].
  - apply Forall_fmap, Forall_true. done.
  - change (map ?f l') with (f <$> l'). rewrite <- list_fmap_compose.
    rewrite (list_fmap_ext _ idx) by done. intros x. by rewrite HI.
  - change (map ?f l') with (f <$> l'). rewrite <- list_fmap_compose.
    rewrite (list_fmap_ext _ idx) by done. by rewrite HI.
  - apply mapM_decode_fmap. intros i _. apply sc_canonical_to_bytes.
  - do 2 f_equal. by rewrite HP.
Qed.

(** Partial signatures on one challenge aggregate to a response that satisfies
    the verification equation for the shared polynomial's constant term. *)
Lemma aggregate_round3 session S rngs share cs ch c :
  NoDup S -> Forall u16 S -> 0 ∉ S -> (length cs <= length S)%nat ->
  (forall i, i ∈ S -> sk_scalar (share i) = peval cs (sc_of_u64 i)) ->
  sc_from_canonical (bch_c ch) = Some c ->
  exists outs, round3_all session S rngs share ch = Some outs /\
    forall outs', outs' ≡ₚ outs ->
      aggregate_responses session S outs' =
      Ok {| br_s := sc_to_bytes (sc_sum ((λ i, (sc_random (rngs i)).1) <$> S)
                                 + c * peval cs 0)%sc |}.
Proof.
  intros Hnd HS H0 Hlen Hsh Hc. eexists. split.
  - apply mapM_decode. intros i Hi. rewrite (round3_of_eq _ _ _ _ cs _ c) by auto. done.
  - intros outs' Ho. rewrite <- (sum_partials S) by done.
    pose proof (aggregate_responses_sum session S id (partial_of S rngs cs c) outs') as H.
    rewrite list_fmap_id in H. by apply H.
Qed.

(** The session ends in a signature under the key of the constant term. *)
Lemma threshold_session session S rngs share cs msg r_user outs1 :
  NoDup S -> Forall u16 S -> 0 ∉ S -> (length cs <= length S)%nat ->
  (forall i, i ∈ S -> sk_scalar (share i) = peval cs (sc_of_u64 i)) ->
  outs1 ≡ₚ round1_msgs session S rngs ->
  let pk := PublicKey_from_secret {| sk_scalar := peval cs 0 |} in
  exists commit ch us r' outs,
    aggregate_commitments session S outs1 = Ok commit /\
    blind_request commit pk msg r_user = Ok (ch, us, r') /\
    round3_all session S rngs share ch = Some outs /\
    forall outs3, outs3 ≡ₚ outs -> exists resp sig,
      aggregate_responses session S outs3 = Ok resp /\
      unblind us resp = Ok sig /\ schnorr_verify pk msg sig = Ok true.
Proof.
  intros Hnd HS H0 Hlen Hsh Ho1 pk.
  pose proof (PublicKey_from_secret_valid {| sk_scalar := peval cs 0 |}) as Hpk. fold pk in Hpk.
  set (K := sc_sum ((λ i, (sc_random (rngs i)).1) <$> S)).
  set (commit := {| bc_r := pt_compress (K ⋅ pt_base)%pt |}).
  assert (pt_decompress (bc_r commit) = Some (K ⋅ pt_base)%pt) as HR
    by apply pt_decompress_compress.
  destruct (blind_request_ok commit pk _ _ msg r_user (proj1 Hpk) HR)
    as (ch & us & r' & c & Hb & Hc).
  destruct (aggregate_round3 session S rngs share cs ch c) as (outs & Hm & Hagg); [done..|].
  exists commit, ch, us, r', outs. split_and!; [by apply aggregate_round1|done|done|].
  intros outs3 Ho3. rewrite (Hagg _ Ho3).
  destruct (unblind_verifies commit pk (peval cs 0 ⋅ pt_base)%pt (K ⋅ pt_base)%pt msg r_user
    ch us r' {| br_s := sc_to_bytes (K + c * peval cs 0)%sc |} (K + c * peval cs 0)%sc c)
    as (sig & Hu & Hv); try done; [apply sc_canonical_to_bytes|apply response_equation|].
  eexists _, sig. done.
Qed.
End session_lemmas.

(** ** Properties *)
Section sign_properties.
Context `{CO : CurveOk}.
Add Field sign_field2 : sc_field.

(** The coefficient function on every branch: a member outside the set and
    a set containing zero are refused in this order, and in every other case
    (repeated members included) the result is the value at zero of the
    Lagrange basis polynomial of [i]; no other error and no panic exist. *)
Theorem lagrange_coefficient_cases S i : Forall u16 S ->
  lagrange_coefficient_at_zero S i =
  if contains i S then
    if contains 0 S then Err MintError.InvalidSigningSet
    else Ok (lagrange_basis (sc_of_u64 <$> S) (sc_of_u64 i) sc_zero)
  else Err MintError.UnknownParticipant.
Proof.
  intros HS. destruct (contains i S) eqn:Hi.
  - destruct (contains 0 S) eqn:H0.
    + unfold lagrange_coefficient_at_zero. by rewrite Hi, H0.
    + apply contains_true in Hi. apply contains_false in H0. by apply lagrange_ok.
  - unfold lagrange_coefficient_at_zero. by rewrite Hi.
Qed.

(** Reconstruction: the coefficients of any signing set of at least [t]
    distinct non-zero indices weigh the dealt shares to the dealer's secret. *)
Theorem shares_reconstruct_secret secret params h r S :
  1 <= vp_t params -> pt_torsion_free h = true ->
  NoDup S -> Forall (λ i, 1 <= i <= vp_n params) S -> vp_n params < 2 ^ 16 ->
  vp_t params <= Z.of_nat (length S) ->
  let '(_, _, shares, _) := deal secret params h r in
  exists terms,
    mapM (weighted_share S shares) S = Some terms /\
    sc_sum terms = secret.
Proof.
  intros Ht Hh Hnd HS Hn Hlen. pose proof (deal_spec secret params h r Ht Hh) as Hd.
  destruct (deal _ _ _ _) as [[[ped fel] shares] r'].
  rewrite Forall_forall in HS.
  assert (Forall u16 S) as Hu by (apply Forall_forall; intros i Hi%HS; unfold u16, in_width; lia).
  exists ((λ i, lagrange_basis (sc_of_u64 <$> S) (sc_of_u64 i) sc_zero
                * peval (d_f _ _ _ _ _ _ Hd) (sc_of_u64 i))%sc <$> S).
  split.
  - apply mapM_decode. intros i Hi. unfold weighted_share.
    rewrite lagrange_ok by (try done; intros H0%HS; lia).
    by rewrite (d_share _ _ _ _ _ _ Hd i (HS i Hi)).
  - rewrite lagrange_reconstruct; [|done|done|rewrite d_f_length; lia].
    pose proof (d_f_head _ _ _ _ _ _ Hd). rewrite peval_0. by rewrite H.
Qed.

(** The aggregator takes exactly one message per member: a response is
    produced precisely when the session ids match, the senders are the signing
    set in some order, and every partial signature is canonical; it is then
    the sum of the partial signatures, whatever the arrival order. *)
Theorem aggregate_responses_exact session_id S outputs resp : NoDup S ->
  aggregate_responses session_id S outputs = Ok resp <->
  (v3o_from_index <$> outputs) ≡ₚ S /\
  Forall (λ out, v3o_session_id out = session_id) outputs /\
  exists ss, mapM (sc_from_canonical ∘ v3o_s_i) outputs = Some ss /\
             resp = {| br_s := sc_to_bytes (sc_sum ss) |}.
Proof.
  intros HS. rewrite aggregate_responses_ok. unfold acceptable. split.
  - intros (Hl & ss & (H1 & H2 & H3 & H4) & ->). split; [|by eauto].
    apply submseteq_length_Permutation; [by apply NoDup_submseteq|].
    rewrite length_fmap. lia.
  - intros (HP & H1 & ss & H4 & ->). split.
    { apply Permutation_length in HP. by rewrite length_fmap in HP. }
    exists ss. split_and!; try done; [|by rewrite HP]. intros x. by rewrite HP.
Qed.
End sign_properties.

(** ** Witnesses *)
#[local] Existing Instance toy.
#[local] Existing Instance toy_ok.

Definition demo_set : list Z := [2; 5; 3].
Definition demo_session : SessionId := {| sid := repeat Byte.x07 16 |}.
Definition demo_share (i : Z) : SecretKey :=
  {| sk_scalar := peval [sc_of_u64 31337; sc_of_u64 5; sc_of_u64 77] (sc_of_u64 i) |}.
Definition demo_v3 (i : Z) : ValidatorR3Output :=
  {| v3o_from_index := i; v3o_session_id := demo_session; v3o_s_i := sc_to_bytes (sc_of_u64 i) |}.

Lemma demo_set_u16 : Forall u16 demo_set.
Proof. repeat constructor; unfold in_width; lia. Qed.

Lemma demo_set_NoDup : NoDup demo_set.
Proof. apply (bool_decide_unpack (NoDup demo_set)). by vm_compute. Qed.

Lemma lagrange_coefficient_cases_witness :
  lagrange_coefficient_at_zero demo_set 5 =
  Ok (lagrange_basis (sc_of_u64 <$> demo_set) (sc_of_u64 5) sc_zero).
Proof. exact (lagrange_coefficient_cases demo_set 5 demo_set_u16). Defined.

Lemma shares_reconstruct_secret_witness :
  let '(_, _, shares, _) := deal (sk_scalar demo_sk) demo_params demo_h (demo_rng 3) in
  exists terms, mapM (weighted_share demo_set shares) demo_set = Some terms /\
                sc_sum terms = sk_scalar demo_sk.
Proof.
  apply (shares_reconstruct_secret (sk_scalar demo_sk) demo_params demo_h (demo_rng 3) demo_set).
  - cbn; lia.
  - vm_refl.
  - exact demo_set_NoDup.
  - repeat constructor; cbn; lia.
  - cbn; lia.
  - cbn; lia.
Defined.

Lemma aggregate_responses_exact_witness :
  aggregate_responses demo_session demo_set (demo_v3 <$> [5; 3; 2]) =
  Ok {| br_s := sc_to_bytes (sc_of_u64 10) |}.
Proof.
  apply (aggregate_responses_exact demo_session demo_set); [exact demo_set_NoDup|].
  split; [|split].
  - apply (bool_decide_unpack (([5; 3; 2] : list Z) ≡ₚ demo_set)). by vm_compute.
  - repeat constructor.
  - exists (sc_of_u64 <$> [5; 3; 2]). split; vm_refl.
Defined.
