(* ===== verification/Dkg.v ===== *)
(** * Distributed key generation

    Models [crates/tardus-mint/src/dkg.rs]: the first round of a validator,
    the proof of possession, and the finalisation. *)
From S2P Require Import Prelude Crypto ToyCurve Core Poly MintBase Wire Vss Sign.

Section dkg.
Context `{C : Curve}.

Definition POK_DOMAIN_INFIX : bytes := ascii ":dkg-pok:".

Definition build_pok_msg (ceremony_id : CeremonyId) (from_index : Z) : bytes :=
  CEREMONY_DOMAIN ++ POK_DOMAIN_INFIX ++ cid ceremony_id ++ le_bytes 2 from_index.

Record DkgRound1Broadcast : Type := {
  db_ceremony_id : CeremonyId;
  db_from_index : Z;
  db_pedersen : VssCommitments;
  db_feldman : FeldmanCommitments;
  db_pok : Signature;
}.

Record DkgRound1Private : Type := {
  dp_ceremony_id : CeremonyId;
  dp_my_index : Z;
  dp_params : VssParameters;
  dp_my_secret : scalar;
}.

Record DkgRound1Output : Type := {
  do_broadcast : DkgRound1Broadcast;
  do_private : DkgRound1Private;
  do_shares : list VssShare;
}.

Record PeerContribution : Type :=
  { pc_broadcast : DkgRound1Broadcast; pc_share_for_me : VssShare }.

Record DkgFinalised : Type := {
  df_my_index : Z;
  df_joint_pk : PublicKey;
  df_my_share : SecretKey;
  df_qual : list Z;
}.

(** The derived Borsh codecs: the fields in order. [None] is the writer's
    error of the commitment vectors. *)
Definition DkgRound1Broadcast_serialize (b : DkgRound1Broadcast) : option bytes :=
  ped ← VssCommitments_serialize (db_pedersen b);
  fel ← FeldmanCommitments_serialize (db_feldman b);
  Some (cid (db_ceremony_id b) ++ le_bytes 2 (db_from_index b) ++ ped ++ fel ++
        Signature_to_bytes (db_pok b)).
Definition DkgRound1Broadcast_read : reader DkgRound1Broadcast :=
  c ← CeremonyId_read;
  i ← read_u16;
  ped ← VssCommitments_read;
  fel ← FeldmanCommitments_read;
  pok ← (b ← read_exact 64; mret (Signature_from_bytes b));
  mret {| db_ceremony_id := c; db_from_index := i; db_pedersen := ped;
          db_feldman := fel; db_pok := pok |}.
Definition PeerContribution_serialize (p : PeerContribution) : option bytes :=
  b ← DkgRound1Broadcast_serialize (pc_broadcast p);
  Some (b ++ VssShare_serialize (pc_share_for_me p)).
Definition PeerContribution_read : reader PeerContribution :=
  b ← DkgRound1Broadcast_read;
  s ← VssShare_read;
  mret {| pc_broadcast := b; pc_share_for_me := s |}.

Definition dkg_start (ceremony_id : CeremonyId) (my_index : Z) (params : VssParameters)
    (h_gen : point) (r : rng) : res MintError.t (DkgRound1Output * rng) :=
  _ ← reject_if ((my_index =? 0) || (vp_n params <? my_index)) MintError.UnknownParticipant;
  let '(my_secret, r) := sc_random r in
  let '(pedersen, feldman, shares, r) := deal my_secret params h_gen r in
  sk ← expect_res (SecretKey_from_bytes (sc_to_bytes my_secret));
  a0 ← FeldmanCommitments_secret_commitment feldman;
  pk ← expect_res (PublicKey_from_bytes (pt_compress a0));
  let msg := build_pok_msg ceremony_id my_index in
  let '(pok, r) := schnorr_sign sk pk msg r in
  Ok ({| do_broadcast := {| db_ceremony_id := ceremony_id; db_from_index := my_index;
           db_pedersen := pedersen; db_feldman := feldman; db_pok := pok |};
         do_private := {| dp_ceremony_id := ceremony_id; dp_my_index := my_index;
           dp_params := params; dp_my_secret := my_secret |};
         do_shares := shares |}, r).

Definition verify_round1_pok (b : DkgRound1Broadcast) : res MintError.t unit :=
  a0 ← FeldmanCommitments_secret_commitment (db_feldman b);
  pk ← map_err MintError.Core (PublicKey_from_bytes (pt_compress a0));
  let msg := build_pok_msg (db_ceremony_id b) (db_from_index b) in
  ok ← map_err MintError.Core (schnorr_verify pk msg (db_pok b));
  if (ok : bool) then Ok tt else Err MintError.PokInvalid.

(** The body of the verification loop: the new [seen_indices]. *)
Definition dkg_check_peer (own : DkgRound1Output) (h_gen : point)
    (seen_indices : list Z) (peer : PeerContribution) : res MintError.t (list Z) :=
  let my_index := dp_my_index (do_private own) in
  let b := pc_broadcast peer in
  _ ← reject_if (db_from_index b =? my_index) MintError.DomainMismatch;
  _ ← reject_if (contains (db_from_index b) seen_indices) MintError.DuplicateParticipant;
  let seen_indices := seen_indices ++ [db_from_index b] in
  _ ← reject_if (negb (share_index (pc_share_for_me peer) =? my_index)) MintError.DomainMismatch;
  _ ← reject_if (negb (bool_decide (db_ceremony_id b = dp_ceremony_id (do_private own))))
                MintError.DomainMismatch;
  _ ← verify_round1_pok b;
  _ ← verify_share (pc_share_for_me peer) (db_pedersen b) h_gen;
  Ok seen_indices.

(** From the sum of the announced commitments to the end. *)
Definition dkg_combine (own : DkgRound1Output) (received : list PeerContribution)
    (seen_indices : list Z) : res MintError.t DkgFinalised :=
  let my_index := dp_my_index (do_private own) in
  own_a0 ← FeldmanCommitments_secret_commitment (db_feldman (do_broadcast own));
  joint_pk_pt ← res_fold (λ acc peer,
    a0 ← FeldmanCommitments_secret_commitment (db_feldman (pc_broadcast peer));
    Ok (acc + a0)%pt) own_a0 received;
  joint_pk ← map_err MintError.Core (PublicKey_from_bytes (pt_compress joint_pk_pt));
  self_share ← expect (do_shares own !! Z.to_nat (wrap 16 (my_index - 1)));
  self_f ← ok_or MintError.VssShareInvalid (sc_from_canonical (f_share_bytes self_share));
  sum_f ← res_fold (λ sum_f peer,
    f_i ← ok_or MintError.VssShareInvalid
            (sc_from_canonical (f_share_bytes (pc_share_for_me peer)));
    Ok (sum_f + f_i)%sc) self_f received;
  my_share ← expect_res (SecretKey_from_bytes (sc_to_bytes sum_f));
  Ok {| df_my_index := my_index; df_joint_pk := joint_pk; df_my_share := my_share;
        df_qual := merge_sort Z.le seen_indices |}.

Definition dkg_finalize (own : DkgRound1Output) (received : list PeerContribution)
    (h_gen : point) : res MintError.t DkgFinalised :=
  let my_index := dp_my_index (do_private own) in
  let expected_received := wrap 64 (vp_n (dp_params (do_private own)) - 1) in
  _ ← reject_if (negb (Z.of_nat (length received) =? expected_received))
                MintError.InsufficientMessages;
  _ ← verify_round1_pok (do_broadcast own);
  seen_indices ← res_fold (dkg_check_peer own h_gen) [my_index] received;
  dkg_combine own received seen_indices.
End dkg.

(** ** Lemmas *)
Section dkg_lemmas.
Context `{CO : CurveOk}.
Add Field dkg_field : sc_field.

(** The announced secret commitment; meaningful when the vector is not empty. *)
Definition a0_of (b : DkgRound1Broadcast) : point :=
  default pt_id (head (fc_coeffs (db_feldman b))).

Lemma verify_round1_pok_ok b :
  verify_round1_pok b = Ok tt <->
  fc_coeffs (db_feldman b) <> [] /\ pt_torsion_free (a0_of b) = true /\
  schnorr_verify {| pk_bytes := pt_compress (a0_of b) |}
    (build_pok_msg (db_ceremony_id b) (db_from_index b)) (db_pok b) = Ok true.
Proof.
  unfold verify_round1_pok, FeldmanCommitments_secret_commitment, a0_of, PublicKey_from_bytes.
  destruct (fc_coeffs (db_feldman b)) as [|P l]; cbn; [naive_solver|].
  rewrite pt_decompress_compress. cbn. destruct (pt_torsion_free P); cbn; [|naive_solver].
  destruct (schnorr_verify _ _ _) as [[] | |]; cbn; naive_solver.
Qed.

Lemma a0_of_head b P : head (fc_coeffs (db_feldman b)) = Some P ->
  fc_coeffs (db_feldman b) <> [] /\ a0_of b = P.
Proof. unfold a0_of. destruct (fc_coeffs _); naive_solver. Qed.

(** What one peer has to satisfy, apart from a fresh index. *)
Definition peer_ok (own : DkgRound1Output) (h : point) (peer : PeerContribution) : Prop :=
  db_from_index (pc_broadcast peer) <> dp_my_index (do_private own) /\
  share_index (pc_share_for_me peer) = dp_my_index (do_private own) /\
  db_ceremony_id (pc_broadcast peer) = dp_ceremony_id (do_private own) /\
  verify_round1_pok (pc_broadcast peer) = Ok tt /\
  verify_share (pc_share_for_me peer) (db_pedersen (pc_broadcast peer)) h = Ok tt.

Lemma dkg_check_peer_ok own h seen peer seen' :
  dkg_check_peer own h seen peer = Ok seen' <->
  peer_ok own h peer /\ db_from_index (pc_broadcast peer) ∉ seen /\
  seen' = seen ++ [db_from_index (pc_broadcast peer)].
Proof.
  unfold dkg_check_peer, peer_ok. split.
  - intros H. by inv_res.
  - intros ((H1 & H2 & H3 & H4 & H5) & Hn & ->).
    rewrite (proj2 (Z.eqb_neq _ _) H1), (proj2 (contains_false _ _) Hn),
      (proj2 (Z.eqb_eq _ _) H2), (bool_decide_eq_true_2 _ H3).
    step. rewrite H4. step. by rewrite H5.
Qed.

Lemma foldl_sum_base (a0 : point) l : pt_torsion_free a0 = true ->
  Forall (λ P, pt_torsion_free P = true) l -> pt_torsion_free (foldl pt_add a0 l) = true.
Proof. intros H Hl. revert a0 H. induction Hl; cbn; auto with tardus. Qed.

Definition dkg_result (own : DkgRound1Output) (received : list PeerContribution)
    (self_share : VssShare) : DkgFinalised :=
  let idx := (λ p, db_from_index (pc_broadcast p)) <$> received in
  {| df_my_index := dp_my_index (do_private own);
     df_joint_pk := {| pk_bytes := pt_compress (a0_of (do_broadcast own)
        + pt_sum ((λ p, a0_of (pc_broadcast p)) <$> received))%pt |};
     df_my_share := {| sk_scalar := (f_share self_share
        + sc_sum ((λ p, f_share (pc_share_for_me p)) <$> received))%sc |};
     df_qual := merge_sort Z.le (dp_my_index (do_private own) :: idx) |}.

Lemma secret_commitment_of {E} b : fc_coeffs (db_feldman b) <> [] ->
  FeldmanCommitments_secret_commitment (E := E) (db_feldman b) = Ok (a0_of b).
Proof.
  unfold FeldmanCommitments_secret_commitment, a0_of. by destruct (fc_coeffs (db_feldman b)).
Qed.

Lemma dkg_combine_eq own received seen :
  1 <= dp_my_index (do_private own) < 2 ^ 16 ->
  Forall (λ b, fc_coeffs (db_feldman b) <> [] /\ pt_torsion_free (a0_of b) = true)
    (do_broadcast own :: (pc_broadcast <$> received)) ->
  dkg_combine own received seen =
  (self_share ← expect (do_shares own !! Z.to_nat (dp_my_index (do_private own) - 1));
   let d := dkg_result own received self_share in
   Ok {| df_my_index := df_my_index d; df_joint_pk := df_joint_pk d;
         df_my_share := df_my_share d; df_qual := merge_sort Z.le seen |}).
Proof.
  intros Hi [[Hne Htf] Hp]%Forall_cons. rewrite Forall_fmap, Forall_forall in Hp.
  unfold dkg_combine. rewrite wrap_small by (unfold in_width; lia).
  rewrite secret_commitment_of by done. step.
  rewrite (sum_loop _ _ (λ p, a0_of (pc_broadcast p)))
    by (intros p [? _]%Hp; by apply secret_commitment_of). step.
  rewrite PublicKey_from_bytes_compress.
  2:{ apply foldl_sum_base; [done|]. apply Forall_fmap, Forall_forall. intros p Hpi. by apply Hp. }
  step. destruct (do_shares own !! _) as [self|]; [|done]. step.
  unfold f_share_bytes, SecretKey_from_bytes. rewrite sc_canonical_to_bytes. step.
  rewrite (sum_loop _ _ (λ p, f_share (pc_share_for_me p)))
    by (intros p _; by rewrite sc_canonical_to_bytes).
  step. rewrite sc_canonical_to_bytes. step. by rewrite foldl_sc_add, foldl_pt_add.
Qed.

Lemma verified_a0 b : verify_round1_pok b = Ok tt ->
  fc_coeffs (db_feldman b) <> [] /\ pt_torsion_free (a0_of b) = true.
Proof. rewrite verify_round1_pok_ok. naive_solver. Qed.

Lemma peers_a0 own h received :
  verify_round1_pok (do_broadcast own) = Ok tt -> Forall (peer_ok own h) received ->
  Forall (λ b, fc_coeffs (db_feldman b) <> [] /\ pt_torsion_free (a0_of b) = true)
    (do_broadcast own :: (pc_broadcast <$> received)).
Proof.
  intros Hown HP. constructor; [by apply verified_a0|]. apply Forall_fmap.
  eapply Forall_impl; [exact HP|]. intros p (_ & _ & _ & H & _). by apply verified_a0.
Qed.

(** Acceptance and result of [dkg_finalize], in full. *)
Lemma dkg_finalize_ok own received h fin :
  1 <= vp_n (dp_params (do_private own)) < 2 ^ 16 ->
  1 <= dp_my_index (do_private own) < 2 ^ 16 ->
  dkg_finalize own received h = Ok fin <->
  Z.of_nat (length received) = vp_n (dp_params (do_private own)) - 1 /\
  verify_round1_pok (do_broadcast own) = Ok tt /\
  Forall (peer_ok own h) received /\
  NoDup ((λ p, db_from_index (pc_broadcast p)) <$> received) /\
  exists self_share,
    do_shares own !! Z.to_nat (dp_my_index (do_private own) - 1) = Some self_share /\
    fin = dkg_result own received self_share.
Proof.
  intros Hn Hi.
  pose proof (seen_loop_ok _ _ _ (dkg_check_peer_ok own h) received [dp_my_index (do_private own)])
    as Hloop.
  unfold dkg_finalize. rewrite wrap_small by (unfold in_width; lia). split.
  - intros H. inv_res.
    apply Hloop in Hb1 as (HP & Hnd & _ & ->).
    rewrite dkg_combine_eq in H by (try done; by eapply peers_a0). inv_ok.
    cbn in H. injection H as <-. split_and!; try done. by exists r.
  - intros (Hl & Hown & HP & Hnd & self & Hself & ->).
    rewrite (proj2 (Z.eqb_eq _ _) Hl). step. rewrite Hown. step.
    rewrite (bind_ok _ _ ([dp_my_index (do_private own)] ++ ((λ p, db_from_index (pc_broadcast p)) <$> received))).
    + rewrite dkg_combine_eq by (try done; by eapply peers_a0). by rewrite Hself.
    + apply Hloop. split_and!; [done|done| |done]. rewrite Forall_forall in HP.
      intros p Hp. specialize (HP p Hp) as [HP _]. set_solver.
Qed.
End dkg_lemmas.

(** ** The polynomials of an honest ceremony *)
Section ceremony.
Context `{CO : CurveOk}.
Add Field ceremony_field : sc_field.

(** The polynomial [dkg_start] samples from a generator state. *)
Definition dkg_poly (params : VssParameters) (r : rng) : list scalar :=
  let '(s, r) := sc_random r in s :: (random_scalars (Z.to_nat (vp_t params) - 1) r).1.

Lemma length_dkg_poly params r : 1 <= vp_t params ->
  length (dkg_poly params r) = Z.to_nat (vp_t params).
Proof.
  intros Ht. unfold dkg_poly. destruct (sc_random r) as [s r']. cbn.
  rewrite random_scalars_length. lia.
Qed.

(** What the rest of the ceremony relies on in an honest first round. *)
Record honest_output (ceremony : CeremonyId) (params : VssParameters) (h : point)
    (poly : list scalar) (i : Z) (out : DkgRound1Output) : Prop := {
  ho_private : dp_ceremony_id (do_private out) = ceremony /\
               dp_my_index (do_private out) = i /\ dp_params (do_private out) = params;
  ho_ids : db_ceremony_id (do_broadcast out) = ceremony /\ db_from_index (do_broadcast out) = i;
  ho_pok : verify_round1_pok (do_broadcast out) = Ok tt;
  ho_a0 : a0_of (do_broadcast out) = (peval poly sc_zero ⋅ pt_base)%pt;
  ho_share j : 1 <= j <= vp_n params -> exists share,
    do_shares out !! Z.to_nat (j - 1) = Some share /\ share_index share = j /\
    f_share share = peval poly (sc_of_u64 j) /\
    verify_share share (db_pedersen (do_broadcast out)) h = Ok tt;
}.

Lemma dkg_start_ok ceremony i params h r :
  1 <= vp_t params -> 1 <= i <= vp_n params -> pt_torsion_free h = true ->
  exists out r', dkg_start ceremony i params h r = Ok (out, r') /\
                 honest_output ceremony params h (dkg_poly params r) i out.
Proof.
  intros Ht Hi Hh. unfold dkg_start.
  replace (i =? 0) with false by lia. replace (vp_n params <? i) with false by lia. step.
  unfold dkg_poly. destruct (sc_random r) as [s r1].
  pose proof (deal_spec_f s params h r1 Ht Hh) as Hd.
  destruct (deal s params h r1) as [[[ped fel] shares] r2]. destruct Hd as [d Hf].
  rewrite <- Hf. unfold SecretKey_from_bytes, FeldmanCommitments_secret_commitment.
  rewrite sc_canonical_to_bytes, (d_fel_head _ _ _ _ _ _ d). step.
  rewrite PublicKey_from_bytes_compress by auto with tardus. step.
  pose proof (schnorr_sign_ok {| sk_scalar := s |} (build_pok_msg ceremony i) r2) as Hs.
  unfold PublicKey_from_secret in Hs. cbn [sk_scalar] in Hs. unfold basepoint in Hs.
  destruct (schnorr_sign _ _ _ _) as [pok r3]. cbn [fst] in Hs.
  do 2 eexists. split; [done|].
  assert (peval (d_f _ _ _ _ _ _ d) sc_zero = s) as H0
    by (rewrite peval_0, (d_f_head _ _ _ _ _ _ d); done).
  assert (head (fc_coeffs fel) = Some (s ⋅ pt_base)%pt) as Hhd by apply (d_fel_head _ _ _ _ _ _ d).
  pose proof (a0_of_head {| db_ceremony_id := ceremony; db_from_index := i; db_pedersen := ped;
    db_feldman := fel; db_pok := pok |} _ Hhd) as [Hne Ha0].
  split; [done|done| | |].
  - apply verify_round1_pok_ok. cbn [do_broadcast]. rewrite Ha0. auto with tardus.
  - cbn [do_broadcast]. by rewrite Ha0, H0.
  - intros j Hj. eexists. split; [by apply d_share|]. split_and!; [done|done|].
    eapply (dealing_share_verifies _ _ _ _ _ _ d j); [done|]. by apply d_share.
Qed.

(** The sum of the dealt polynomials. *)
Definition joint_poly (polys : Z -> list scalar) (n : Z) : list scalar :=
  foldr padd [] (polys <$> seqZ 1 n).

Lemma peval_joint polys n x :
  peval (joint_poly polys n) x = sc_sum ((λ i, peval (polys i) x) <$> seqZ 1 n).
Proof.
  unfold joint_poly. induction (seqZ 1 n) as [|i l IH]; [done|].
  rewrite !fmap_cons. cbn [foldr]. by rewrite peval_padd, IH, sc_sum_cons.
Qed.

Lemma length_joint polys n t : (forall i, length (polys i) <= t)%nat ->
  (length (joint_poly polys n) <= t)%nat.
Proof.
  intros H. unfold joint_poly. induction (seqZ 1 n) as [|i l IH]; cbn; [lia|].
  rewrite length_padd. specialize (H i). lia.
Qed.

Lemma Forall2_fmap_eq {A B V} (P : A -> B -> Prop) (f : A -> V) (g : B -> V) l k :
  Forall2 P l k -> (forall x y, x ∈ l -> P x y -> f x = g y) -> f <$> l = g <$> k.
Proof.
  induction 1 as [|x y l k Hxy _ IH]; intros H; [done|].
  rewrite !fmap_cons. f_equal; [apply H; [set_solver|done]|].
  apply IH. intros x' y' Hx'. apply H. set_solver.
Qed.

Lemma merge_sort_seqZ l n : l ≡ₚ seqZ 1 n -> merge_sort Z.le l = seqZ 1 n.
Proof.
  intros H. apply (StronglySorted_unique Z.le).
  - apply StronglySorted_merge_sort; [apply _|]. intros x y. lia.
  - apply Sorted_StronglySorted; [apply _|]. unfold seqZ. generalize (Z.to_nat n). intros m.
    assert (forall k, Sorted Z.le ((λ i : nat, Z.of_nat i + 1) <$> seq k m)) as Hs; [|by apply (Hs 0%nat)].
    induction m as [|m IH]; intros k; cbn; constructor; [apply IH|].
    destruct m; cbn; constructor. lia.
  - by rewrite merge_sort_Permutation.
Qed.

(** The messages of a ceremony: [deliver outs j i] is what validator [i] sends
    to validator [j]. *)
Definition deliver (outs : Z -> DkgRound1Output) (j i : Z) : option PeerContribution :=
  s ← do_shares (outs i) !! Z.to_nat (j - 1);
  Some {| pc_broadcast := do_broadcast (outs i); pc_share_for_me := s |}.

Section honest.
Context (ceremony : CeremonyId) (params : VssParameters) (h : point) (polys : Z -> list scalar)
  (outs : Z -> DkgRound1Output).
Hypothesis Hn : 1 <= vp_n params < 2 ^ 16.
Hypothesis Houts : forall i, 1 <= i <= vp_n params ->
  honest_output ceremony params h (polys i) i (outs i).

Lemma deliver_peer i j p : 1 <= i <= vp_n params -> 1 <= j <= vp_n params -> i <> j ->
  deliver outs j i = Some p ->
  peer_ok (outs j) h p /\ db_from_index (pc_broadcast p) = i /\
  a0_of (pc_broadcast p) = (peval (polys i) sc_zero ⋅ pt_base)%pt /\
  f_share (pc_share_for_me p) = peval (polys i) (sc_of_u64 j).
Proof using CO Houts.
  intros Hi Hj Hij Hp. unfold deliver in Hp.
  destruct (ho_share _ _ _ _ _ _ (Houts i Hi) j Hj) as (s & Hs & Hsi & Hf & Hv).
  rewrite Hs in Hp. injection Hp as <-. unfold peer_ok. cbn.
  destruct (ho_ids _ _ _ _ _ _ (Houts i Hi)) as [Hc Hfi].
  destruct (ho_private _ _ _ _ _ _ (Houts j Hj)) as (Hpc & Hpi & _).
  rewrite Hpc, Hpi, Hc, Hfi. split_and!; try done.
  - by apply (ho_pok _ _ _ _ _ _ (Houts i Hi)).
  - by apply (ho_a0 _ _ _ _ _ _ (Houts i Hi)).
Qed.

(** Finalisation of validator [j] on the messages of all the others, in any
    order. *)
Lemma honest_finalize j order received : 1 <= j <= vp_n params ->
  j :: order ≡ₚ seqZ 1 (vp_n params) ->
  Forall2 (λ i p, deliver outs j i = Some p) order received ->
  dkg_finalize (outs j) received h = Ok {|
    df_my_index := j;
    df_joint_pk := PublicKey_from_secret
      {| sk_scalar := peval (joint_poly polys (vp_n params)) sc_zero |};
    df_my_share := {| sk_scalar := peval (joint_poly polys (vp_n params)) (sc_of_u64 j) |};
    df_qual := seqZ 1 (vp_n params) |}.
Proof using All.
  intros Hj Horder Hrecv.
  assert (NoDup (j :: order)) as Hnd by (rewrite Horder; apply NoDup_seqZ).
  assert (forall i, i ∈ order -> 1 <= i <= vp_n params /\ i <> j) as Hin.
  { intros i Hi. apply NoDup_cons in Hnd as [Hnj _]. split; [|by intros ->].
    assert (i ∈ seqZ 1 (vp_n params)) as Hs%elem_of_seqZ by (rewrite <- Horder; by right). lia. }
  pose proof (λ i p Hi Hp, deliver_peer i j p (proj1 (Hin i Hi)) Hj (proj2 (Hin i Hi)) Hp) as Hpeer.
  destruct (ho_private _ _ _ _ _ _ (Houts j Hj)) as (Hpc & Hpi & Hpp).
  destruct (ho_share _ _ _ _ _ _ (Houts j Hj) j Hj) as (s & Hs & _ & Hf & _).
  assert (order = (λ p, db_from_index (pc_broadcast p)) <$> received) as Hidx.
  { rewrite <- (list_fmap_id order). eapply Forall2_fmap_eq; [exact Hrecv|].
    intros i p Hi Hp. symmetry. by apply (Hpeer i p). }
  apply dkg_finalize_ok; rewrite ?Hpp, ?Hpi; [done|lia|]. split_and!.
  - rewrite <- (Forall2_length _ _ _ Hrecv). apply Permutation_length in Horder.
    rewrite length_seqZ in Horder. cbn in Horder. lia.
  - by apply (ho_pok _ _ _ _ _ _ (Houts j Hj)).
  - apply Forall_forall. intros p Hp.
    apply list_elem_of_lookup in Hp as [k Hk].
    destruct (Forall2_lookup_r _ _ _ _ _ Hrecv Hk) as (i & Hi & Hd).
    apply (Hpeer i p); [by eapply list_elem_of_lookup_2|done].
  - rewrite <- Hidx. by apply NoDup_cons in Hnd as [_ ?].
  - exists s. split; [done|]. unfold dkg_result. rewrite Hpi.
    rewrite (ho_a0 _ _ _ _ _ _ (Houts j Hj)), Hf.
    rewrite <- (Forall2_fmap_eq _ (λ i, (peval (polys i) sc_zero ⋅ pt_base)%pt) _ _ _ Hrecv)
      by (intros i p Hi Hp; symmetry; by apply (Hpeer i p)).
    rewrite <- (Forall2_fmap_eq _ (λ i, peval (polys i) (sc_of_u64 j)) _ _ _ Hrecv)
      by (intros i p Hi Hp; symmetry; by apply (Hpeer i p)).
    rewrite <- Hidx. rewrite (merge_sort_seqZ _ (vp_n params)) by done. rewrite pt_sum_mul_base.
    rewrite <- pt_mul_add by auto with tardus.
    rewrite <- !sc_sum_cons.
    rewrite <- (fmap_cons (λ i, peval (polys i) sc_zero) j order).
    rewrite <- (fmap_cons (λ i, peval (polys i) (sc_of_u64 j)) j order).
    unfold PublicKey_from_secret. cbn [sk_scalar]. by rewrite !peval_joint, Horder.
Qed.
End honest.
End ceremony.

(** ** Properties *)
Section dkg_properties.
Context `{CO : CurveOk}.
Add Field dkg_field3 : sc_field.

Lemma started_honest ceremony params h rngs outs :
  1 <= vp_t params -> pt_torsion_free h = true ->
  (forall i, 1 <= i <= vp_n params ->
     exists r, dkg_start ceremony i params h (rngs i) = Ok (outs i, r)) ->
  forall i, 1 <= i <= vp_n params ->
    honest_output ceremony params h (dkg_poly params (rngs i)) i (outs i).
Proof.
  intros Ht Hh Ho i Hi. destruct (Ho i Hi) as [r Hr].
  destruct (dkg_start_ok ceremony i params h (rngs i) Ht Hi Hh) as (out & r' & Hr' & H).
  rewrite Hr' in Hr. by injection Hr as <- <-.
Qed.

(** An honest ceremony succeeds and agrees. For [n] validators that ran
    [dkg_start] on any generator states, every validator finalises whatever
    the order its peers' messages arrive in; all obtain the same joint key
    and qualified set, and their shares lie on one polynomial with at most
    [t] coefficients whose constant term is the secret of that key. *)
Theorem honest_dkg_agrees ceremony params h rngs outs :
  1 <= vp_t params -> vp_t params <= vp_n params < 2 ^ 16 -> pt_torsion_free h = true ->
  (forall i, 1 <= i <= vp_n params ->
     exists r, dkg_start ceremony i params h (rngs i) = Ok (outs i, r)) ->
  exists F, (length F <= Z.to_nat (vp_t params))%nat /\
    forall j order received, 1 <= j <= vp_n params ->
      j :: order ≡ₚ seqZ 1 (vp_n params) ->
      Forall2 (λ i p, deliver outs j i = Some p) order received ->
      dkg_finalize (outs j) received h = Ok {|
        df_my_index := j;
        df_joint_pk := PublicKey_from_secret {| sk_scalar := peval F sc_zero |};
        df_my_share := {| sk_scalar := peval F (sc_of_u64 j) |};
        df_qual := seqZ 1 (vp_n params) |}.
Proof.
  intros Ht Hn Hh Ho.
  exists (joint_poly (λ i, dkg_poly params (rngs i)) (vp_n params)). split.
  { apply length_joint. intros i. rewrite length_dkg_poly by done. lia. }
  intros j order received. eapply honest_finalize; [lia|].
  by apply (started_honest ceremony params h rngs outs).
Qed.

(** C1: key generation followed by threshold signing. Any signing set of at
    least [t] of the validators that finalised an honest ceremony issues, on
    one user's blinded request, a signature that verifies under the joint key
    they all hold; messages may arrive in any order. *)
Theorem dkg_then_threshold_sign ceremony params h rngs outs fins received_of order_of
    session S sign_rngs msg r_user outs1 pk :
  1 <= vp_t params -> vp_t params <= vp_n params < 2 ^ 16 -> pt_torsion_free h = true ->
  (forall i, 1 <= i <= vp_n params ->
     exists r, dkg_start ceremony i params h (rngs i) = Ok (outs i, r)) ->
  (forall j, 1 <= j <= vp_n params -> j :: order_of j ≡ₚ seqZ 1 (vp_n params) /\
     Forall2 (λ i p, deliver outs j i = Some p) (order_of j) (received_of j) /\
     dkg_finalize (outs j) (received_of j) h = Ok (fins j)) ->
  NoDup S -> Forall (λ i, 1 <= i <= vp_n params) S -> vp_t params <= Z.of_nat (length S) ->
  (forall i, i ∈ S -> df_joint_pk (fins i) = pk) ->
  outs1 ≡ₚ round1_msgs session S sign_rngs ->
  exists commit ch us r' outs3,
    aggregate_commitments session S outs1 = Ok commit /\
    blind_request commit pk msg r_user = Ok (ch, us, r') /\
    round3_all session S sign_rngs (df_my_share ∘ fins) ch = Some outs3 /\
    forall outs3', outs3' ≡ₚ outs3 -> exists resp sig,
      aggregate_responses session S outs3' = Ok resp /\
      unblind us resp = Ok sig /\ schnorr_verify pk msg sig = Ok true.
Proof.
  intros Ht Hn Hh Ho Hf Hnd HS Hlen Hpk Ho1. rewrite Forall_forall in HS.
  set (polys := λ i, dkg_poly params (rngs i)).
  pose proof (started_honest ceremony params h rngs outs Ht Hh Ho) as Hho.
  set (F := joint_poly polys (vp_n params)).
  assert (forall i, i ∈ S -> df_my_share (fins i) = {| sk_scalar := peval F (sc_of_u64 i) |} /\
    df_joint_pk (fins i) = PublicKey_from_secret {| sk_scalar := peval F 0 |}) as Hfin.
  { intros i Hi. destruct (Hf i (HS i Hi)) as (H1 & H2 & H3).
    rewrite (honest_finalize ceremony params h polys outs ltac:(lia) Hho i _ _ (HS i Hi) H1 H2) in H3.
    by injection H3 as <-. }
  assert (pk = PublicKey_from_secret {| sk_scalar := peval F 0 |}) as ->.
  { destruct S as [|i S]; [cbn in Hlen; lia|].
    rewrite <- (Hpk i) by set_solver. apply Hfin. set_solver. }
  apply (threshold_session session S sign_rngs (df_my_share ∘ fins) F); try done.
  - apply Forall_forall. intros i Hi%HS. unfold u16, in_width. lia.
  - intros H0%HS. lia.
  - assert (length F <= Z.to_nat (vp_t params))%nat; [|lia].
    apply length_joint. intros i. unfold polys. rewrite length_dkg_poly by done. lia.
  - intros i Hi. cbn. by rewrite (proj1 (Hfin i Hi)).
Qed.

(** C24: acceptance by [dkg_finalize], for arbitrary and possibly hostile
    messages: it succeeds exactly when the own proof of possession verifies and
    there are n - 1 contributions whose indices are distinct and different from
    the own one, each for this ceremony, addressed to this validator, with a
    valid proof of possession and a share on the announced Pedersen
    commitments; the result is the sum of the announced keys and of the shares.
    The indices need not lie in 1..n: see [dkg_finalize_foreign_index]. *)
Theorem dkg_finalize_accepts own received h fin :
  1 <= vp_n (dp_params (do_private own)) < 2 ^ 16 ->
  1 <= dp_my_index (do_private own) < 2 ^ 16 ->
  dkg_finalize own received h = Ok fin <->
  Z.of_nat (length received) = vp_n (dp_params (do_private own)) - 1 /\
  verify_round1_pok (do_broadcast own) = Ok tt /\
  Forall (peer_ok own h) received /\
  NoDup ((λ p, db_from_index (pc_broadcast p)) <$> received) /\
  exists self_share,
    do_shares own !! Z.to_nat (dp_my_index (do_private own) - 1) = Some self_share /\
    fin = dkg_result own received self_share.
Proof. apply dkg_finalize_ok. Qed.

(** No range check: of two validators, the second place can be taken by a
    message of any index [k] above 2. *)
Lemma dkg_finalize_foreign_index ceremony i k t params h r1 own r1' r2 out r2' :
  1 <= t -> 1 <= i <= 2 -> 1 <= vp_t params -> 2 < k <= vp_n params -> pt_torsion_free h = true ->
  dkg_start ceremony i {| vp_n := 2; vp_t := t |} h r1 = Ok (own, r1') ->
  dkg_start ceremony k params h r2 = Ok (out, r2') ->
  exists share fin, do_shares out !! Z.to_nat (i - 1) = Some share /\
    dkg_finalize own [{| pc_broadcast := do_broadcast out; pc_share_for_me := share |}] h = Ok fin /\
    k ∈ df_qual fin.
Proof.
  intros Ht Hi Ht' Hk Hh H1 H2.
  destruct (dkg_start_ok ceremony i {| vp_n := 2; vp_t := t |} h r1 Ht Hi Hh) as (o1 & x1 & E1 & O1).
  destruct (dkg_start_ok ceremony k params h r2 Ht' ltac:(lia) Hh) as (o2 & x2 & E2 & O2).
  rewrite E1 in H1. rewrite E2 in H2. injection H1 as <- <-. injection H2 as <- <-.
  destruct (ho_share _ _ _ _ _ _ O1 i Hi) as (s & Hs & _).
  destruct (ho_share _ _ _ _ _ _ O2 i ltac:(lia)) as (s' & Hs' & Hi' & _ & Hv').
  destruct (ho_private _ _ _ _ _ _ O1) as (Hc & Hx & Hp), (ho_ids _ _ _ _ _ _ O2) as [Hc' Hx'].
  do 2 eexists. split; [exact Hs'|]. split.
  - apply dkg_finalize_ok; rewrite ?Hp, ?Hx; cbn [vp_n]; [lia..|]. split_and!; [done| | | |].
    + by apply (ho_pok _ _ _ _ _ _ O1).
    + apply Forall_singleton. unfold peer_ok. cbn. rewrite Hx, Hx', Hc, Hc'.
      split_and!; [lia|done|done|by apply (ho_pok _ _ _ _ _ _ O2)|done].
    + apply NoDup_singleton.
    + by exists s.
  - unfold dkg_result. cbn [df_qual]. rewrite merge_sort_Permutation. cbn. rewrite Hx'. set_solver.
Qed.

Lemma verify_round1_pok_panic b :
  verify_round1_pok b = Panic -> fc_coeffs (db_feldman b) = [].
Proof.
  unfold verify_round1_pok, FeldmanCommitments_secret_commitment. intros H. inv_panic.
  - by destruct (fc_coeffs _).
  - by apply PublicKey_from_bytes_no_panic in H.
  - by apply schnorr_verify_no_panic in H.
  - by destruct r1.
Qed.

Lemma dkg_check_peer_panic own h seen peer :
  dkg_check_peer own h seen peer = Panic -> fc_coeffs (db_feldman (pc_broadcast peer)) = [].
Proof.
  unfold dkg_check_peer. intros H. inv_panic.
  - by apply verify_round1_pok_panic.
  - by apply verify_share_no_panic in H.
Qed.

(** The only way to abort [dkg_finalize]: a validator that holds the
    output of its own [dkg_start] gets a value or an error for any received
    messages, unless one of them carries an empty Feldman vector. *)
Lemma dkg_finalize_panics_only_on_empty ceremony i params h r own r' received h' :
  1 <= vp_t params -> vp_n params < 2 ^ 16 -> u16 i -> pt_torsion_free h = true ->
  dkg_start ceremony i params h r = Ok (own, r') ->
  dkg_finalize own received h' = Panic ->
  exists peer, peer ∈ received /\ fc_coeffs (db_feldman (pc_broadcast peer)) = [].
Proof.
  intros Ht Hn Hu Hh Hs H. unfold u16, in_width in Hu.
  assert (1 <= i <= vp_n params) as Hi.
  { unfold dkg_start in Hs. inv_ok. apply orb_false_iff in Hb as [?%Z.eqb_neq ?%Z.ltb_ge]. lia. }
  destruct (dkg_start_ok ceremony i params h r Ht Hi Hh) as (own' & r1 & Hs' & Ho).
  rewrite Hs' in Hs. injection Hs as -> ->.
  destruct (ho_private _ _ _ _ _ _ Ho) as (_ & Hpi & Hpp).
  destruct (ho_share _ _ _ _ _ _ Ho i Hi) as (s & Hs & _).
  unfold dkg_finalize in H. rewrite (ho_pok _ _ _ _ _ _ Ho) in H.
  destruct (negb _); [done|]. cbn [mbind res_bind reject_if] in H.
  apply bind_panic_inv in H as [H|(seen & Hl & H)].
  - apply res_fold_panic in H as (seen & peer & Hp & H).
    exists peer. split; [done|]. by eapply dkg_check_peer_panic.
  - apply (seen_loop_ok _ _ _ (dkg_check_peer_ok own h')) in Hl as (HP & _).
    rewrite dkg_combine_eq in H; [|lia|eapply peers_a0; [apply (ho_pok _ _ _ _ _ _ Ho)|done]].
    by rewrite Hpi, Hs in H.
Qed.

Lemma reads_DkgRound1Broadcast b enc :
  DkgRound1Broadcast_serialize b = Some enc ->
  length (cid (db_ceremony_id b)) = 16%nat -> u16 (db_from_index b) -> wf_signature (db_pok b) ->
  reads DkgRound1Broadcast_read enc b.
Proof.
  unfold DkgRound1Broadcast_serialize, VssCommitments_serialize, FeldmanCommitments_serialize.
  intros (ped & H1 & (fel & H2 & <-%(inj Some))%bind_Some)%bind_Some Hc Hi Hsig.
  eapply reads_bind; [by apply reads_CeremonyId|].
  eapply reads_bind; [by apply reads_u16|].
  eapply reads_bind; [by apply reads_bind_last, reads_points|].
  eapply reads_bind; [by apply reads_bind_last, reads_points|].
  rewrite <- (app_nil_r (Signature_to_bytes _)).
  eapply reads_bind; [by apply reads_signature|]. destruct b as [? ? [] [] ?]. apply reads_ret.
Qed.

(** A peer contribution survives the wire: whatever was serialised is
    decoded to the same value with no byte left over; in particular
    commitment vectors of any length, the empty one included, decode. *)
Theorem PeerContribution_wire_roundtrip p enc :
  PeerContribution_serialize p = Some enc ->
  length (cid (db_ceremony_id (pc_broadcast p))) = 16%nat ->
  u16 (db_from_index (pc_broadcast p)) -> wf_signature (db_pok (pc_broadcast p)) ->
  u16 (share_index (pc_share_for_me p)) ->
  try_from_slice PeerContribution_read enc = Some p.
Proof.
  unfold PeerContribution_serialize. intros (b & Hb & <-%(inj Some))%bind_Some Hc Hi Hsig Hs.
  apply try_from_slice_reads.
  eapply reads_bind; [by apply reads_DkgRound1Broadcast|].
  rewrite <- (app_nil_r (VssShare_serialize _)).
  eapply reads_bind; [by apply reads_VssShare|]. destruct p. apply reads_ret.
Qed.
End dkg_properties.

(** ** Witnesses: three validators, threshold two *)
#[local] Existing Instance toy.
#[local] Existing Instance toy_ok.

Definition demo_cid : CeremonyId := {| cid := repeat Byte.x01 16 |}.
Definition demo_dkg_params : VssParameters := {| vp_n := 3; vp_t := 2 |}.
Definition demo_start (i : Z) : res MintError.t (DkgRound1Output * rng) :=
  dkg_start demo_cid i demo_dkg_params demo_h (demo_rng (100 + i)).

Definition no_broadcast : DkgRound1Broadcast :=
  {| db_ceremony_id := demo_cid; db_from_index := 0; db_pedersen := {| vc_coeffs := [] |};
     db_feldman := {| fc_coeffs := [] |}; db_pok := {| sig_r := repeat Byte.x00 32;
     sig_s := repeat Byte.x00 32 |} |}.
Definition no_output : DkgRound1Output :=
  {| do_broadcast := no_broadcast;
     do_private := {| dp_ceremony_id := demo_cid; dp_my_index := 0;
       dp_params := demo_dkg_params; dp_my_secret := sc_zero |};
     do_shares := [] |}.
Definition demo_outs (i : Z) : DkgRound1Output :=
  match demo_start i with Ok (o, _) => o | _ => no_output end.
Definition demo_order (j : Z) : list Z := filter (λ i, i <> j) [3; 1; 2].
Definition demo_received (j : Z) : list PeerContribution := omap (deliver demo_outs j) (demo_order j).
Definition no_fin : DkgFinalised :=
  {| df_my_index := 0; df_joint_pk := {| pk_bytes := [] |};
     df_my_share := {| sk_scalar := sc_zero |}; df_qual := [] |}.
Definition demo_fin (j : Z) : DkgFinalised :=
  match dkg_finalize (demo_outs j) (demo_received j) demo_h with Ok f => f | _ => no_fin end.

Lemma demo_cases (P : Z -> Prop) : P 1 -> P 2 -> P 3 -> forall i, 1 <= i <= 3 -> P i.
Proof. intros H1 H2 H3 i Hi. assert (i = 1 \/ i = 2 \/ i = 3) as [-> | [-> | ->]] by lia; done. Qed.

Lemma demo_start_ok i : 1 <= i <= 3 ->
  demo_start i = Ok (demo_outs i, match demo_start i with Ok (_, r) => r | _ => demo_rng 0 end).
Proof. revert i. apply demo_cases; vm_refl. Qed.

Lemma demo_order_ok j : 1 <= j <= 3 -> j :: demo_order j ≡ₚ seqZ 1 3.
Proof.
  revert j. apply demo_cases;
    match goal with |- ?l ≡ₚ ?k => apply (bool_decide_unpack (l ≡ₚ k)) end; by vm_compute.
Qed.

Lemma demo_received_ok j : 1 <= j <= 3 ->
  Forall2 (λ i p, deliver demo_outs j i = Some p) (demo_order j) (demo_received j).
Proof.
  intros Hj. apply mapM_Some. revert j Hj. apply demo_cases; vm_refl.
Qed.

Lemma demo_h_tf : pt_torsion_free demo_h = true.
Proof. vm_refl. Qed.

Lemma honest_dkg_agrees_witness :
  exists F, (length F <= 2)%nat /\
    df_joint_pk (demo_fin 2) = PublicKey_from_secret {| sk_scalar := peval F sc_zero |} /\
    df_my_share (demo_fin 2) = {| sk_scalar := peval F (sc_of_u64 2) |} /\
    df_qual (demo_fin 2) = [1; 2; 3].
Proof.
  destruct (honest_dkg_agrees demo_cid demo_dkg_params demo_h (λ i, demo_rng (100 + i)) demo_outs)
    as (F & Hl & Hf).
  - cbn; lia.
  - cbn; lia.
  - exact demo_h_tf.
  - intros i Hi. eexists. exact (demo_start_ok i Hi).
  - exists F. split; [exact Hl|]. unfold demo_fin.
    rewrite (Hf 2 (demo_order 2) (demo_received 2)); [done|cbn; lia| |].
    + apply demo_order_ok; lia.
    + apply demo_received_ok; lia.
Defined.

Lemma dkg_then_threshold_sign_witness :
  exists commit ch us r' outs3,
    aggregate_commitments demo_session [3; 1]
      (reverse (round1_msgs demo_session [3; 1] (λ i, demo_rng (200 + i)))) = Ok commit /\
    blind_request commit (df_joint_pk (demo_fin 1)) demo_msg (demo_rng 5) = Ok (ch, us, r') /\
    round3_all demo_session [3; 1] (λ i, demo_rng (200 + i)) (df_my_share ∘ demo_fin) ch = Some outs3 /\
    forall outs3', outs3' ≡ₚ outs3 -> exists resp sig,
      aggregate_responses demo_session [3; 1] outs3' = Ok resp /\
      unblind us resp = Ok sig /\
      schnorr_verify (df_joint_pk (demo_fin 1)) demo_msg sig = Ok true.
Proof.
  apply (dkg_then_threshold_sign demo_cid demo_dkg_params demo_h (λ i, demo_rng (100 + i))
    demo_outs demo_fin demo_received demo_order).
  - cbn; lia.
  - cbn; lia.
  - exact demo_h_tf.
  - intros i Hi. eexists. exact (demo_start_ok i Hi).
  - intros j Hj. split; [by apply demo_order_ok|]. split; [by apply demo_received_ok|].
    revert j Hj. apply demo_cases; vm_refl.
  - apply (bool_decide_unpack (NoDup [3; 1])). by vm_compute.
  - repeat constructor; cbn; lia.
  - cbn; lia.
  - intros i [->|[->|Hi%not_elem_of_nil]%elem_of_cons]%elem_of_cons.
    + vm_refl.
    + reflexivity.
    + destruct Hi.
  - apply reverse_Permutation.
Defined.

Lemma dkg_finalize_accepts_witness :
  exists self_share, do_shares (demo_outs 2) !! 1%nat = Some self_share /\
    demo_fin 2 = dkg_result (demo_outs 2) (demo_received 2) self_share.
Proof.
  assert (dkg_finalize (demo_outs 2) (demo_received 2) demo_h = Ok (demo_fin 2)) as H by vm_refl.
  apply dkg_finalize_accepts in H.
  - destruct H as (_ & _ & _ & _ & s & Hs & Hf). exists s. split; [exact Hs|exact Hf].
  - vm_compute. split; [discriminate|reflexivity].
  - vm_compute. split; [discriminate|reflexivity].
Defined.

(** A well-signed message with no Feldman commitment. *)
Definition demo_empty_peer (i : Z) : PeerContribution :=
  {| pc_broadcast := {| db_ceremony_id := demo_cid; db_from_index := i;
       db_pedersen := {| vc_coeffs := [] |}; db_feldman := {| fc_coeffs := [] |};
       db_pok := db_pok no_broadcast |};
     pc_share_for_me := {| share_index := 2; f_share := sc_zero; g_share := sc_zero |} |}.

Lemma dkg_finalize_panics_only_on_empty_witness :
  exists peer, peer ∈ [demo_empty_peer 1; demo_empty_peer 3] /\
               fc_coeffs (db_feldman (pc_broadcast peer)) = [].
Proof.
  apply (dkg_finalize_panics_only_on_empty demo_cid 2 demo_dkg_params demo_h (demo_rng (100 + 2))
    (demo_outs 2) (match demo_start 2 with Ok (_, r) => r | _ => demo_rng 0 end) _ demo_h).
  - cbn; lia.
  - cbn; lia.
  - unfold u16, in_width; lia.
  - exact demo_h_tf.
  - exact (demo_start_ok 2 ltac:(lia)).
  - vm_refl.
Defined.

Definition demo_peer_bytes : bytes :=
  default [] (PeerContribution_serialize (demo_empty_peer 1)).

Lemma PeerContribution_wire_roundtrip_witness :
  try_from_slice PeerContribution_read demo_peer_bytes = Some (demo_empty_peer 1).
Proof.
  apply PeerContribution_wire_roundtrip.
  - vm_refl.
  - reflexivity.
  - unfold u16, in_width; cbn; lia.
  - split; reflexivity.
  - unfold u16, in_width; cbn; lia.
Defined.
