(* ===== verification/Rotation.v ===== *)
(** * Proactive rotation of the shares

    Models [crates/tardus-mint/src/rotation.rs]: a reshare of zero on top of
    the existing shares.  The [debug_assert!] of [reshare_start] is not part of
    a release build and is left out. *)
From S2P Require Import Prelude Crypto ToyCurve Core Poly MintBase Wire Vss Sign Dkg.

Section rotation.
Context `{C : Curve}.

Record ReshareRound1Broadcast : Type := {
  rb_ceremony_id : CeremonyId;
  rb_from_index : Z;
  rb_pedersen : VssCommitments;
  rb_feldman : FeldmanCommitments;
}.

Record ReshareRound1Private : Type :=
  { rp_ceremony_id : CeremonyId; rp_my_index : Z; rp_params : VssParameters }.

Record ReshareRound1Output : Type := {
  ro_broadcast : ReshareRound1Broadcast;
  ro_private : ReshareRound1Private;
  ro_shares : list VssShare;
}.

Record ResharePeerContribution : Type :=
  { rc_broadcast : ReshareRound1Broadcast; rc_share_for_me : VssShare }.

Record ReshareFinalised : Type :=
  { rf_my_index : Z; rf_new_share : SecretKey; rf_qual : list Z }.

Definition reshare_start (ceremony_id : CeremonyId) (my_index : Z) (params : VssParameters)
    (h_gen : point) (r : rng) : res MintError.t (ReshareRound1Output * rng) :=
  _ ← reject_if ((my_index =? 0) || (vp_n params <? my_index)) MintError.UnknownParticipant;
  let zero_secret := sc_zero in
  let '(pedersen, feldman, shares, r) := deal zero_secret params h_gen r in
  Ok ({| ro_broadcast := {| rb_ceremony_id := ceremony_id; rb_from_index := my_index;
           rb_pedersen := pedersen; rb_feldman := feldman |};
         ro_private := {| rp_ceremony_id := ceremony_id; rp_my_index := my_index;
           rp_params := params |};
         ro_shares := shares |}, r).

Definition verify_reshare_round1 (b : ReshareRound1Broadcast) : res MintError.t unit :=
  a0 ← FeldmanCommitments_secret_commitment (rb_feldman b);
  if is_identity a0 then Ok tt else Err MintError.ResharePolyNonZero.

(** The body of the verification loop: the new [seen_indices]. *)
Definition reshare_check_peer (own : ReshareRound1Output) (h_gen : point)
    (seen_indices : list Z) (peer : ResharePeerContribution) : res MintError.t (list Z) :=
  let my_index := rp_my_index (ro_private own) in
  let b := rc_broadcast peer in
  _ ← reject_if (rb_from_index b =? my_index) MintError.DomainMismatch;
  _ ← reject_if (contains (rb_from_index b) seen_indices) MintError.DuplicateParticipant;
  let seen_indices := seen_indices ++ [rb_from_index b] in
  _ ← reject_if (negb (share_index (rc_share_for_me peer) =? my_index)) MintError.DomainMismatch;
  _ ← reject_if (negb (bool_decide (rb_ceremony_id b = rp_ceremony_id (ro_private own))))
                MintError.DomainMismatch;
  _ ← verify_reshare_round1 b;
  _ ← verify_share (rc_share_for_me peer) (rb_pedersen b) h_gen;
  Ok seen_indices.

(** From the summation of the reshare shares to the end. *)
Definition reshare_combine (own : ReshareRound1Output) (old_share : SecretKey)
    (received : list ResharePeerContribution) (seen_indices : list Z)
    : res MintError.t ReshareFinalised :=
  let my_index := rp_my_index (ro_private own) in
  self_share ← expect (ro_shares own !! Z.to_nat (wrap 16 (my_index - 1)));
  self_f ← ok_or MintError.VssShareInvalid (sc_from_canonical (f_share_bytes self_share));
  delta ← res_fold (λ delta peer,
    f_i ← ok_or MintError.VssShareInvalid
            (sc_from_canonical (f_share_bytes (rc_share_for_me peer)));
    Ok (delta + f_i)%sc) self_f received;
  old_scalar ← expect (sc_from_canonical (SecretKey_to_bytes old_share));
  let new_scalar := (old_scalar + delta)%sc in
  new_share ← expect_res (SecretKey_from_bytes (sc_to_bytes new_scalar));
  Ok {| rf_my_index := my_index; rf_new_share := new_share;
        rf_qual := merge_sort Z.le seen_indices |}.

Definition reshare_finalize (own : ReshareRound1Output) (old_share : SecretKey)
    (received : list ResharePeerContribution) (h_gen : point)
    : res MintError.t ReshareFinalised :=
  let my_index := rp_my_index (ro_private own) in
  let expected_received := wrap 64 (vp_n (rp_params (ro_private own)) - 1) in
  _ ← reject_if (negb (Z.of_nat (length received) =? expected_received))
                MintError.InsufficientMessages;
  _ ← verify_reshare_round1 (ro_broadcast own);
  seen_indices ← res_fold (reshare_check_peer own h_gen) [my_index] received;
  reshare_combine own old_share received seen_indices.
End rotation.

(** ** Lemmas *)
Section rotation_lemmas.
Context `{CO : CurveOk}.
Add Field rotation_field : sc_field.

Lemma verify_reshare_round1_ok b :
  verify_reshare_round1 b = Ok tt <-> head (fc_coeffs (rb_feldman b)) = Some pt_id.
Proof.
  unfold verify_reshare_round1, FeldmanCommitments_secret_commitment.
  destruct (head _) as [P|]; cbn; [|naive_solver].
  destruct (is_identity P) eqn:H; [apply is_identity_true in H; naive_solver|].
  split; [done|]. intros [= ->]. by rewrite (proj2 (is_identity_true _) eq_refl) in H.
Qed.

Definition reshare_peer_ok (own : ReshareRound1Output) (h : point)
    (peer : ResharePeerContribution) : Prop :=
  rb_from_index (rc_broadcast peer) <> rp_my_index (ro_private own) /\
  share_index (rc_share_for_me peer) = rp_my_index (ro_private own) /\
  rb_ceremony_id (rc_broadcast peer) = rp_ceremony_id (ro_private own) /\
  verify_reshare_round1 (rc_broadcast peer) = Ok tt /\
  verify_share (rc_share_for_me peer) (rb_pedersen (rc_broadcast peer)) h = Ok tt.

Lemma reshare_check_peer_ok own h seen peer seen' :
  reshare_check_peer own h seen peer = Ok seen' <->
  reshare_peer_ok own h peer /\ rb_from_index (rc_broadcast peer) ∉ seen /\
  seen' = seen ++ [rb_from_index (rc_broadcast peer)].
Proof.
  unfold reshare_check_peer, reshare_peer_ok. split.
  - intros H. by inv_res.
  - intros ((H1 & H2 & H3 & H4 & H5) & Hn & ->).
    rewrite (proj2 (Z.eqb_neq _ _) H1), (proj2 (contains_false _ _) Hn),
      (proj2 (Z.eqb_eq _ _) H2), (bool_decide_eq_true_2 _ H3).
    step. rewrite H4. step. by rewrite H5.
Qed.

Definition reshare_result (own : ReshareRound1Output) (old : SecretKey)
    (received : list ResharePeerContribution) (self_share : VssShare) : ReshareFinalised :=
  {| rf_my_index := rp_my_index (ro_private own);
     rf_new_share := {| sk_scalar := (sk_scalar old + (f_share self_share
       + sc_sum ((λ p, f_share (rc_share_for_me p)) <$> received)))%sc |};
     rf_qual := merge_sort Z.le (rp_my_index (ro_private own) ::
       ((λ p, rb_from_index (rc_broadcast p)) <$> received)) |}.

Lemma reshare_combine_eq own old received seen :
  1 <= rp_my_index (ro_private own) < 2 ^ 16 ->
  reshare_combine own old received seen =
  (self_share ← expect (ro_shares own !! Z.to_nat (rp_my_index (ro_private own) - 1));
   let d := reshare_result own old received self_share in
   Ok {| rf_my_index := rf_my_index d; rf_new_share := rf_new_share d;
         rf_qual := merge_sort Z.le seen |}).
Proof.
  intros Hi. unfold reshare_combine. rewrite wrap_small by (unfold in_width; lia).
  destruct (ro_shares own !! _) as [self|]; [|done]. step.
  unfold f_share_bytes, SecretKey_from_bytes, SecretKey_to_bytes.
  rewrite (sc_canonical_to_bytes (f_share self)). step.
  rewrite (sum_loop _ _ (λ p, f_share (rc_share_for_me p)))
    by (intros p _; by rewrite sc_canonical_to_bytes).
  step. rewrite sc_canonical_to_bytes. step. rewrite sc_canonical_to_bytes. step.
  by rewrite foldl_sc_add.
Qed.

(** Acceptance and result of [reshare_finalize], in full. *)
Lemma reshare_finalize_ok own old received h fin :
  1 <= vp_n (rp_params (ro_private own)) < 2 ^ 16 ->
  1 <= rp_my_index (ro_private own) < 2 ^ 16 ->
  reshare_finalize own old received h = Ok fin <->
  Z.of_nat (length received) = vp_n (rp_params (ro_private own)) - 1 /\
  verify_reshare_round1 (ro_broadcast own) = Ok tt /\
  Forall (reshare_peer_ok own h) received /\
  NoDup ((λ p, rb_from_index (rc_broadcast p)) <$> received) /\
  exists self_share,
    ro_shares own !! Z.to_nat (rp_my_index (ro_private own) - 1) = Some self_share /\
    fin = reshare_result own old received self_share.
Proof.
  intros Hn Hi.
  pose proof (seen_loop_ok _ _ _ (reshare_check_peer_ok own h) received
    [rp_my_index (ro_private own)]) as Hloop.
  unfold reshare_finalize. rewrite wrap_small by (unfold in_width; lia). split.
  - intros H. inv_res. apply Hloop in Hb1 as (HP & Hnd & _ & ->).
    rewrite reshare_combine_eq in H by done. inv_ok. cbn in H. injection H as <-.
    split_and!; try done. by exists r.
  - intros (Hl & Hown & HP & Hnd & self & Hself & ->).
    rewrite (proj2 (Z.eqb_eq _ _) Hl). step. rewrite Hown. step.
    rewrite (bind_ok _ _ ([rp_my_index (ro_private own)] ++
      ((λ p, rb_from_index (rc_broadcast p)) <$> received))).
    + rewrite reshare_combine_eq by done. by rewrite Hself.
    + apply Hloop. split_and!; [done|done| |done]. rewrite Forall_forall in HP.
      intros p Hp. specialize (HP p Hp) as [HP _]. set_solver.
Qed.
End rotation_lemmas.

(** ** Ceremonies *)
Section reshare_ceremony.
Context `{CO : CurveOk}.
Add Field reshare_field : sc_field.

Definition reshare_deliver (outs : Z -> ReshareRound1Output) (j i : Z)
    : option ResharePeerContribution :=
  s ← ro_shares (outs i) !! Z.to_nat (j - 1);
  Some {| rc_broadcast := ro_broadcast (outs i); rc_share_for_me := s |}.

(** A first round that passes the checks of the others: its Feldman head is
    the identity and its shares lie on [poly], whatever the constant term. *)
Record reshare_output (ceremony : CeremonyId) (params : VssParameters) (h : point)
    (poly : list scalar) (i : Z) (out : ReshareRound1Output) : Prop := {
  rso_private : rp_ceremony_id (ro_private out) = ceremony /\
                rp_my_index (ro_private out) = i /\ rp_params (ro_private out) = params;
  rso_ids : rb_ceremony_id (ro_broadcast out) = ceremony /\ rb_from_index (ro_broadcast out) = i;
  rso_a0 : verify_reshare_round1 (ro_broadcast out) = Ok tt;
  rso_share j : 1 <= j <= vp_n params -> exists share,
    ro_shares out !! Z.to_nat (j - 1) = Some share /\ share_index share = j /\
    f_share share = peval poly (sc_of_u64 j) /\
    verify_share share (rb_pedersen (ro_broadcast out)) h = Ok tt;
}.

(** A dealer that shares [d] instead of zero, and announces the Feldman vector
    of an honest dealer. *)
Definition cheating_start (d : scalar) (ceremony : CeremonyId) (i : Z) (params : VssParameters)
    (h : point) (r : rng) : ReshareRound1Output :=
  let '(ped, fel, shares, _) := deal d params h r in
  {| ro_broadcast := {| rb_ceremony_id := ceremony; rb_from_index := i; rb_pedersen := ped;
       rb_feldman := {| fc_coeffs := pt_id :: tail (fc_coeffs fel) |} |};
     ro_private := {| rp_ceremony_id := ceremony; rp_my_index := i; rp_params := params |};
     ro_shares := shares |}.

(** The polynomial of a dealing of [d]. *)
Definition deal_poly (d : scalar) (params : VssParameters) (r : rng) : list scalar :=
  d :: (random_scalars (Z.to_nat (vp_t params) - 1) r).1.

Lemma length_deal_poly d params r : 1 <= vp_t params ->
  length (deal_poly d params r) = Z.to_nat (vp_t params).
Proof. intros Ht. cbn. rewrite random_scalars_length. lia. Qed.

Lemma deal_shares_ok d params h r ped fel shares r' j :
  1 <= vp_t params -> pt_torsion_free h = true ->
  deal d params h r = (ped, fel, shares, r') -> 1 <= j <= vp_n params ->
  exists share, shares !! Z.to_nat (j - 1) = Some share /\ share_index share = j /\
    f_share share = peval (deal_poly d params r) (sc_of_u64 j) /\
    verify_share share ped h = Ok tt.
Proof.
  intros Ht Hh Hd Hj. pose proof (deal_spec_f d params h r Ht Hh) as H. rewrite Hd in H.
  destruct H as [D Hf]. unfold deal_poly. rewrite <- Hf.
  eexists. split; [by apply d_share|]. split_and!; [done|done|].
  eapply (dealing_share_verifies _ _ _ _ _ _ D j); [done|]. by apply d_share.
Qed.

Lemma reshare_start_ok ceremony i params h r out r' :
  1 <= vp_t params -> pt_torsion_free h = true ->
  reshare_start ceremony i params h r = Ok (out, r') ->
  reshare_output ceremony params h (deal_poly sc_zero params r) i out.
Proof.
  intros Ht Hh Hs. unfold reshare_start in Hs. inv_ok.
  pose proof (deal_spec sc_zero params h r Ht Hh) as D.
  destruct (deal sc_zero params h r) as [[[ped fel] shares] r2] eqn:Hd.
  injection Hs as <- <-. split; [done|done| |].
  - apply verify_reshare_round1_ok. cbn. by rewrite (d_fel_head _ _ _ _ _ _ D), pt_mul_zero.
  - intros j Hj. by apply (deal_shares_ok _ _ _ _ ped fel shares r2).
Qed.

Lemma cheating_start_ok d ceremony i params h r :
  1 <= vp_t params -> pt_torsion_free h = true ->
  reshare_output ceremony params h (deal_poly d params r) i (cheating_start d ceremony i params h r).
Proof.
  intros Ht Hh. unfold cheating_start.
  destruct (deal d params h r) as [[[ped fel] shares] r2] eqn:Hd. split; [done|done| |].
  - by apply verify_reshare_round1_ok.
  - intros j Hj. by apply (deal_shares_ok _ _ _ _ ped fel shares r2).
Qed.

Section finalize.
Context (ceremony : CeremonyId) (params : VssParameters) (h : point) (polys : Z -> list scalar)
  (outs : Z -> ReshareRound1Output).
Hypothesis Hn : 1 <= vp_n params < 2 ^ 16.
Hypothesis Houts : forall i, 1 <= i <= vp_n params ->
  reshare_output ceremony params h (polys i) i (outs i).

Lemma reshare_deliver_peer i j p : 1 <= i <= vp_n params -> 1 <= j <= vp_n params -> i <> j ->
  reshare_deliver outs j i = Some p ->
  reshare_peer_ok (outs j) h p /\ rb_from_index (rc_broadcast p) = i /\
  f_share (rc_share_for_me p) = peval (polys i) (sc_of_u64 j).
Proof using CO Houts.
  intros Hi Hj Hij Hp. unfold reshare_deliver in Hp.
  destruct (rso_share _ _ _ _ _ _ (Houts i Hi) j Hj) as (s & Hs & Hsi & Hf & Hv).
  rewrite Hs in Hp. injection Hp as <-. unfold reshare_peer_ok. cbn.
  destruct (rso_ids _ _ _ _ _ _ (Houts i Hi)) as [Hc Hfi].
  destruct (rso_private _ _ _ _ _ _ (Houts j Hj)) as (Hpc & Hpi & _).
  rewrite Hpc, Hpi, Hc, Hfi. split_and!; try done.
  by apply (rso_a0 _ _ _ _ _ _ (Houts i Hi)).
Qed.

Lemma reshare_ceremony_finalize old j order received : 1 <= j <= vp_n params ->
  j :: order ≡ₚ seqZ 1 (vp_n params) ->
  Forall2 (λ i p, reshare_deliver outs j i = Some p) order received ->
  reshare_finalize (outs j) old received h = Ok {|
    rf_my_index := j;
    rf_new_share := {| sk_scalar :=
      (sk_scalar old + peval (joint_poly polys (vp_n params)) (sc_of_u64 j))%sc |};
    rf_qual := seqZ 1 (vp_n params) |}.
Proof using All.
  intros Hj Horder Hrecv.
  assert (NoDup (j :: order)) as Hnd by (rewrite Horder; apply NoDup_seqZ).
  assert (forall i, i ∈ order -> 1 <= i <= vp_n params /\ i <> j) as Hin.
  { intros i Hi. apply NoDup_cons in Hnd as [Hnj _]. split; [|by intros ->].
    assert (i ∈ seqZ 1 (vp_n params)) as Hs%elem_of_seqZ by (rewrite <- Horder; by right). lia. }
  pose proof (λ i p Hi Hp, reshare_deliver_peer i j p (proj1 (Hin i Hi)) Hj (proj2 (Hin i Hi)) Hp)
    as Hpeer.
  destruct (rso_private _ _ _ _ _ _ (Houts j Hj)) as (Hpc & Hpi & Hpp).
  destruct (rso_share _ _ _ _ _ _ (Houts j Hj) j Hj) as (s & Hs & _ & Hf & _).
  assert (order = (λ p, rb_from_index (rc_broadcast p)) <$> received) as Hidx.
  { rewrite <- (list_fmap_id order). eapply Forall2_fmap_eq; [exact Hrecv|].
    intros i p Hi Hp. symmetry. by apply (Hpeer i p). }
  apply reshare_finalize_ok; rewrite ?Hpp, ?Hpi; [done|lia|]. split_and!.
  - rewrite <- (Forall2_length _ _ _ Hrecv). apply Permutation_length in Horder.
    rewrite length_seqZ in Horder. cbn in Horder. lia.
  - by apply (rso_a0 _ _ _ _ _ _ (Houts j Hj)).
  - apply Forall_forall. intros p Hp.
    apply list_elem_of_lookup in Hp as [k Hk].
    destruct (Forall2_lookup_r _ _ _ _ _ Hrecv Hk) as (i & Hi & Hd).
    apply (Hpeer i p); [by eapply list_elem_of_lookup_2|done].
  - rewrite <- Hidx. by apply NoDup_cons in Hnd as [_ ?].
  - exists s. split; [done|]. unfold reshare_result. rewrite Hpi, Hf.
    rewrite <- (Forall2_fmap_eq _ (λ i, peval (polys i) (sc_of_u64 j)) _ _ _ Hrecv)
      by (intros i p Hi Hp; symmetry; by apply (Hpeer i p)).
    rewrite <- Hidx, (merge_sort_seqZ _ (vp_n params)), <- sc_sum_cons by done.
    rewrite <- (fmap_cons (λ i, peval (polys i) (sc_of_u64 j)) j order).
    by rewrite peval_joint, Horder.
Qed.
End finalize.
End reshare_ceremony.

(** ** Properties *)
Section rotation_properties.
Context `{CO : CurveOk}.
Add Field rotation_field2 : sc_field.

Lemma joint_zero params rngs n :
  peval (joint_poly (λ i, deal_poly sc_zero params (rngs i)) n) sc_zero = sc_zero.
Proof. rewrite peval_joint. apply sc_sum_zero. intros i _. by rewrite peval_0. Qed.

Lemma sc_add_stays a d : (a + d = a)%sc -> d = sc_zero.
Proof. intros E. transitivity (a + d - a)%sc; [ring|]. rewrite E. ring. Qed.

(** What validator [j] adds to its share: the values at [j] of the polynomials
    that the dealers [1..n] drew, each from its own generator. *)
Definition reshare_delta (params : VssParameters) (rngs : Z -> rng) (j : Z) : scalar :=
  sc_sum ((λ i, peval (deal_poly sc_zero params (rngs i)) (sc_of_u64 j)) <$> seqZ 1 (vp_n params)).

(** C20: an honest rotation renews every share and keeps the joint secret.
    Whatever the arrival order, validator [j] finalises with its old share plus
    the sum of the shares dealt to it, taken from the polynomials 0 + r_1 x +
    ... + r_(t-1) x^(t-1) whose coefficients the dealers drew; the share stays
    the same only if that sum is zero. If the old shares lie on a polynomial of
    at most [t] coefficients, the new ones lie on its sum with the dealt
    polynomials, which has at most [t] coefficients and the same constant
    term. *)
Theorem honest_reshare_preserves_secret ceremony params h rngs outs (old : Z -> SecretKey) F :
  1 <= vp_t params -> vp_t params <= vp_n params < 2 ^ 16 -> pt_torsion_free h = true ->
  (forall i, 1 <= i <= vp_n params ->
     exists r, reshare_start ceremony i params h (rngs i) = Ok (outs i, r)) ->
  (length F <= Z.to_nat (vp_t params))%nat ->
  (forall j, 1 <= j <= vp_n params -> sk_scalar (old j) = peval F (sc_of_u64 j)) ->
  let F' := padd F (joint_poly (λ i, deal_poly sc_zero params (rngs i)) (vp_n params)) in
  (length F' <= Z.to_nat (vp_t params))%nat /\ peval F' sc_zero = peval F sc_zero /\
  forall j order received, 1 <= j <= vp_n params ->
    j :: order ≡ₚ seqZ 1 (vp_n params) ->
    Forall2 (λ i p, reshare_deliver outs j i = Some p) order received ->
    exists new, reshare_finalize (outs j) (old j) received h =
        Ok {| rf_my_index := j; rf_new_share := new; rf_qual := seqZ 1 (vp_n params) |} /\
      sk_scalar new = (sk_scalar (old j) + reshare_delta params rngs j)%sc /\
      sk_scalar new = peval F' (sc_of_u64 j) /\
      (new = old j <-> reshare_delta params rngs j = sc_zero).
Proof.
  intros Ht Hn Hh Ho HF Hold F'. unfold F'. split_and!.
  - rewrite length_padd. apply Nat.max_lub; [done|]. apply length_joint.
    intros i. by rewrite length_deal_poly.
  - rewrite peval_padd, joint_zero. ring.
  - intros j order received Hj Hp Hr. eexists. split.
    + eapply (reshare_ceremony_finalize ceremony _ _ (λ i, deal_poly sc_zero params (rngs i)));
        [lia| |done..]. intros i Hi. destruct (Ho i Hi) as [r Hs]. by apply (reshare_start_ok ceremony i params h _ _ r).
    + cbn [sk_scalar]. rewrite peval_padd, <- Hold, peval_joint by done. fold (reshare_delta params rngs j).
      split_and!; [done|done|]. destruct (old j) as [o]. cbn [sk_scalar]. split.
      * intros E. apply (f_equal sk_scalar) in E. by apply sc_add_stays in E.
      * intros ->. f_equal. ring.
Qed.

(** The checks of the ceremony do not bind a dealer to zero. One dealer
    [k] that shares any [d] and announces a Feldman vector with the identity
    at its head passes every check, and the new shares of all validators lie
    on a polynomial whose constant term is the old secret plus [d]: the joint
    key the callers still hold no longer matches the shares. *)
Theorem cheating_reshare_shifts_secret ceremony params h rngs outs (old : Z -> SecretKey) F k d :
  1 <= vp_t params -> vp_t params <= vp_n params < 2 ^ 16 -> pt_torsion_free h = true ->
  1 <= k <= vp_n params -> outs k = cheating_start d ceremony k params h (rngs k) ->
  (forall i, 1 <= i <= vp_n params -> i <> k ->
     exists r, reshare_start ceremony i params h (rngs i) = Ok (outs i, r)) ->
  (length F <= Z.to_nat (vp_t params))%nat ->
  (forall j, 1 <= j <= vp_n params -> sk_scalar (old j) = peval F (sc_of_u64 j)) ->
  exists F', (length F' <= Z.to_nat (vp_t params))%nat /\
    peval F' sc_zero = (peval F sc_zero + d)%sc /\
    forall j order received, 1 <= j <= vp_n params ->
      j :: order ≡ₚ seqZ 1 (vp_n params) ->
      Forall2 (λ i p, reshare_deliver outs j i = Some p) order received ->
      reshare_finalize (outs j) (old j) received h = Ok {|
        rf_my_index := j;
        rf_new_share := {| sk_scalar := peval F' (sc_of_u64 j) |};
        rf_qual := seqZ 1 (vp_n params) |}.
Proof.
  intros Ht Hn Hh Hk Hcheat Ho HF Hold.
  set (polys := λ i, deal_poly (if decide (i = k) then d else sc_zero) params (rngs i)).
  exists (padd F (joint_poly polys (vp_n params))). split_and!.
  - rewrite length_padd. apply Nat.max_lub; [done|]. apply length_joint.
    intros i. unfold polys. by rewrite length_deal_poly.
  - rewrite peval_padd, peval_joint. f_equal.
    rewrite (sc_sum_single _ _ k).
    + rewrite peval_0. unfold polys. by rewrite decide_True.
    + apply NoDup_seqZ.
    + apply elem_of_seqZ. lia.
    + intros i _ Hik. rewrite peval_0. unfold polys. by rewrite decide_False.
  - intros j order received Hj Hp Hr. rewrite peval_padd, <- Hold by done.
    eapply (reshare_ceremony_finalize ceremony); [lia| |done..].
    intros i Hi. unfold polys. destruct (decide (i = k)) as [->|Hik].
    + rewrite Hcheat. by apply cheating_start_ok.
    + destruct (Ho i Hi Hik) as [r Hs]. by apply (reshare_start_ok ceremony i params h _ _ r).
Qed.
End rotation_properties.

(** ** Witnesses: the key of the DKG witness, rotated *)
#[local] Existing Instance toy.
#[local] Existing Instance toy_ok.

Definition demo_poly : list scalar := [sc_of_u64 31337; sc_of_u64 5].
Definition demo_old (j : Z) : SecretKey := {| sk_scalar := peval demo_poly (sc_of_u64 j) |}.
Definition demo_reshare (i : Z) : res MintError.t (ReshareRound1Output * rng) :=
  reshare_start demo_cid i demo_dkg_params demo_h (demo_rng (300 + i)).
Definition no_reshare : ReshareRound1Output :=
  cheating_start sc_zero demo_cid 0 demo_dkg_params demo_h (demo_rng 0).
Definition demo_reshare_outs (i : Z) : ReshareRound1Output :=
  match demo_reshare i with Ok (o, _) => o | _ => no_reshare end.
(** Validator 3 cheats by 7. *)
Definition demo_cheat_outs (i : Z) : ReshareRound1Output :=
  if i =? 3 then cheating_start (sc_of_u64 7) demo_cid 3 demo_dkg_params demo_h (demo_rng (300 + 3))
  else demo_reshare_outs i.
Definition demo_reshare_received (outs : Z -> ReshareRound1Output) (j : Z) :=
  omap (reshare_deliver outs j) (demo_order j).

Lemma demo_reshare_ok i : 1 <= i <= 3 ->
  demo_reshare i =
  Ok (demo_reshare_outs i, match demo_reshare i with Ok (_, r) => r | _ => demo_rng 0 end).
Proof. revert i. apply demo_cases; vm_refl. Qed.

Lemma honest_reshare_preserves_secret_witness :
  reshare_delta demo_dkg_params (λ i, demo_rng (300 + i)) 1 <> sc_zero /\
  exists new, reshare_finalize (demo_reshare_outs 1) (demo_old 1)
      (demo_reshare_received demo_reshare_outs 1) demo_h =
        Ok {| rf_my_index := 1; rf_new_share := new; rf_qual := seqZ 1 3 |} /\
    sk_scalar new =
      (sk_scalar (demo_old 1) + reshare_delta demo_dkg_params (λ i, demo_rng (300 + i)) 1)%sc /\
    sk_scalar new = peval (padd demo_poly
      (joint_poly (λ i, deal_poly sc_zero demo_dkg_params (demo_rng (300 + i))) 3)) (sc_of_u64 1) /\
    (new = demo_old 1 <-> reshare_delta demo_dkg_params (λ i, demo_rng (300 + i)) 1 = sc_zero).
Proof.
  split; [apply (bool_decide_unpack (_ <> _)); by vm_compute|].
  destruct (honest_reshare_preserves_secret demo_cid demo_dkg_params demo_h
    (λ i, demo_rng (300 + i)) demo_reshare_outs demo_old demo_poly) as (H1 & H2 & H3).
  - cbn; lia.
  - cbn; lia.
  - exact demo_h_tf.
  - intros i Hi. eexists. exact (demo_reshare_ok i Hi).
  - cbn; lia.
  - intros j _. reflexivity.
  - apply (H3 1 (demo_order 1)); [cbn; lia|apply demo_order_ok; lia|].
    apply mapM_Some. vm_refl.
Defined.

Lemma cheating_reshare_shifts_secret_witness :
  exists F', (length F' <= 2)%nat /\
    peval F' sc_zero = (peval demo_poly sc_zero + sc_of_u64 7)%sc /\
    reshare_finalize (demo_cheat_outs 1) (demo_old 1)
      (demo_reshare_received demo_cheat_outs 1) demo_h = Ok {|
        rf_my_index := 1;
        rf_new_share := {| sk_scalar := peval F' (sc_of_u64 1) |};
        rf_qual := seqZ 1 3 |}.
Proof.
  destruct (cheating_reshare_shifts_secret demo_cid demo_dkg_params demo_h
    (λ i, demo_rng (300 + i)) demo_cheat_outs demo_old demo_poly 3 (sc_of_u64 7))
    as (F' & H1 & H2 & H3).
  - cbn; lia.
  - cbn; lia.
  - exact demo_h_tf.
  - cbn; lia.
  - reflexivity.
  - intros i Hi Hne. unfold demo_cheat_outs. rewrite (proj2 (Z.eqb_neq i 3) Hne).
    eexists. exact (demo_reshare_ok i Hi).
  - cbn; lia.
  - intros j _. reflexivity.
  - exists F'. split; [exact H1|split; [exact H2|]].
    apply (H3 1 (demo_order 1)); [cbn; lia|apply demo_order_ok; lia|].
    apply mapM_Some. vm_refl.
Defined.
