(* ===== verification/Refresh.v ===== *)
(** * The cut-and-choose refresh protocol

    Models [crates/tardus-refresh/src/{error,derivation,coin,refresh}.rs]: coins,
    the derivation of their secrets, and the six rounds that exchange one coin
    for a fresh one. *)
From S2P Require Import Prelude Crypto ToyCurve Core Poly MintBase Wire Vss Sign.

Module RefreshError.
Inductive t : Type :=
| Core (e : CoreError.t)
| Mint (e : MintError.t)
| CoinPubkeyMismatch
| CoinSignatureInvalid
| ChallengeOutOfRange
| CheatingDetected
| SessionIdMismatch
| InvalidState.
#[global] Instance t_eq_dec : EqDecision t.
Proof. solve_decision. Defined.
End RefreshError.

(** ** derivation.rs *)
Definition REFRESH_DOMAIN : bytes := ascii "TARDUS-refresh-v1".
Definition COIN_SECRET_INFO : bytes := ascii "coin-secret".

Definition derive_coin_secret `{C : Curve} (seed : bytes) : scalar :=
  sc_from_wide (hkdf_sha512 REFRESH_DOMAIN seed COIN_SECRET_INFO 64).

(** ** coin.rs *)
Definition NULLIFIER_DOMAIN : bytes := ascii "TARDUS-nullifier-v1".

Section coin.
Context `{C : Curve}.

Record Coin : Type :=
  { coin_secret : SecretKey; coin_pubkey_bytes : bytes; coin_signature : Signature }.

Definition Coin_new (secret : SecretKey) (pubkey_bytes : bytes) (signature : Signature)
    : res RefreshError.t Coin :=
  let derived := PublicKey_from_secret secret in
  _ ← reject_if (negb (bool_decide (PublicKey_to_bytes derived = pubkey_bytes)))
                RefreshError.CoinPubkeyMismatch;
  Ok {| coin_secret := secret; coin_pubkey_bytes := pubkey_bytes; coin_signature := signature |}.

Definition Coin_nullifier (c : Coin) : bytes := sha256 (NULLIFIER_DOMAIN ++ coin_pubkey_bytes c).

Definition Coin_verify (c : Coin) (joint_pk : PublicKey) : res RefreshError.t bool :=
  map_err RefreshError.Core (schnorr_verify joint_pk (coin_pubkey_bytes c) (coin_signature c)).
End coin.

(** ** refresh.rs *)
Section refresh.
Context `{C : Curve}.

Definition DEFAULT_KAPPA : Z := 3.
Definition GAMMA_DOMAIN : bytes := ascii "TARDUS-refresh-cut-and-choose-v1".

Record ValidatorRefreshR1Output : Type :=
  { vr1_session_id : SessionId; vr1_from_index : Z; vr1_r_per_candidate : list bytes }.
Record ValidatorRefreshState : Type :=
  { vrs_session_id : SessionId; vrs_my_index : Z; vrs_kappa : Z;
    vrs_k_per_candidate : list scalar }.
Record MintRefreshR1Output : Type :=
  { mr1_session_id : SessionId; mr1_kappa : Z; mr1_aggregated_r : list bytes }.
Record MintRefreshR3Challenge : Type :=
  { mr3_session_id : SessionId; mr3_gamma_star : Z }.
Record ValidatorRefreshR5Output : Type :=
  { vr5_session_id : SessionId; vr5_from_index : Z; vr5_s_partial : bytes }.
Record MintRefreshR5Response : Type :=
  { mr5_session_id : SessionId; mr5_s_aggregated : bytes }.
Record UserRefreshR2Output : Type := {
  ur2_session_id : SessionId;
  ur2_kappa : Z;
  ur2_challenges : list bytes;
  ur2_melted_coin_pubkey : bytes;
  ur2_melted_coin_signature : Signature;
}.
Record UserRefreshState : Type := {
  urs_session_id : SessionId;
  urs_kappa : Z;
  urs_joint_pk_bytes : bytes;
  urs_seeds : list bytes;
  urs_alphas : list scalar;
  urs_betas : list scalar;
  urs_r_primes : list bytes;
}.
Record RevealedCandidate : Type :=
  { rvc_candidate_index : Z; rvc_seed : bytes; rvc_alpha : bytes; rvc_beta : bytes }.
Record UserRefreshR4Reveal : Type :=
  { ur4_session_id : SessionId; ur4_revealed : list RevealedCandidate }.

Definition blind_one_candidate (r_aggregated joint_pk_pt : point) (joint_pk_bytes : bytes)
    (alpha beta : scalar) (msg : bytes) : bytes * scalar :=
  let r_prime_pt := (r_aggregated + alpha ⋅ pt_base + beta ⋅ joint_pk_pt)%pt in
  let r_prime_bytes := pt_compress r_prime_pt in
  let c_prime := sc_from_wide (sha512 (r_prime_bytes ++ joint_pk_bytes ++ msg)) in
  let c := (c_prime + beta)%sc in
  (r_prime_bytes, c).

(** [out\[0\] % kappa] divides by zero for [kappa = 0]. *)
Definition compute_gamma_star {E} (session_id : SessionId) (kappa : Z) : res E Z :=
  let out := sha256 (GAMMA_DOMAIN ++ sid session_id) in
  out0 ← expect (head out);
  if kappa =? 0 then Panic else Ok (wrap 8 (Z_of_byte out0 mod kappa + 1)).

(** The public message of a candidate: the commitment to its coin secret. *)
Definition candidate_msg (seed : bytes) : bytes :=
  let x_gamma := derive_coin_secret seed in
  pt_compress (x_gamma ⋅ pt_base)%pt.

(** *** Round 1 *)
Definition validator_refresh_round1 (session_id : SessionId) (my_index kappa : Z) (r : rng)
    : res RefreshError.t (ValidatorRefreshR1Output * ValidatorRefreshState * rng) :=
  _ ← reject_if (kappa =? 0) RefreshError.InvalidState;
  let '(k_per_candidate, r_per_candidate, r) :=
    foldl (λ '(ks, rs, r) _,
      let '(k, r) := sc_random r in
      (ks ++ [k], rs ++ [pt_compress (k ⋅ pt_base)%pt], r))
      ([], [], r) (seqZ 0 kappa) in
  Ok ({| vr1_session_id := session_id; vr1_from_index := my_index;
         vr1_r_per_candidate := r_per_candidate |},
      {| vrs_session_id := session_id; vrs_my_index := my_index; vrs_kappa := kappa;
         vrs_k_per_candidate := k_per_candidate |}, r).

Definition aggregate_refresh_round1 (session_id : SessionId) (kappa : Z) (signing_set : list Z)
    (outputs : list ValidatorRefreshR1Output) : res RefreshError.t MintRefreshR1Output :=
  _ ← reject_if (negb (length outputs =? length signing_set)%nat)
                (RefreshError.Mint MintError.InsufficientMessages);
  _ ← reject_if (kappa =? 0) RefreshError.InvalidState;
  _ ← res_fold (λ _ out,
    _ ← reject_if (negb (bool_decide (vr1_session_id out = session_id)))
                  RefreshError.SessionIdMismatch;
    _ ← reject_if (negb (Z.of_nat (length (vr1_r_per_candidate out)) =? kappa))
                  RefreshError.InvalidState;
    reject_if (negb (contains (vr1_from_index out) signing_set))
              (RefreshError.Mint MintError.UnknownParticipant)) tt outputs;
  _ ← res_fold (λ seen out,
    _ ← reject_if (contains (vr1_from_index out) seen)
                  (RefreshError.Mint MintError.DuplicateParticipant);
    Ok (seen ++ [vr1_from_index out])) [] outputs;
  aggregated ← res_fold (λ aggregated gamma_idx,
    agg ← res_fold (λ agg out,
      r_bytes ← expect (vr1_r_per_candidate out !! Z.to_nat gamma_idx);
      r ← ok_or (RefreshError.Core CoreError.InvalidPoint) (pt_decompress r_bytes);
      Ok (agg + r)%pt) pt_id outputs;
    Ok (aggregated ++ [pt_compress agg])) [] (seqZ 0 kappa);
  Ok {| mr1_session_id := session_id; mr1_kappa := kappa; mr1_aggregated_r := aggregated |}.

(** *** Round 2: one candidate *)
Record candidate : Type := {
  cd_seed : bytes; cd_alpha : scalar; cd_beta : scalar; cd_r_prime : bytes; cd_challenge : bytes;
}.

Definition user_refresh_candidate (mint_round1 : MintRefreshR1Output) (joint_pk_pt : point)
    (joint_pk_bytes : bytes) (gamma_idx : Z) (r : rng) : res RefreshError.t (candidate * rng) :=
  let '(seed, r) := rng_fill 32 r in
  let msg_gamma := candidate_msg seed in
  let '(alpha, r) := sc_random r in
  let '(beta, r) := sc_random r in
  r_bytes ← expect (mr1_aggregated_r mint_round1 !! Z.to_nat gamma_idx);
  r_aggregated ← ok_or (RefreshError.Core CoreError.InvalidPoint) (pt_decompress r_bytes);
  let '(r_prime, c) :=
    blind_one_candidate r_aggregated joint_pk_pt joint_pk_bytes alpha beta msg_gamma in
  Ok ({| cd_seed := seed; cd_alpha := alpha; cd_beta := beta; cd_r_prime := r_prime;
         cd_challenge := sc_to_bytes c |}, r).

Definition user_refresh_round2 (session_id : SessionId) (mint_round1 : MintRefreshR1Output)
    (joint_pk : PublicKey) (melted_coin : Coin) (r : rng)
    : res RefreshError.t (UserRefreshR2Output * UserRefreshState * rng) :=
  _ ← reject_if (negb (bool_decide (mr1_session_id mint_round1 = session_id)))
                RefreshError.SessionIdMismatch;
  let kappa := mr1_kappa mint_round1 in
  _ ← reject_if (kappa =? 0) RefreshError.InvalidState;
  let joint_pk_bytes := PublicKey_to_bytes joint_pk in
  joint_pk_pt ← ok_or (RefreshError.Core CoreError.InvalidPoint) (pt_decompress joint_pk_bytes);
  acc ← res_fold (λ '(cands, r) gamma_idx,
    cr ← user_refresh_candidate mint_round1 joint_pk_pt joint_pk_bytes gamma_idx r;
    let '(c, r) := cr in Ok (cands ++ [c], r)) ([], r) (seqZ 0 kappa);
  let '(cands, r) := acc in
  Ok ({| ur2_session_id := session_id; ur2_kappa := kappa;
         ur2_challenges := cd_challenge <$> cands;
         ur2_melted_coin_pubkey := coin_pubkey_bytes melted_coin;
         ur2_melted_coin_signature := coin_signature melted_coin |},
      {| urs_session_id := session_id; urs_kappa := kappa; urs_joint_pk_bytes := joint_pk_bytes;
         urs_seeds := cd_seed <$> cands; urs_alphas := cd_alpha <$> cands;
         urs_betas := cd_beta <$> cands; urs_r_primes := cd_r_prime <$> cands |}, r).

(** *** Round 3 *)
Definition mint_refresh_round3 (session_id : SessionId) (user_round2 : UserRefreshR2Output)
    (joint_pk : PublicKey) : res RefreshError.t MintRefreshR3Challenge :=
  _ ← reject_if (negb (bool_decide (ur2_session_id user_round2 = session_id)))
                RefreshError.SessionIdMismatch;
  ok ← map_err RefreshError.Core (schnorr_verify joint_pk
         (ur2_melted_coin_pubkey user_round2) (ur2_melted_coin_signature user_round2));
  _ ← reject_if (negb ok) RefreshError.CoinSignatureInvalid;
  gamma_star ← compute_gamma_star session_id (ur2_kappa user_round2);
  Ok {| mr3_session_id := session_id; mr3_gamma_star := gamma_star |}.

(** *** Round 4 *)
Definition user_refresh_round4 (state : UserRefreshState) (challenge : MintRefreshR3Challenge)
    : res RefreshError.t UserRefreshR4Reveal :=
  _ ← reject_if (negb (bool_decide (urs_session_id state = mr3_session_id challenge)))
                RefreshError.SessionIdMismatch;
  _ ← reject_if ((mr3_gamma_star challenge =? 0) || (urs_kappa state <? mr3_gamma_star challenge))
                RefreshError.ChallengeOutOfRange;
  revealed ← res_fold (λ revealed gamma,
    if gamma =? mr3_gamma_star challenge then Ok revealed else
    let idx := Z.to_nat (gamma - 1) in
    seed ← expect (urs_seeds state !! idx);
    alpha ← expect (urs_alphas state !! idx);
    beta ← expect (urs_betas state !! idx);
    Ok (revealed ++ [{| rvc_candidate_index := gamma; rvc_seed := seed;
      rvc_alpha := sc_to_bytes alpha; rvc_beta := sc_to_bytes beta |}]))
    [] (seqZ 1 (urs_kappa state));
  Ok {| ur4_session_id := urs_session_id state; ur4_revealed := revealed |}.

(** The body of the loop over the revealed candidates: the new [seen]. *)
Definition verify_revealed (user_round2 : UserRefreshR2Output) (mint_round1 : MintRefreshR1Output)
    (gamma_star kappa : Z) (joint_pk_pt : point) (joint_pk_bytes : bytes)
    (seen : list Z) (rc : RevealedCandidate) : res RefreshError.t (list Z) :=
  _ ← reject_if ((rvc_candidate_index rc =? 0) || (kappa <? rvc_candidate_index rc))
                RefreshError.ChallengeOutOfRange;
  _ ← reject_if (rvc_candidate_index rc =? gamma_star) RefreshError.CheatingDetected;
  _ ← reject_if (contains (rvc_candidate_index rc) seen) RefreshError.CheatingDetected;
  let seen := seen ++ [rvc_candidate_index rc] in
  let idx := Z.to_nat (rvc_candidate_index rc - 1) in
  let msg_gamma := candidate_msg (rvc_seed rc) in
  alpha ← ok_or (RefreshError.Core CoreError.InvalidScalar) (sc_from_canonical (rvc_alpha rc));
  beta ← ok_or (RefreshError.Core CoreError.InvalidScalar) (sc_from_canonical (rvc_beta rc));
  r_bytes ← expect (mr1_aggregated_r mint_round1 !! idx);
  r_agg ← ok_or (RefreshError.Core CoreError.InvalidPoint) (pt_decompress r_bytes);
  let '(_, c_recomputed) :=
    blind_one_candidate r_agg joint_pk_pt joint_pk_bytes alpha beta msg_gamma in
  submitted ← expect (ur2_challenges user_round2 !! idx);
  _ ← reject_if (negb (bool_decide (sc_to_bytes c_recomputed = submitted)))
                RefreshError.CheatingDetected;
  Ok seen.

Definition mint_refresh_verify_reveal (user_round2 : UserRefreshR2Output)
    (mint_round1 : MintRefreshR1Output) (challenge : MintRefreshR3Challenge)
    (reveal : UserRefreshR4Reveal) (joint_pk : PublicKey) : res RefreshError.t unit :=
  _ ← reject_if (negb (bool_decide (ur2_session_id user_round2 = mr3_session_id challenge))
              || negb (bool_decide (ur4_session_id reveal = mr3_session_id challenge))
              || negb (bool_decide (mr1_session_id mint_round1 = mr3_session_id challenge)))
                RefreshError.SessionIdMismatch;
  let kappa := ur2_kappa user_round2 in
  _ ← reject_if (negb (Z.of_nat (length (ur4_revealed reveal)) =? wrap 8 (kappa - 1)))
                RefreshError.CheatingDetected;
  let joint_pk_bytes := PublicKey_to_bytes joint_pk in
  joint_pk_pt ← ok_or (RefreshError.Core CoreError.InvalidPoint) (pt_decompress joint_pk_bytes);
  _ ← res_fold (verify_revealed user_round2 mint_round1 (mr3_gamma_star challenge) kappa
                  joint_pk_pt joint_pk_bytes) [] (ur4_revealed reveal);
  Ok tt.

(** *** Round 5 *)
Definition validator_refresh_round5 (val_state : ValidatorRefreshState)
    (user_round2 : UserRefreshR2Output) (challenge : MintRefreshR3Challenge)
    (my_share : SecretKey) (signing_set : list Z) : res RefreshError.t ValidatorRefreshR5Output :=
  _ ← reject_if (negb (bool_decide (vrs_session_id val_state = mr3_session_id challenge))
              || negb (bool_decide (ur2_session_id user_round2 = mr3_session_id challenge)))
                RefreshError.SessionIdMismatch;
  _ ← reject_if ((mr3_gamma_star challenge =? 0)
              || (vrs_kappa val_state <? mr3_gamma_star challenge))
                RefreshError.ChallengeOutOfRange;
  let idx := Z.to_nat (mr3_gamma_star challenge - 1) in
  c_bytes ← expect (ur2_challenges user_round2 !! idx);
  c ← ok_or (RefreshError.Core CoreError.InvalidScalar) (sc_from_canonical c_bytes);
  lambda ← map_err RefreshError.Mint
             (lagrange_coefficient_at_zero signing_set (vrs_my_index val_state));
  sk_scalar ← expect (sc_from_canonical (SecretKey_to_bytes my_share));
  k_i_gamma ← expect (vrs_k_per_candidate val_state !! idx);
  let s_i := (k_i_gamma + c * lambda * sk_scalar)%sc in
  Ok {| vr5_session_id := vrs_session_id val_state; vr5_from_index := vrs_my_index val_state;
        vr5_s_partial := sc_to_bytes s_i |}.

Definition aggregate_refresh_round5 (session_id : SessionId) (signing_set : list Z)
    (outputs : list ValidatorRefreshR5Output) : res RefreshError.t MintRefreshR5Response :=
  _ ← reject_if (negb (length outputs =? length signing_set)%nat)
                (RefreshError.Mint MintError.InsufficientMessages);
  acc ← res_fold (λ '(s_agg, seen) out,
    _ ← reject_if (negb (bool_decide (vr5_session_id out = session_id)))
                  RefreshError.SessionIdMismatch;
    _ ← reject_if (negb (contains (vr5_from_index out) signing_set))
                  (RefreshError.Mint MintError.UnknownParticipant);
    _ ← reject_if (contains (vr5_from_index out) seen)
                  (RefreshError.Mint MintError.DuplicateParticipant);
    s ← ok_or (RefreshError.Core CoreError.InvalidScalar) (sc_from_canonical (vr5_s_partial out));
    Ok ((s_agg + s)%sc, seen ++ [vr5_from_index out])) (sc_zero, []) outputs;
  Ok {| mr5_session_id := session_id; mr5_s_aggregated := sc_to_bytes acc.1 |}.

(** *** Round 6 *)
Definition user_refresh_round6 (state : UserRefreshState) (challenge : MintRefreshR3Challenge)
    (response : MintRefreshR5Response) (joint_pk : PublicKey) : res RefreshError.t Coin :=
  _ ← reject_if (negb (bool_decide (urs_session_id state = mr3_session_id challenge))
              || negb (bool_decide (mr5_session_id response = mr3_session_id challenge)))
                RefreshError.SessionIdMismatch;
  _ ← reject_if ((mr3_gamma_star challenge =? 0) || (urs_kappa state <? mr3_gamma_star challenge))
                RefreshError.ChallengeOutOfRange;
  let idx := Z.to_nat (mr3_gamma_star challenge - 1) in
  s ← ok_or (RefreshError.Core CoreError.InvalidScalar)
            (sc_from_canonical (mr5_s_aggregated response));
  alpha ← expect (urs_alphas state !! idx);
  let s_prime := (s + alpha)%sc in
  r_prime ← expect (urs_r_primes state !! idx);
  seed ← expect (urs_seeds state !! idx);
  let x := derive_coin_secret seed in
  secret ← expect_res (SecretKey_from_bytes (sc_to_bytes x));
  let pubkey := PublicKey_from_secret secret in
  let sig := {| sig_r := r_prime; sig_s := sc_to_bytes s_prime |} in
  ok ← map_err RefreshError.Core (schnorr_verify joint_pk (PublicKey_to_bytes pubkey) sig);
  _ ← reject_if (negb ok) RefreshError.CoinSignatureInvalid;
  Coin_new secret (PublicKey_to_bytes pubkey) sig.
End refresh.
