(* ===== verification/RefreshProps.v ===== *)
(** * Properties of the refresh protocol

    Completeness of the six rounds, what an accepted reveal guarantees, and
    what a user can rely on in the coin of round 6. *)
From S2P Require Import Prelude Crypto ToyCurve Core Poly MintBase Wire Vss Sign Refresh.

#[local] Arguments blind_one_candidate : simpl never.
#[local] Arguments candidate_msg : simpl never.

Section refresh_lemmas.
Context `{CO : CurveOk}.
Add Field refresh_field : sc_field.

(** ** Round 1 *)
Lemma round1_nonces (l : list Z) ks rs r :
  foldl (λ '(ks, rs, r) _,
      let '(k, r) := sc_random r in
      (ks ++ [k], rs ++ [pt_compress (k ⋅ pt_base)%pt], r)) (ks, rs, r) l =
  (ks ++ (random_scalars (length l) r).1,
   rs ++ ((λ k, pt_compress (k ⋅ pt_base)%pt) <$> (random_scalars (length l) r).1),
   (random_scalars (length l) r).2).
Proof.
  revert ks rs r; induction l as [|a l IH]; intros ks rs r; cbn [foldl length random_scalars].
  { cbn. by rewrite !app_nil_r. }
  destruct (sc_random r) as [k r']. rewrite IH.
  destruct (random_scalars (length l) r') as [l' r'']. cbn. by rewrite <- !app_assoc.
Qed.

(** The nonces validator [i] draws. *)
Definition nonces (kappa : Z) (r : rng) : list scalar := (random_scalars (Z.to_nat kappa) r).1.

Lemma length_nonces kappa r : length (nonces kappa r) = Z.to_nat kappa.
Proof. apply random_scalars_length. Qed.

Lemma validator_refresh_round1_eq session i kappa r : 1 <= kappa ->
  validator_refresh_round1 session i kappa r =
  Ok ({| vr1_session_id := session; vr1_from_index := i;
         vr1_r_per_candidate := (λ k, pt_compress (k ⋅ pt_base)%pt) <$> nonces kappa r |},
      {| vrs_session_id := session; vrs_my_index := i; vrs_kappa := kappa;
         vrs_k_per_candidate := nonces kappa r |},
      (random_scalars (Z.to_nat kappa) r).2).
Proof.
  intros Hk. unfold validator_refresh_round1, nonces. replace (kappa =? 0) with false by lia. step.
  rewrite round1_nonces, length_seqZ. done.
Qed.

Definition nonce (kappa : Z) (r : rng) (gamma : nat) : scalar :=
  default sc_zero (nonces kappa r !! gamma).

Lemma lookup_nonces kappa r gamma : (gamma < Z.to_nat kappa)%nat ->
  nonces kappa r !! gamma = Some (nonce kappa r gamma).
Proof.
  intros H. unfold nonce. destruct (lookup_lt_is_Some_2 (nonces kappa r) gamma) as [k ->]; [|done].
  by rewrite length_nonces.
Qed.

(** A loop that appends one computed element per step. *)
Lemma push_loop {E A V B} (f : A -> res E V) (h : V -> B) (g : A -> V) l acc :
  (forall a, a ∈ l -> f a = Ok (g a)) ->
  res_fold (λ acc a, b ← f a; Ok (acc ++ [h b])) acc l = Ok (acc ++ ((h ∘ g) <$> l)).
Proof.
  revert acc; induction l as [|a l IH]; intros acc H; cbn [res_fold]; [by rewrite app_nil_r|].
  rewrite H by set_solver. step. rewrite IH by set_solver. by rewrite <- app_assoc.
Qed.

Lemma check_loop {E A} (f : A -> res E unit) l :
  (forall a, a ∈ l -> f a = Ok tt) -> res_fold (λ _ a, f a) tt l = Ok tt.
Proof.
  induction l as [|a l IH]; intros H; [done|]. cbn [res_fold].
  rewrite H by set_solver. step. apply IH. set_solver.
Qed.

(** A loop that adds one decoded value per step, as in [sum_loop], with the
    decoding spread over the body. *)
Lemma add_loop {E A V} (f : V -> A -> res E V) (add : V -> V -> V) (g : A -> V) l acc :
  (forall acc a, a ∈ l -> f acc a = Ok (add acc (g a))) ->
  res_fold f acc l = Ok (foldl add acc (g <$> l)).
Proof.
  revert acc; induction l as [|a l IH]; intros acc H; [done|].
  cbn [res_fold]. rewrite H by set_solver. step. apply IH. set_solver.
Qed.

(** The round-1 message of validator [i], and the sum of the nonces of slot
    [g] over the signing set. *)
Definition r1_msg (session : SessionId) (kappa : Z) (rngs : Z -> rng) (i : Z)
    : ValidatorRefreshR1Output :=
  {| vr1_session_id := session; vr1_from_index := i;
     vr1_r_per_candidate := (λ k, pt_compress (k ⋅ pt_base)%pt) <$> nonces kappa (rngs i) |}.
Definition nonce_sum (kappa : Z) (rngs : Z -> rng) (S : list Z) (g : Z) : scalar :=
  sc_sum ((λ i, nonce kappa (rngs i) (Z.to_nat g)) <$> S).

Lemma aggregate_refresh_round1_ok session kappa rngs S outs :
  1 <= kappa -> NoDup S -> outs ≡ₚ r1_msg session kappa rngs <$> S ->
  aggregate_refresh_round1 session kappa S outs =
  Ok {| mr1_session_id := session; mr1_kappa := kappa;
        mr1_aggregated_r := (λ g, pt_compress (nonce_sum kappa rngs S g ⋅ pt_base)%pt)
                            <$> seqZ 0 kappa |}.
Proof.
  intros Hk Hnd (S' & -> & HS)%Permutation_map_inv.
  change (map ?f S') with (f <$> S').
  assert (forall o, o ∈ (r1_msg session kappa rngs <$> S') ->
    exists i, i ∈ S /\ o = r1_msg session kappa rngs i) as Ho.
  { intros o (i & -> & Hi)%list_elem_of_fmap. exists i. by rewrite HS. }
  unfold aggregate_refresh_round1. rewrite length_fmap, <- (Permutation_length HS), Nat.eqb_refl.
  replace (kappa =? 0) with false by lia. step.
  rewrite (bind_ok _ _ tt).
  2:{ apply check_loop. intros o (i & Hi & ->)%Ho. cbn.
      rewrite bool_decide_eq_true_2, length_fmap, length_nonces by done.
      rewrite Z2Nat.id, Z.eqb_refl, (proj2 (contains_true _ _) Hi) by lia. done. }
  rewrite (bind_ok _ _ ([] ++ (vr1_from_index <$> (r1_msg session kappa rngs <$> S')))).
  2:{ apply (seen_loop_ok _ (λ _, True) vr1_from_index).
      - intros seen o seen'. split; [intros H; by inv_res|]. intros (_ & Hn & ->).
        by rewrite (proj2 (contains_false _ _) Hn).
      - split_and!; [by apply Forall_true| |intros; apply not_elem_of_nil|done].
        rewrite <- list_fmap_compose, (list_fmap_ext _ id), list_fmap_id by done.
        by rewrite <- HS. }
  rewrite (push_loop _ pt_compress (λ g, (nonce_sum kappa rngs S g ⋅ pt_base)%pt)); [done|].
  intros g Hg%elem_of_seqZ.
  rewrite (add_loop _ pt_add (λ o, (default sc_zero
    (nonces kappa (rngs (vr1_from_index o)) !! Z.to_nat g)) ⋅ pt_base)%pt).
  - rewrite foldl_pt_add, pt_add_id_l, pt_sum_mul_base, <- list_fmap_compose.
    unfold nonce_sum. by rewrite HS.
  - intros acc o (i & Hi & ->)%Ho. cbn. rewrite list_lookup_fmap, lookup_nonces by lia. cbn.
    by rewrite pt_decompress_compress.
Qed.

(** ** Round 2 *)

(** What a candidate has to look like for the commitment [R] and key [P]. *)
Definition candidate_ok (R P : point) (pkb : bytes) (c : candidate) : Prop :=
  let '(rp, ch) :=
    blind_one_candidate R P pkb (cd_alpha c) (cd_beta c) (candidate_msg (cd_seed c)) in
  cd_r_prime c = rp /\ cd_challenge c = sc_to_bytes ch.

Lemma user_candidate_ok mr1 P pkb g r R :
  mr1_aggregated_r mr1 !! Z.to_nat g = Some (pt_compress R) ->
  exists c r', user_refresh_candidate mr1 P pkb g r = Ok (c, r') /\ candidate_ok R P pkb c.
Proof.
  intros HR. unfold user_refresh_candidate, candidate_ok.
  destruct (rng_fill 32 r) as [seed r1], (sc_random r1) as [a r2]. 
  destruct (sc_random r2) as [b r3]. rewrite HR. step. rewrite pt_decompress_compress. step.
  destruct (blind_one_candidate R P pkb a b (candidate_msg seed)) as [rp ch] eqn:Hb.
  do 2 eexists. split; [done|].
  cbn [cd_alpha cd_beta cd_seed cd_r_prime cd_challenge]. by rewrite Hb.
Qed.

Lemma user_candidates_loop mr1 P pkb l cands r :
  (forall g, g ∈ l -> exists R, mr1_aggregated_r mr1 !! Z.to_nat g = Some (pt_compress R)) ->
  exists cands' r',
    res_fold (λ '(cands, r) gamma_idx,
      cr ← user_refresh_candidate mr1 P pkb gamma_idx r;
      let '(c, r) := cr in Ok (cands ++ [c], r)) (cands, r) l = Ok (cands ++ cands', r') /\
    Forall2 (λ g c, exists R, mr1_aggregated_r mr1 !! Z.to_nat g = Some (pt_compress R) /\
      candidate_ok R P pkb c) l cands'.
Proof.
  revert cands r; induction l as [|g l IH]; intros cands r H.
  { exists [], r. by rewrite app_nil_r. }
  cbn [res_fold]. destruct (H g) as [R HR]; [set_solver|].
  destruct (user_candidate_ok mr1 P pkb g r R HR) as (c & r1 & -> & Hc). step.
  destruct (IH (cands ++ [c]) r1) as (cands' & r' & Hl & HF); [set_solver|].
  exists (c :: cands'), r'. rewrite Hl, <- app_assoc. split; [done|]. constructor; [|done].
  by exists R.
Qed.

(** ** The challenge *)
Lemma compute_gamma_star_ok {E} session kappa : 1 <= kappa < 256 ->
  exists g, compute_gamma_star (E := E) session kappa = Ok g /\ 1 <= g <= kappa.
Proof.
  intros Hk. unfold compute_gamma_star.
  pose proof (sha256_length (GAMMA_DOMAIN ++ sid session)) as Hl.
  destruct (sha256 _) as [|b l]; [done|]. step. cbn [head]. step.
  replace (kappa =? 0) with false by lia. pose proof (Z_of_byte_range b).
  pose proof (Z.mod_pos_bound (Z_of_byte b) kappa ltac:(lia)).
  rewrite wrap_small by (unfold in_width; lia). eexists. split; [done|]. lia.
Qed.

(** ** Reveal *)

(** The entry [rc] of a reveal opens its candidate: the challenge submitted for
    the slot it names is the blinding, under the factors of the entry and the
    mint's commitment of that slot, of the coin derived from its seed. *)
Definition opens_candidate (ur2 : UserRefreshR2Output) (mr1 : MintRefreshR1Output)
    (P : point) (pkb : bytes) (rc : RevealedCandidate) : Prop :=
  exists alpha beta R,
    sc_from_canonical (rvc_alpha rc) = Some alpha /\
    sc_from_canonical (rvc_beta rc) = Some beta /\
    (b ← mr1_aggregated_r mr1 !! Z.to_nat (rvc_candidate_index rc - 1); pt_decompress b) = Some R /\
    ur2_challenges ur2 !! Z.to_nat (rvc_candidate_index rc - 1) =
    Some (sc_to_bytes (blind_one_candidate R P pkb alpha beta (candidate_msg (rvc_seed rc))).2).

(** What the loop asks of an entry. *)
Definition revealed_ok (ur2 : UserRefreshR2Output) (mr1 : MintRefreshR1Output)
    (gamma_star kappa : Z) (P : point) (pkb : bytes) (rc : RevealedCandidate) : Prop :=
  rvc_candidate_index rc <> 0 /\ rvc_candidate_index rc <= kappa /\
  rvc_candidate_index rc <> gamma_star /\ opens_candidate ur2 mr1 P pkb rc.

Lemma verify_revealed_ok ur2 mr1 g kappa P pkb seen rc seen' :
  verify_revealed ur2 mr1 g kappa P pkb seen rc = Ok seen' <->
  revealed_ok ur2 mr1 g kappa P pkb rc /\ rvc_candidate_index rc ∉ seen /\
  seen' = seen ++ [rvc_candidate_index rc].
Proof.
  unfold verify_revealed, revealed_ok. split.
  - intros H. inv_res.
    destruct (blind_one_candidate _ _ _ _ _ _) as [rp ch] eqn:Hbl. inv_res.
    split_and!; [lia|lia|done| |done|done].
    exists r2, r3, r5. rewrite Hb4. cbn. rewrite Hb5, Hbl, Hb6. cbn. by subst.
  - intros ((H0 & H1 & H2 & a & b & R & Ha & Hb & HR & Hc) & Hn & ->).
    replace (rvc_candidate_index rc =? 0) with false by lia.
    replace (kappa <? rvc_candidate_index rc) with false by lia. step.
    rewrite (proj2 (Z.eqb_neq _ _) H2), (proj2 (contains_false _ _) Hn), Ha, Hb. step.
    apply bind_Some in HR as (rb & -> & HR). step. rewrite HR. step.
    destruct (blind_one_candidate _ _ _ _ _ _) as [rp ch]. rewrite Hc. step.
    by rewrite bool_decide_eq_true_2.
Qed.

(** Acceptance by [mint_refresh_verify_reveal], in full. *)
Lemma verify_reveal_spec ur2 mr1 ch rv pk : 1 <= ur2_kappa ur2 < 256 ->
  mint_refresh_verify_reveal ur2 mr1 ch rv pk = Ok tt <->
  (ur2_session_id ur2 = mr3_session_id ch /\ ur4_session_id rv = mr3_session_id ch /\
   mr1_session_id mr1 = mr3_session_id ch) /\
  Z.of_nat (length (ur4_revealed rv)) = ur2_kappa ur2 - 1 /\
  NoDup (rvc_candidate_index <$> ur4_revealed rv) /\
  exists P, pt_decompress (pk_bytes pk) = Some P /\
    Forall (revealed_ok ur2 mr1 (mr3_gamma_star ch) (ur2_kappa ur2) P (pk_bytes pk))
           (ur4_revealed rv).
Proof.
  intros Hk. unfold mint_refresh_verify_reveal, PublicKey_to_bytes.
  rewrite wrap_small by (unfold in_width; lia). split.
  - intros H. inv_res.
    apply seen_loop_ok with (1 := verify_revealed_ok _ _ _ _ _ _) in Hb2 as (HP & Hnd & _ & _).
    repeat match goal with H : negb _ = false |- _ => apply negb_false_iff in H end.
    repeat match goal with H : bool_decide _ = true |- _ => apply bool_decide_eq_true in H end.
    eauto 10.
  - intros ((H1 & H2 & H3) & Hl & Hnd & P & HP & HF).
    rewrite (bool_decide_eq_true_2 _ H1), (bool_decide_eq_true_2 _ H2), (bool_decide_eq_true_2 _ H3).
    rewrite (proj2 (Z.eqb_eq _ _) Hl), HP. cbn [orb]. step.
    rewrite (bind_ok _ _ ([] ++ (rvc_candidate_index <$> ur4_revealed rv))); [done|].
    apply (seen_loop_ok _ _ _ (verify_revealed_ok _ _ _ _ _ _)).
    split_and!; [done|done| |done]. intros; apply not_elem_of_nil.
Qed.

(** ** Round 4 *)
Definition no_candidate : candidate :=
  {| cd_seed := []; cd_alpha := sc_zero; cd_beta := sc_zero; cd_r_prime := []; cd_challenge := [] |}.
Definition cand_of (cands : list candidate) (g : Z) : candidate :=
  default no_candidate (cands !! Z.to_nat (g - 1)).
Definition open_of (cands : list candidate) (g : Z) : RevealedCandidate :=
  let c := cand_of cands g in
  {| rvc_candidate_index := g; rvc_seed := cd_seed c; rvc_alpha := sc_to_bytes (cd_alpha c);
     rvc_beta := sc_to_bytes (cd_beta c) |}.

Lemma lookup_cand {B} (f : candidate -> B) cands g : 1 <= g <= Z.of_nat (length cands) ->
  (f <$> cands) !! Z.to_nat (g - 1) = Some (f (cand_of cands g)).
Proof.
  intros Hg. rewrite list_lookup_fmap. unfold cand_of.
  destruct (lookup_lt_is_Some_2 cands (Z.to_nat (g - 1))) as [c ->]; [lia|done].
Qed.

Lemma round4_loop cands gs l acc :
  (forall g, g ∈ l -> 1 <= g <= Z.of_nat (length cands)) ->
  res_fold (E := RefreshError.t) (λ revealed gamma,
    if gamma =? gs then Ok revealed else
    let idx := Z.to_nat (gamma - 1) in
    seed ← expect ((cd_seed <$> cands) !! idx);
    alpha ← expect ((cd_alpha <$> cands) !! idx);
    beta ← expect ((cd_beta <$> cands) !! idx);
    Ok (revealed ++ [{| rvc_candidate_index := gamma; rvc_seed := seed;
      rvc_alpha := sc_to_bytes alpha; rvc_beta := sc_to_bytes beta |}])) acc l =
  Ok (acc ++ (open_of cands <$> filter (λ g, g <> gs) l)).
Proof.
  revert acc; induction l as [|g l IH]; intros acc H; cbn [res_fold]; [by rewrite app_nil_r|].
  destruct (Z.eqb_spec g gs) as [->|Hne].
  - step. rewrite filter_cons_False by (intros Hn; by apply Hn). apply IH. set_solver.
  - rewrite !lookup_cand by (apply H; set_solver). step.
    rewrite IH by set_solver. rewrite filter_cons_True by done.
    by rewrite fmap_cons, <- app_assoc.
Qed.

(** ** Aggregation of round 5 *)
Lemma aggregate_refresh_round5_ok session S outs (s_of : ValidatorRefreshR5Output -> scalar) :
  NoDup (vr5_from_index <$> outs) -> (vr5_from_index <$> outs) ≡ₚ S ->
  (forall o, o ∈ outs -> vr5_session_id o = session /\
     sc_from_canonical (vr5_s_partial o) = Some (s_of o)) ->
  aggregate_refresh_round5 session S outs =
  Ok {| mr5_session_id := session; mr5_s_aggregated := sc_to_bytes (sc_sum (s_of <$> outs)) |}.
Proof.
  intros Hnd HS Ho. unfold aggregate_refresh_round5.
  assert (length outs = length S) as Hl by (apply Permutation_length in HS; by rewrite length_fmap in HS).
  rewrite (proj2 (Nat.eqb_eq _ _) Hl). step.
  assert (forall o, o ∈ outs -> vr5_from_index o ∈ S) as Hin
    by (intros o Hin; rewrite <- HS; by apply list_elem_of_fmap_2).
  rewrite (res_fold_ok_intro _ (λ '(s, seen) o, ((s + s_of o)%sc, seen ++ [vr5_from_index o]))
    (λ '(s, seen) l, l ⊆ outs /\ NoDup (seen ++ (vr5_from_index <$> l)))).
  - step. f_equal. f_equal.
    assert (forall l a seen, (foldl (λ '(s, seen) o, ((s + s_of o)%sc, seen ++ [vr5_from_index o]))
      (a, seen) l).1 = foldl sc_add a (s_of <$> l)) as Hf.
    { induction l as [|o l IH]; intros a seen; [done|]. cbn. apply IH. }
    rewrite Hf, foldl_sc_add. f_equal. ring.
  - split; [set_solver|done].
  - intros [s seen] o l [Hsub Hn]. rewrite fmap_cons in Hn.
    destruct (Ho o) as [H1 H2]; [set_solver|].
    rewrite (bool_decide_eq_true_2 _ H1), (proj2 (contains_true _ S) (Hin o ltac:(set_solver))), H2.
    rewrite (proj2 (contains_false _ seen)).
    + step. split; [done|]. split; [set_solver|]. by rewrite <- app_assoc.
    + intros Hs. apply NoDup_app in Hn as (_ & Hn & _). apply (Hn _ Hs). by left.
Qed.
End refresh_lemmas.

(** ** One honest exchange *)

(** Round 5 of every member of the signing set. *)
Definition round5_all `{C : Curve} (S : list Z) (states : Z -> ValidatorRefreshState)
    (share : Z -> SecretKey) (ur2 : UserRefreshR2Output) (ch : MintRefreshR3Challenge)
    : option (list ValidatorRefreshR5Output) :=
  mapM (λ i, match validator_refresh_round5 (states i) ur2 ch (share i) S with
             | Ok o => Some o | _ => None end) S.

Section exchange.
Context `{CO : CurveOk}.
Add Field exchange_field : sc_field.
Context (session : SessionId) (kappa : Z) (rngs : Z -> rng) (S : list Z) (share : Z -> SecretKey)
  (cs : list scalar).
Hypothesis Hkappa : 1 <= kappa < 256.

Let pk : PublicKey := PublicKey_from_secret {| sk_scalar := peval cs 0 |}.
Let P : point := (peval cs 0 ⋅ pt_base)%pt.
Let R (g : Z) : point := (nonce_sum kappa rngs S (g - 1) ⋅ pt_base)%pt.

Definition mr1_of : MintRefreshR1Output :=
  {| mr1_session_id := session; mr1_kappa := kappa;
     mr1_aggregated_r := (λ g, pt_compress (nonce_sum kappa rngs S g ⋅ pt_base)%pt)
                         <$> seqZ 0 kappa |}.
Definition ur2_of (melted : Coin) (cands : list candidate) : UserRefreshR2Output :=
  {| ur2_session_id := session; ur2_kappa := kappa; ur2_challenges := cd_challenge <$> cands;
     ur2_melted_coin_pubkey := coin_pubkey_bytes melted;
     ur2_melted_coin_signature := coin_signature melted |}.
Definition urs_of (cands : list candidate) : UserRefreshState :=
  {| urs_session_id := session; urs_kappa := kappa; urs_joint_pk_bytes := PublicKey_to_bytes pk;
     urs_seeds := cd_seed <$> cands; urs_alphas := cd_alpha <$> cands;
     urs_betas := cd_beta <$> cands; urs_r_primes := cd_r_prime <$> cands |}.

(** The candidates of a completed round 2. *)
Definition cands_ok (cands : list candidate) : Prop :=
  Z.of_nat (length cands) = kappa /\
  forall g, 1 <= g <= kappa -> candidate_ok (R g) P (pk_bytes pk) (cand_of cands g).

Lemma mr1_lookup g : 0 <= g < kappa ->
  mr1_aggregated_r mr1_of !! Z.to_nat g =
  Some (pt_compress (nonce_sum kappa rngs S g ⋅ pt_base)%pt).
Proof using Hkappa.
  intros Hg. unfold mr1_of. cbn. rewrite list_lookup_fmap, lookup_seqZ_lt by lia. cbn.
  by replace (0 + Z.of_nat (Z.to_nat g)) with g by lia.
Qed.

Lemma round2_ok melted r : exists cands r', cands_ok cands /\
  user_refresh_round2 session mr1_of pk melted r = Ok (ur2_of melted cands, urs_of cands, r').
Proof using CO Hkappa.
  destruct (PublicKey_from_secret_valid {| sk_scalar := peval cs 0 |}) as [HP _]. fold pk in HP.
  destruct (user_candidates_loop mr1_of P (pk_bytes pk) (seqZ 0 kappa) [] r)
    as (cands & r' & Hl & HF).
  { intros g Hg%elem_of_seqZ. eexists. apply mr1_lookup. lia. }
  exists cands, r'. split.
  - pose proof (Forall2_length _ _ _ HF) as Hlen. rewrite length_seqZ in Hlen.
    split; [lia|]. intros g Hg. unfold cand_of.
    destruct (lookup_lt_is_Some_2 cands (Z.to_nat (g - 1))) as [c Hc]; [lia|]. rewrite Hc.
    destruct (Forall2_lookup_r _ _ _ _ _ HF Hc) as (z & Hz & R' & HR' & Hok).
    rewrite lookup_seqZ_lt in Hz by lia. injection Hz as <-.
    rewrite mr1_lookup in HR' by lia. apply (inj Some), pt_compress_inj in HR' as <-.
    unfold R. by replace (g - 1) with (0 + Z.of_nat (Z.to_nat (g - 1))) by lia.
  - unfold user_refresh_round2. cbn [mr1_of mr1_session_id mr1_kappa].
    rewrite bool_decide_eq_true_2 by done. step. replace (kappa =? 0) with false by lia. step.
    unfold PublicKey_to_bytes in *. rewrite HP. step. cbn [sk_scalar] in *. fold P.
    by rewrite Hl.
Qed.

Lemma mint_round3_ok melted cands g : Coin_verify melted pk = Ok true ->
  compute_gamma_star (E := RefreshError.t) session kappa = Ok g ->
  mint_refresh_round3 session (ur2_of melted cands) pk = Ok {| mr3_session_id := session; mr3_gamma_star := g |}.
Proof using CO.
  intros Hm Hg. unfold mint_refresh_round3, ur2_of. cbn [ur2_session_id ur2_kappa ur2_melted_coin_pubkey
    ur2_melted_coin_signature]. rewrite bool_decide_eq_true_2 by done. step.
  apply map_err_ok in Hm. rewrite Hm. step. by rewrite Hg.
Qed.

Lemma round4_ok cands ch : cands_ok cands -> mr3_session_id ch = session ->
  1 <= mr3_gamma_star ch <= kappa ->
  user_refresh_round4 (urs_of cands) ch =
  Ok {| ur4_session_id := session;
        ur4_revealed := open_of cands <$> filter (λ g, g <> mr3_gamma_star ch) (seqZ 1 kappa) |}.
Proof using CO Hkappa.
  intros [Hl _] Hs Hg. unfold user_refresh_round4. cbn.
  rewrite bool_decide_eq_true_2 by done.
  replace (mr3_gamma_star ch =? 0) with false by lia.
  replace (kappa <? mr3_gamma_star ch) with false by lia. step.
  rewrite round4_loop; [done|]. intros g Hin%elem_of_seqZ. lia.
Qed.

Lemma reveal_ok melted cands ch : cands_ok cands -> mr3_session_id ch = session ->
  1 <= mr3_gamma_star ch <= kappa ->
  mint_refresh_verify_reveal (ur2_of melted cands) mr1_of ch
    {| ur4_session_id := session;
       ur4_revealed := open_of cands <$> filter (λ g, g <> mr3_gamma_star ch) (seqZ 1 kappa) |}
    pk = Ok tt.
Proof using CO Hkappa.
  intros [Hl Hc] Hs Hg. apply verify_reveal_spec; [done|]. cbn. split; [done|].
  pose proof (length_filter_ne (mr3_gamma_star ch) (seqZ 1 kappa) (NoDup_seqZ _ _)) as Hlen.
  rewrite length_seqZ in Hlen. rewrite <- list_fmap_compose.
  rewrite (list_fmap_ext _ id), list_fmap_id by done.
  split; [rewrite length_fmap; specialize (Hlen ltac:(apply elem_of_seqZ; lia)); lia|].
  split; [apply NoDup_filter, NoDup_seqZ|].
  exists P. split; [apply (PublicKey_from_secret_valid {| sk_scalar := peval cs 0 |})|].
  apply Forall_fmap, Forall_forall. intros g [Hne Hin%elem_of_seqZ]%list_elem_of_filter.
  unfold revealed_ok, opens_candidate. cbn. split_and!; [lia|lia|done|].
  exists (cd_alpha (cand_of cands g)), (cd_beta (cand_of cands g)), (R g).
  pose proof (Hc g ltac:(lia)) as Hok. unfold candidate_ok in Hok.
  rewrite !sc_canonical_to_bytes. split_and!; [done|done| |].
  - change (list_fmap _ _ ?f (seqZ 0 kappa)) with (f <$> seqZ 0 kappa).
    pose proof (mr1_lookup (g - 1) ltac:(lia)) as Hm. cbn in Hm. rewrite Hm. cbn.
    apply pt_decompress_compress.
  - rewrite lookup_cand by lia. f_equal.
    destruct (blind_one_candidate _ _ _ _ _ _) as [rp c]. by destruct Hok as [_ ->].
Qed.

Lemma challenge_canonical cands g : cands_ok cands -> 1 <= g <= kappa ->
  exists c, sc_from_canonical (cd_challenge (cand_of cands g)) = Some c.
Proof using CO Hkappa.
  intros [_ Hc] Hg. specialize (Hc g Hg). unfold candidate_ok in Hc.
  destruct (blind_one_candidate _ _ _ _ _ _) as [rp c]. destruct Hc as [_ ->].
  eexists. apply sc_canonical_to_bytes.
Qed.

Definition r1_state (i : Z) : ValidatorRefreshState :=
  {| vrs_session_id := session; vrs_my_index := i; vrs_kappa := kappa;
     vrs_k_per_candidate := nonces kappa (rngs i) |}.

(** The partial signature of signer [i] on the candidate that was kept. *)
Definition refresh_partial (g : Z) (c : scalar) (i : Z) : scalar :=
  (nonce kappa (rngs i) (Z.to_nat (g - 1)) +
    c * lagrange_basis (sc_of_u64 <$> S) (sc_of_u64 i) 0 * peval cs (sc_of_u64 i))%sc.

Lemma round5_eq ur2 cands ch c i :
  cands_ok cands -> ur2_session_id ur2 = session -> ur2_challenges ur2 = cd_challenge <$> cands ->
  mr3_session_id ch = session -> 1 <= mr3_gamma_star ch <= kappa ->
  Forall u16 S -> i ∈ S -> 0 ∉ S -> sk_scalar (share i) = peval cs (sc_of_u64 i) ->
  sc_from_canonical (cd_challenge (cand_of cands (mr3_gamma_star ch))) = Some c ->
  validator_refresh_round5 (r1_state i) ur2 ch (share i) S =
    Ok {| vr5_session_id := session; vr5_from_index := i;
          vr5_s_partial := sc_to_bytes (refresh_partial (mr3_gamma_star ch) c i) |}.
Proof using CO Hkappa.
  intros [Hl _] Hus Huc Hs Hg HS Hi H0 Hsh Hc. unfold validator_refresh_round5. cbn -[Z.sub].
  rewrite Hus, Huc, !bool_decide_eq_true_2 by done. cbn [orb]. step.
  replace (mr3_gamma_star ch =? 0) with false by lia.
  replace (kappa <? mr3_gamma_star ch) with false by lia. cbn [orb]. step.
  rewrite lookup_cand by lia. step. rewrite Hc. step.
  rewrite lagrange_ok by done. step. unfold SecretKey_to_bytes.
  rewrite sc_canonical_to_bytes. step. rewrite lookup_nonces by lia. step. by rewrite Hsh.
Qed.

Lemma sum_refresh_partials g c : NoDup S -> Forall u16 S -> (length cs <= length S)%nat ->
  sc_sum (refresh_partial g c <$> S) = (nonce_sum kappa rngs S (g - 1) + c * peval cs 0)%sc.
Proof using CO.
  intros Hnd HS Hlen. rewrite <- (lagrange_reconstruct cs S) by done. unfold nonce_sum.
  rewrite <- sc_sum_mul_l, <- sc_sum_add. f_equal. apply list_fmap_ext. intros. unfold refresh_partial. ring.
Qed.

Lemma round5_ok states melted cands ch c :
  (forall i, i ∈ S -> states i = r1_state i) ->
  cands_ok cands -> mr3_session_id ch = session -> 1 <= mr3_gamma_star ch <= kappa ->
  NoDup S -> Forall u16 S -> 0 ∉ S -> (length cs <= length S)%nat ->
  (forall i, i ∈ S -> sk_scalar (share i) = peval cs (sc_of_u64 i)) ->
  sc_from_canonical (cd_challenge (cand_of cands (mr3_gamma_star ch))) = Some c ->
  exists outs, round5_all S states share (ur2_of melted cands) ch = Some outs /\
    forall outs', outs' ≡ₚ outs -> aggregate_refresh_round5 session S outs' =
      Ok {| mr5_session_id := session; mr5_s_aggregated :=
        sc_to_bytes (nonce_sum kappa rngs S (mr3_gamma_star ch - 1) + c * peval cs 0)%sc |}.
Proof using CO Hkappa.
  intros Hst Hcands Hs Hg Hnd HS H0 Hlen Hsh Hc. eexists. split.
  - apply mapM_decode. intros i Hi. rewrite Hst by done.
    rewrite (round5_eq _ cands _ c) by (done || by apply Hsh). done.
  - intros outs' (S' & -> & HP)%Permutation_map_inv.
    change (map ?f S') with (f <$> S'). set (out_of := λ i, {| vr5_session_id := session; vr5_from_index := i;
      vr5_s_partial := sc_to_bytes (refresh_partial (mr3_gamma_star ch) c i) |}).
    assert (vr5_from_index <$> (out_of <$> S') = S') as Hidx.
    { rewrite <- list_fmap_compose, (list_fmap_ext _ id) by done. apply list_fmap_id. }
    rewrite (aggregate_refresh_round5_ok _ _ _ (λ o, refresh_partial (mr3_gamma_star ch) c (vr5_from_index o))).
    + rewrite <- list_fmap_compose, (list_fmap_ext _ (refresh_partial (mr3_gamma_star ch) c)) by done.
      by rewrite <- HP, sum_refresh_partials.
    + by rewrite Hidx, <- HP.
    + by rewrite Hidx, <- HP.
    + intros o (i & -> & _)%list_elem_of_fmap. split; [done|]. apply sc_canonical_to_bytes.
Qed.

(** A coin of the user's own key, with a signature of 64 bytes. *)
Definition own_coin (coin : Coin) : Prop :=
  coin_pubkey_bytes coin = PublicKey_to_bytes (PublicKey_from_secret (coin_secret coin)) /\
  wf_signature (coin_signature coin).

(** The user's last round on any response: it returns a coin exactly when the
    response answers the challenge of the candidate that was kept. *)
Lemma round6_exact cands ch c s :
  cands_ok cands -> mr3_session_id ch = session -> 1 <= mr3_gamma_star ch <= kappa ->
  sc_from_canonical (cd_challenge (cand_of cands (mr3_gamma_star ch))) = Some c ->
  let out := user_refresh_round6 (urs_of cands) ch
      {| mr5_session_id := session; mr5_s_aggregated := sc_to_bytes s |} pk in
  if decide (s ⋅ pt_base = R (mr3_gamma_star ch) + c ⋅ P)%pt
  then exists coin, out = Ok coin /\ Coin_verify coin pk = Ok true /\ own_coin coin
  else out = Err RefreshError.CoinSignatureInvalid.
Proof using CO Hkappa.
  intros [Hl Hok] Hs Hg Hc out. specialize (Hok _ Hg). unfold candidate_ok in Hok. unfold out.
  destruct (PublicKey_from_secret_valid {| sk_scalar := peval cs 0 |}) as [HP Ht]. fold pk in HP.
  unfold user_refresh_round6. cbn -[Z.sub PublicKey_from_secret].
  rewrite !bool_decide_eq_true_2 by done. cbn [orb]. step.
  replace (mr3_gamma_star ch =? 0) with false by lia.
  replace (kappa <? mr3_gamma_star ch) with false by lia. cbn [orb]. step.
  rewrite !lookup_cand, sc_canonical_to_bytes by lia. step.
  set (cd := cand_of cands (mr3_gamma_star ch)) in *.
  unfold SecretKey_from_bytes. rewrite sc_canonical_to_bytes. step.
  unfold blind_one_candidate in Hok. destruct Hok as [-> Hch].
  rewrite Hch, sc_canonical_to_bytes in Hc. injection Hc as Hc.
  set (sig := {| sig_r := _; sig_s := _ |}).
  pose proof (schnorr_verify_bool pk P (candidate_msg (cd_seed cd)) sig _ _ HP (pt_decompress_compress _)
    (sc_canonical_to_bytes _)) as Hv.
  unfold PublicKey_to_bytes. cbn [PublicKey_from_secret pk_bytes sk_scalar].
  change (pt_compress _) with (candidate_msg (cd_seed cd)).
  pose proof (response_unblinds_iff (R (mr3_gamma_star ch)) s
    (schnorr_challenge (sig_r sig) (pk_bytes pk) (candidate_msg (cd_seed cd))) (cd_beta cd) (cd_alpha cd) P Ht) as Hiff.
  match type of Hiff with ?X <-> _ =>
    assert (X <-> (s ⋅ pt_base = R (mr3_gamma_star ch) + c ⋅ P)%pt) as Hiff' by (rewrite <- Hc; exact Hiff) end.
  match goal with |- context [decide ?X] => destruct (decide X) as [Hd|Hd] end;
    [rewrite bool_decide_eq_true_2 in Hv by (apply Hiff'; exact Hd)|
    rewrite bool_decide_eq_false_2 in Hv by (intros E; apply Hd, Hiff', E)];
    rewrite Hv; step; [|done].
  unfold Coin_new, PublicKey_to_bytes. cbn [PublicKey_from_secret pk_bytes sk_scalar].
  rewrite bool_decide_eq_true_2 by done. step. eexists. split; [done|].
  unfold Coin_verify. cbn [coin_pubkey_bytes coin_signature]. rewrite Hv. split; [done|].
  split; [done|]. split; cbn [coin_signature sig sig_r sig_s]; auto with tardus.
Qed.

Lemma round6_ok cands ch c :
  cands_ok cands -> mr3_session_id ch = session -> 1 <= mr3_gamma_star ch <= kappa ->
  sc_from_canonical (cd_challenge (cand_of cands (mr3_gamma_star ch))) = Some c ->
  exists coin, user_refresh_round6 (urs_of cands) ch
      {| mr5_session_id := session; mr5_s_aggregated :=
        sc_to_bytes (nonce_sum kappa rngs S (mr3_gamma_star ch - 1) + c * peval cs 0)%sc |} pk
    = Ok coin /\ Coin_verify coin pk = Ok true.
Proof using CO Hkappa.
  intros Hc Hs Hg Hcan. pose proof (round6_exact cands ch c
    (nonce_sum kappa rngs S (mr3_gamma_star ch - 1) + c * peval cs 0)%sc Hc Hs Hg Hcan) as H.
  cbn zeta in H. rewrite decide_True in H by apply response_equation.
  destruct H as (coin & Hr & Hv & _). by exists coin.
Qed.
End exchange.

(** ** A whole session *)
Section whole_session.
Context `{CO : CurveOk}.

(** The six rounds, between signers whose shares lie on [cs] and a user. *)
Lemma refresh_session session kappa rngs S share cs melted r_user msgs states outs1 :
  let pk := PublicKey_from_secret {| sk_scalar := peval cs 0 |} in
  1 <= kappa < 256 -> NoDup S -> Forall u16 S -> 0 ∉ S -> (length cs <= length S)%nat ->
  (forall i, i ∈ S -> sk_scalar (share i) = peval cs (sc_of_u64 i)) ->
  Coin_verify melted pk = Ok true ->
  (forall i, i ∈ S -> exists r,
     validator_refresh_round1 session i kappa (rngs i) = Ok (msgs i, states i, r)) ->
  outs1 ≡ₚ msgs <$> S ->
  exists mr1 ur2 urs r' ch rv outs5,
    aggregate_refresh_round1 session kappa S outs1 = Ok mr1 /\
    user_refresh_round2 session mr1 pk melted r_user = Ok (ur2, urs, r') /\
    mint_refresh_round3 session ur2 pk = Ok ch /\
    user_refresh_round4 urs ch = Ok rv /\
    mint_refresh_verify_reveal ur2 mr1 ch rv pk = Ok tt /\
    round5_all S states share ur2 ch = Some outs5 /\
    forall outs5', outs5' ≡ₚ outs5 -> exists resp coin,
      aggregate_refresh_round5 session S outs5' = Ok resp /\
      user_refresh_round6 urs ch resp pk = Ok coin /\
      Coin_verify coin pk = Ok true.
Proof.
  intros pk Hk Hnd HS H0 Hlen Hsh Hmelt Hr1 Ho1.
  assert (forall i, i ∈ S -> msgs i = r1_msg session kappa rngs i /\
    states i = r1_state session kappa rngs i) as Hst.
  { intros i [r Hr]%Hr1. rewrite validator_refresh_round1_eq in Hr by lia.
    injection Hr as <- <- _. done. }
  destruct (round2_ok session kappa rngs S cs Hk melted r_user) as (cands & r' & Hc & H2).
  destruct (compute_gamma_star_ok (E := RefreshError.t) session kappa Hk) as (g & Hg & Hgr).
  set (ch := {| mr3_session_id := session; mr3_gamma_star := g |}).
  destruct (challenge_canonical kappa rngs S cs Hk cands g Hc Hgr) as [c Hcc].
  destruct (round5_ok session kappa rngs S share cs Hk states melted cands ch c) as (outs5 & H5 & Ha5);
    [by intros i [_ ?]%Hst|done..|].
  destruct (round6_ok session kappa rngs S cs Hk cands ch c Hc eq_refl Hgr Hcc) as (coin & H6 & Hv).
  do 4 eexists. exists ch. do 2 eexists. split_and!.
  - apply (aggregate_refresh_round1_ok _ _ rngs); [lia|done|]. rewrite Ho1.
    apply Permutation_refl', list_fmap_ext. intros k i Hi%list_elem_of_lookup_2. by apply Hst.
  - exact H2.
  - by apply (mint_round3_ok session kappa cs).
  - by apply (round4_ok session kappa rngs S cs).
  - by apply (reveal_ok session kappa rngs S cs Hk melted cands ch).
  - exact H5.
  - intros outs5' Hp. eexists _, coin. split_and!; [by apply Ha5|done|done].
Qed.
End whole_session.

(** ** Properties *)
Section refresh_properties.
Context `{CO : CurveOk}.
Add Field refresh_field2 : sc_field.

(** C2: completeness of the refresh. A signing set whose shares lie on a
    polynomial and a user holding a valid coin run the six rounds without an
    error, for every [kappa] and every generator state, and messages arriving
    in any order: the reveal is accepted, and the user ends with a coin that
    verifies under the joint key. *)
Theorem refresh_complete session kappa rngs S share cs melted r_user msgs states outs1 :
  let pk := PublicKey_from_secret {| sk_scalar := peval cs 0 |} in
  1 <= kappa < 256 -> NoDup S -> Forall u16 S -> 0 ∉ S -> (length cs <= length S)%nat ->
  (forall i, i ∈ S -> sk_scalar (share i) = peval cs (sc_of_u64 i)) ->
  Coin_verify melted pk = Ok true ->
  (forall i, i ∈ S -> exists r,
     validator_refresh_round1 session i kappa (rngs i) = Ok (msgs i, states i, r)) ->
  outs1 ≡ₚ msgs <$> S ->
  exists mr1 ur2 urs r' ch rv outs5,
    aggregate_refresh_round1 session kappa S outs1 = Ok mr1 /\
    user_refresh_round2 session mr1 pk melted r_user = Ok (ur2, urs, r') /\
    mint_refresh_round3 session ur2 pk = Ok ch /\
    user_refresh_round4 urs ch = Ok rv /\
    mint_refresh_verify_reveal ur2 mr1 ch rv pk = Ok tt /\
    round5_all S states share ur2 ch = Some outs5 /\
    forall outs5', outs5' ≡ₚ outs5 -> exists resp coin,
      aggregate_refresh_round5 session S outs5' = Ok resp /\
      user_refresh_round6 urs ch resp pk = Ok coin /\
      Coin_verify coin pk = Ok true.
Proof. apply refresh_session. Qed.

(** The indices of an accepted reveal: every slot but the chosen one, once. *)
Lemma revealed_indices ur2 mr1 gamma kappa P pkb revealed : 1 <= gamma <= kappa ->
  Forall (λ rc, 0 <= rvc_candidate_index rc) revealed ->
  Z.of_nat (length revealed) = kappa - 1 /\ NoDup (rvc_candidate_index <$> revealed) /\
    Forall (revealed_ok ur2 mr1 gamma kappa P pkb) revealed <->
  (rvc_candidate_index <$> revealed) ≡ₚ filter (λ g, g <> gamma) (seqZ 1 kappa) /\
    Forall (opens_candidate ur2 mr1 P pkb) revealed.
Proof.
  intros Hg Hu8. rewrite Forall_forall in Hu8.
  pose proof (length_filter_ne gamma (seqZ 1 kappa) (NoDup_seqZ _ _)
      ltac:(apply elem_of_seqZ; lia)) as Hf. rewrite length_seqZ in Hf.
  split; [intros (Hlen & Hnd & HF)|intros (Hp & HF)]; rewrite Forall_forall in HF.
  - split; [|apply Forall_forall; intros rc Hrc; by destruct (HF rc Hrc) as (_ & _ & _ & ?)].
    apply NoDup_fill; [done| |rewrite length_fmap; lia].
    intros x (rc & -> & Hrc)%list_elem_of_fmap. specialize (Hu8 rc Hrc).
    destruct (HF rc Hrc) as (H1 & H2 & H3 & _).
    apply list_elem_of_filter. split; [done|]. apply elem_of_seqZ. lia.
  - split_and!.
    + apply Permutation_length in Hp. rewrite length_fmap in Hp. lia.
    + rewrite Hp. apply NoDup_filter, NoDup_seqZ.
    + apply Forall_forall. intros rc Hrc.
      assert (rvc_candidate_index rc ∈ filter (λ g, g <> gamma) (seqZ 1 kappa))
        as [Hne Hr%elem_of_seqZ]%list_elem_of_filter
        by (rewrite <- Hp; by apply list_elem_of_fmap_2).
      split_and!; [lia|lia|done|by apply HF].
Qed.

(** C23: what an accepted reveal contains, exactly. With [gamma_star] in range,
    the mint accepts a reveal if and only if the three messages are of the
    session of its challenge, the joint key decodes, the entries of the reveal
    name every slot from 1 to [kappa] but the chosen one, each once, and every
    entry opens its slot: the challenge that round 2 submitted for the slot is
    the one recomputed from the entry's own seed and blinding factors and the
    commitment the mint sent for the slot. *)
Theorem verify_reveal_covers_all ur2 mr1 ch rv pk :
  1 <= ur2_kappa ur2 < 256 -> 1 <= mr3_gamma_star ch <= ur2_kappa ur2 ->
  Forall (λ rc, 0 <= rvc_candidate_index rc) (ur4_revealed rv) ->
  mint_refresh_verify_reveal ur2 mr1 ch rv pk = Ok tt <->
  (ur2_session_id ur2 = mr3_session_id ch /\ ur4_session_id rv = mr3_session_id ch /\
   mr1_session_id mr1 = mr3_session_id ch) /\
  (rvc_candidate_index <$> ur4_revealed rv) ≡ₚ
    filter (λ g, g <> mr3_gamma_star ch) (seqZ 1 (ur2_kappa ur2)) /\
  exists P, pt_decompress (pk_bytes pk) = Some P /\
    Forall (opens_candidate ur2 mr1 P (pk_bytes pk)) (ur4_revealed rv).
Proof.
  intros Hk Hg Hu8. rewrite verify_reveal_spec by done.
  pose proof (λ P, revealed_indices ur2 mr1 _ _ P (pk_bytes pk) _ Hg Hu8) as Hi. split.
  - intros (Hs & Hlen & Hnd & P & HP & HF).
    destruct (proj1 (Hi P) (conj Hlen (conj Hnd HF))) as [Hp Ho]. eauto.
  - intros (Hs & Hp & P & HP & Ho). destruct (proj2 (Hi P) (conj Hp Ho)) as (Hlen & Hnd & HF). eauto 6.
Qed.

(** The cut-and-choose index is in range for every session and every
    [kappa] a validator accepts; it is a function of the session identifier
    alone, and [kappa = 0] aborts. *)
Theorem compute_gamma_star_range session kappa : 0 <= kappa < 256 ->
  if kappa =? 0 then compute_gamma_star (E := RefreshError.t) session kappa = Panic
  else exists g, compute_gamma_star (E := RefreshError.t) session kappa = Ok g /\ 1 <= g <= kappa.
Proof.
  intros Hk. destruct (Z.eqb_spec kappa 0) as [->|Hne]; [|apply compute_gamma_star_ok; lia].
  unfold compute_gamma_star. by destruct (head _).
Qed.

(** The number of candidates is taken from the user's own message. A user
    that announces [kappa = 1] opens nothing: round 3 picks slot 1, and the
    empty reveal is accepted for any challenge bytes whatever, although the
    mint committed to [mr1_kappa] candidates. *)
Theorem kappa_one_bypasses_cut_and_choose session mr1 ur2 pk P :
  pt_decompress (pk_bytes pk) = Some P ->
  mr1_session_id mr1 = session -> ur2_session_id ur2 = session -> ur2_kappa ur2 = 1 ->
  schnorr_verify pk (ur2_melted_coin_pubkey ur2) (ur2_melted_coin_signature ur2) = Ok true ->
  let ch := {| mr3_session_id := session; mr3_gamma_star := 1 |} in
  mint_refresh_round3 session ur2 pk = Ok ch /\
  mint_refresh_verify_reveal ur2 mr1 ch {| ur4_session_id := session; ur4_revealed := [] |} pk = Ok tt.
Proof.
  intros HP Hs1 Hs2 Hk Hv ch. split.
  - unfold mint_refresh_round3. rewrite Hs2, bool_decide_eq_true_2 by done. step.
    rewrite Hv. step. rewrite Hk.
    destruct (compute_gamma_star_ok (E := RefreshError.t) session 1 ltac:(lia)) as (g & -> & Hg).
    step. unfold ch. by replace g with 1 by lia.
  - apply verify_reveal_spec; [lia|]. rewrite Hk. cbn. split_and!; [done|done|done|done|constructor|].
    exists P. split; [done|constructor].
Qed.

(** The user accepts nothing but a spendable coin. Whatever the mint
    answers, a coin returned by round 6 verifies under the joint key given,
    and its public bytes are those of the secret derived from the seed of the
    chosen slot. *)
Theorem round6_coin_is_valid urs ch resp pk coin :
  user_refresh_round6 urs ch resp pk = Ok coin ->
  Coin_verify coin pk = Ok true /\
  exists seed, urs_seeds urs !! Z.to_nat (mr3_gamma_star ch - 1) = Some seed /\
    sk_scalar (coin_secret coin) = derive_coin_secret seed /\
    coin_pubkey_bytes coin = pk_bytes (PublicKey_from_secret (coin_secret coin)).
Proof.
  intros H. unfold user_refresh_round6 in H. inv_ok. apply negb_false_iff in Hb7. subst.
  unfold Coin_new in H. inv_ok. subst coin. cbn [coin_secret coin_pubkey_bytes coin_signature].
  unfold SecretKey_from_bytes in Hb5. rewrite sc_canonical_to_bytes in Hb5. inv_ok. subst.
  split; [exact (f_equal (map_err RefreshError.Core) Hb6)|]. exists r4. split; [done|]. split; [|reflexivity]. by apply (inj Some).
Qed.
End refresh_properties.

(** ** Witnesses: two validators of the DKG polynomial, three candidates *)
#[local] Existing Instance toy.
#[local] Existing Instance toy_ok.

Definition demo_cs : list scalar := [sc_of_u64 31337; sc_of_u64 5].
Definition demo_sh (i : Z) : SecretKey := {| sk_scalar := peval demo_cs (sc_of_u64 i) |}.
Definition demo_joint : PublicKey := PublicKey_from_secret {| sk_scalar := peval demo_cs sc_zero |}.
Definition demo_coin_secret : SecretKey := {| sk_scalar := sc_of_u64 4242 |}.
Definition demo_coin : Coin :=
  {| coin_secret := demo_coin_secret;
     coin_pubkey_bytes := pk_bytes (PublicKey_from_secret demo_coin_secret);
     coin_signature := (schnorr_sign {| sk_scalar := peval demo_cs sc_zero |} demo_joint
       (pk_bytes (PublicKey_from_secret demo_coin_secret)) (demo_rng 5)).1 |}.
Definition demo_r1 (i : Z) : ValidatorRefreshR1Output :=
  r1_msg demo_session 3 (λ i, demo_rng (400 + i)) i.
Definition demo_r1_state (i : Z) : ValidatorRefreshState :=
  r1_state demo_session 3 (λ i, demo_rng (400 + i)) i.
Definition demo_ur2 : UserRefreshR2Output :=
  {| ur2_session_id := demo_session; ur2_kappa := 1; ur2_challenges := [[Byte.x00]];
     ur2_melted_coin_pubkey := coin_pubkey_bytes demo_coin;
     ur2_melted_coin_signature := coin_signature demo_coin |}.
Definition demo_mr1 : MintRefreshR1Output :=
  mr1_of demo_session 3 (λ i, demo_rng (400 + i)) [3; 1].
Definition demo_round2 : UserRefreshR2Output * UserRefreshState * rng :=
  match user_refresh_round2 demo_session demo_mr1 demo_joint demo_coin (demo_rng 6) with
  | Ok x => x
  | _ => (demo_ur2, {| urs_session_id := demo_session; urs_kappa := 0; urs_joint_pk_bytes := [];
           urs_seeds := []; urs_alphas := []; urs_betas := []; urs_r_primes := [] |}, demo_rng 0)
  end.
Definition demo_ch : MintRefreshR3Challenge :=
  match mint_refresh_round3 demo_session demo_round2.1.1 demo_joint with
  | Ok c => c | _ => {| mr3_session_id := demo_session; mr3_gamma_star := 0 |} end.
Definition demo_reveal : UserRefreshR4Reveal :=
  match user_refresh_round4 demo_round2.1.2 demo_ch with
  | Ok r => r | _ => {| ur4_session_id := demo_session; ur4_revealed := [] |} end.
Definition demo_r5 : list ValidatorRefreshR5Output :=
  default [] (round5_all [3; 1] demo_r1_state demo_sh demo_round2.1.1 demo_ch).
Definition demo_resp : MintRefreshR5Response :=
  match aggregate_refresh_round5 demo_session [3; 1] demo_r5 with
  | Ok r => r | _ => {| mr5_session_id := demo_session; mr5_s_aggregated := [] |} end.
Definition demo_new_coin : Coin :=
  match user_refresh_round6 demo_round2.1.2 demo_ch demo_resp demo_joint with
  | Ok c => c | _ => demo_coin end.

Lemma refresh_complete_witness :
  exists mr1 ur2 urs r' ch rv outs5,
    aggregate_refresh_round1 demo_session 3 [3; 1] [demo_r1 1; demo_r1 3] = Ok mr1 /\
    user_refresh_round2 demo_session mr1 demo_joint demo_coin (demo_rng 6) = Ok (ur2, urs, r') /\
    mint_refresh_round3 demo_session ur2 demo_joint = Ok ch /\
    user_refresh_round4 urs ch = Ok rv /\
    mint_refresh_verify_reveal ur2 mr1 ch rv demo_joint = Ok tt /\
    round5_all [3; 1] demo_r1_state demo_sh ur2 ch = Some outs5 /\
    forall outs5', outs5' ≡ₚ outs5 -> exists resp coin,
      aggregate_refresh_round5 demo_session [3; 1] outs5' = Ok resp /\
      user_refresh_round6 urs ch resp demo_joint = Ok coin /\
      Coin_verify coin demo_joint = Ok true.
Proof.
  apply (refresh_complete demo_session 3 (λ i, demo_rng (400 + i)) [3; 1] demo_sh demo_cs demo_coin
    (demo_rng 6) demo_r1).
  - lia.
  - apply (bool_decide_unpack (NoDup [3; 1])). by vm_compute.
  - repeat constructor; unfold in_width; lia.
  - apply (bool_decide_unpack (0 ∉ [3; 1])). by vm_compute.
  - cbn; lia.
  - intros i _. reflexivity.
  - vm_refl.
  - intros i _. eexists. apply validator_refresh_round1_eq. lia.
  - apply Permutation_swap.
Defined.

(** Three slots, of which the chosen one stays closed. *)
Lemma verify_reveal_covers_all_witness :
  (rvc_candidate_index <$> ur4_revealed demo_reveal) ≡ₚ
    filter (λ g, g <> mr3_gamma_star demo_ch) (seqZ 1 3) /\
  exists P, pt_decompress (pk_bytes demo_joint) = Some P /\
    Forall (opens_candidate demo_round2.1.1 demo_mr1 P (pk_bytes demo_joint))
      (ur4_revealed demo_reveal).
Proof.
  apply (verify_reveal_covers_all demo_round2.1.1 demo_mr1 demo_ch demo_reveal demo_joint).
  - vm_compute. split; [discriminate|reflexivity].
  - vm_compute. split; discriminate.
  - apply (bool_decide_unpack (Forall (λ rc, 0 <= rvc_candidate_index rc) (ur4_revealed demo_reveal))).
    vm_cast_no_check I.
  - vm_refl.
Defined.

Lemma compute_gamma_star_range_witness :
  exists g, compute_gamma_star (E := RefreshError.t) demo_session 32 = Ok g /\ 1 <= g <= 32.
Proof. apply (compute_gamma_star_range demo_session 32). lia. Defined.

Lemma kappa_one_bypasses_cut_and_choose_witness :
  let ch := {| mr3_session_id := demo_session; mr3_gamma_star := 1 |} in
  mint_refresh_round3 demo_session demo_ur2 demo_joint = Ok ch /\
  mint_refresh_verify_reveal demo_ur2 demo_mr1 ch
    {| ur4_session_id := demo_session; ur4_revealed := [] |} demo_joint = Ok tt.
Proof.
  apply (kappa_one_bypasses_cut_and_choose demo_session demo_mr1 demo_ur2 demo_joint
    (peval demo_cs sc_zero ⋅ pt_base)%pt); [vm_refl|reflexivity|reflexivity|reflexivity|vm_refl].
Defined.

Lemma round6_coin_is_valid_witness :
  Coin_verify demo_new_coin demo_joint = Ok true /\
  exists seed, urs_seeds demo_round2.1.2 !! Z.to_nat (mr3_gamma_star demo_ch - 1) = Some seed /\
    sk_scalar (coin_secret demo_new_coin) = derive_coin_secret seed /\
    coin_pubkey_bytes demo_new_coin = pk_bytes (PublicKey_from_secret (coin_secret demo_new_coin)).
Proof. apply (round6_coin_is_valid demo_round2.1.2 demo_ch demo_resp demo_joint). vm_refl. Defined.
