(* ===== verification/Instruction.v ===== *)
(** * tardus-program: the instruction set and its wire format

    Models [crates/tardus-program/src/instruction.rs] and [pda.rs]. *)
From S2P Require Import Prelude Crypto ToyCurve Wire Core MintBase.

(** ** pda.rs *)
Definition TARDUS_PREFIX : bytes := ascii "tardus".
Definition keyset_registry_seeds : list bytes := [TARDUS_PREFIX; ascii "keyset-registry"].
Definition vault_seeds (denom : Z) : list bytes :=
  [TARDUS_PREFIX; ascii "vault"; le_bytes 8 denom].
Definition nullifier_tree_seeds : list bytes := [TARDUS_PREFIX; ascii "nullifier-tree"].
Definition sponsor_pool_seeds : list bytes := [TARDUS_PREFIX; ascii "sponsor-pool"].

(** ** instruction.rs *)
Module BootstrapKind.
Inductive t : Type := KeysetRegistry | NullifierTree | Vault | SponsorPool.
#[global] Instance t_eq_dec : EqDecision t.
Proof. solve_decision. Defined.

Definition as_byte (k : t) : Z :=
  match k with KeysetRegistry => 0 | NullifierTree => 1 | Vault => 2 | SponsorPool => 3 end.

Definition try_from_byte (b : Z) : option t :=
  if b =? 0 then Some KeysetRegistry
  else if b =? 1 then Some NullifierTree
  else if b =? 2 then Some Vault
  else if b =? 3 then Some SponsorPool
  else None.
End BootstrapKind.

Module Instruction.
Inductive t : Type :=
| RegisterKeyset (keyset_id : bytes) (denom : Z) (joint_pk : bytes) (epoch : Z)
    (authorization : bytes)
| Deposit (denom lamports : Z)
| Refresh (coin_pubkey : bytes) (coin_signature : Signature) (denom : Z)
| Withdraw (coin_pubkey : bytes) (coin_signature : Signature) (denom : Z) (recipient : bytes)
| Revoke (keyset_id : bytes) (authorization : bytes)
| Bootstrap (account_kind : BootstrapKind.t) (size : Z) (denom : Z)
| SponsorDeposit (amount : Z)
| ResizeAccount (account_kind : BootstrapKind.t) (new_size : Z) (denom : Z)
| SponsorPayout (lamports : Z) (recipient : bytes).

Definition serialize (ix : t) : bytes :=
  match ix with
  | RegisterKeyset keyset_id denom joint_pk epoch authorization =>
      le_bytes 1 0 ++ keyset_id ++ le_bytes 8 denom ++ joint_pk ++ le_bytes 8 epoch ++
      borsh_bytes authorization
  | Deposit denom lamports => le_bytes 1 1 ++ le_bytes 8 denom ++ le_bytes 8 lamports
  | Refresh coin_pubkey coin_signature denom =>
      le_bytes 1 2 ++ coin_pubkey ++ Signature_to_bytes coin_signature ++ le_bytes 8 denom
  | Withdraw coin_pubkey coin_signature denom recipient =>
      le_bytes 1 3 ++ coin_pubkey ++ Signature_to_bytes coin_signature ++ le_bytes 8 denom ++
      recipient
  | Revoke keyset_id authorization => le_bytes 1 4 ++ keyset_id ++ borsh_bytes authorization
  | Bootstrap account_kind size denom =>
      le_bytes 1 5 ++ le_bytes 1 (BootstrapKind.as_byte account_kind) ++ le_bytes 4 size ++
      le_bytes 8 denom
  | SponsorDeposit amount => le_bytes 1 6 ++ le_bytes 8 amount
  | SponsorPayout lamports recipient => le_bytes 1 7 ++ le_bytes 8 lamports ++ recipient
  | ResizeAccount account_kind new_size denom =>
      le_bytes 1 8 ++ le_bytes 1 (BootstrapKind.as_byte account_kind) ++ le_bytes 4 new_size ++
      le_bytes 8 denom
  end.

Definition deserialize_reader : reader t :=
  tag ← read_u8;
  if tag =? 0 then
    keyset_id ← read_exact 33;
    denom ← read_u64;
    joint_pk ← read_exact 32;
    epoch ← read_u64;
    authorization ← read_bytes;
    mret (RegisterKeyset keyset_id denom joint_pk epoch authorization)
  else if tag =? 1 then
    denom ← read_u64;
    lamports ← read_u64;
    mret (Deposit denom lamports)
  else if tag =? 2 then
    coin_pubkey ← read_exact 32;
    sig_bytes ← read_exact 64;
    denom ← read_u64;
    mret (Refresh coin_pubkey (Signature_from_bytes sig_bytes) denom)
  else if tag =? 3 then
    coin_pubkey ← read_exact 32;
    sig_bytes ← read_exact 64;
    denom ← read_u64;
    recipient ← read_exact 32;
    mret (Withdraw coin_pubkey (Signature_from_bytes sig_bytes) denom recipient)
  else if tag =? 4 then
    keyset_id ← read_exact 33;
    authorization ← read_bytes;
    mret (Revoke keyset_id authorization)
  else if tag =? 5 then
    kind_byte ← read_u8;
    account_kind ← rlift (BootstrapKind.try_from_byte kind_byte);
    size ← read_u32;
    denom ← read_u64;
    mret (Bootstrap account_kind size denom)
  else if tag =? 6 then
    amount ← read_u64;
    mret (SponsorDeposit amount)
  else if tag =? 7 then
    lamports ← read_u64;
    recipient ← read_exact 32;
    mret (SponsorPayout lamports recipient)
  else if tag =? 8 then
    kind_byte ← read_u8;
    account_kind ← rlift (BootstrapKind.try_from_byte kind_byte);
    new_size ← read_u32;
    denom ← read_u64;
    mret (ResizeAccount account_kind new_size denom)
  else rlift None.

(** The values of the Rust type: fixed-size arrays and machine integers. *)
Definition wf (ix : t) : Prop :=
  match ix with
  | RegisterKeyset keyset_id denom joint_pk epoch authorization =>
      length keyset_id = 33%nat /\ u64 denom /\ length joint_pk = 32%nat /\ u64 epoch /\
      Z.of_nat (length authorization) < 2 ^ 32
  | Deposit denom lamports => u64 denom /\ u64 lamports
  | Refresh coin_pubkey coin_signature denom =>
      length coin_pubkey = 32%nat /\ wf_signature coin_signature /\ u64 denom
  | Withdraw coin_pubkey coin_signature denom recipient =>
      length coin_pubkey = 32%nat /\ wf_signature coin_signature /\ u64 denom /\
      length recipient = 32%nat
  | Revoke keyset_id authorization =>
      length keyset_id = 33%nat /\ Z.of_nat (length authorization) < 2 ^ 32
  | Bootstrap _ size denom | ResizeAccount _ size denom => in_width 32 size /\ u64 denom
  | SponsorDeposit amount => u64 amount
  | SponsorPayout lamports recipient => u64 lamports /\ length recipient = 32%nat
  end.
End Instruction.

(** ** Lemmas *)
Lemma try_from_as_byte k : BootstrapKind.try_from_byte (BootstrapKind.as_byte k) = Some k.
Proof. by destruct k. Qed.

Lemma as_byte_try_from b k :
  BootstrapKind.try_from_byte b = Some k -> b = BootstrapKind.as_byte k.
Proof.
  unfold BootstrapKind.try_from_byte.
  repeat (case_match; [intros [= <-]; cbn; lia|]); done.
Qed.

Lemma length_Signature_to_bytes s : wf_signature s -> length (Signature_to_bytes s) = 64%nat.
Proof. intros [Hr Hs]. unfold Signature_to_bytes. rewrite length_app. lia. Qed.

(** Last field: nothing follows. *)
Lemma reads_end {A} (r : reader A) e a : reads r (e ++ []) a -> reads r e a.
Proof. by rewrite app_nil_r. Qed.

Ltac reads_field :=
  first
    [ eapply reads_bind; [by apply reads_u64|]
    | eapply reads_bind; [by apply reads_u32|]
    | eapply reads_bind; [by apply reads_u8|]
    | eapply reads_bind; [by apply reads_bytes|]
    | eapply reads_bind; [by apply reads_exact, length_Signature_to_bytes|];
      rewrite Signature_from_to_bytes by (by match goal with H : wf_signature _ |- _ => apply H end)
    | eapply reads_bind; [by apply reads_exact|] ].

Lemma Instruction_reads ix : Instruction.wf ix ->
  reads Instruction.deserialize_reader (Instruction.serialize ix) ix.
Proof.
  destruct ix; cbn [Instruction.wf]; intros Hwf; destruct_and?;
    cbn [Instruction.serialize]; unfold Instruction.deserialize_reader;
    (eapply reads_bind; [by apply reads_u8|]); cbn [Z.eqb Pos.eqb];
    apply reads_end; rewrite <- ?app_assoc;
    repeat first
      [ reads_field
      | eapply reads_bind; [apply reads_u8; by destruct account_kind|];
        eapply reads_rlift; [apply try_from_as_byte|] ];
    apply reads_ret.
Qed.

(** Inverts a successful read into the fields it consumed. *)
Ltac inv_read :=
  repeat match goal with
  | H : (_ ≫= _) _ = Some _ |- _ =>
      let a := fresh "v" in let i := fresh "inp" in let H1 := fresh "Hr" in
      apply reader_bind_Some in H as (a & i & H1 & H)
  | H : read_u8 _ = Some _ |- _ => apply (read_uint_Some 1) in H as [-> ?]
  | H : read_u32 _ = Some _ |- _ => apply (read_uint_Some 4) in H as [-> ?]
  | H : read_u64 _ = Some _ |- _ => apply (read_uint_Some 8) in H as [-> ?]
  | H : read_exact _ _ = Some _ |- _ => apply read_exact_Some in H as [-> ?]
  | H : read_bytes _ = Some _ |- _ => apply read_bytes_Some in H as [-> ?]
  | H : rlift _ _ = Some _ |- _ => apply rlift_Some in H as [H ->]
  | H : mret _ _ = Some _ |- _ => injection H as <- <-
  end.

Lemma length_take_drop_signature (b : bytes) : length b = 64%nat ->
  wf_signature (Signature_from_bytes b).
Proof. intros H. split; cbn; rewrite ?length_take, ?length_drop; lia. Qed.

(** What was read is the encoding of a value of the Rust type. *)
Lemma Instruction_reads_inv inp ix rest :
  Instruction.deserialize_reader inp = Some (ix, rest) ->
  inp = Instruction.serialize ix ++ rest /\ Instruction.wf ix.
Proof.
  unfold Instruction.deserialize_reader. intros H. inv_read.
  repeat match type of H with
  | (if ?t =? ?n then _ else _) _ = _ => destruct (Z.eqb_spec t n) as [->|?]
  end; inv_read;
    repeat match goal with
    | H : BootstrapKind.try_from_byte _ = Some _ |- _ => apply as_byte_try_from in H; subst
    end;
    try discriminate;
    (split; [cbn [Instruction.serialize]; by rewrite ?Signature_to_from_bytes, <- ?app_assoc|
             cbn [Instruction.wf]; unfold u64, in_width;
             split_and?; try done; try lia; by apply length_take_drop_signature]).
Qed.

(** ** Properties *)

(** The instruction format is a bijection: a byte string decodes to an
    instruction exactly when it is the encoding of that instruction and the
    instruction is a value of the Rust type, fixed-size fields of the right
    length and integers of the right width; no byte may be left over. *)
Theorem Instruction_codec inp ix :
  try_from_slice Instruction.deserialize_reader inp = Some ix <->
  inp = Instruction.serialize ix /\ Instruction.wf ix.
Proof.
  split; [|intros [-> Hwf]; by apply try_from_slice_reads, Instruction_reads].
  unfold try_from_slice. destruct (Instruction.deserialize_reader inp) as [[ix' rest]|] eqn:H; [|done].
  destruct rest; [|done]. intros [= ->]. apply Instruction_reads_inv in H.
  by rewrite app_nil_r in H.
Qed.
