(* ===== verification/Program.v ===== *)
(** * tardus-program: account state and pure processors

    Models [crates/tardus-program/src/{error,state,processor}.rs].  A processor
    that takes [&mut] references returns their final values together with its
    result, also when the result is an error. *)
From S2P Require Import Prelude Crypto ToyCurve Wire Core MintBase Instruction.

Module ProgramError.
Inductive t : Type :=
| Core (e : CoreError.t)
| UnknownKeysetId
| KeysetRevoked
| KeysetAlreadyRegistered
| KeysetRegistryFull
| CoinSignatureInvalid
| CoinPubkeyMismatch
| DoubleSpend
| DepositAmountMismatch
| RefreshDenominationMismatch
| VaultInsufficientCollateral
| VaultInvariantViolation
| InsufficientThresholdAuth
| InstructionMalformed.
#[global] Instance t_eq_dec : EqDecision t.
Proof. solve_decision. Defined.
End ProgramError.

(** ** state.rs *)
Module KeysetStatus.
Inductive t : Type := Active | Revoked.
#[global] Instance t_eq_dec : EqDecision t.
Proof. solve_decision. Defined.
End KeysetStatus.

Record KeysetEntry : Type := {
  ke_keyset_id : bytes;
  ke_denom : Z;
  ke_joint_pk : bytes;
  ke_epoch : Z;
  ke_status : KeysetStatus.t;
}.

#[global] Instance KeysetEntry_eq_dec : EqDecision KeysetEntry.
Proof. solve_decision. Defined.

Definition KEYSET_REGISTRY_CAPACITY : Z := 256.

Record KeysetRegistry : Type := { kr_version : Z; kr_entries : list KeysetEntry }.

Definition KeysetRegistry_new : KeysetRegistry := {| kr_version := 1; kr_entries := [] |}.

Definition KeysetRegistry_find (r : KeysetRegistry) (keyset_id : bytes) : option KeysetEntry :=
  snd <$> list_find (λ e, ke_keyset_id e = keyset_id) (kr_entries r).

(** [Iterator::max_by_key]: the last of the maximal elements. *)
Definition max_by_key {A} (key : A -> Z) (l : list A) : option A :=
  foldl (λ acc y, match acc with
                  | None => Some y
                  | Some x => Some (if key y <? key x then x else y)
                  end) None l.

Definition KeysetRegistry_find_active_for_denom (r : KeysetRegistry) (denom : Z)
    : option KeysetEntry :=
  max_by_key ke_epoch
    (filter (λ e, ke_denom e = denom /\ ke_status e = KeysetStatus.Active) (kr_entries r)).

(** [find_mut] followed by an assignment through the reference. *)
Definition KeysetRegistry_find_mut (r : KeysetRegistry) (keyset_id : bytes)
    (f : KeysetEntry -> KeysetEntry) : option KeysetRegistry :=
  '(i, e) ← list_find (λ e, ke_keyset_id e = keyset_id) (kr_entries r);
  Some {| kr_version := kr_version r; kr_entries := <[i := f e]> (kr_entries r) |}.

Record Vault : Type := { v_denom : Z; v_collateral : Z }.

Definition Vault_new (denom : Z) : Vault := {| v_denom := denom; v_collateral := 0 |}.

(** [BTreeSet<\[u8; 32\]>] *)
Record NullifierSet : Type := { ns_leaves : gset bytes }.

Definition NullifierSet_new : NullifierSet := {| ns_leaves := ∅ |}.
Definition NullifierSet_contains (s : NullifierSet) (n : bytes) : bool :=
  bool_decide (n ∈ ns_leaves s).
Definition NullifierSet_len (s : NullifierSet) : Z := Z.of_nat (size (ns_leaves s)).
Definition NullifierSet_is_empty (s : NullifierSet) : bool := bool_decide (ns_leaves s = ∅).

(** The set after the call, and whether the element was new. *)
Definition NullifierSet_insert (s : NullifierSet) (n : bytes) : NullifierSet * bool :=
  ({| ns_leaves := {[ n ]} ∪ ns_leaves s |}, negb (bool_decide (n ∈ ns_leaves s))).

Record SponsorPool : Type :=
  { sp_last_payout_slot : Z; sp_total_payouts : Z; sp_total_deposits : Z }.

Definition SponsorPool_default : SponsorPool :=
  {| sp_last_payout_slot := 0; sp_total_payouts := 0; sp_total_deposits := 0 |}.
Definition MIN_SLOTS_BETWEEN_PAYOUTS : Z := 5.

(** ** Derived Borsh codecs of the account data *)
Definition KeysetStatus_to_vec (s : KeysetStatus.t) : bytes :=
  le_bytes 1 (match s with KeysetStatus.Active => 0 | KeysetStatus.Revoked => 1 end).
Definition KeysetStatus_read : reader KeysetStatus.t :=
  tag ← read_u8;
  if tag =? 0 then mret KeysetStatus.Active
  else if tag =? 1 then mret KeysetStatus.Revoked
  else rlift None.

Definition KeysetEntry_to_vec (e : KeysetEntry) : bytes :=
  ke_keyset_id e ++ le_bytes 8 (ke_denom e) ++ ke_joint_pk e ++ le_bytes 8 (ke_epoch e) ++
  KeysetStatus_to_vec (ke_status e).
Definition KeysetEntry_read : reader KeysetEntry :=
  keyset_id ← read_exact 33;
  denom ← read_u64;
  joint_pk ← read_exact 32;
  epoch ← read_u64;
  status ← KeysetStatus_read;
  mret {| ke_keyset_id := keyset_id; ke_denom := denom; ke_joint_pk := joint_pk;
          ke_epoch := epoch; ke_status := status |}.

(** [None] is the writer's error for a length beyond [u32]. *)
Definition KeysetRegistry_to_vec (r : KeysetRegistry) : option bytes :=
  if decide (Z.of_nat (length (kr_entries r)) < 2 ^ 32) then
    Some (le_bytes 1 (kr_version r) ++ borsh_vec KeysetEntry_to_vec (kr_entries r))
  else None.
Definition KeysetRegistry_read : reader KeysetRegistry :=
  version ← read_u8;
  entries ← read_vec KeysetEntry_read;
  mret {| kr_version := version; kr_entries := entries |}.

(** The set's elements are in the order of their bytes. *)
Definition bytes_le (a b : bytes) : Prop := bytes_leb a b = true.
#[global] Instance bytes_le_dec : RelDecision bytes_le.
Proof. intros a b. unfold bytes_le. apply _. Defined.

Definition NullifierSet_to_vec (s : NullifierSet) : option bytes :=
  let l := merge_sort bytes_le (elements (ns_leaves s)) in
  if decide (Z.of_nat (length l) < 2 ^ 32) then Some (borsh_vec id l) else None.
Definition NullifierSet_read : reader NullifierSet :=
  l ← read_vec (read_exact 32); mret {| ns_leaves := list_to_set l |}.

Definition SponsorPool_to_vec (p : SponsorPool) : bytes :=
  le_bytes 8 (sp_last_payout_slot p) ++ le_bytes 8 (sp_total_payouts p) ++
  le_bytes 8 (sp_total_deposits p).
Definition SponsorPool_read : reader SponsorPool :=
  last_payout_slot ← read_u64;
  total_payouts ← read_u64;
  total_deposits ← read_u64;
  mret {| sp_last_payout_slot := last_payout_slot; sp_total_payouts := total_payouts;
          sp_total_deposits := total_deposits |}.

(** ** processor.rs *)
Section processor.
Context `{C : Curve}.

Definition NULLIFIER_DOMAIN : bytes := ascii "TARDUS-nullifier-v1".

Definition compute_nullifier (coin_pubkey : bytes) : bytes :=
  sha256 (NULLIFIER_DOMAIN ++ coin_pubkey).

Definition process_register_keyset (registry : KeysetRegistry) (ix : Instruction.t)
    : KeysetRegistry * res ProgramError.t unit :=
  match ix with
  | Instruction.RegisterKeyset keyset_id denom joint_pk epoch _ =>
      if bool_decide (is_Some (KeysetRegistry_find registry keyset_id)) then
        (registry, Err ProgramError.KeysetAlreadyRegistered)
      else if KEYSET_REGISTRY_CAPACITY <=? Z.of_nat (length (kr_entries registry)) then
        (registry, Err ProgramError.KeysetRegistryFull)
      else
        ({| kr_version := kr_version registry;
            kr_entries := kr_entries registry ++
              [{| ke_keyset_id := keyset_id; ke_denom := denom; ke_joint_pk := joint_pk;
                  ke_epoch := epoch; ke_status := KeysetStatus.Active |}] |}, Ok tt)
  | _ => (registry, Err ProgramError.InstructionMalformed)
  end.

Definition process_deposit (registry : KeysetRegistry) (vault : Vault) (ix : Instruction.t)
    : Vault * res ProgramError.t unit :=
  match ix with
  | Instruction.Deposit denom lamports =>
      if negb (denom =? lamports) then (vault, Err ProgramError.DepositAmountMismatch)
      else if negb (v_denom vault =? denom) then (vault, Err ProgramError.VaultInvariantViolation)
      else
        match KeysetRegistry_find_active_for_denom registry denom with
        | None => (vault, Err ProgramError.UnknownKeysetId)
        | Some entry =>
            if negb (bool_decide (ke_status entry = KeysetStatus.Active)) then
              (vault, Err ProgramError.KeysetRevoked)
            else
              match checked_add (v_collateral vault) lamports with
              | None => (vault, Err ProgramError.VaultInvariantViolation)
              | Some c => ({| v_denom := v_denom vault; v_collateral := c |}, Ok tt)
              end
        end
  | _ => (vault, Err ProgramError.InstructionMalformed)
  end.

Definition verify_coin_for_spend (registry : KeysetRegistry) (denom : Z) (coin_pubkey : bytes)
    (coin_signature : Signature) : res ProgramError.t unit :=
  entry ← ok_or ProgramError.UnknownKeysetId (KeysetRegistry_find_active_for_denom registry denom);
  _ ← reject_if (negb (bool_decide (ke_status entry = KeysetStatus.Active)))
                ProgramError.KeysetRevoked;
  _ ← map_err ProgramError.Core (PublicKey_from_bytes coin_pubkey);
  joint_pk ← map_err ProgramError.Core (PublicKey_from_bytes (ke_joint_pk entry));
  ok ← map_err ProgramError.Core (schnorr_verify joint_pk coin_pubkey coin_signature);
  reject_if (negb ok) ProgramError.CoinSignatureInvalid.

Definition process_refresh (registry : KeysetRegistry) (nullifiers : NullifierSet)
    (ix : Instruction.t) : NullifierSet * res ProgramError.t bytes :=
  match ix with
  | Instruction.Refresh coin_pubkey coin_signature denom =>
      match verify_coin_for_spend registry denom coin_pubkey coin_signature with
      | Err e => (nullifiers, Err e)
      | Panic => (nullifiers, Panic)
      | Ok _ =>
          let nullifier := compute_nullifier coin_pubkey in
          let '(nullifiers, fresh) := NullifierSet_insert nullifiers nullifier in
          if negb fresh then (nullifiers, Err ProgramError.DoubleSpend)
          else (nullifiers, Ok nullifier)
      end
  | _ => (nullifiers, Err ProgramError.InstructionMalformed)
  end.

Record WithdrawOutcome : Type :=
  { wo_nullifier : bytes; wo_recipient : bytes; wo_lamports_released : Z }.

Definition process_withdraw (registry : KeysetRegistry) (vault : Vault)
    (nullifiers : NullifierSet) (ix : Instruction.t)
    : Vault * NullifierSet * res ProgramError.t WithdrawOutcome :=
  match ix with
  | Instruction.Withdraw coin_pubkey coin_signature denom recipient =>
      if negb (v_denom vault =? denom) then
        (vault, nullifiers, Err ProgramError.VaultInvariantViolation)
      else
        match verify_coin_for_spend registry denom coin_pubkey coin_signature with
        | Err e => (vault, nullifiers, Err e)
        | Panic => (vault, nullifiers, Panic)
        | Ok _ =>
            let nullifier := compute_nullifier coin_pubkey in
            let '(nullifiers, fresh) := NullifierSet_insert nullifiers nullifier in
            if negb fresh then (vault, nullifiers, Err ProgramError.DoubleSpend)
            else if v_collateral vault <? denom then
              (vault, nullifiers, Err ProgramError.VaultInsufficientCollateral)
            else
              ({| v_denom := v_denom vault; v_collateral := v_collateral vault - denom |},
               nullifiers,
               Ok {| wo_nullifier := nullifier; wo_recipient := recipient;
                     wo_lamports_released := denom |})
        end
  | _ => (vault, nullifiers, Err ProgramError.InstructionMalformed)
  end.

Definition process_revoke (registry : KeysetRegistry) (ix : Instruction.t)
    : KeysetRegistry * res ProgramError.t unit :=
  match ix with
  | Instruction.Revoke keyset_id _ =>
      match KeysetRegistry_find_mut registry keyset_id (λ e,
        {| ke_keyset_id := ke_keyset_id e; ke_denom := ke_denom e; ke_joint_pk := ke_joint_pk e;
           ke_epoch := ke_epoch e; ke_status := KeysetStatus.Revoked |}) with
      | None => (registry, Err ProgramError.UnknownKeysetId)
      | Some registry' => (registry', Ok tt)
      end
  | _ => (registry, Err ProgramError.InstructionMalformed)
  end.
End processor.

(** ** Lemmas *)

(** *** The registry *)
Definition registry_ok (r : KeysetRegistry) : Prop :=
  NoDup (ke_keyset_id <$> kr_entries r) /\
  Z.of_nat (length (kr_entries r)) <= KEYSET_REGISTRY_CAPACITY.

Lemma find_None r id : KeysetRegistry_find r id = None <->
  id ∉ ke_keyset_id <$> kr_entries r.
Proof.
  unfold KeysetRegistry_find. rewrite fmap_None, list_find_None, Forall_forall.
  split; [intros H (e & -> & He)%list_elem_of_fmap; by apply (H e)|].
  intros H e He Heq. apply H. rewrite <- Heq. by apply list_elem_of_fmap_2.
Qed.

Lemma find_Some r id e : KeysetRegistry_find r id = Some e ->
  e ∈ kr_entries r /\ ke_keyset_id e = id.
Proof.
  unfold KeysetRegistry_find.
  intros ([i e'] & (Hi & He & _)%list_find_Some & ->)%fmap_Some. cbn.
  split; [by eapply list_elem_of_lookup_2|done].
Qed.

Lemma find_mut_ids r id f r' : (forall e, ke_keyset_id (f e) = ke_keyset_id e) ->
  KeysetRegistry_find_mut r id f = Some r' ->
  ke_keyset_id <$> kr_entries r' = ke_keyset_id <$> kr_entries r.
Proof.
  intros Hf. unfold KeysetRegistry_find_mut.
  intros ([i e] & (Hi & _ & _)%list_find_Some & [= <-])%bind_Some. cbn.
  rewrite list_fmap_insert, Hf. apply list_insert_id.
  by rewrite list_lookup_fmap, Hi.
Qed.

(** *** [max_by_key] *)
Lemma max_by_key_acc {A} (key : A -> Z) l acc :
  exists m, foldl (λ acc y, match acc with
                  | None => Some y
                  | Some x => Some (if key y <? key x then x else y)
                  end) (Some acc) l = Some m /\
    (m = acc \/ m ∈ l) /\ key acc <= key m /\ forall x, x ∈ l -> key x <= key m.
Proof.
  revert acc; induction l as [|y l IH]; intros acc; cbn.
  { exists acc. split_and!; [done|by left|lia|set_solver]. }
  destruct (IH (if key y <? key acc then acc else y)) as (m & Hm & Hin & Hle & Hall).
  exists m. split; [done|]. destruct (Z.ltb_spec (key y) (key acc)).
  - split_and!; [set_solver|lia|]. intros x [->|Hx]%elem_of_cons; [lia|auto].
  - split_and!; [set_solver|lia|]. intros x [->|Hx]%elem_of_cons; [lia|auto].
Qed.

Lemma max_by_key_Some {A} (key : A -> Z) l :
  match max_by_key key l with
  | None => l = []
  | Some m => m ∈ l /\ forall x, x ∈ l -> key x <= key m
  end.
Proof.
  unfold max_by_key. destruct l as [|a l]; cbn; [done|].
  destruct (max_by_key_acc key l a) as (m & -> & Hin & Hle & Hall).
  split; [set_solver|]. intros x [->|Hx]%elem_of_cons; [lia|auto].
Qed.

(** *** The nullifier set *)
Lemma NullifierSet_insert_fresh s n s' : NullifierSet_insert s n = (s', true) <->
  n ∉ ns_leaves s /\ s' = {| ns_leaves := {[ n ]} ∪ ns_leaves s |}.
Proof.
  unfold NullifierSet_insert. case_bool_decide; cbn; [|naive_solver].
  split; [intros [= _ ?]|]; naive_solver.
Qed.

(** *** Codecs *)
Lemma reads_KeysetStatus s : reads KeysetStatus_read (KeysetStatus_to_vec s) s.
Proof.
  unfold KeysetStatus_read, KeysetStatus_to_vec. rewrite <- (app_nil_r (le_bytes 1 _)).
  eapply reads_bind; [apply reads_u8; destruct s; unfold in_width; lia|].
  destruct s; apply reads_ret.
Qed.

Definition wf_entry (e : KeysetEntry) : Prop :=
  length (ke_keyset_id e) = 33%nat /\ u64 (ke_denom e) /\ length (ke_joint_pk e) = 32%nat /\
  u64 (ke_epoch e).

Lemma reads_KeysetEntry e : wf_entry e -> reads KeysetEntry_read (KeysetEntry_to_vec e) e.
Proof.
  intros (H1 & H2 & H3 & H4).
  eapply reads_bind; [by apply reads_exact|].
  eapply reads_bind; [by apply reads_u64|].
  eapply reads_bind; [by apply reads_exact|].
  eapply reads_bind; [by apply reads_u64|].
  rewrite <- (app_nil_r (KeysetStatus_to_vec _)).
  eapply reads_bind; [apply reads_KeysetStatus|]. destruct e. apply reads_ret.
Qed.

Definition wf_registry (r : KeysetRegistry) : Prop :=
  in_width 8 (kr_version r) /\ Forall wf_entry (kr_entries r).

Lemma reads_KeysetRegistry r enc : wf_registry r -> KeysetRegistry_to_vec r = Some enc ->
  reads KeysetRegistry_read enc r.
Proof.
  destruct r as [v es]. intros [Hv He]. unfold KeysetRegistry_to_vec. case_decide as Hl; [|done].
  intros <-%(inj Some). eapply reads_bind; [by apply reads_u8|].
  apply (reads_bind_last (read_vec KeysetEntry_read) (λ l, {| kr_version := v; kr_entries := l |})).
  apply reads_vec; [done|]. intros e Hin. apply reads_KeysetEntry.
  by rewrite Forall_forall in He; apply He.
Qed.

Definition wf_nullifiers (s : NullifierSet) : Prop :=
  forall n, n ∈ ns_leaves s -> length n = 32%nat.

Lemma reads_NullifierSet s enc : wf_nullifiers s -> NullifierSet_to_vec s = Some enc ->
  reads NullifierSet_read enc s.
Proof.
  intros Hw. unfold NullifierSet_to_vec. case_decide as Hl; [|done].
  intros <-%(inj Some). destruct s as [X]. cbn [ns_leaves] in *.
  replace {| ns_leaves := X |}
    with {| ns_leaves := list_to_set (C := gset bytes) (merge_sort bytes_le (elements X)) |}.
  - apply (reads_bind_last (read_vec (read_exact 32)) (λ l, {| ns_leaves := list_to_set l |})).
    apply reads_vec; [done|]. intros n Hn. apply reads_exact, Hw.
    rewrite merge_sort_Permutation in Hn. by apply elem_of_elements.
  - f_equal. apply set_eq. intros x.
    by rewrite elem_of_list_to_set, merge_sort_Permutation, elem_of_elements.
Qed.

Lemma reads_SponsorPool p : u64 (sp_last_payout_slot p) -> u64 (sp_total_payouts p) ->
  u64 (sp_total_deposits p) -> reads SponsorPool_read (SponsorPool_to_vec p) p.
Proof.
  destruct p as [a b c]. intros H1 H2 H3. eapply reads_bind; [by apply reads_u64|].
  eapply reads_bind; [by apply reads_u64|].
  apply (reads_bind_last read_u64 (λ c, {| sp_last_payout_slot := a; sp_total_payouts := b;
    sp_total_deposits := c |})). by apply reads_u64.
Qed.

(** ** The pure processors as a state machine *)
Section machine.
Context `{C : Curve}.

(** The accounts of one denomination. *)
Record ledger : Type := { l_registry : KeysetRegistry; l_vault : Vault; l_nullifiers : NullifierSet }.

(** The processor of an instruction, and whether it succeeded. *)
Definition ledger_step (s : ledger) (ix : Instruction.t) : ledger * bool :=
  match ix with
  | Instruction.RegisterKeyset _ _ _ _ _ =>
      let '(r, out) := process_register_keyset (l_registry s) ix in
      ({| l_registry := r; l_vault := l_vault s; l_nullifiers := l_nullifiers s |}, is_ok out)
  | Instruction.Revoke _ _ =>
      let '(r, out) := process_revoke (l_registry s) ix in
      ({| l_registry := r; l_vault := l_vault s; l_nullifiers := l_nullifiers s |}, is_ok out)
  | Instruction.Deposit _ _ =>
      let '(v, out) := process_deposit (l_registry s) (l_vault s) ix in
      ({| l_registry := l_registry s; l_vault := v; l_nullifiers := l_nullifiers s |}, is_ok out)
  | Instruction.Refresh _ _ _ =>
      let '(n, out) := process_refresh (l_registry s) (l_nullifiers s) ix in
      ({| l_registry := l_registry s; l_vault := l_vault s; l_nullifiers := n |}, is_ok out)
  | Instruction.Withdraw _ _ _ _ =>
      let '(v, n, out) := process_withdraw (l_registry s) (l_vault s) (l_nullifiers s) ix in
      ({| l_registry := l_registry s; l_vault := v; l_nullifiers := n |}, is_ok out)
  | _ => (s, false)
  end.

Fixpoint ledger_run (s : ledger) (l : list Instruction.t) : ledger * list (Instruction.t * bool) :=
  match l with
  | [] => (s, [])
  | ix :: l =>
      let '(s1, ok) := ledger_step s ix in
      let '(s2, log) := ledger_run s1 l in
      (s2, (ix, ok) :: log)
  end.

(** Number of successful deposits and withdrawals of a log. *)
Definition is_deposit (x : Instruction.t * bool) : Prop :=
  match x with (Instruction.Deposit _ _, true) => True | _ => False end.
Definition is_withdraw (x : Instruction.t * bool) : Prop :=
  match x with (Instruction.Withdraw _ _ _ _, true) => True | _ => False end.
#[global] Instance is_deposit_dec x : Decision (is_deposit x).
Proof. destruct x as [[] []]; apply _. Defined.
#[global] Instance is_withdraw_dec x : Decision (is_withdraw x).
Proof. destruct x as [[] []]; apply _. Defined.

Definition count (P : Instruction.t * bool -> Prop) `{!forall x, Decision (P x)}
    (log : list (Instruction.t * bool)) : Z := Z.of_nat (length (filter P log)).
End machine.

Section machine_lemmas.
Context `{C : Curve}.

Definition vault_ok (v : Vault) : Prop := u64 (v_denom v) /\ u64 (v_collateral v).

Lemma process_deposit_spec r v ix v' out : vault_ok v -> process_deposit r v ix = (v', out) ->
  vault_ok v' /\ v_denom v' = v_denom v /\
  v_collateral v' = v_collateral v + (if is_ok out then v_denom v else 0).
Proof.
  intros [Hd Hv]. unfold process_deposit, checked_add, u64_max.
  destruct ix; try (intros [= <- <-]; cbn; split_and!; [done|done|lia]).
  destruct (Z.eqb_spec denom lamports) as [<-|]; cbn [negb];
    [|intros [= <- <-]; cbn; split_and!; [done|done|lia]].
  destruct (Z.eqb_spec (v_denom v) denom) as [<-|]; cbn [negb];
    [|intros [= <- <-]; cbn; split_and!; [done|done|lia]].
  destruct (KeysetRegistry_find_active_for_denom _ _) as [e|];
    [|intros [= <- <-]; cbn; split_and!; [done|done|lia]].
  case_bool_decide; cbn [negb]; [|intros [= <- <-]; cbn; split_and!; [done|done|lia]].
  destruct (Z.leb_spec (v_collateral v + v_denom v) (2 ^ 64 - 1)); intros [= <- <-]; cbn;
    [|split_and!; [done|done|lia]].
  unfold vault_ok, u64, in_width in *. cbn. split_and!; lia.
Qed.

Lemma process_withdraw_spec r v n ix v' n' out : vault_ok v ->
  process_withdraw r v n ix = (v', n', out) ->
  vault_ok v' /\ v_denom v' = v_denom v /\
  v_collateral v' = v_collateral v - (if is_ok out then v_denom v else 0).
Proof.
  intros [Hd Hv]. unfold process_withdraw.
  destruct ix; try (intros [= <- <- <-]; cbn; split_and!; [done|done|lia]).
  destruct (Z.eqb_spec (v_denom v) denom) as [<-|]; cbn [negb];
    [|intros [= <- <- <-]; cbn; split_and!; [done|done|lia]].
  destruct (verify_coin_for_spend _ _ _ _);
    try (intros [= <- <- <-]; cbn; split_and!; [done|done|lia]).
  destruct (NullifierSet_insert _ _) as [n1 []]; cbn [negb];
    [|intros [= <- <- <-]; cbn; split_and!; [done|done|lia]].
  destruct (Z.ltb_spec (v_collateral v) (v_denom v)); intros [= <- <- <-]; cbn;
    [split_and!; [done|done|lia]|].
  unfold vault_ok, u64, in_width in *. cbn. split_and!; lia.
Qed.

Lemma count_step ix ok :
  count is_deposit [(ix, ok)] - count is_withdraw [(ix, ok)] =
  match ix with
  | Instruction.Deposit _ _ => if ok then 1 else 0
  | Instruction.Withdraw _ _ _ _ => if ok then -1 else 0
  | _ => 0
  end.
Proof. by destruct ix, ok. Qed.

Lemma ledger_step_vault s ix s' ok : vault_ok (l_vault s) -> ledger_step s ix = (s', ok) ->
  vault_ok (l_vault s') /\ v_denom (l_vault s') = v_denom (l_vault s) /\
  v_collateral (l_vault s') = v_collateral (l_vault s) +
    v_denom (l_vault s) * (count is_deposit [(ix, ok)] - count is_withdraw [(ix, ok)]).
Proof.
  intros Hv. rewrite count_step. unfold ledger_step.
  destruct ix; try (intros [= <- <-]; cbn [l_vault]; split_and!; [done|done|lia]).
  - destruct (process_register_keyset _ _) as [r out]; intros [= <- <-]; cbn [l_vault];
      split_and!; [done|done|lia].
  - destruct (process_deposit _ _ _) as [v out] eqn:Hp. intros [= <- <-].
    apply process_deposit_spec in Hp as (H1 & H2 & H3); [|done]. cbn [l_vault].
    split_and!; [done|done|]. destruct (is_ok out); lia.
  - destruct (process_refresh _ _ _) as [n out]; intros [= <- <-]; cbn [l_vault];
      split_and!; [done|done|lia].
  - destruct (process_withdraw _ _ _ _) as [[v n] out] eqn:Hp. intros [= <- <-].
    apply process_withdraw_spec in Hp as (H1 & H2 & H3); [|done]. cbn [l_vault].
    split_and!; [done|done|]. destruct (is_ok out); lia.
  - destruct (process_revoke _ _) as [r out]; intros [= <- <-]; cbn [l_vault];
      split_and!; [done|done|lia].
Qed.

Lemma count_cons P `{!forall x, Decision (P x)} x l : count P (x :: l) = count P [x] + count P l.
Proof.
  unfold count. destruct (decide (P x)).
  - rewrite !filter_cons_True by done. cbn. lia.
  - by rewrite !filter_cons_False.
Qed.
End machine_lemmas.

(** ** Properties *)
Section program_properties.
Context `{C : Curve}.

(** The registry invariant: identifiers stay pairwise distinct and the
    capacity of 256 entries is never exceeded, whatever instruction the two
    registry processors are given. *)
Theorem registry_ops_preserve r ix : registry_ok r ->
  registry_ok (process_register_keyset r ix).1 /\ registry_ok (process_revoke r ix).1.
Proof.
  intros [Hnd Hlen]. split.
  - unfold process_register_keyset. destruct ix; try done.
    case_bool_decide as Hf; [done|]. destruct (Z.leb_spec KEYSET_REGISTRY_CAPACITY
      (Z.of_nat (length (kr_entries r)))) as [|Hc]; [done|]. split; cbn.
    + rewrite fmap_app. apply NoDup_app. split_and!; [done| |apply NoDup_singleton].
      intros x Hx ->%list_elem_of_singleton. apply Hf. cbn in Hx.
      destruct (KeysetRegistry_find r keyset_id) eqn:E; [by eexists|]. by apply find_None in E.
    + rewrite length_app. cbn. unfold KEYSET_REGISTRY_CAPACITY in *. lia.
  - unfold process_revoke. destruct ix; try done.
    destruct (KeysetRegistry_find_mut _ _ _) as [r'|] eqn:E; [|done]. cbn.
    apply find_mut_ids in E as Hids; [|done]. unfold registry_ok. rewrite Hids. split; [done|].
    by rewrite <- (length_fmap ke_keyset_id), Hids, length_fmap.
Qed.

(** The entry a spend is checked against is active, has the requested
    denomination, and no other such entry has a later epoch; it is missing
    only when there is none. *)
Theorem find_active_for_denom_spec r denom :
  match KeysetRegistry_find_active_for_denom r denom with
  | Some e => e ∈ kr_entries r /\ ke_denom e = denom /\ ke_status e = KeysetStatus.Active /\
      forall e', e' ∈ kr_entries r -> ke_denom e' = denom -> ke_status e' = KeysetStatus.Active ->
        ke_epoch e' <= ke_epoch e
  | None => forall e', e' ∈ kr_entries r -> ke_denom e' = denom ->
        ke_status e' <> KeysetStatus.Active
  end.
Proof.
  unfold KeysetRegistry_find_active_for_denom.
  pose proof (max_by_key_Some ke_epoch
    (filter (λ e, ke_denom e = denom /\ ke_status e = KeysetStatus.Active) (kr_entries r))) as H.
  destruct (max_by_key _ _) as [e|].
  - destruct H as [[[H1 H2] Hin]%list_elem_of_filter Hmax]. split_and!; [done..|].
    intros e' He' Hd Hs. apply Hmax. by apply list_elem_of_filter.
  - intros e' He' Hd Hs. assert (e' ∈ @nil KeysetEntry) as Hn; [|by apply not_elem_of_nil in Hn].
    rewrite <- H. by apply list_elem_of_filter.
Qed.

(** C31: the vault of a denomination holds exactly the deposits minus the
    withdrawals: over any sequence of instructions, failed ones included, the
    collateral moves by the denomination times the number of successful
    deposits less that of successful withdrawals, and stays a [u64]. *)
Theorem vault_conservation l s s' log : vault_ok (l_vault s) -> ledger_run s l = (s', log) ->
  vault_ok (l_vault s') /\ v_denom (l_vault s') = v_denom (l_vault s) /\
  v_collateral (l_vault s') = v_collateral (l_vault s) +
    v_denom (l_vault s) * (count is_deposit log - count is_withdraw log).
Proof.
  revert s s' log; induction l as [|ix l IH]; intros s s' log Hv; cbn.
  { intros [= <- <-]. unfold count. cbn. split_and!; [done|done|lia]. }
  destruct (ledger_step s ix) as [s1 ok] eqn:Hs. destruct (ledger_run s1 l) as [s2 log2] eqn:Hr.
  intros [= <- <-]. apply ledger_step_vault in Hs as (H1 & H2 & H3); [|done].
  apply IH in Hr as (H4 & H5 & H6); [|done].
  rewrite (count_cons is_deposit), (count_cons is_withdraw).
  split_and!; [done|congruence|]. rewrite H6, H3, H2. lia.
Qed.

(** The pure withdrawal records the nullifier before it looks at the
    vault: when the collateral is short, the call fails and the coin is spent
    in the state it leaves, so that no later attempt can succeed. *)
Theorem withdraw_shortfall_burns_nullifier r v n pk sig denom recipient :
  v_denom v = denom -> verify_coin_for_spend r denom pk sig = Ok tt ->
  NullifierSet_contains n (compute_nullifier pk) = false -> v_collateral v < denom ->
  let ix := Instruction.Withdraw pk sig denom recipient in
  let '(v', n', out) := process_withdraw r v n ix in
  out = Err ProgramError.VaultInsufficientCollateral /\ v' = v /\
  NullifierSet_contains n' (compute_nullifier pk) = true /\
  forall v'', v_denom v'' = denom ->
    (process_withdraw r v'' n' ix).2 = Err ProgramError.DoubleSpend.
Proof.
  intros Hd Hv Hn%bool_decide_eq_false Hc. cbn zeta. unfold process_withdraw. rewrite Hd, Z.eqb_refl, Hv.
  unfold NullifierSet_insert. rewrite bool_decide_false by done. cbn [negb].
  destruct (Z.ltb_spec (v_collateral v) denom); [|lia].
  split_and!; [done|done|apply bool_decide_eq_true; cbn; set_solver|].
  intros v'' Hv''. rewrite Hv'', Z.eqb_refl. cbn [negb ns_leaves].
  by rewrite bool_decide_true by set_solver.
Qed.
End program_properties.

(** ** Witnesses *)
#[local] Existing Instance toy.
#[local] Existing Instance toy_ok.

Definition demo_entry : KeysetEntry :=
  {| ke_keyset_id := repeat Byte.x01 33; ke_denom := 1000;
     ke_joint_pk := pk_bytes (PublicKey_from_secret demo_sk); ke_epoch := 4;
     ke_status := KeysetStatus.Active |}.
Definition demo_registry : KeysetRegistry := {| kr_version := 1; kr_entries := [demo_entry] |}.
Definition demo_coin_pk : bytes := pk_bytes (PublicKey_from_secret {| sk_scalar := sc_of_u64 4242 |}).
Definition demo_coin_sig : Signature :=
  (schnorr_sign demo_sk (PublicKey_from_secret demo_sk) demo_coin_pk (demo_rng 11)).1.

Lemma registry_ops_preserve_witness :
  registry_ok (process_register_keyset demo_registry
    (Instruction.RegisterKeyset (repeat Byte.x02 33) 1000 (repeat Byte.x03 32) 5 [])).1 /\
  registry_ok (process_revoke demo_registry
    (Instruction.RegisterKeyset (repeat Byte.x02 33) 1000 (repeat Byte.x03 32) 5 [])).1.
Proof.
  apply registry_ops_preserve. split; [apply NoDup_singleton|].
  unfold KEYSET_REGISTRY_CAPACITY. cbn. lia.
Defined.

Definition demo_ledger : ledger :=
  {| l_registry := demo_registry; l_vault := Vault_new 1000; l_nullifiers := NullifierSet_new |}.
Definition demo_script : list Instruction.t :=
  [Instruction.Deposit 1000 1000; Instruction.Deposit 1000 999;
   Instruction.Withdraw demo_coin_pk demo_coin_sig 1000 (repeat Byte.x09 32);
   Instruction.Withdraw demo_coin_pk demo_coin_sig 1000 (repeat Byte.x09 32)].

Lemma vault_conservation_witness :
  let '(s', log) := ledger_run demo_ledger demo_script in
  vault_ok (l_vault s') /\ v_denom (l_vault s') = 1000 /\
  v_collateral (l_vault s') = 0 + 1000 * (count is_deposit log - count is_withdraw log).
Proof.
  destruct (ledger_run demo_ledger demo_script) as [s' log] eqn:H.
  apply (vault_conservation demo_script demo_ledger s' log); [|exact H].
  split; unfold u64, in_width; cbn; lia.
Defined.

Lemma withdraw_shortfall_burns_nullifier_witness :
  let ix := Instruction.Withdraw demo_coin_pk demo_coin_sig 1000 (repeat Byte.x09 32) in
  let '(v', n', out) := process_withdraw demo_registry (Vault_new 1000) NullifierSet_new ix in
  out = Err ProgramError.VaultInsufficientCollateral /\ v' = Vault_new 1000 /\
  NullifierSet_contains n' (compute_nullifier demo_coin_pk) = true /\
  forall v'', v_denom v'' = 1000 ->
    (process_withdraw demo_registry v'' n' ix).2 = Err ProgramError.DoubleSpend.
Proof.
  apply withdraw_shortfall_burns_nullifier; [reflexivity|vm_refl|vm_refl|reflexivity].
Defined.
