(* ===== verification/Solana.v ===== *)
(** * The Solana runtime the program calls

    [solana_program] and the runtime are third-party code: program addresses,
    sysvars, cross-program invocations and reallocation are parameters
    ([Solana]), their documented behaviour is [SolanaOk], and [sim] is a
    concrete instance that satisfies it.

    Accounts live in one store indexed by key: the [AccountInfo]s of an
    instruction are keys into it, so an account passed twice is one account. *)
From S2P Require Import Prelude.

Module SolError.
Inductive t : Type :=
| InvalidInstructionData
| InvalidAccountData
| NotEnoughAccountKeys
| MissingRequiredSignature
| IncorrectProgramId
| AccountDataTooSmall
| InsufficientFunds
| Custom (code : Z)
| Runtime (code : Z).
#[global] Instance t_eq_dec : EqDecision t.
Proof. solve_decision. Defined.
End SolError.

Record account : Type := { acc_lamports : Z; acc_data : bytes; acc_owner : bytes }.

Notation store := (gmap bytes account).

(** [AccountInfo]: the key and the signer flag; lamports, data and owner are
    read from the store. *)
Record AccountInfo : Type := { ai_key : bytes; ai_is_signer : bool }.

Definition zeros (n : nat) : bytes := repeat Byte.x00 n.
Definition all_zero (b : bytes) : bool := forallb (λ x, Byte.eqb x Byte.x00) b.

Class Solana : Type := {
  system_program_id : bytes;
  ed25519_program_id : bytes;
  find_program_address : list bytes -> bytes -> bytes * Z;
  (** the transaction an instruction runs in *)
  env : Type;
  Clock_get : env -> res SolError.t Z;
  Rent_minimum_balance : env -> Z -> res SolError.t Z;
  load_current_index_checked : env -> bytes -> res SolError.t Z;
  load_instruction_at_checked : env -> Z -> bytes -> res SolError.t (bytes * bytes);
  (** [invoke_signed] of a system transfer and of an account creation *)
  invoke_transfer : bytes -> store -> bytes -> bytes -> Z -> list bytes -> res SolError.t store;
  invoke_create_account :
    bytes -> store -> bytes -> bytes -> Z -> Z -> bytes -> list bytes -> res SolError.t store;
  (** [AccountInfo::realloc] with zero initialisation *)
  realloc : account -> Z -> res SolError.t account;
}.

(** A key without an account is an empty account of the system program. *)
Definition account_at `{Solana} (st : store) (k : bytes) : account :=
  default {| acc_lamports := 0; acc_data := []; acc_owner := system_program_id |} (st !! k).

Definition set_lamports (a : account) (l : Z) : account :=
  {| acc_lamports := l; acc_data := acc_data a; acc_owner := acc_owner a |}.
Definition set_data (a : account) (d : bytes) : account :=
  {| acc_lamports := acc_lamports a; acc_data := d; acc_owner := acc_owner a |}.

(** The effect of a transfer, also when both ends are one account. *)
Definition move_lamports `{Solana} (st : store) (from to : bytes) (l : Z) : store :=
  let st := <[from := set_lamports (account_at st from) (acc_lamports (account_at st from) - l)]> st in
  <[to := set_lamports (account_at st to) (acc_lamports (account_at st to) + l)]> st.

Class SolanaOk (S : Solana) : Prop := {
  clock_u64 e slot : Clock_get e = Ok slot -> u64 slot;
  rent_nonneg e size rent : Rent_minimum_balance e size = Ok rent -> 0 <= rent;
  (** two program addresses of one program come from the same seed bytes *)
  pda_inj seeds1 seeds2 pid :
    (find_program_address seeds1 pid).1 = (find_program_address seeds2 pid).1 ->
    mjoin seeds1 = mjoin seeds2;
  transfer_ok pid st from to l seeds st' :
    invoke_transfer pid st from to l seeds = Ok st' ->
    acc_owner (account_at st from) = system_program_id /\
    l <= acc_lamports (account_at st from) /\ st' = move_lamports st from to l;
  create_ok pid st from to l space owner seeds st' :
    invoke_create_account pid st from to l space owner seeds = Ok st' ->
    acc_lamports (account_at st to) = 0 /\ acc_data (account_at st to) = [] /\
    acc_owner (account_at st from) = system_program_id /\
    l <= acc_lamports (account_at st from) /\
    st' = <[to := {| acc_lamports := acc_lamports (account_at (move_lamports st from to l) to);
                     acc_data := zeros (Z.to_nat space); acc_owner := owner |}]>
          (move_lamports st from to l);
  realloc_ok a n a' : realloc a n = Ok a' -> Z.of_nat (length (acc_data a)) <= n ->
    a' = set_data a (acc_data a ++ zeros (Z.to_nat n - length (acc_data a)));
}.

Section accounts.
Context `{SO : Solana}.

Lemma account_at_insert st k a : account_at (<[k := a]> st) k = a.
Proof. unfold account_at. by rewrite lookup_insert_eq. Qed.

Lemma account_at_insert_ne st k k' a : k <> k' ->
  account_at (<[k := a]> st) k' = account_at st k'.
Proof. intros H. unfold account_at. by rewrite lookup_insert_ne. Qed.

Lemma account_at_insert_case st k k' a :
  account_at (<[k := a]> st) k' = if decide (k = k') then a else account_at st k'.
Proof.
  case_decide; [subst; apply account_at_insert|by apply account_at_insert_ne].
Qed.

(** A transfer moves lamports and nothing else. *)
Lemma move_lamports_spec st from to l k : from <> to ->
  account_at (move_lamports st from to l) k =
  if decide (k = from) then set_lamports (account_at st from) (acc_lamports (account_at st from) - l)
  else if decide (k = to) then set_lamports (account_at st to) (acc_lamports (account_at st to) + l)
  else account_at st k.
Proof.
  intros Hne. unfold move_lamports. rewrite account_at_insert_case.
  destruct (decide (to = k)) as [<-|Hk].
  - rewrite decide_False by congruence. rewrite decide_True by done.
    by rewrite !account_at_insert_ne by done.
  - rewrite account_at_insert_case. destruct (decide (from = k)) as [<-|Hk'].
    + by rewrite decide_True.
    + by rewrite !decide_False by congruence.
Qed.

Lemma move_lamports_self st k l :
  acc_lamports (account_at (move_lamports st k k l) k) = acc_lamports (account_at st k).
Proof. unfold move_lamports. rewrite !account_at_insert. cbn. lia. Qed.

Lemma move_lamports_data st from to l k :
  acc_data (account_at (move_lamports st from to l) k) = acc_data (account_at st k) /\
  acc_owner (account_at (move_lamports st from to l) k) = acc_owner (account_at st k).
Proof.
  unfold move_lamports. rewrite !account_at_insert_case.
  repeat case_decide; subst; cbn; done.
Qed.
End accounts.

(** ** A simulated runtime *)

(** The transaction: the instructions by program and data, the index of the
    current one, the key of the instructions sysvar, and the slot. *)
Record sim_env : Type := {
  se_instructions : list (bytes * bytes);
  se_current : Z;
  se_sysvar : bytes;
  se_slot : Z;
}.

Definition sim_ed25519 : bytes := repeat Byte.xed 32.
Definition sim_error : SolError.t := SolError.Runtime 0.

Definition sim : Solana :=
  let sys := zeros 32 in
  let at_ (st : store) k :=
    default {| acc_lamports := 0; acc_data := []; acc_owner := sys |} (st !! k) in
  let mv (st : store) from to l :=
    let st := <[from := set_lamports (at_ st from) (acc_lamports (at_ st from) - l)]> st in
    <[to := set_lamports (at_ st to) (acc_lamports (at_ st to) + l)]> st in
  {| system_program_id := sys;
     ed25519_program_id := sim_ed25519;
     find_program_address seeds pid := (mjoin seeds ++ pid, 255);
     env := sim_env;
     Clock_get e := if decide (u64 (se_slot e)) then Ok (se_slot e) else Err sim_error;
     Rent_minimum_balance _ n := if 0 <=? n then Ok ((128 + n) * 6960) else Err sim_error;
     load_current_index_checked e k :=
       if decide (k = se_sysvar e) then Ok (se_current e) else Err sim_error;
     load_instruction_at_checked e i k :=
       if decide (k = se_sysvar e) then ok_or sim_error (se_instructions e !! Z.to_nat i)
       else Err sim_error;
     invoke_transfer _ st from to l _ :=
       if decide (acc_owner (at_ st from) = sys /\ l <= acc_lamports (at_ st from)) then Ok (mv st from to l) else Err sim_error;
     invoke_create_account _ st from to l space owner _ :=
       if decide (acc_lamports (at_ st to) = 0 /\ acc_data (at_ st to) = [] /\
                  acc_owner (at_ st from) = sys /\ l <= acc_lamports (at_ st from)) then
         Ok (<[to := {| acc_lamports := acc_lamports (at_ (mv st from to l) to);
                        acc_data := zeros (Z.to_nat space); acc_owner := owner |}]>
             (mv st from to l))
       else Err sim_error;
     realloc a n :=
       Ok (set_data a (take (Z.to_nat n) (acc_data a) ++
                       zeros (Z.to_nat n - length (acc_data a)))) |}.

Lemma sim_ok : SolanaOk sim.
Proof.
  split.
  - intros e slot. cbn. case_decide; [|done]. by intros <-%(inj Ok).
  - intros e n rent. cbn. destruct (Z.leb_spec 0 n); [|done]. intros <-%(inj Ok). lia.
  - intros s1 s2 pid. cbn. apply (inj (λ l, l ++ pid)).
  - intros pid st from to l seeds st'. cbn. case_decide as H; [|done]. intros <-%(inj Ok).
    destruct H as [H1 H2]. done.
  - intros pid st from to l space owner seeds st'. cbn. case_decide as H; [|done].
    intros <-%(inj Ok). destruct H as (H1 & H2 & H3 & H4). done.
  - intros a n a'. cbn. intros <-%(inj Ok) Hle. by rewrite take_ge by lia.
Qed.
