(* ===== verification/Ed25519.v ===== *)
(** * tardus-program: the ed25519 precompile bridge

    Models [crates/tardus-program/src/ed25519_verifier.rs]: what the program
    requires of the instruction that precedes it in the transaction. *)
From S2P Require Import Prelude Crypto Wire Core MintBase Solana.

Section ed25519.
Context `{SO : Solana}.

Definition SIG_OFFSET : nat := 16.
Definition SIG_LEN : nat := 64.
Definition PK_OFFSET : nat := SIG_OFFSET + SIG_LEN.
Definition PK_LEN : nat := 32.
Definition MSG_OFFSET : nat := PK_OFFSET + PK_LEN.

Definition ERR_MISSING_PRECOMPILE : Z := 30.
Definition ERR_WRONG_PRECOMPILE_PROGRAM : Z := 31.
Definition ERR_PRECOMPILE_TOO_SHORT : Z := 32.
Definition ERR_PRECOMPILE_BAD_HEADER : Z := 33.
Definition ERR_PRECOMPILE_PK_MISMATCH : Z := 34.
Definition ERR_PRECOMPILE_MSG_MISMATCH : Z := 35.
Definition ERR_PRECOMPILE_SIG_MISMATCH : Z := 36.
Definition ERR_PRECOMPILE_OFFSETS_INVALID : Z := 37.

(** [data\[i\]], [u16::from_le_bytes(\[data\[i\], data\[i+1\]\])] and
    [data\[a..a+n\]], with their bound checks. *)
Definition byte_at (data : bytes) (i : nat) : res SolError.t Z :=
  b ← expect (data !! i); Ok (Z_of_byte b).
Definition u16_at (data : bytes) (i : nat) : res SolError.t Z :=
  b0 ← expect (data !! i); b1 ← expect (data !! S i); Ok (le_Z [b0; b1]).
Definition slice (data : bytes) (a n : nat) : res SolError.t bytes :=
  if decide (a + n <= length data)%nat then Ok (take n (drop a data)) else Panic.

Definition u16_max : Z := 2 ^ 16 - 1.

Definition verify_ed25519_precompile (e : env) (instructions_sysvar : AccountInfo)
    (expected_pubkey expected_message : bytes) (expected_signature : Signature)
    : res SolError.t unit :=
  current_idx ← load_current_index_checked e (ai_key instructions_sysvar);
  _ ← reject_if (current_idx =? 0) (SolError.Custom ERR_MISSING_PRECOMPILE);
  prev ← load_instruction_at_checked e (current_idx - 1) (ai_key instructions_sysvar);
  let '(prev_program_id, data) := prev in
  _ ← reject_if (negb (bool_decide (prev_program_id = ed25519_program_id)))
                (SolError.Custom ERR_WRONG_PRECOMPILE_PROGRAM);
  let expected_msg_len := length expected_message in
  let total_expected := (MSG_OFFSET + expected_msg_len)%nat in
  _ ← reject_if (length data <? total_expected)%nat (SolError.Custom ERR_PRECOMPILE_TOO_SHORT);
  d0 ← byte_at data 0;
  d1 ← byte_at data 1;
  _ ← reject_if (negb (d0 =? 1) || negb (d1 =? 0)) (SolError.Custom ERR_PRECOMPILE_BAD_HEADER);
  sig_offset ← u16_at data 2;
  sig_ix_idx ← u16_at data 4;
  pk_offset ← u16_at data 6;
  pk_ix_idx ← u16_at data 8;
  msg_data_offset ← u16_at data 10;
  msg_data_size ← u16_at data 12;
  msg_ix_idx ← u16_at data 14;
  _ ← reject_if (2 ^ 16 <=? Z.of_nat expected_msg_len)
                (SolError.Custom ERR_PRECOMPILE_OFFSETS_INVALID);
  _ ← reject_if (negb (sig_offset =? Z.of_nat SIG_OFFSET)
              || negb (sig_ix_idx =? u16_max)
              || negb (pk_offset =? Z.of_nat PK_OFFSET)
              || negb (pk_ix_idx =? u16_max)
              || negb (msg_data_offset =? Z.of_nat MSG_OFFSET)
              || negb (msg_data_size =? Z.of_nat expected_msg_len)
              || negb (msg_ix_idx =? u16_max))
                (SolError.Custom ERR_PRECOMPILE_OFFSETS_INVALID);
  actual_sig_r ← slice data SIG_OFFSET 32;
  actual_sig_s ← slice data (SIG_OFFSET + 32) 32;
  actual_pk ← slice data PK_OFFSET PK_LEN;
  actual_msg ← slice data MSG_OFFSET expected_msg_len;
  _ ← reject_if (negb (bool_decide (actual_pk = expected_pubkey)))
                (SolError.Custom ERR_PRECOMPILE_PK_MISMATCH);
  _ ← reject_if (negb (bool_decide (actual_msg = expected_message)))
                (SolError.Custom ERR_PRECOMPILE_MSG_MISMATCH);
  reject_if (negb (bool_decide (actual_sig_r = sig_r expected_signature))
          || negb (bool_decide (actual_sig_s = sig_s expected_signature)))
            (SolError.Custom ERR_PRECOMPILE_SIG_MISMATCH).
End ed25519.

(** ** The layout the precompile documents *)

(** One signature, all of it inside the instruction's own data. *)
Definition precompile_data (pk msg : bytes) (sig : Signature) : bytes :=
  le_bytes 1 1 ++ le_bytes 1 0 ++
  le_bytes 2 16 ++ le_bytes 2 u16_max ++
  le_bytes 2 80 ++ le_bytes 2 u16_max ++
  le_bytes 2 112 ++ le_bytes 2 (Z.of_nat (length msg)) ++ le_bytes 2 u16_max ++
  Signature_to_bytes sig ++ pk ++ msg.

Section ed25519_lemmas.
Context `{SO : Solana}.

Lemma u16_at_Ok data i z : u16_at data i = Ok z <->
  exists b0 b1, data !! i = Some b0 /\ data !! S i = Some b1 /\ z = le_Z [b0; b1].
Proof.
  unfold u16_at. split; [intros H; inv_ok; eauto 10|]. by intros (b0 & b1 & -> & -> & ->).
Qed.

Lemma slice_Ok data a n l : slice data a n = Ok l <->
  (a + n <= length data)%nat /\ l = take n (drop a data).
Proof. unfold slice. case_decide; split; [intros [= <-]|..]; naive_solver. Qed.

(** A two-byte field, read back. *)
Lemma u16_field (b0 b1 : byte) z : le_Z [b0; b1] = z -> [b0; b1] = le_bytes 2 z.
Proof. intros <-. symmetry. apply (le_bytes_le_Z [b0; b1]). Qed.

Lemma u16_at_inv data i z : u16_at data i = Ok z ->
  drop i data = le_bytes 2 z ++ drop (S (S i)) data.
Proof.
  rewrite u16_at_Ok. intros (b0 & b1 & H0 & H1 & Hz). rewrite <- (u16_field b0 b1 z) by done.
  by rewrite (drop_S data b0 i H0), (drop_S data b1 (S i) H1).
Qed.

Lemma byte_at_inv data i z : byte_at data i = Ok z ->
  drop i data = le_bytes 1 z ++ drop (S i) data.
Proof.
  unfold byte_at. intros H. inv_ok. subst z. rewrite (drop_S data r i Hb). f_equal.
  cbn. by rewrite byte_of_Z_of_byte.
Qed.

Lemma slice_inv data a n l : slice data a n = Ok l -> drop a data = l ++ drop (a + n) data.
Proof. intros [_ ->]%slice_Ok. by rewrite <- drop_drop, take_drop. Qed.
End ed25519_lemmas.

Section ed25519_spec.
Context `{SO : Solana}.

(** The sixteen header bytes. *)
Definition precompile_header (n : nat) : bytes :=
  le_bytes 1 1 ++ le_bytes 1 0 ++ le_bytes 2 16 ++ le_bytes 2 u16_max ++ le_bytes 2 80 ++
  le_bytes 2 u16_max ++ le_bytes 2 112 ++ le_bytes 2 (Z.of_nat n) ++ le_bytes 2 u16_max.

Lemma precompile_split pk msg sig rest :
  precompile_data pk msg sig ++ rest =
  precompile_header (length msg) ++ sig_r sig ++ sig_s sig ++ pk ++ msg ++ rest.
Proof. unfold precompile_data, Signature_to_bytes. by rewrite <- !app_assoc. Qed.

(** The header read back, whatever follows. *)
Lemma header_fields n tl : Z.of_nat n < 2 ^ 16 ->
  let data := precompile_header n ++ tl in
  byte_at data 0 = Ok 1 /\ byte_at data 1 = Ok 0 /\ u16_at data 2 = Ok 16 /\
  u16_at data 4 = Ok u16_max /\ u16_at data 6 = Ok 80 /\ u16_at data 8 = Ok u16_max /\
  u16_at data 10 = Ok 112 /\ u16_at data 12 = Ok (Z.of_nat n) /\ u16_at data 14 = Ok u16_max.
Proof.
  intros Hn data. split_and!; try reflexivity.
  change (u16_at data 12) with (Ok (E := SolError.t) (le_Z (le_bytes 2 (Z.of_nat n)))).
  by rewrite le_Z_le_bytes_small by lia.
Qed.

Lemma slice_mid a b c n k : length a = n -> length b = k -> slice (a ++ b ++ c) n k = Ok b.
Proof.
  intros <- <-. apply slice_Ok. rewrite !length_app. split; [lia|].
  by rewrite drop_app_length, take_app_length.
Qed.

Lemma payload_slices pk msg sig rest : wf_signature sig -> length pk = 32%nat ->
  let data := precompile_header (length msg) ++ sig_r sig ++ sig_s sig ++ pk ++ msg ++ rest in
  slice data 16 32 = Ok (sig_r sig) /\ slice data 48 32 = Ok (sig_s sig) /\
  slice data 80 32 = Ok pk /\ slice data 112 (length msg) = Ok msg.
Proof.
  intros [Hr Hs] Hp data. unfold data. split_and!.
  - by apply slice_mid.
  - rewrite app_assoc. apply slice_mid; [rewrite length_app, Hr; done|done].
  - rewrite app_assoc, app_assoc. apply slice_mid; [rewrite !length_app, Hr, Hs; done|done].
  - do 3 rewrite app_assoc. apply slice_mid; [rewrite !length_app, Hr, Hs, Hp; done|done].
Qed.

(** From the fields read to the bytes of the whole instruction. *)
Lemma header_inv data n :
  byte_at data 0 = Ok 1 -> byte_at data 1 = Ok 0 -> u16_at data 2 = Ok 16 ->
  u16_at data 4 = Ok u16_max -> u16_at data 6 = Ok 80 -> u16_at data 8 = Ok u16_max ->
  u16_at data 10 = Ok 112 -> u16_at data 12 = Ok (Z.of_nat n) -> u16_at data 14 = Ok u16_max ->
  data = precompile_header n ++ drop 16 data.
Proof.
  intros H0%byte_at_inv H1%byte_at_inv H2%u16_at_inv H3%u16_at_inv H4%u16_at_inv H5%u16_at_inv
    H6%u16_at_inv H7%u16_at_inv H8%u16_at_inv.
  unfold precompile_header. rewrite <- !app_assoc.
  by rewrite <- H8, <- H7, <- H6, <- H5, <- H4, <- H3, <- H2, <- H1, <- H0.
Qed.

(** What an accepted instruction carries. *)
Lemma verify_ed25519_precompile_fields e sysvar pk msg sig :
  verify_ed25519_precompile e sysvar pk msg sig = Ok tt ->
  exists idx data, load_current_index_checked e (ai_key sysvar) = Ok idx /\ idx <> 0 /\
    load_instruction_at_checked e (idx - 1) (ai_key sysvar) = Ok (ed25519_program_id, data) /\
    slice data 16 32 = Ok (sig_r sig) /\ slice data 48 32 = Ok (sig_s sig) /\
    slice data 80 32 = Ok pk /\ u16_at data 12 = Ok (Z.of_nat (length msg)) /\
    slice data 112 (length msg) = Ok msg.
Proof.
  unfold verify_ed25519_precompile, PK_LEN. change MSG_OFFSET with 112%nat.
  change PK_OFFSET with 80%nat. change SIG_OFFSET with 16%nat. change (16 + 32)%nat with 48%nat.
  intros H. inv_ok. destruct r1 as [pid data]. inv_res.
  repeat match goal with H : negb _ = false |- _ => apply negb_false_iff in H end.
  repeat match goal with
  | H : (_ =? _) = true |- _ => apply Z.eqb_eq in H
  | H : bool_decide _ = true |- _ => apply bool_decide_eq_true in H
  end. subst. by exists r, data.
Qed.

Lemma verify_ed25519_precompile_iff e sysvar pk msg sig :
  length pk = 32%nat -> wf_signature sig -> Z.of_nat (length msg) < 2 ^ 16 ->
  verify_ed25519_precompile e sysvar pk msg sig = Ok tt <->
  exists idx rest, load_current_index_checked e (ai_key sysvar) = Ok idx /\ idx <> 0 /\
    load_instruction_at_checked e (idx - 1) (ai_key sysvar) =
    Ok (ed25519_program_id, precompile_data pk msg sig ++ rest).
Proof.
  intros Hp Hw Hm. unfold verify_ed25519_precompile, PK_LEN. change MSG_OFFSET with 112%nat.
  change PK_OFFSET with 80%nat. change SIG_OFFSET with 16%nat. change (16 + 32)%nat with 48%nat.
  split.
  - intros H. inv_ok. destruct r1 as [pid data]. inv_res.
    repeat match goal with H : negb _ = false |- _ => apply negb_false_iff in H end.
    repeat match goal with
    | H : (_ =? _) = true |- _ => apply Z.eqb_eq in H
    | H : bool_decide _ = true |- _ => apply bool_decide_eq_true in H
    end. subst.
    exists r, (drop (112 + length msg) data). split_and!; [done|done|].
    rewrite Hb1. do 2 f_equal. rewrite precompile_split.
    rewrite (header_inv data (length msg)) at 1 by done. f_equal.
    repeat match goal with H : slice data _ _ = Ok _ |- _ => apply slice_inv in H end.
    match goal with
    | H16 : drop 16 data = _, H48 : drop 48 data = _, H80 : drop 80 data = _,
      H112 : drop _ data = msg ++ _ |- _ =>
        rewrite H16; change (16 + 32)%nat with 48%nat; rewrite H48;
        change (48 + 32)%nat with 80%nat; rewrite H80; do 3 f_equal; exact H112
    end.
  - intros (idx & rest & Hc & Hi & Hl). rewrite Hc. step.
    rewrite (proj2 (Z.eqb_neq _ _) Hi). step. rewrite Hl. step.
    rewrite bool_decide_eq_true_2 by done. rewrite precompile_split. step.
    destruct (header_fields (length msg) (sig_r sig ++ sig_s sig ++ pk ++ msg ++ rest) Hm)
      as (-> & -> & -> & -> & -> & -> & -> & -> & ->).
    destruct (payload_slices pk msg sig rest Hw Hp) as (-> & -> & -> & ->).
    destruct (Nat.ltb_spec (length (precompile_header (length msg) ++
      sig_r sig ++ sig_s sig ++ pk ++ msg ++ rest)) (112 + length msg)) as [Hlt|_].
    { exfalso. destruct Hw. rewrite !length_app in Hlt. cbn [precompile_header length] in Hlt. 
      unfold precompile_header in Hlt. cbn [length app le_bytes] in Hlt. lia. }
    step. rewrite !Z.eqb_refl. replace (2 ^ 16 <=? Z.of_nat (length msg)) with false by lia.
    cbn [negb orb]. step. by rewrite !bool_decide_eq_true_2.
Qed.

(** C32: the bridge accepts exactly the canonical layout. The check succeeds
    if and only if the instruction just before the current one belongs to the
    ed25519 precompile and its data begins with the one-signature layout of
    the expected key, message and signature, every offset pointing into that
    same instruction: the tuple the precompile verified is the tuple the
    program relies on. *)
Theorem verify_ed25519_precompile_exact e sysvar pk msg sig :
  length pk = 32%nat -> wf_signature sig -> Z.of_nat (length msg) < 2 ^ 16 ->
  verify_ed25519_precompile e sysvar pk msg sig = Ok tt <->
  exists idx rest, load_current_index_checked e (ai_key sysvar) = Ok idx /\ idx <> 0 /\
    load_instruction_at_checked e (idx - 1) (ai_key sysvar) =
    Ok (ed25519_program_id, precompile_data pk msg sig ++ rest).
Proof. apply verify_ed25519_precompile_iff. Qed.
End ed25519_spec.

(** ** Witness *)
#[local] Existing Instance sim.

Definition demo_sysvar : AccountInfo := {| ai_key := repeat Byte.x0f 32; ai_is_signer := false |}.
Definition demo_pk : bytes := repeat Byte.x01 32.
Definition demo_coin : bytes := repeat Byte.x02 32.
Definition demo_sig : Signature := {| sig_r := repeat Byte.x03 32; sig_s := repeat Byte.x04 32 |}.
Definition demo_env : env (Solana := sim) :=
  {| se_instructions := [(sim_ed25519, precompile_data demo_pk demo_coin demo_sig); ([], [])];
     se_current := 1; se_sysvar := repeat Byte.x0f 32; se_slot := 100 |}.

Lemma verify_ed25519_precompile_exact_witness :
  verify_ed25519_precompile demo_env demo_sysvar demo_pk demo_coin demo_sig = Ok tt.
Proof.
  apply (verify_ed25519_precompile_exact demo_env demo_sysvar demo_pk demo_coin demo_sig).
  - reflexivity.
  - split; reflexivity.
  - cbn; lia.
  - exists 1, []. split; [reflexivity|]. split; [discriminate|reflexivity].
Defined.
