(* ===== verification/Sbf.v ===== *)
(** * tardus-program: the instruction handlers

    Models [crates/tardus-program/src/{sbf_processor,entrypoint}.rs].  A handler
    maps the account store to the store it leaves; the runtime discards the
    changes of an instruction that fails, so an error carries no store.  Log
    messages ([msg!]) are left out. *)
From S2P Require Import Prelude Crypto ToyCurve Wire Core MintBase Instruction Program Solana Ed25519.

Section sbf.
Context `{C : Curve} `{SO : Solana}.

Definition ERR_CORE : Z := 1.
Definition ERR_UNKNOWN_KEYSET : Z := 2.
Definition ERR_KEYSET_REVOKED : Z := 3.
Definition ERR_KEYSET_ALREADY_REGISTERED : Z := 4.
Definition ERR_KEYSET_REGISTRY_FULL : Z := 5.
Definition ERR_COIN_SIG_INVALID : Z := 6.
Definition ERR_COIN_PUBKEY_MISMATCH : Z := 7.
Definition ERR_DOUBLE_SPEND : Z := 8.
Definition ERR_DEPOSIT_AMOUNT_MISMATCH : Z := 9.
Definition ERR_REFRESH_DENOM_MISMATCH : Z := 10.
Definition ERR_VAULT_INSUFFICIENT : Z := 11.
Definition ERR_VAULT_INVARIANT : Z := 12.
Definition ERR_INSUFFICIENT_THRESHOLD : Z := 13.
Definition ERR_INSTRUCTION_MALFORMED : Z := 14.
Definition ERR_ACCOUNT_ALREADY_EXISTS : Z := 15.
Definition ERR_BOOTSTRAP_SIZE_INVALID : Z := 16.

Definition map_error (e : ProgramError.t) : SolError.t :=
  SolError.Custom (match e with
  | ProgramError.Core _ => ERR_CORE
  | ProgramError.UnknownKeysetId => ERR_UNKNOWN_KEYSET
  | ProgramError.KeysetRevoked => ERR_KEYSET_REVOKED
  | ProgramError.KeysetAlreadyRegistered => ERR_KEYSET_ALREADY_REGISTERED
  | ProgramError.KeysetRegistryFull => ERR_KEYSET_REGISTRY_FULL
  | ProgramError.CoinSignatureInvalid => ERR_COIN_SIG_INVALID
  | ProgramError.CoinPubkeyMismatch => ERR_COIN_PUBKEY_MISMATCH
  | ProgramError.DoubleSpend => ERR_DOUBLE_SPEND
  | ProgramError.DepositAmountMismatch => ERR_DEPOSIT_AMOUNT_MISMATCH
  | ProgramError.RefreshDenominationMismatch => ERR_REFRESH_DENOM_MISMATCH
  | ProgramError.VaultInsufficientCollateral => ERR_VAULT_INSUFFICIENT
  | ProgramError.VaultInvariantViolation => ERR_VAULT_INVARIANT
  | ProgramError.InsufficientThresholdAuth => ERR_INSUFFICIENT_THRESHOLD
  | ProgramError.InstructionMalformed => ERR_INSTRUCTION_MALFORMED
  end).

(** ** PDA helpers *)
Definition verify_pda (seeds : list bytes) (account : AccountInfo) (program_id : bytes)
    : res SolError.t Z :=
  let '(expected, bump) := find_program_address seeds program_id in
  _ ← reject_if (negb (bool_decide (ai_key account = expected))) SolError.InvalidAccountData;
  Ok bump.

Definition verify_keyset_registry_pda (account : AccountInfo) (program_id : bytes) :=
  verify_pda keyset_registry_seeds account program_id.
Definition verify_nullifier_tree_pda (account : AccountInfo) (program_id : bytes) :=
  verify_pda nullifier_tree_seeds account program_id.
Definition verify_vault_pda (account : AccountInfo) (denom : Z) (program_id : bytes) :=
  verify_pda (vault_seeds denom) account program_id.

Definition verify_sponsor_pool_pda (st : store) (account : AccountInfo) (program_id : bytes)
    : res SolError.t Z :=
  bump ← verify_pda sponsor_pool_seeds account program_id;
  _ ← reject_if (negb (bool_decide (acc_owner (account_at st (ai_key account)) = program_id)))
                SolError.IncorrectProgramId;
  Ok bump.

(** ** State load / store *)

(** All-zero data is a fresh account; otherwise a prefix is decoded. *)
Definition load_padded {A} (fresh : A) (r : reader A) (data : bytes) : res SolError.t A :=
  if all_zero data then Ok fresh
  else match r data with
       | Some (a, _) => Ok a
       | None => Err SolError.InvalidAccountData
       end.

(** [data\[..bytes.len()\].copy_from_slice(&bytes)] *)
Definition store_padded (st : store) (k : bytes) (b : bytes) : res SolError.t store :=
  let data := acc_data (account_at st k) in
  _ ← reject_if (length data <? length b)%nat SolError.AccountDataTooSmall;
  Ok (<[k := set_data (account_at st k) (b ++ drop (length b) data)]> st).

Definition load_registry (st : store) (account : AccountInfo) : res SolError.t KeysetRegistry :=
  load_padded KeysetRegistry_new KeysetRegistry_read (acc_data (account_at st (ai_key account))).
Definition store_registry (st : store) (account : AccountInfo) (registry : KeysetRegistry)
    : res SolError.t store :=
  b ← ok_or SolError.InvalidAccountData (KeysetRegistry_to_vec registry);
  store_padded st (ai_key account) b.
Definition load_nullifiers (st : store) (account : AccountInfo) : res SolError.t NullifierSet :=
  load_padded NullifierSet_new NullifierSet_read (acc_data (account_at st (ai_key account))).
Definition store_nullifiers (st : store) (account : AccountInfo) (nullifiers : NullifierSet)
    : res SolError.t store :=
  b ← ok_or SolError.InvalidAccountData (NullifierSet_to_vec nullifiers);
  store_padded st (ai_key account) b.
Definition load_sponsor_pool (st : store) (account : AccountInfo) : res SolError.t SponsorPool :=
  load_padded SponsorPool_default SponsorPool_read (acc_data (account_at st (ai_key account))).
Definition store_sponsor_pool (st : store) (account : AccountInfo) (pool : SponsorPool)
    : res SolError.t store :=
  store_padded st (ai_key account) (SponsorPool_to_vec pool).

(** ** Handlers *)
Definition register_keyset (program_id : bytes) (accounts : list AccountInfo)
    (ix : Instruction.t) (st : store) : res SolError.t store :=
  match accounts with
  | [signer; registry_account] =>
      _ ← reject_if (negb (ai_is_signer signer)) SolError.MissingRequiredSignature;
      _ ← verify_keyset_registry_pda registry_account program_id;
      registry ← load_registry st registry_account;
      let '(registry, out) := process_register_keyset registry ix in
      _ ← map_err map_error out;
      store_registry st registry_account registry
  | _ => Err SolError.NotEnoughAccountKeys
  end.

Definition deposit (program_id : bytes) (accounts : list AccountInfo)
    (ix : Instruction.t) (st : store) : res SolError.t store :=
  match accounts with
  | [signer; registry_account; vault_account] =>
      _ ← reject_if (negb (ai_is_signer signer)) SolError.MissingRequiredSignature;
      _ ← verify_keyset_registry_pda registry_account program_id;
      match ix with
      | Instruction.Deposit denom lamports =>
          _ ← verify_vault_pda vault_account denom program_id;
          registry ← load_registry st registry_account;
          let observed_lamports := acc_lamports (account_at st (ai_key vault_account)) in
          _ ← reject_if (observed_lamports <? lamports) SolError.InsufficientFunds;
          let shadow_vault := {| v_denom := denom; v_collateral := observed_lamports |} in
          let '(_, out) := process_deposit registry shadow_vault ix in
          _ ← map_err map_error out;
          Ok st
      | _ => Err (SolError.Custom ERR_INSTRUCTION_MALFORMED)
      end
  | _ => Err SolError.NotEnoughAccountKeys
  end.

Definition refresh (program_id : bytes) (e : env) (accounts : list AccountInfo)
    (ix : Instruction.t) (st : store) : res SolError.t store :=
  match accounts with
  | [signer; registry_account; nullifier_account; instructions_sysvar] =>
      _ ← reject_if (negb (ai_is_signer signer)) SolError.MissingRequiredSignature;
      _ ← verify_keyset_registry_pda registry_account program_id;
      _ ← verify_nullifier_tree_pda nullifier_account program_id;
      match ix with
      | Instruction.Refresh coin_pubkey coin_signature denom =>
          registry ← load_registry st registry_account;
          entry ← ok_or (SolError.Custom ERR_UNKNOWN_KEYSET)
                        (KeysetRegistry_find_active_for_denom registry denom);
          _ ← reject_if (negb (bool_decide (ke_status entry = KeysetStatus.Active)))
                        (SolError.Custom ERR_KEYSET_REVOKED);
          _ ← verify_ed25519_precompile e instructions_sysvar (ke_joint_pk entry)
                coin_pubkey coin_signature;
          let nullifier := compute_nullifier coin_pubkey in
          nullifiers ← load_nullifiers st nullifier_account;
          let '(nullifiers, fresh) := NullifierSet_insert nullifiers nullifier in
          _ ← reject_if (negb fresh) (SolError.Custom ERR_DOUBLE_SPEND);
          store_nullifiers st nullifier_account nullifiers
      | _ => Err (SolError.Custom ERR_INSTRUCTION_MALFORMED)
      end
  | _ => Err SolError.NotEnoughAccountKeys
  end.

Definition withdraw (program_id : bytes) (e : env) (accounts : list AccountInfo)
    (ix : Instruction.t) (st : store) : res SolError.t store :=
  match accounts with
  | [signer; registry_account; vault_account; nullifier_account; recipient_account;
     system_program_account; instructions_sysvar] =>
      _ ← reject_if (negb (ai_is_signer signer)) SolError.MissingRequiredSignature;
      match ix with
      | Instruction.Withdraw coin_pubkey coin_signature denom recipient =>
          _ ← reject_if (negb (bool_decide (ai_key recipient_account = recipient)))
                        SolError.InvalidAccountData;
          _ ← reject_if (negb (bool_decide (ai_key system_program_account = system_program_id)))
                        SolError.IncorrectProgramId;
          _ ← verify_keyset_registry_pda registry_account program_id;
          v_bump ← verify_vault_pda vault_account denom program_id;
          _ ← verify_nullifier_tree_pda nullifier_account program_id;
          registry ← load_registry st registry_account;
          entry ← ok_or (SolError.Custom ERR_UNKNOWN_KEYSET)
                        (KeysetRegistry_find_active_for_denom registry denom);
          _ ← reject_if (negb (bool_decide (ke_status entry = KeysetStatus.Active)))
                        (SolError.Custom ERR_KEYSET_REVOKED);
          _ ← verify_ed25519_precompile e instructions_sysvar (ke_joint_pk entry)
                coin_pubkey coin_signature;
          let nullifier := compute_nullifier coin_pubkey in
          nullifiers ← load_nullifiers st nullifier_account;
          let '(nullifiers, fresh) := NullifierSet_insert nullifiers nullifier in
          _ ← reject_if (negb fresh) (SolError.Custom ERR_DOUBLE_SPEND);
          st ← store_nullifiers st nullifier_account nullifiers;
          let observed_lamports := acc_lamports (account_at st (ai_key vault_account)) in
          _ ← reject_if (observed_lamports <? denom) (SolError.Custom ERR_VAULT_INSUFFICIENT);
          invoke_transfer program_id st (ai_key vault_account) (ai_key recipient_account) denom
            (vault_seeds denom ++ [le_bytes 1 v_bump])
      | _ => Err (SolError.Custom ERR_INSTRUCTION_MALFORMED)
      end
  | _ => Err SolError.NotEnoughAccountKeys
  end.

Definition revoke (program_id : bytes) (accounts : list AccountInfo)
    (ix : Instruction.t) (st : store) : res SolError.t store :=
  match accounts with
  | [signer; registry_account] =>
      _ ← reject_if (negb (ai_is_signer signer)) SolError.MissingRequiredSignature;
      _ ← verify_keyset_registry_pda registry_account program_id;
      registry ← load_registry st registry_account;
      let '(registry, out) := process_revoke registry ix in
      _ ← map_err map_error out;
      store_registry st registry_account registry
  | _ => Err SolError.NotEnoughAccountKeys
  end.

Definition BOOTSTRAP_MAX_SIZE : Z := 64 * 1024.

(** Seeds, allocation size and owner of the account to create. *)
Definition bootstrap_target (program_id : bytes) (account_kind : BootstrapKind.t) (size denom : Z)
    : res SolError.t (list bytes * Z * bytes) :=
  match account_kind with
  | BootstrapKind.KeysetRegistry =>
      _ ← reject_if ((size =? 0) || (BOOTSTRAP_MAX_SIZE <? size))
                    (SolError.Custom ERR_BOOTSTRAP_SIZE_INVALID);
      Ok (keyset_registry_seeds, size, program_id)
  | BootstrapKind.NullifierTree =>
      _ ← reject_if ((size =? 0) || (BOOTSTRAP_MAX_SIZE <? size))
                    (SolError.Custom ERR_BOOTSTRAP_SIZE_INVALID);
      Ok (nullifier_tree_seeds, size, program_id)
  | BootstrapKind.Vault => Ok (vault_seeds denom, 0, system_program_id)
  | BootstrapKind.SponsorPool => Ok (sponsor_pool_seeds, 32, program_id)
  end.

Definition bootstrap (program_id : bytes) (e : env) (accounts : list AccountInfo)
    (ix : Instruction.t) (st : store) : res SolError.t store :=
  match accounts with
  | [funder; target_account; system_program_account] =>
      _ ← reject_if (negb (ai_is_signer funder)) SolError.MissingRequiredSignature;
      _ ← reject_if (negb (bool_decide (ai_key system_program_account = system_program_id)))
                    SolError.IncorrectProgramId;
      match ix with
      | Instruction.Bootstrap account_kind size denom =>
          target ← bootstrap_target program_id account_kind size denom;
          let '(seeds, alloc_size, owner) := target in
          let '(expected_pda, bump) := find_program_address seeds program_id in
          _ ← reject_if (negb (bool_decide (ai_key target_account = expected_pda)))
                        SolError.InvalidAccountData;
          _ ← reject_if (0 <? acc_lamports (account_at st (ai_key target_account)))
                        (SolError.Custom ERR_ACCOUNT_ALREADY_EXISTS);
          rent_lamports ← Rent_minimum_balance e alloc_size;
          invoke_create_account program_id st (ai_key funder) (ai_key target_account)
            rent_lamports alloc_size owner (seeds ++ [le_bytes 1 bump])
      | _ => Err (SolError.Custom ERR_INSTRUCTION_MALFORMED)
      end
  | _ => Err SolError.NotEnoughAccountKeys
  end.

Definition resize_account (program_id : bytes) (e : env) (accounts : list AccountInfo)
    (ix : Instruction.t) (st : store) : res SolError.t store :=
  match accounts with
  | [funder; target_account; system_program_account] =>
      _ ← reject_if (negb (ai_is_signer funder)) SolError.MissingRequiredSignature;
      _ ← reject_if (negb (bool_decide (ai_key system_program_account = system_program_id)))
                    SolError.IncorrectProgramId;
      match ix with
      | Instruction.ResizeAccount account_kind new_size denom =>
          _ ← reject_if ((new_size =? 0) || (BOOTSTRAP_MAX_SIZE <? new_size))
                        (SolError.Custom ERR_BOOTSTRAP_SIZE_INVALID);
          seeds ← match account_kind with
                  | BootstrapKind.KeysetRegistry => Ok keyset_registry_seeds
                  | BootstrapKind.NullifierTree => Ok nullifier_tree_seeds
                  | BootstrapKind.SponsorPool => Ok sponsor_pool_seeds
                  | BootstrapKind.Vault => Err (SolError.Custom ERR_INSTRUCTION_MALFORMED)
                  end;
          let '(expected, _) := find_program_address seeds program_id in
          _ ← reject_if (negb (bool_decide (ai_key target_account = expected)))
                        SolError.InvalidAccountData;
          let target := account_at st (ai_key target_account) in
          _ ← reject_if (negb (bool_decide (acc_owner target = program_id)))
                        SolError.IncorrectProgramId;
          let current_size := Z.of_nat (length (acc_data target)) in
          _ ← reject_if (new_size <=? current_size) (SolError.Custom ERR_BOOTSTRAP_SIZE_INVALID);
          new_rent ← Rent_minimum_balance e new_size;
          let current_lamports := acc_lamports target in
          _ ← reject_if (current_lamports <? new_rent) (SolError.Custom ERR_VAULT_INSUFFICIENT);
          target ← realloc target new_size;
          Ok (<[ai_key target_account := target]> st)
      | _ => Err (SolError.Custom ERR_INSTRUCTION_MALFORMED)
      end
  | _ => Err SolError.NotEnoughAccountKeys
  end.

Definition sponsor_deposit (program_id : bytes) (accounts : list AccountInfo)
    (ix : Instruction.t) (st : store) : res SolError.t store :=
  match accounts with
  | [funder; pool_account; _] =>
      _ ← reject_if (negb (ai_is_signer funder)) SolError.MissingRequiredSignature;
      _ ← verify_sponsor_pool_pda st pool_account program_id;
      match ix with
      | Instruction.SponsorDeposit amount =>
          pool ← load_sponsor_pool st pool_account;
          store_sponsor_pool st pool_account
            {| sp_last_payout_slot := sp_last_payout_slot pool;
               sp_total_payouts := sp_total_payouts pool;
               sp_total_deposits := sat_add (sp_total_deposits pool) amount |}
      | _ => Err (SolError.Custom ERR_INSTRUCTION_MALFORMED)
      end
  | _ => Err SolError.NotEnoughAccountKeys
  end.

Definition ERR_RATE_LIMIT : Z := 30.

Definition sponsor_payout (program_id : bytes) (e : env) (accounts : list AccountInfo)
    (ix : Instruction.t) (st : store) : res SolError.t store :=
  match accounts with
  | [caller; pool_account; recipient_account; _] =>
      _ ← reject_if (negb (ai_is_signer caller)) SolError.MissingRequiredSignature;
      _ ← verify_sponsor_pool_pda st pool_account program_id;
      match ix with
      | Instruction.SponsorPayout lamports recipient =>
          _ ← reject_if (negb (bool_decide (ai_key recipient_account = recipient)))
                        SolError.InvalidAccountData;
          _ ← reject_if (lamports =? 0) (SolError.Custom ERR_INSTRUCTION_MALFORMED);
          slot ← Clock_get e;
          pool ← load_sponsor_pool st pool_account;
          let elapsed := sat_sub slot (sp_last_payout_slot pool) in
          _ ← reject_if (negb (sp_last_payout_slot pool =? 0)
                         && (elapsed <? MIN_SLOTS_BETWEEN_PAYOUTS))
                        (SolError.Custom ERR_RATE_LIMIT);
          let k := ai_key pool_account in
          _ ← reject_if (acc_lamports (account_at st k) <? lamports) SolError.InsufficientFunds;
          let st := <[k := set_lamports (account_at st k)
                             (sat_sub (acc_lamports (account_at st k)) lamports)]> st in
          let r := ai_key recipient_account in
          let st := <[r := set_lamports (account_at st r)
                             (sat_add (acc_lamports (account_at st r)) lamports)]> st in
          store_sponsor_pool st pool_account
            {| sp_last_payout_slot := slot;
               sp_total_payouts := sat_add (sp_total_payouts pool) lamports;
               sp_total_deposits := sp_total_deposits pool |}
      | _ => Err (SolError.Custom ERR_INSTRUCTION_MALFORMED)
      end
  | _ => Err SolError.NotEnoughAccountKeys
  end.

(** ** entrypoint.rs *)
Definition process_instruction (program_id : bytes) (e : env) (accounts : list AccountInfo)
    (instruction_data : bytes) (st : store) : res SolError.t store :=
  ix ← ok_or SolError.InvalidInstructionData
             (try_from_slice Instruction.deserialize_reader instruction_data);
  match ix with
  | Instruction.RegisterKeyset _ _ _ _ _ => register_keyset program_id accounts ix st
  | Instruction.Deposit _ _ => deposit program_id accounts ix st
  | Instruction.Refresh _ _ _ => refresh program_id e accounts ix st
  | Instruction.Withdraw _ _ _ _ => withdraw program_id e accounts ix st
  | Instruction.Revoke _ _ => revoke program_id accounts ix st
  | Instruction.Bootstrap _ _ _ => bootstrap program_id e accounts ix st
  | Instruction.SponsorDeposit _ => sponsor_deposit program_id accounts ix st
  | Instruction.SponsorPayout _ _ => sponsor_payout program_id e accounts ix st
  | Instruction.ResizeAccount _ _ _ => resize_account program_id e accounts ix st
  end.
End sbf.
