(* ===== verification/SbfFrame.v ===== *)
(** * What the instructions do to the account store

    Padded account data survives its round trip; the effect of each handler on
    the account it writes; and the frame theorem: an instruction leaves every
    other account of the program as it was, up to lamports received and zeros
    appended by a resize. *)
From S2P Require Import Prelude Crypto ToyCurve Wire Core MintBase Instruction Program Solana.
From S2P Require Import Ed25519 Sbf.

(** ** Padded account data *)
Section padded.

Lemma all_zero_app a b : all_zero (a ++ b) = all_zero a && all_zero b.
Proof. apply forallb_app. Qed.

Lemma all_zero_zeros n : all_zero (zeros n) = true.
Proof. induction n; [done|]. exact IHn. Qed.

Lemma all_zero_le_Z b : all_zero b = true -> le_Z b = 0.
Proof.
  induction b as [|x b IH]; [done|]. cbn. intros [Hx Hb]%andb_true_iff.
  apply Byte.byte_dec_bl in Hx as ->. by rewrite IH.
Qed.

Lemma all_zero_le_bytes n z : 0 <= z < 256 ^ Z.of_nat n -> all_zero (le_bytes n z) = true -> z = 0.
Proof. intros Hz H%all_zero_le_Z. by rewrite le_Z_le_bytes_small in H. Qed.

(** What was stored is loaded, whatever the padding. *)
Lemma load_stored {A} (fresh : A) (r : reader A) enc a tl :
  reads r enc a -> (all_zero enc = true -> a = fresh) -> load_padded fresh r (enc ++ tl) = Ok a.
Proof.
  intros Hr Hz. unfold load_padded. rewrite all_zero_app, Hr.
  destruct (all_zero enc) eqn:E; cbn; [|done].
  rewrite Hz by done. by destruct (all_zero tl).
Qed.

(** Zeros appended by a resize change nothing. *)
Lemma load_extend {A} (fresh : A) (r : reader A) data a k : streaming r ->
  load_padded fresh r data = Ok a -> load_padded fresh r (data ++ zeros k) = Ok a.
Proof.
  intros Hr. unfold load_padded. rewrite all_zero_app, all_zero_zeros, andb_true_r.
  destruct (all_zero data); [done|]. destruct (r data) as [[a' rest]|] eqn:E; [|done].
  by rewrite (Hr _ _ _ _ E).
Qed.

Lemma streaming_KeysetEntry : streaming KeysetEntry_read.
Proof. unfold KeysetEntry_read, KeysetStatus_read. repeat first [solve [eauto with wire]|apply streaming_bind; [solve [eauto with wire]|intros ?]]. Qed.
Lemma streaming_KeysetRegistry : streaming KeysetRegistry_read.
Proof.
  pose proof streaming_KeysetEntry. apply streaming_bind; [apply streaming_uint|]. eauto with wire.
Qed.
Lemma streaming_NullifierSet : streaming NullifierSet_read.
Proof. unfold NullifierSet_read. eauto with wire. Qed.
Lemma streaming_SponsorPool : streaming SponsorPool_read.
Proof. unfold SponsorPool_read, read_u64. eauto 10 with wire. Qed.
End padded.

Section stores.
Context `{C : Curve} `{SO : Solana}.

Lemma store_padded_ok st k b st' : store_padded st k b = Ok st' <->
  (length b <= length (acc_data (account_at st k)))%nat /\
  st' = <[k := set_data (account_at st k)
           (b ++ drop (length b) (acc_data (account_at st k)))]> st.
Proof.
  unfold store_padded. destruct (Nat.ltb_spec (length (acc_data (account_at st k))) (length b)); step.
  - split; [done|lia].
  - split; [by intros <-%(inj Ok)|by intros [_ ->]].
Qed.

(** Account [k] has the same data, owner and lamports in both stores. *)
Definition same_account (k : bytes) (st st' : store) : Prop := account_at st' k = account_at st k.
Definition same_data (k : bytes) (st st' : store) : Prop :=
  acc_data (account_at st' k) = acc_data (account_at st k) /\
  acc_owner (account_at st' k) = acc_owner (account_at st k).

Lemma store_padded_other st k b st' k' : store_padded st k b = Ok st' -> k <> k' ->
  same_account k' st st'.
Proof. intros [_ ->]%store_padded_ok Hne. by apply account_at_insert_ne. Qed.

Lemma store_padded_same st k b st' : store_padded st k b = Ok st' ->
  acc_data (account_at st' k) = b ++ drop (length b) (acc_data (account_at st k)) /\
  acc_owner (account_at st' k) = acc_owner (account_at st k) /\
  acc_lamports (account_at st' k) = acc_lamports (account_at st k).
Proof. intros [_ ->]%store_padded_ok. by rewrite account_at_insert. Qed.
End stores.

(** ** The nullifier set in its account *)
Section nullifiers.

Lemma read_n_exact_inv n m inp l rest :
  read_n (read_exact m) n inp = Some (l, rest) ->
  inp = mjoin (id <$> l) ++ rest /\ length l = n /\ forall x, x ∈ l -> length x = m.
Proof.
  revert inp l; induction n as [|n IH]; intros inp l; cbn.
  { intros [= <- <-]. split_and!; [done|done|set_solver]. }
  intros (b & inp1 & [-> Hb]%read_exact_Some &
    (l' & inp2 & Hl & [= <- <-])%reader_bind_Some)%reader_bind_Some.
  apply IH in Hl as (-> & Hlen & Hall). cbn. rewrite <- app_assoc. unfold id at 1.
  split_and!; [done|by rewrite Hlen|]. intros x [->|Hx]%elem_of_cons; auto.
Qed.

Lemma NullifierSet_read_inv inp s rest : NullifierSet_read inp = Some (s, rest) ->
  exists l, inp = borsh_vec id l ++ rest /\ Z.of_nat (length l) < 2 ^ 32 /\
    (forall x, x ∈ l -> length x = 32%nat) /\ s = {| ns_leaves := list_to_set l |}.
Proof.
  unfold NullifierSet_read, read_vec.
  intros (l & inp1 & (n & inp2 & [-> Hn]%(read_uint_Some 4) & Hl)%reader_bind_Some & [= <- <-])%reader_bind_Some.
  apply read_n_exact_inv in Hl as (-> & Hlen & Hall). exists l.
  unfold borsh_vec. rewrite Hlen, Z2Nat.id, <- app_assoc by lia. split_and!; [done|lia|done|done].
Qed.

(** [n] is recorded in the data of the account. *)
Definition recorded_in (n : bytes) (data : bytes) : Prop :=
  exists s, load_padded NullifierSet_new NullifierSet_read data = Ok s /\ n ∈ ns_leaves s.

Lemma load_nullifiers_wf data s :
  load_padded NullifierSet_new NullifierSet_read data = Ok s -> wf_nullifiers s.
Proof.
  unfold load_padded. destruct (all_zero data); [intros <-%(inj Ok) n Hn; set_solver|].
  destruct (NullifierSet_read data) as [[s' rest]|] eqn:E; [|done]. intros ->%(inj Ok).
  apply NullifierSet_read_inv in E as (l & _ & _ & Hall & ->). intros n Hn.
  apply Hall. cbn in Hn. by apply elem_of_list_to_set in Hn.
Qed.

(** A set with an element is not encoded by zeros. *)
Lemma nonzero_nullifiers s n enc : n ∈ ns_leaves s -> NullifierSet_to_vec s = Some enc ->
  ~ all_zero enc = true.
Proof.
  intros Hn. unfold NullifierSet_to_vec. case_decide as Hl; [|done]. intros <-%(inj Some).
  unfold borsh_vec. rewrite all_zero_app. intros [Hz _]%andb_true_iff.
  apply all_zero_le_bytes in Hz; [|lia].
  apply elem_of_elements in Hn. rewrite <- (merge_sort_Permutation bytes_le) in Hn.
  destruct (merge_sort bytes_le (elements (ns_leaves s))); [by apply not_elem_of_nil in Hn|].
  cbn in Hz. lia.
Qed.

(** Zero padding does not change what is recorded. *)
Lemma recorded_extend n data k : recorded_in n data -> recorded_in n (data ++ zeros k).
Proof.
  intros (s & Hs & Hn). exists s. split; [|done]. apply load_extend; [|done].
  apply streaming_NullifierSet.
Qed.
End nullifiers.

(** ** Keys *)
Section keys.
Context `{CO : CurveOk} `{SK : SolanaOk}.
Context (pid : bytes).

Definition pda (seeds : list bytes) : bytes := (find_program_address seeds pid).1.

Lemma verify_pda_ok seeds a b : verify_pda seeds a pid = Ok b ->
  ai_key a = pda seeds /\ b = (find_program_address seeds pid).2.
Proof.
  unfold verify_pda, pda. destruct (find_program_address seeds pid) as [k bump].
  intros H. by inv_res.
Qed.

Lemma verify_sponsor_pool_pda_ok st a b : verify_sponsor_pool_pda st a pid = Ok b ->
  ai_key a = pda sponsor_pool_seeds /\ acc_owner (account_at st (ai_key a)) = pid.
Proof. unfold verify_sponsor_pool_pda. intros H. inv_res. by apply verify_pda_ok in Hb as [? _]. Qed.

Lemma verify_sponsor_pool_pda_is st sgn :
  acc_owner (account_at st (pda sponsor_pool_seeds)) = pid ->
  verify_sponsor_pool_pda st {| ai_key := pda sponsor_pool_seeds; ai_is_signer := sgn |} pid =
  Ok (find_program_address sponsor_pool_seeds pid).2.
Proof.
  intros Ho. unfold verify_sponsor_pool_pda, verify_pda. cbn [ai_key]. unfold pda in *.
  destruct (find_program_address sponsor_pool_seeds pid) as [k bump]. cbn [fst snd] in *.
  rewrite bool_decide_true by done. step. by rewrite bool_decide_true.
Qed.

Lemma pda_ne s1 s2 : mjoin s1 <> mjoin s2 -> pda s1 <> pda s2.
Proof. intros Hne H. by apply pda_inj in H. Qed.

Lemma registry_ne_nullifier : pda keyset_registry_seeds <> pda nullifier_tree_seeds.
Proof. apply pda_ne. discriminate. Qed.
Lemma pool_ne_nullifier : pda sponsor_pool_seeds <> pda nullifier_tree_seeds.
Proof. apply pda_ne. discriminate. Qed.
Lemma vault_ne_nullifier d : pda (vault_seeds d) <> pda nullifier_tree_seeds.
Proof. apply pda_ne. discriminate. Qed.
Lemma registry_ne_pool : pda keyset_registry_seeds <> pda sponsor_pool_seeds.
Proof. apply pda_ne. discriminate. Qed.
Lemma nullifier_ne_pool : pda nullifier_tree_seeds <> pda sponsor_pool_seeds.
Proof. apply pda_ne. discriminate. Qed.
End keys.


(** ** Effects of the handlers

    What a handler that succeeded read and wrote. *)
Section effects.
Context `{CO : CurveOk} `{SK : SolanaOk}.
Context (pid : bytes).

Definition nkey : bytes := pda pid nullifier_tree_seeds.
Definition rkey : bytes := pda pid keyset_registry_seeds.
Definition pkey : bytes := pda pid sponsor_pool_seeds.

Lemma register_effect accs ix st st' : register_keyset pid accs ix st = Ok st' ->
  exists a r r', ai_key a = rkey /\ load_registry st a = Ok r /\
    process_register_keyset r ix = (r', Ok tt) /\ store_registry st a r' = Ok st'.
Proof using.
  unfold register_keyset. destruct accs as [|? [|a [|? []]]]; try done. intros H. inv_ok.
  destruct (process_register_keyset _ _) as [r' out] eqn:Hp. inv_ok.
  destruct out as [[]| |]; try done. apply verify_pda_ok in Hb0 as [Hk _]. by eexists a, _, r'.
Qed.

Lemma revoke_effect accs ix st st' : revoke pid accs ix st = Ok st' ->
  exists a r r', ai_key a = rkey /\ load_registry st a = Ok r /\
    process_revoke r ix = (r', Ok tt) /\ store_registry st a r' = Ok st'.
Proof using.
  unfold revoke. destruct accs as [|? [|a [|? []]]]; try done. intros H. inv_ok.
  destruct (process_revoke _ _) as [r' out] eqn:Hp. inv_ok.
  destruct out as [[]| |]; try done. apply verify_pda_ok in Hb0 as [Hk _]. by eexists a, _, r'.
Qed.

(** A deposit leaves the store as it is. *)
Lemma deposit_effect accs ix st st' : deposit pid accs ix st = Ok st' -> st' = st.
Proof using.
  unfold deposit. destruct accs as [|? [|? [|? []]]]; try done. intros H. inv_ok.
  destruct ix; try done. inv_ok. destruct (process_deposit _ _ _) as [v out]. by inv_ok.
Qed.

(** The checks a refresh and a withdrawal of a coin share. *)
Definition spend_checks (e : env) (st : store) (pk : bytes) (sig : Signature) (d : Z) : Prop :=
  exists ra r entry sysvar, ai_key ra = rkey /\ load_registry st ra = Ok r /\
    KeysetRegistry_find_active_for_denom r d = Some entry /\
    verify_ed25519_precompile e sysvar (ke_joint_pk entry) pk sig = Ok tt.

(** ... and the recording of the nullifier. *)
Definition records (st : store) (pk : bytes) (st' : store) : Prop :=
  exists a s s', ai_key a = nkey /\ load_nullifiers st a = Ok s /\
    NullifierSet_insert s (compute_nullifier pk) = (s', true) /\ store_nullifiers st a s' = Ok st'.

Lemma refresh_effect e accs pk sig d st st' :
  refresh pid e accs (Instruction.Refresh pk sig d) st = Ok st' ->
  spend_checks e st pk sig d /\ records st pk st'.
Proof using.
  unfold refresh. destruct accs as [|? [|ra [|a [|sv []]]]]; try done. intros H. inv_ok.
  destruct (NullifierSet_insert _ _) as [s' fresh] eqn:Hi. inv_res.
  apply verify_pda_ok in Hb0 as [Hr _], Hb1 as [Hk _]. destruct fresh; [|done].
  split; [by eexists ra, _, _, sv|by eexists a, _, s'].
Qed.

Lemma withdraw_effect e accs pk sig d rec st st' :
  withdraw pid e accs (Instruction.Withdraw pk sig d rec) st = Ok st' ->
  spend_checks e st pk sig d /\
  exists st1 seeds, records st pk st1 /\
    d <= acc_lamports (account_at st1 (pda pid (vault_seeds d))) /\
    invoke_transfer pid st1 (pda pid (vault_seeds d)) rec d seeds = Ok st'.
Proof using.
  unfold withdraw. destruct accs as [|? [|ra [|v [|a [|rc [|? [|sv []]]]]]]]; try done.
  intros H. inv_ok. destruct (NullifierSet_insert _ _) as [s' fresh] eqn:Hi. inv_ok.
  apply negb_false_iff in Hb10 as ->.
  apply verify_pda_ok in Hb2 as [Hr _], Hb3 as [Hv _], Hb4 as [Hk _].
  apply negb_false_iff, bool_decide_eq_true in Hb0 as Hrec. subst rec.
  apply Z.ltb_ge in Hb12. rewrite Hv in *. destruct r8. split; [by eexists ra, _, _, sv|].
  eexists _, _. split; [by eexists a, _, s'|done].
Qed.

Lemma bootstrap_effect e accs k size d st st' :
  bootstrap pid e accs (Instruction.Bootstrap k size d) st = Ok st' ->
  exists f t seeds alloc owner rent, ai_is_signer f = true /\ ai_key t = pda pid seeds /\
    bootstrap_target pid k size d = Ok (seeds, alloc, owner) /\
    Rent_minimum_balance e alloc = Ok rent /\
    acc_lamports (account_at st (ai_key t)) = 0 /\ acc_data (account_at st (ai_key t)) = [] /\
    acc_owner (account_at st (ai_key f)) = system_program_id /\
    rent <= acc_lamports (account_at st (ai_key f)) /\
    st' = <[ai_key t := {| acc_lamports :=
              acc_lamports (account_at (move_lamports st (ai_key f) (ai_key t) rent) (ai_key t));
              acc_data := zeros (Z.to_nat alloc); acc_owner := owner |}]>
          (move_lamports st (ai_key f) (ai_key t) rent).
Proof using SK.
  unfold bootstrap. destruct accs as [|f [|t [|? []]]]; try done. intros H. inv_ok.
  destruct r1 as [[seeds alloc] owner].
  destruct (find_program_address seeds pid) as [key bump] eqn:Hp. inv_res.
  apply create_ok in H as (H0 & H1 & Ho & Hle & ->).
  eexists f, t, seeds, alloc, owner, _. unfold pda. by rewrite Hp.
Qed.

Lemma resize_effect e accs k size d st st' :
  resize_account pid e accs (Instruction.ResizeAccount k size d) st = Ok st' ->
  exists t n rent, Rent_minimum_balance e size = Ok rent /\
    rent <= acc_lamports (account_at st (ai_key t)) /\
    Z.of_nat (length (acc_data (account_at st (ai_key t)))) + Z.of_nat n = size /\ (0 < n)%nat /\
    size <= BOOTSTRAP_MAX_SIZE /\
    acc_owner (account_at st (ai_key t)) = pid /\
    st' = <[ai_key t := set_data (account_at st (ai_key t))
                          (acc_data (account_at st (ai_key t)) ++ zeros n)]> st.
Proof using SK.
  unfold resize_account. destruct accs as [|f [|t [|? []]]]; try done. intros H. inv_ok.
  destruct (find_program_address _ pid) as [key bump]. inv_res. subst st'.
  apply realloc_ok in Hb8 as ->; [|lia].
  eexists t, _, _. split; [done|]. split_and!; try done; lia.
Qed.

Lemma sponsor_deposit_effect accs amount st st' :
  sponsor_deposit pid accs (Instruction.SponsorDeposit amount) st = Ok st' ->
  exists a p, ai_key a = pkey /\ acc_owner (account_at st pkey) = pid /\
    load_sponsor_pool st a = Ok p /\
    store_sponsor_pool st a
      {| sp_last_payout_slot := sp_last_payout_slot p; sp_total_payouts := sp_total_payouts p;
         sp_total_deposits := sat_add (sp_total_deposits p) amount |} = Ok st'.
Proof using.
  unfold sponsor_deposit. destruct accs as [|f [|t [|? []]]]; try done. intros H. inv_ok.
  apply verify_sponsor_pool_pda_ok in Hb0 as [Hk Ho]. rewrite Hk in Ho. by eexists t, _.
Qed.

(** The lamport movement of a payout, on the borrowed balances. *)
Definition pay (st : store) (from to : bytes) (l : Z) : store :=
  let st := <[from := set_lamports (account_at st from)
                        (sat_sub (acc_lamports (account_at st from)) l)]> st in
  <[to := set_lamports (account_at st to) (sat_add (acc_lamports (account_at st to)) l)]> st.

Lemma sponsor_payout_effect e accs l rec st st' :
  sponsor_payout pid e accs (Instruction.SponsorPayout l rec) st = Ok st' ->
  exists a p slot, ai_key a = pkey /\ acc_owner (account_at st pkey) = pid /\
    load_sponsor_pool st a = Ok p /\ Clock_get e = Ok slot /\ l <> 0 /\
    l <= acc_lamports (account_at st pkey) /\
    (sp_last_payout_slot p = 0 \/
     MIN_SLOTS_BETWEEN_PAYOUTS <= sat_sub slot (sp_last_payout_slot p)) /\
    store_sponsor_pool (pay st pkey rec l) a
      {| sp_last_payout_slot := slot; sp_total_payouts := sat_add (sp_total_payouts p) l;
         sp_total_deposits := sp_total_deposits p |} = Ok st'.
Proof using.
  unfold sponsor_payout. destruct accs as [|f [|t [|rc [|? []]]]]; try done. intros H. inv_res.
  apply verify_sponsor_pool_pda_ok in Hb0 as [Hk Ho]. rewrite Hk in *. rewrite Hb1 in H.
  eexists t, _, _. split_and!; try done.
  apply andb_false_iff in Hb5 as [Hz|Hs]; [left|right].
  - by apply negb_false_iff, Z.eqb_eq in Hz.
  - by apply Z.ltb_ge in Hs.
Qed.
End effects.

(** ** The frame *)
Section frame.
Context `{CO : CurveOk} `{SK : SolanaOk}.
Context (pid : bytes).

(** An account of the program, with lamports. *)
Definition live (k : bytes) (st : store) : Prop :=
  acc_owner (account_at st k) = pid /\ 0 < acc_lamports (account_at st k).

(** Account [k], if live, stays live and keeps its data up to zeros appended. *)
Definition frame (k : bytes) (st st' : store) : Prop := live k st ->
  live k st' /\ exists n, acc_data (account_at st' k) = acc_data (account_at st k) ++ zeros n.

Lemma frame_same k st st' : account_at st' k = account_at st k -> frame k st st'.
Proof using.
  intros H Hl. unfold live. rewrite H. split; [done|]. exists O. by rewrite app_nil_r.
Qed.

Lemma frame_trans k st1 st2 st3 : frame k st1 st2 -> frame k st2 st3 -> frame k st1 st3.
Proof using.
  intros H1 H2 [Hl2 [n1 Hd1]]%H1. destruct (H2 Hl2) as (Hl3 & n2 & Hd2).
  split; [done|]. exists (n1 + n2)%nat. unfold zeros in *.
  by rewrite Hd2, Hd1, repeat_app, app_assoc.
Qed.

Lemma frame_store k st k' b st' : store_padded st k' b = Ok st' -> k' <> k -> frame k st st'.
Proof using. intros H Hne. by apply frame_same, (store_padded_other _ _ _ _ _ H). Qed.

Lemma frame_insert k k' st a :
  (k' = k -> live k st -> acc_owner a = pid /\ 0 < acc_lamports a /\ exists n, acc_data a = acc_data (account_at st k) ++ zeros n) ->
  frame k st (<[k' := a]> st).
Proof using.
  intros H Hl. unfold live. rewrite account_at_insert_case.
  destruct (decide (k' = k)) as [Heq|Hne]; [|by apply (frame_same k st st)].
  destruct (H Heq Hl) as (? & ? & ?). done.
Qed.

Lemma frame_credit k k' st l : (k' = k -> live k st -> 0 < l) ->
  frame k st (<[k' := set_lamports (account_at st k') l]> st).
Proof using.
  intros H. apply frame_insert. intros -> Hl. split_and!; [apply Hl|by apply H|].
  exists O. by rewrite app_nil_r.
Qed.

(** What leaves an account of the system program is no concern of ours. *)
Lemma frame_move k st from to l : pid <> system_program_id -> 0 <= l ->
  acc_owner (account_at st from) = system_program_id ->
  frame k st (move_lamports st from to l).
Proof using.
  intros Hpid Hl Ho. unfold move_lamports. eapply frame_trans; apply frame_credit.
  - intros -> [Hk _]. congruence.
  - intros -> [_ Hk]. lia.
Qed.

(** The account whose data an instruction may rewrite. *)
Definition writes (ix : Instruction.t) (k : bytes) : Prop :=
  match ix with
  | Instruction.RegisterKeyset _ _ _ _ _ | Instruction.Revoke _ _ => k = rkey pid
  | Instruction.Refresh _ _ _ | Instruction.Withdraw _ _ _ _ => k = nkey pid
  | Instruction.SponsorDeposit _ | Instruction.SponsorPayout _ _ => k = pkey pid
  | _ => False
  end.

Lemma records_frame st pk st' k : records pid st pk st' -> k <> nkey pid -> frame k st st'.
Proof using.
  intros (a & s & s' & Ha & _ & _ & Hs) Hne. unfold store_nullifiers in Hs.
  inv_ok. eapply frame_store; [exact Hs|congruence].
Qed.

(** Recording a nullifier: the account holds the set with the nullifier, which
    was not in it; balances, owners and the other accounts are unchanged. *)
Lemma records_store st pk st' : records pid st pk st' ->
  exists s, let s' := {| ns_leaves := {[ compute_nullifier pk ]} ∪ ns_leaves s |} in
    load_padded NullifierSet_new NullifierSet_read (acc_data (account_at st (nkey pid))) = Ok s /\
    compute_nullifier pk ∉ ns_leaves s /\
    NullifierSet_insert s (compute_nullifier pk) = (s', true) /\
    load_padded NullifierSet_new NullifierSet_read (acc_data (account_at st' (nkey pid))) = Ok s' /\
    (forall k, acc_lamports (account_at st' k) = acc_lamports (account_at st k) /\
               acc_owner (account_at st' k) = acc_owner (account_at st k)) /\
    forall k, k <> nkey pid -> same_account k st st'.
Proof using CO.
  intros (a & s & s' & Ha & Hl & Hi & Hs). exists s. cbn zeta.
  apply NullifierSet_insert_fresh in Hi as Hf. destruct Hf as [Hf ->].
  unfold load_nullifiers in Hl. unfold store_nullifiers in Hs. inv_ok. rewrite Ha in *.
  apply load_nullifiers_wf in Hl as Hw.
  apply store_padded_same in Hs as Hsame. destruct Hsame as (Hd & Ho & Hlam).
  assert (forall k, k <> nkey pid -> same_account k st st') as Hother.
  { intros k Hk. eapply store_padded_other; [exact Hs|congruence]. }
  split_and!; [done|done|done| | |done].
  - rewrite Hd. apply load_stored.
    + apply reads_NullifierSet; [|done]. intros x. cbn.
      intros [->%elem_of_singleton|Hx]%elem_of_union; [apply sha256_length|auto].
    + intros Hz. exfalso. revert Hz.
      eapply nonzero_nullifiers; [|exact Hb]. cbn. by apply elem_of_union_l, elem_of_singleton.
  - intros k. destruct (decide (k = nkey pid)) as [->|Hk]; [done|]. by rewrite Hother.
Qed.

Lemma store_registry_frame st a r st' k : ai_key a = rkey pid ->
  store_registry st a r = Ok st' -> k <> rkey pid -> frame k st st'.
Proof using. unfold store_registry. intros Ha H Hne. inv_ok. eapply frame_store; [exact H|congruence]. Qed.

Lemma store_pool_frame st a p st' k : ai_key a = pkey pid ->
  store_sponsor_pool st a p = Ok st' -> k <> pkey pid -> frame k st st'.
Proof using. unfold store_sponsor_pool. intros Ha H Hne. eapply frame_store; [exact H|congruence]. Qed.

Lemma pay_frame st from to l k : 0 <= l -> k <> from -> frame k st (pay st from to l).
Proof using.
  intros Hl Hne. unfold pay. eapply frame_trans; apply frame_credit; [congruence|].
  intros -> [_ Hk]. unfold sat_add, u64_max. lia.
Qed.

Lemma try_from_slice_wf data ix :
  try_from_slice Instruction.deserialize_reader data = Some ix -> Instruction.wf ix.
Proof using.
  unfold try_from_slice. destruct (Instruction.deserialize_reader data) as [[ix' rest]|] eqn:E; [|done].
  destruct rest; [|done]. intros ->%(inj Some). by apply Instruction_reads_inv in E as [_ ?].
Qed.

Lemma bootstrap_frame e accs kd size d st st' k : pid <> system_program_id ->
  bootstrap pid e accs (Instruction.Bootstrap kd size d) st = Ok st' -> frame k st st'.
Proof using SK.
  intros Hpid (f & t & seeds & alloc & owner & rent & _ & _ & _ & Hr & H0 & _ & Ho & _ & ->)%bootstrap_effect.
  intros Hl. assert (ai_key t <> k) as Hne by (intros <-; destruct Hl; lia).
  unfold live. rewrite !account_at_insert_ne by done. apply frame_move; [done|by eapply rent_nonneg|done|done].
Qed.

Lemma resize_frame e accs kd size d st st' k :
  resize_account pid e accs (Instruction.ResizeAccount kd size d) st = Ok st' -> frame k st st'.
Proof using SK.
  intros (t & n & rent & _ & _ & _ & _ & _ & Ho & ->)%resize_effect. apply frame_insert.
  intros <- [_ Hl]. split_and!; [done|done|by exists n].
Qed.

(** One instruction, all accounts but the one it writes. *)
Lemma process_frame e accs data ix st st' k : pid <> system_program_id ->
  try_from_slice Instruction.deserialize_reader data = Some ix -> ~ writes ix k ->
  process_instruction pid e accs data st = Ok st' -> frame k st st'.
Proof using SK.
  intros Hpid Hix Hw. unfold process_instruction. rewrite Hix. cbn [ok_or mbind res_bind].
  apply try_from_slice_wf in Hix. destruct ix; cbn in Hw, Hix; unfold u64, in_width in Hix.
  - intros (a & r & r' & Ha & _ & _ & Hs)%register_effect. by eapply store_registry_frame.
  - intros ->%deposit_effect. by apply frame_same.
  - intros [_ H]%refresh_effect. by eapply records_frame.
  - intros (_ & st1 & seeds & H1 & _ & (Ho & _ & ->)%transfer_ok)%withdraw_effect.
    eapply frame_trans; [by eapply records_frame|]. apply frame_move; [done|lia|done].
  - intros (a & r & r' & Ha & _ & _ & Hs)%revoke_effect. by eapply store_registry_frame.
  - by apply bootstrap_frame.
  - intros (a & p & Ha & _ & _ & Hs)%sponsor_deposit_effect. by eapply store_pool_frame.
  - apply resize_frame.
  - intros (a & p & slot & Ha & _ & _ & _ & _ & _ & _ & Hs)%sponsor_payout_effect.
    eapply frame_trans; [|by eapply store_pool_frame]. apply pay_frame; [lia|done].
Qed.
End frame.
