(* ===== verification/SbfDemo.v ===== *)
(** * A small chain

    Concrete accounts, transactions and stores on the simulated runtime and
    the toy curve, shared by the examples of the on-chain properties. *)
From S2P Require Import Prelude Crypto ToyCurve Wire Core MintBase Instruction Program Solana.
From S2P Require Import Ed25519 Sbf SbfFrame.

#[local] Existing Instance toy.
#[local] Existing Instance toy_ok.
#[local] Existing Instance sim.

Module Demo.
Definition pid : bytes := repeat Byte.x07 32.
Definition user_key : bytes := repeat Byte.x0a 32.
Definition user : AccountInfo := {| ai_key := user_key; ai_is_signer := true |}.
Definition at_key (k : bytes) : AccountInfo := {| ai_key := k; ai_is_signer := false |}.
Definition registry : AccountInfo := at_key (rkey pid).
Definition nullifiers : AccountInfo := at_key (nkey pid).
Definition pool : AccountInfo := at_key (pkey pid).
Definition vault : AccountInfo := at_key (pda pid (vault_seeds 1000)).
Definition system : AccountInfo := at_key system_program_id.

(** The instruction before the current one verifies the coin's signature. *)
Definition env_at (slot : Z) : env :=
  {| se_instructions :=
       [(sim_ed25519, precompile_data (ke_joint_pk demo_entry) demo_coin_pk demo_coin_sig); ([], [])];
     se_current := 1; se_sysvar := repeat Byte.x0f 32; se_slot := slot |}.

Definition registry_data : bytes := default [] (KeysetRegistry_to_vec demo_registry) ++ zeros 100.

Definition chain : store :=
  list_to_map
    [ (rkey pid, {| acc_lamports := 900000; acc_data := registry_data; acc_owner := pid |});
      (nkey pid, {| acc_lamports := 900000; acc_data := zeros 100; acc_owner := pid |});
      (pkey pid, {| acc_lamports := 900000; acc_data := zeros 32; acc_owner := pid |});
      (ai_key vault, {| acc_lamports := 5000; acc_data := []; acc_owner := system_program_id |});
      (user_key, {| acc_lamports := 7; acc_data := []; acc_owner := system_program_id |}) ].

Definition refresh_ix : Instruction.t := Instruction.Refresh demo_coin_pk demo_coin_sig 1000.
Definition refresh_accounts : list AccountInfo := [user; registry; nullifiers; demo_sysvar].
Definition withdraw_ix : Instruction.t :=
  Instruction.Withdraw demo_coin_pk demo_coin_sig 1000 user_key.
Definition withdraw_accounts : list AccountInfo :=
  [user; registry; vault; nullifiers; at_key user_key; system; demo_sysvar].

(** The store an instruction leaves, if it succeeds. *)
Definition after (e : env) (accs : list AccountInfo) (ix : Instruction.t) (st : store) : store :=
  match process_instruction pid e accs (Instruction.serialize ix) st with
  | Ok st' => st'
  | _ => st
  end.
End Demo.
