(* ===== verification/SbfProps.v ===== *)
(** * Properties of the on-chain program

    Over the life of the chain a coin is spent at most once and payouts of the
    sponsor pool are rate limited; what a withdrawal and a payout move. *)
From S2P Require Import Prelude Crypto ToyCurve Wire Core MintBase Instruction Program Solana.
From S2P Require Import Ed25519 Sbf SbfFrame SbfDemo.

(** ** The chain

    Program instructions that succeed, and everything else that happens to the
    store: other programs may add lamports to an account of this program but
    not change its data or owner, and an account without lamports may vanish. *)
Section chain.
Context `{CO : CurveOk} `{SK : SolanaOk}.
Context (pid : bytes).
Hypothesis pid_not_system : pid <> system_program_id.

Definition foreign_step (st st' : store) : Prop := forall k, live pid k st ->
  same_data k st st' /\ acc_lamports (account_at st k) <= acc_lamports (account_at st' k).

Inductive chain_step : store -> store -> Prop :=
| step_program e accs data st st' :
    process_instruction pid e accs data st = Ok st' -> chain_step st st'
| step_other st st' : foreign_step st st' -> chain_step st st'.

Lemma foreign_frame st st' k : foreign_step st st' -> frame pid k st st'.
Proof using.
  intros H Hl. destruct (H k Hl) as [[Hd Ho] Hle], Hl as [Hk Hlam].
  split; [split; [congruence|lia]|]. exists O. by rewrite Hd, app_nil_r.
Qed.

Lemma process_parsed e accs data st st' : process_instruction pid e accs data st = Ok st' ->
  exists ix, try_from_slice Instruction.deserialize_reader data = Some ix.
Proof using. unfold process_instruction. intros H. inv_ok. by eexists. Qed.

(** *** The nullifier account *)

(** [n] is recorded, in a live account of the program. *)
Definition spent (n : bytes) (st : store) : Prop :=
  live pid (nkey pid) st /\ recorded_in n (acc_data (account_at st (nkey pid))).

Lemma spent_frame n st st' : frame pid (nkey pid) st st' -> spent n st -> spent n st'.
Proof using.
  intros Hf [Hl Hr]. destruct (Hf Hl) as [Hl' [k Hk]]. split; [done|].
  rewrite Hk. by apply recorded_extend.
Qed.

(** Recording a nullifier: it was absent, it is present now, nothing is
    forgotten, and only the data of the nullifier account changed. *)
Lemma records_spec st pk st' : records pid st pk st' ->
  ~ spent (compute_nullifier pk) st /\
  (live pid (nkey pid) st -> spent (compute_nullifier pk) st') /\
  (forall n, spent n st -> spent n st') /\
  (forall k, acc_lamports (account_at st' k) = acc_lamports (account_at st k)) /\
  (forall k, acc_owner (account_at st' k) = acc_owner (account_at st k)) /\
  (forall k, k <> nkey pid -> same_account k st st').
Proof using CO SK pid_not_system.
  intros (s & Hl & Hf & _ & Hl' & Hk & Hother)%records_store. unfold spent, live, recorded_in.
  destruct (Hk (nkey pid)) as [-> ->]. split_and!.
  - intros [_ (s0 & Hs0 & Hn)]. rewrite Hl in Hs0. by apply (inj Ok) in Hs0 as ->.
  - intros Hlive. split; [done|]. eexists. split; [exact Hl'|]. cbn. set_solver.
  - intros n [Hlive (s0 & Hs0 & Hn)]. rewrite Hl in Hs0. apply (inj Ok) in Hs0 as ->.
    split; [done|]. eexists. split; [exact Hl'|]. cbn. set_solver.
  - apply Hk.
  - apply Hk.
  - done.
Qed.

(** The coin an instruction spends. *)
Definition spends (data pk : bytes) : Prop :=
  exists ix, try_from_slice Instruction.deserialize_reader data = Some ix /\
    match ix with
    | Instruction.Refresh pk' _ _ | Instruction.Withdraw pk' _ _ _ => pk' = pk
    | _ => False
    end.

(** A successful spend records its nullifier, then at most moves lamports. *)
Lemma spend_effect e accs data pk st st' : spends data pk ->
  process_instruction pid e accs data st = Ok st' ->
  exists st1, records pid st pk st1 /\ frame pid (nkey pid) st1 st'.
Proof using CO SK pid_not_system.
  intros (ix & Hix & Hpk) H. unfold process_instruction in H. rewrite Hix in H.
  apply try_from_slice_wf in Hix. destruct ix; try done; subst; cbn [ok_or mbind res_bind] in H.
  - apply refresh_effect in H as [_ H]. exists st'. split; [done|]. by apply frame_same.
  - apply withdraw_effect in H as (_ & st1 & seeds & H1 & _ & (Ho & _ & ->)%transfer_ok).
    exists st1. split; [done|]. cbn in Hix. unfold u64, in_width in Hix.
    apply frame_move; [done|lia|done].
Qed.

Lemma process_spent n e accs data st st' :
  process_instruction pid e accs data st = Ok st' -> spent n st -> spent n st'.
Proof using CO SK pid_not_system.
  intros H Hsp. destruct (process_parsed _ _ _ _ _ H) as [ix Hix].
  assert ({exists pk, spends data pk} + {~ writes pid ix (nkey pid)}) as [[pk Hpk]|Hw].
  { destruct ix; cbn; first
      [ by right | left; by eexists _, _
      | right; intros Heq; by apply (registry_ne_nullifier pid)
      | right; intros Heq; by apply (pool_ne_nullifier pid) ]. }
  - apply (spend_effect _ _ _ pk) in H as (st1 & Hr & Hf); [|done].
    apply records_spec in Hr as (_ & _ & Hk & _). by eapply spent_frame, Hk.
  - eapply spent_frame; [|done]. by eapply process_frame.
Qed.

Lemma chain_spent n st st' : rtc chain_step st st' -> spent n st -> spent n st'.
Proof using CO SK pid_not_system.
  induction 1 as [|st st1 st' Hstep _ IH]; [done|]. intros Hs. apply IH.
  destruct Hstep as [e accs data st st1 H|st st1 H]; [by eapply process_spent|].
  by eapply spent_frame; [apply foreign_frame|].
Qed.

(** C3: no double spend. Once a refresh or a withdrawal of a coin has
    succeeded, no refresh and no withdrawal of that coin succeeds in any later
    state of the chain, whatever instructions of this program and whatever
    other transactions run in between, and whatever accounts, environment and
    instruction bytes the second attempt supplies. *)
Theorem no_double_spend e1 accs1 data1 pk st0 st1 st2 e2 accs2 data2 :
  live pid (nkey pid) st0 ->
  spends data1 pk -> process_instruction pid e1 accs1 data1 st0 = Ok st1 ->
  rtc chain_step st1 st2 ->
  spends data2 pk -> is_ok (process_instruction pid e2 accs2 data2 st2) = false.
Proof using CO SK pid_not_system.
  intros Hlive Hs1 (sta & Hr & Hf)%(spend_effect _ _ _ pk) Hchain Hs2; [|done].
  apply records_spec in Hr as (_ & Hr & _).
  pose proof (chain_spent _ _ _ Hchain (spent_frame _ _ _ Hf (Hr Hlive))) as Hsp.
  destruct (process_instruction pid e2 accs2 data2 st2) eqn:E; [|done..].
  apply (spend_effect _ _ _ pk) in E as (stb & Hr2 & _); [|done].
  apply records_spec in Hr2 as [Hn _]. by destruct Hn.
Qed.

(** What a withdrawal moves. If it succeeds, exactly the denomination goes
    from the vault of that denomination to the recipient named in the
    instruction; every other balance is unchanged, and no data but that of
    the nullifier account changes. *)
Theorem withdraw_moves_denomination e accs pk sig d rec st st' :
  withdraw pid e accs (Instruction.Withdraw pk sig d rec) st = Ok st' ->
  let vault := pda pid (vault_seeds d) in
  rec <> vault ->
  acc_lamports (account_at st' vault) = acc_lamports (account_at st vault) - d /\
  acc_lamports (account_at st' rec) = acc_lamports (account_at st rec) + d /\
  d <= acc_lamports (account_at st vault) /\
  (forall k, k <> vault -> k <> rec ->
     acc_lamports (account_at st' k) = acc_lamports (account_at st k)) /\
  (forall k, k <> nkey pid -> same_data k st st').
Proof using CO SK pid_not_system.
  intros H vault Hne. apply withdraw_effect in H as (_ & st1 & seeds & Hr & Hle & Ht).
  apply records_spec in Hr as (_ & _ & _ & Hlam & _ & H3).
  apply transfer_ok in Ht as (_ & _ & ->). fold vault in Hle |- *. rewrite Hlam in Hle.
  split_and!.
  - by rewrite move_lamports_spec, decide_True, <- Hlam.
  - by rewrite move_lamports_spec, decide_False, decide_True, <- Hlam.
  - done.
  - intros k Hk1 Hk2. by rewrite move_lamports_spec, !decide_False.
  - intros k Hk. unfold same_data.
    destruct (move_lamports_data st1 vault rec d k) as [-> ->]. by rewrite H3.
Qed.
End chain.

(** ** The sponsor pool *)
Section sponsor.
Context `{CO : CurveOk} `{SK : SolanaOk}.
Context (pid : bytes).
Hypothesis pid_not_system : pid <> system_program_id.

Definition wf_pool (p : SponsorPool) : Prop :=
  u64 (sp_last_payout_slot p) /\ u64 (sp_total_payouts p) /\ u64 (sp_total_deposits p).

(** The live pool account holds [p]. *)
Definition pool_is (st : store) (p : SponsorPool) : Prop :=
  live pid (pkey pid) st /\ wf_pool p /\
  load_padded SponsorPool_default SponsorPool_read (acc_data (account_at st (pkey pid))) = Ok p.

Lemma SponsorPool_read_wf inp p rest : SponsorPool_read inp = Some (p, rest) -> wf_pool p.
Proof using.
  unfold SponsorPool_read. intros H. inv_read. by split_and!.
Qed.

Lemma load_pool_wf data p :
  load_padded SponsorPool_default SponsorPool_read data = Ok p -> wf_pool p.
Proof using.
  unfold load_padded. destruct (all_zero data).
  - intros <-%(inj Ok). by split_and!.
  - destruct (SponsorPool_read data) as [[p' rest]|] eqn:E; [|done]. intros ->%(inj Ok).
    by eapply SponsorPool_read_wf.
Qed.

Lemma load_stored_pool p tl : wf_pool p ->
  load_padded SponsorPool_default SponsorPool_read (SponsorPool_to_vec p ++ tl) = Ok p.
Proof using.
  destruct p as [a b c]. intros (Ha & Hb & Hc). apply load_stored; [by apply reads_SponsorPool|].
  unfold SponsorPool_to_vec. cbn [sp_last_payout_slot sp_total_payouts sp_total_deposits] in *.
  rewrite !all_zero_app. intros [Z1 [Z2 Z3]%andb_true_iff]%andb_true_iff.
  by rewrite (all_zero_le_bytes 8 a), (all_zero_le_bytes 8 b), (all_zero_le_bytes 8 c).
Qed.

Lemma store_pool_is st a p st' : ai_key a = pkey pid -> wf_pool p -> live pid (pkey pid) st ->
  store_sponsor_pool st a p = Ok st' -> pool_is st' p.
Proof using.
  unfold store_sponsor_pool. intros Ha Hw Hl Hs. rewrite Ha in Hs.
  apply store_padded_same in Hs as (Hd & Ho & Hlam). unfold pool_is, live.
  rewrite Ho, Hlam, Hd. split_and!; [apply Hl|apply Hl|done|by apply load_stored_pool].
Qed.

Lemma pool_frame st st' p : frame pid (pkey pid) st st' -> pool_is st p -> pool_is st' p.
Proof using.
  intros Hf (Hl & Hw & Hp). destruct (Hf Hl) as [Hl' [k Hk]]. split_and!; [done|done|].
  rewrite Hk. apply load_extend; [apply streaming_SponsorPool|done].
Qed.

Lemma payout_pool e accs l rec st st' : u64 l ->
  sponsor_payout pid e accs (Instruction.SponsorPayout l rec) st = Ok st' ->
  live pid (pkey pid) st' ->
  exists p slot, Clock_get e = Ok slot /\
    load_padded SponsorPool_default SponsorPool_read (acc_data (account_at st (pkey pid))) = Ok p /\
    (sp_last_payout_slot p = 0 \/
     MIN_SLOTS_BETWEEN_PAYOUTS <= sat_sub slot (sp_last_payout_slot p)) /\
    pool_is st' {| sp_last_payout_slot := slot; sp_total_payouts := sat_add (sp_total_payouts p) l;
                   sp_total_deposits := sp_total_deposits p |}.
Proof using SK.
  intros Hu (a & p & slot & Ha & _ & Hl & Hc & _ & _ & Hrate & Hs)%sponsor_payout_effect Hlive.
  unfold load_sponsor_pool in Hl. rewrite Ha in Hl. exists p, slot. split_and!; [done..|].
  destruct (load_pool_wf _ _ Hl) as (W1 & W2 & W3).
  eapply store_pool_is; [exact Ha| | |exact Hs].
  - split_and!; [by eapply clock_u64| |done]. cbn. apply sat_add_range; [done|].
    unfold u64, in_width in Hu. lia.
  - unfold store_sponsor_pool in Hs. rewrite Ha in Hs.
    apply store_padded_same in Hs as (_ & Ho & Hlam).
    destruct Hlive as [L1 L2]. rewrite Ho in L1. by rewrite Hlam in L2.
Qed.

Lemma deposit_pool accs amount st st' p : u64 amount ->
  sponsor_deposit pid accs (Instruction.SponsorDeposit amount) st = Ok st' -> pool_is st p ->
  pool_is st' {| sp_last_payout_slot := sp_last_payout_slot p;
                 sp_total_payouts := sp_total_payouts p;
                 sp_total_deposits := sat_add (sp_total_deposits p) amount |}.
Proof using.
  intros Hu (a & p' & Ha & _ & Hl & Hs)%sponsor_deposit_effect (Hl0 & (W1 & W2 & W3) & Hp).
  unfold load_sponsor_pool in Hl. rewrite Ha, Hp in Hl. apply (inj Ok) in Hl as <-.
  eapply store_pool_is; [exact Ha| |exact Hl0|exact Hs].
  split_and!; [done|done|]. cbn. apply sat_add_range; [done|]. unfold u64, in_width in Hu. lia.
Qed.

(** What an instruction does to the stored pool. *)
Lemma process_pool e accs data st st' p :
  process_instruction pid e accs data st = Ok st' -> live pid (pkey pid) st' -> pool_is st p ->
  exists p', pool_is st' p' /\
    (sp_last_payout_slot p' = sp_last_payout_slot p \/
     Clock_get e = Ok (sp_last_payout_slot p')).
Proof using CO SK pid_not_system.
  intros H Hlive Hp. destruct (process_parsed _ _ _ _ _ _ H) as [ix Hix].
  assert ((exists a, ix = Instruction.SponsorDeposit a) \/
          (exists l r, ix = Instruction.SponsorPayout l r) \/ ~ writes pid ix (pkey pid)) as Hc.
  { destruct ix; first
      [ by left; eexists | by right; left; eexists _, _ | by right; right; intros ?
      | right; right; intros Heq; cbn in Heq; by apply (registry_ne_pool pid)
      | right; right; intros Heq; cbn in Heq; by apply (nullifier_ne_pool pid) ]. }
  apply try_from_slice_wf in Hix as Hwf. destruct Hc as [[amount ->]|[(l & rc & ->)|Hw]].
  - unfold process_instruction in H. rewrite Hix in H.
    eexists. split; [exact (deposit_pool _ _ _ _ _ Hwf H Hp)|by left].
  - unfold process_instruction in H. rewrite Hix in H.
    destruct (payout_pool _ _ _ _ _ _ (proj1 Hwf) H Hlive) as (p' & slot & Hc & _ & _ & Hp').
    eexists. split; [exact Hp'|by right].
  - exists p. split; [|by left]. eapply pool_frame; [by eapply process_frame|done].
Qed.

(** *** The chain with its clock *)
Inductive tick : Z * store -> Z * store -> Prop :=
| tick_program t e accs data st st' t' :
    Clock_get e = Ok t' -> t <= t' -> process_instruction pid e accs data st = Ok st' ->
    live pid (pkey pid) st' -> tick (t, st) (t', st')
| tick_other t st st' t' : t <= t' -> foreign_step pid st st' -> tick (t, st) (t', st').

(** The last payout was no earlier than slot [s]. *)
Definition paid_since (s : Z) (ts : Z * store) : Prop :=
  s <= ts.1 /\ exists p, pool_is ts.2 p /\ s <= sp_last_payout_slot p.

Lemma tick_paid s ts ts' : tick ts ts' -> paid_since s ts -> paid_since s ts'.
Proof using CO SK pid_not_system.
  intros [t e accs data st st' t' Hc Hle H Hl|t st st' t' Hle H] (Ht & p & Hp & Hs); cbn in *.
  - apply (process_pool _ _ _ _ _ p) in H as (p' & Hp' & Hlast); [|done..].
    split; [cbn; lia|]. exists p'. split; [done|].
    destruct Hlast as [->|Hc']; [done|]. rewrite Hc in Hc'. apply (inj Ok) in Hc' as <-. lia.
  - split; [cbn; lia|]. exists p. split; [|done].
    eapply pool_frame; [by apply foreign_frame|done].
Qed.

Lemma ticks_paid s ts ts' : rtc tick ts ts' -> paid_since s ts -> paid_since s ts'.
Proof using CO SK pid_not_system. induction 1; eauto using tick_paid. Qed.

Definition pays (data : bytes) (l : Z) (rec : bytes) : Prop :=
  try_from_slice Instruction.deserialize_reader data = Some (Instruction.SponsorPayout l rec).

Lemma payout_run e accs data l rec st st' : pays data l rec ->
  process_instruction pid e accs data st = Ok st' ->
  u64 l /\ sponsor_payout pid e accs (Instruction.SponsorPayout l rec) st = Ok st'.
Proof using.
  unfold pays, process_instruction. intros Hd. rewrite Hd. intros H.
  apply try_from_slice_wf in Hd as [Hu _]. done.
Qed.

(** The rate limit of the sponsor pool. As long as the pool account keeps
    a positive balance and the clock does not go back, two successful payouts
    are at least [MIN_SLOTS_BETWEEN_PAYOUTS] slots apart, whatever runs in
    between, unless the first one was made in slot zero. *)
Theorem sponsor_payout_rate_limit e1 accs1 data1 l1 rec1 s1 e2 accs2 data2 l2 rec2 s2
    st0 st1 t st2 st3 :
  pays data1 l1 rec1 -> process_instruction pid e1 accs1 data1 st0 = Ok st1 ->
  live pid (pkey pid) st1 -> Clock_get e1 = Ok s1 -> s1 <> 0 ->
  rtc tick (s1, st1) (t, st2) ->
  pays data2 l2 rec2 -> process_instruction pid e2 accs2 data2 st2 = Ok st3 ->
  Clock_get e2 = Ok s2 -> s1 + MIN_SLOTS_BETWEEN_PAYOUTS <= s2.
Proof using CO SK pid_not_system.
  intros Hd1 H1 Hl1 Hc1 Hs1 Hrun Hd2 H2 Hc2.
  destruct (payout_run _ _ _ _ _ _ _ Hd1 H1) as [Hu1 Hp1].
  apply payout_pool in Hp1 as (p & slot & Hc & _ & _ & Hp); [|done..].
  rewrite Hc1 in Hc. apply (inj Ok) in Hc as <-. pose proof (clock_u64 _ _ Hc1) as Hu.
  destruct (ticks_paid s1 _ _ Hrun) as (_ & p2 & (_ & _ & Hload) & Hlast).
  { split; [done|]. eexists. split; [exact Hp|done]. }
  destruct (payout_run _ _ _ _ _ _ _ Hd2 H2) as [_ Hp2].
  apply sponsor_payout_effect in Hp2 as (a & p3 & slot & Ha & _ & Hl & Hc & _ & _ & Hrate & _).
  unfold load_sponsor_pool in Hl. rewrite Ha in Hl. cbn [snd] in Hload. rewrite Hload in Hl.
  apply (inj Ok) in Hl as <-. rewrite Hc2 in Hc. apply (inj Ok) in Hc as <-.
  unfold sat_sub, u64, in_width, MIN_SLOTS_BETWEEN_PAYOUTS in *. lia.
Qed.

Lemma pay_accounts st from to l : from <> to ->
  account_at (pay st from to l) from =
    set_lamports (account_at st from) (sat_sub (acc_lamports (account_at st from)) l) /\
  account_at (pay st from to l) to =
    set_lamports (account_at st to) (sat_add (acc_lamports (account_at st to)) l).
Proof using.
  intros Hne. unfold pay. rewrite account_at_insert. split.
  - by rewrite account_at_insert_ne, account_at_insert by congruence.
  - by rewrite account_at_insert_ne.
Qed.

(** A payout may empty the pool. Any signer can have the whole balance of
    a pool account that is not within the rate limit paid out to any other
    account, also the part that keeps the account rent exempt: the call
    succeeds, and the pool account is left without lamports. *)
Theorem sponsor_payout_drains e caller other k recipient st p slot :
  ai_is_signer caller = true -> pool_is st p -> Clock_get e = Ok slot ->
  sp_last_payout_slot p = 0 \/ sp_last_payout_slot p + MIN_SLOTS_BETWEEN_PAYOUTS <= slot ->
  (24 <= length (acc_data (account_at st (pkey pid))))%nat -> k <> pkey pid ->
  let accs := [caller; {| ai_key := pkey pid; ai_is_signer := false |}; recipient; other] in
  let l := acc_lamports (account_at st (pkey pid)) in
  ai_key recipient = k ->
  exists st', sponsor_payout pid e accs (Instruction.SponsorPayout l k) st = Ok st' /\
    acc_lamports (account_at st' (pkey pid)) = 0 /\
    acc_lamports (account_at st' k) = sat_add (acc_lamports (account_at st k)) l.
Proof using SK.
  intros Hsig ([Ho Hlam] & _ & Hload) Hc Hrate Hlen Hne accs l Hk.
  unfold sponsor_payout, accs. rewrite Hsig. step.
  pose proof (verify_sponsor_pool_pda_is pid st false Ho) as Hv. fold (pkey pid) in Hv.
  rewrite Hv. step. rewrite Hk, bool_decide_true by done. step.
  replace (l =? 0) with false by lia. step. rewrite Hc. step.
  unfold load_sponsor_pool. cbn [ai_key]. rewrite Hload. step.
  assert (negb (sp_last_payout_slot p =? 0) &&
    (sat_sub slot (sp_last_payout_slot p) <? MIN_SLOTS_BETWEEN_PAYOUTS) = false) as ->.
  { pose proof (clock_u64 _ _ Hc) as Hu. unfold sat_sub, MIN_SLOTS_BETWEEN_PAYOUTS in *.
    destruct (Z.eqb_spec (sp_last_payout_slot p) 0); [done|cbn; lia]. }
  step. cbn [ai_key]. rewrite Z.ltb_irrefl. step. fold (pay st (pkey pid) k l).
  destruct (pay_accounts st (pkey pid) k l (not_eq_sym Hne)) as [Hp1 Hp2].
  unfold store_sponsor_pool. cbn [ai_key].
  eexists. split; [apply store_padded_ok; split; [|reflexivity]; by rewrite Hp1|].
  rewrite account_at_insert, account_at_insert_ne, Hp1, Hp2 by congruence.
  split; [|done]. cbn. unfold sat_sub. fold l. lia.
Qed.
End sponsor.

(** ** Witnesses *)
#[local] Existing Instance toy.
#[local] Existing Instance toy_ok.
#[local] Existing Instance sim.
#[local] Existing Instance sim_ok.

Lemma demo_pid_not_system : Demo.pid <> system_program_id.
Proof. discriminate. Qed.

Lemma no_double_spend_witness :
  let data := Instruction.serialize Demo.withdraw_ix in
  let data2 := Instruction.serialize Demo.refresh_ix in
  let st1 := Demo.after (Demo.env_at 100) Demo.withdraw_accounts Demo.withdraw_ix Demo.chain in
  is_ok (process_instruction Demo.pid (Demo.env_at 107) Demo.refresh_accounts data2 st1) = false.
Proof.
  intros data data2 st1.
  apply (no_double_spend Demo.pid demo_pid_not_system (Demo.env_at 100) Demo.withdraw_accounts data
           demo_coin_pk Demo.chain st1 st1).
  - split; vm_compute; reflexivity.
  - exists Demo.withdraw_ix. split; [vm_refl|reflexivity].
  - vm_refl.
  - apply rtc_refl.
  - exists Demo.refresh_ix. split; [vm_refl|reflexivity].
Defined.

Lemma withdraw_moves_denomination_witness :
  let st1 := Demo.after (Demo.env_at 100) Demo.withdraw_accounts Demo.withdraw_ix Demo.chain in
  let vault := pda Demo.pid (vault_seeds 1000) in
  acc_lamports (account_at st1 vault) = acc_lamports (account_at Demo.chain vault) - 1000.
Proof.
  intros st1 vault.
  apply (withdraw_moves_denomination Demo.pid demo_pid_not_system (Demo.env_at 100)
           Demo.withdraw_accounts demo_coin_pk demo_coin_sig 1000 Demo.user_key Demo.chain st1).
  - vm_refl.
  - discriminate.
Defined.

Definition demo_payout : Instruction.t := Instruction.SponsorPayout 500 Demo.user_key.
Definition demo_payout_accounts : list AccountInfo :=
  [Demo.user; Demo.pool; Demo.at_key Demo.user_key; Demo.system].

(** Paid out in slot 100, and again in slot 105. *)
Lemma sponsor_payout_rate_limit_witness : 100 + MIN_SLOTS_BETWEEN_PAYOUTS <= 105.
Proof.
  set (st1 := Demo.after (Demo.env_at 100) demo_payout_accounts demo_payout Demo.chain).
  set (st2 := Demo.after (Demo.env_at 105) demo_payout_accounts demo_payout st1).
  apply (sponsor_payout_rate_limit Demo.pid demo_pid_not_system
           (Demo.env_at 100) demo_payout_accounts (Instruction.serialize demo_payout) 500 Demo.user_key 100
           (Demo.env_at 105) demo_payout_accounts (Instruction.serialize demo_payout) 500 Demo.user_key 105
           Demo.chain st1 100 st1 st2).
  - unfold pays. vm_refl.
  - vm_refl.
  - split; vm_compute; reflexivity.
  - reflexivity.
  - discriminate.
  - apply rtc_refl.
  - unfold pays. vm_refl.
  - vm_refl.
  - reflexivity.
Defined.

Lemma sponsor_payout_drains_witness : exists st',
  sponsor_payout Demo.pid (Demo.env_at 100) demo_payout_accounts
    (Instruction.SponsorPayout 900000 Demo.user_key) Demo.chain = Ok st' /\
  acc_lamports (account_at st' (pkey Demo.pid)) = 0 /\
  acc_lamports (account_at st' Demo.user_key) = 900007.
Proof.
  apply (sponsor_payout_drains Demo.pid (Demo.env_at 100) Demo.user Demo.system Demo.user_key
           (Demo.at_key Demo.user_key) Demo.chain SponsorPool_default 100).
  - reflexivity.
  - split; [split; vm_compute; reflexivity|]. split; [|vm_refl].
    split_and!; unfold u64, in_width; cbn; lia.
  - reflexivity.
  - left. reflexivity.
  - apply Nat.leb_le. vm_refl.
  - discriminate.
  - reflexivity.
Defined.
