(* ===== verification/SbfRefine.v ===== *)
(** * The handlers refine the pure processors

    The accounts of the program hold an abstract ledger; a handler that
    succeeds takes the ledger to what the pure processor computes, and fails
    with the mapped error where the processor fails.  The signature check of
    the pure processors and the ed25519 precompile are related by a
    hypothesis on the transaction. *)
From S2P Require Import Prelude Crypto ToyCurve Wire Core MintBase Instruction Program Solana.
From S2P Require Import Ed25519 Sbf SbfFrame SbfDemo.

Section refine.
Context `{CO : CurveOk} `{SK : SolanaOk}.
Context (pid : bytes).

(** ** The abstraction *)
Definition holds_registry (st : store) (r : KeysetRegistry) : Prop :=
  load_padded KeysetRegistry_new KeysetRegistry_read (acc_data (account_at st (rkey pid))) = Ok r.
Definition holds_nullifiers (st : store) (s : NullifierSet) : Prop :=
  load_padded NullifierSet_new NullifierSet_read (acc_data (account_at st (nkey pid))) = Ok s.

(** The registry processor of an instruction. *)
Definition registry_processor (r : KeysetRegistry) (ix : Instruction.t)
    : option (KeysetRegistry * res ProgramError.t unit) :=
  match ix with
  | Instruction.RegisterKeyset _ _ _ _ _ => Some (process_register_keyset r ix)
  | Instruction.Revoke _ _ => Some (process_revoke r ix)
  | _ => None
  end.

(** The accounts a registry instruction expects. *)
Definition registry_accounts (accs : list AccountInfo) : Prop :=
  exists signer sgn, accs = [signer; {| ai_key := rkey pid; ai_is_signer := sgn |}] /\
    ai_is_signer signer = true.

Lemma verify_pda_is seeds sgn :
  verify_pda seeds {| ai_key := pda pid seeds; ai_is_signer := sgn |} pid =
  Ok (find_program_address seeds pid).2.
Proof using.
  unfold verify_pda, pda. destruct (find_program_address seeds pid) as [k bump]. cbn [fst snd ai_key].
  by rewrite bool_decide_true.
Qed.

(** A registry with an entry is not encoded by zeros. *)
Lemma nonzero_registry r enc : kr_entries r <> [] -> KeysetRegistry_to_vec r = Some enc ->
  all_zero enc = false.
Proof using.
  unfold KeysetRegistry_to_vec. intros Hne. case_decide as Hl; [|done]. intros <-%(inj Some).
  apply not_true_is_false. unfold borsh_vec. rewrite !all_zero_app.
  intros [_ [Hz _]%andb_true_iff]%andb_true_iff. apply all_zero_le_bytes in Hz; [|lia].
  by destruct (kr_entries r).
Qed.

(** Storing an encodable registry that fits. *)
Lemma store_registry_holds st sgn r enc : wf_registry r -> kr_entries r <> [] ->
  KeysetRegistry_to_vec r = Some enc ->
  (length enc <= length (acc_data (account_at st (rkey pid))))%nat ->
  exists st', store_registry st {| ai_key := rkey pid; ai_is_signer := sgn |} r = Ok st' /\
    holds_registry st' r /\ forall k, k <> rkey pid -> same_account k st st'.
Proof using.
  intros Hw Hne He Hlen. unfold store_registry. rewrite He. step. cbn [ai_key].
  eexists. split; [apply store_padded_ok; split; [exact Hlen|reflexivity]|]. split.
  - unfold holds_registry. rewrite account_at_insert. cbn.
    apply load_stored; [by apply reads_KeysetRegistry|]. by rewrite (nonzero_registry r enc).
  - intros k Hk. unfold same_account. by rewrite account_at_insert_ne by congruence.
Qed.

(** What a registry account holds has fields of the right width. *)
Lemma KeysetEntry_read_wf inp e rest : KeysetEntry_read inp = Some (e, rest) -> wf_entry e.
Proof using.
  unfold KeysetEntry_read. intros H. inv_read. by split_and!.
Qed.

Lemma holds_registry_wf st r : holds_registry st r -> wf_registry r.
Proof using.
  unfold holds_registry, load_padded. generalize (acc_data (account_at st (rkey pid))). intros data.
  destruct (all_zero _).
  { intros <-%(inj Ok). split; [by unfold in_width|constructor]. }
  destruct (KeysetRegistry_read _) as [[r' rest]|] eqn:E; [|done]. intros ->%(inj Ok).
  unfold KeysetRegistry_read, read_vec in E. inv_read.
  split; [done|]. cbn.
  eapply read_n_Forall; [|eassumption]. apply KeysetEntry_read_wf.
Qed.

Lemma registry_processor_wf r ix r' : wf_registry r -> Instruction.wf ix ->
  registry_processor r ix = Some (r', Ok tt) -> wf_registry r' /\ kr_entries r' <> [].
Proof using.
  intros [Hv He] Hix Hp. destruct ix; try done; apply (inj Some) in Hp; cbn in Hix.
  - unfold process_register_keyset in Hp. case_bool_decide; [done|].
    destruct (_ <=? _); [done|]. injection Hp as <-. cbn. split; [|by destruct (kr_entries r)].
    split; [done|]. apply Forall_app. split; [done|]. apply Forall_singleton.
    destruct Hix as (?&?&?&?&?). by split_and!.
  - unfold process_revoke, KeysetRegistry_find_mut in Hp.
    destruct (list_find _ _) as [[i en]|] eqn:Hf; [|done]. cbn in Hp. injection Hp as <-. cbn.
    apply list_find_Some in Hf as (Hi & _ & _). split.
    + split; [done|]. apply Forall_insert; [done|].
      by pose proof (Forall_lookup_1 _ _ _ _ He Hi).
    + intros Hn. apply (f_equal length) in Hn. rewrite length_insert in Hn.
      destruct (kr_entries r); [by rewrite lookup_nil in Hi|done].
Qed.

(** The registry instructions refine their processors. On the expected
    accounts, the handler of a registration or a revocation returns the mapped
    error where the processor fails on the registry held by the account, and
    otherwise leaves the account holding the registry the processor computes
    and every other account as it was, provided that registry fits. *)
Theorem registry_refines e accs data ix st r r' out :
  try_from_slice Instruction.deserialize_reader data = Some ix ->
  registry_accounts accs -> holds_registry st r -> registry_processor r ix = Some (r', out) ->
  match out with
  | Ok _ => forall enc, KeysetRegistry_to_vec r' = Some enc ->
      (length enc <= length (acc_data (account_at st (rkey pid))))%nat ->
      exists st', process_instruction pid e accs data st = Ok st' /\
        holds_registry st' r' /\ forall k, k <> rkey pid -> same_account k st st'
  | Err err => process_instruction pid e accs data st = Err (map_error err)
  | Panic => process_instruction pid e accs data st = Panic
  end.
Proof using.
  intros Hix (signer & sgn & -> & Hsig) Hr Hp.
  assert (process_instruction pid e [signer; {| ai_key := rkey pid; ai_is_signer := sgn |}] data st =
    (_ ← map_err map_error out;
     store_registry st {| ai_key := rkey pid; ai_is_signer := sgn |} r')) as ->.
  { unfold process_instruction. rewrite Hix. step. pose proof (verify_pda_is keyset_registry_seeds sgn) as Hv.
    fold (rkey pid) in Hv. destruct ix; try done; apply (inj Some) in Hp;
      unfold register_keyset, revoke, verify_keyset_registry_pda, load_registry;
      rewrite Hsig; step; rewrite Hv; step; cbn [ai_key]; rewrite Hr; step; by rewrite Hp. }
  destruct out as [[]|err|]; step; [|done..]. intros enc He Hlen.
  apply try_from_slice_wf in Hix. apply holds_registry_wf in Hr as Hw.
  destruct (registry_processor_wf r ix r' Hw Hix Hp). by apply (store_registry_holds st sgn r' enc).
Qed.

(** ** Spends

    The runtime runs the ed25519 precompile on its own instruction and fails
    the transaction when the signature is bad: what the bridge accepts has
    been verified. *)
Definition precompile_honest (e : env) : Prop := forall sysvar pk msg sig,
  verify_ed25519_precompile e sysvar pk msg sig = Ok tt ->
  exists P, PublicKey_from_bytes pk = Ok P /\ schnorr_verify P msg sig = Ok true.

Lemma find_active_active r d entry :
  KeysetRegistry_find_active_for_denom r d = Some entry -> ke_status entry = KeysetStatus.Active.
Proof using.
  unfold KeysetRegistry_find_active_for_denom. intros H.
  pose proof (max_by_key_Some ke_epoch
    (filter (λ e, ke_denom e = d /\ ke_status e = KeysetStatus.Active) (kr_entries r))) as Hm.
  rewrite H in Hm. by destruct Hm as [[[_ ?] _]%list_elem_of_filter _].
Qed.

(** The handler's checks are those of the pure processor, but for the decoding
    of the coin key, which the handler leaves out. *)
Lemma spend_checks_pure e st r pk sig d : precompile_honest e -> holds_registry st r ->
  spend_checks pid e st pk sig d ->
  verify_coin_for_spend r d pk sig = (_ ← map_err ProgramError.Core (PublicKey_from_bytes pk); Ok tt).
Proof using.
  intros Hh Hr (ra & r' & entry & sv & Hk & Hl & Hf & (P & HP & Hv)%Hh).
  unfold load_registry in Hl. rewrite Hk in Hl. unfold holds_registry in Hr. rewrite Hr in Hl.
  apply (inj Ok) in Hl as <-. unfold verify_coin_for_spend. rewrite Hf. step.
  rewrite (find_active_active _ _ _ Hf). cbn [bool_decide]. step.
  destruct (PublicKey_from_bytes pk) as [Q| |]; [|done..]. step. rewrite HP. step. rewrite Hv. by step.
Qed.

Lemma records_pure st pk st' s : records pid st pk st' -> holds_nullifiers st s ->
  exists s', NullifierSet_insert s (compute_nullifier pk) = (s', true) /\ holds_nullifiers st' s' /\
    (forall k, acc_lamports (account_at st' k) = acc_lamports (account_at st k)) /\
    (forall k, k <> nkey pid -> same_account k st st').
Proof using CO.
  intros (s0 & Hl & _ & Hi & Hl' & Hk & Hother)%records_store Hn.
  unfold holds_nullifiers in Hn. rewrite Hn in Hl. apply (inj Ok) in Hl as <-.
  eexists. split_and!; [exact Hi|exact Hl'|apply Hk|done].
Qed.

(** A refresh on the chain refines the pure one. When the handler
    succeeds in a transaction whose precompile instruction was verified, on a
    store that holds a registry and a nullifier set, the pure processor
    accepts the same instruction on them, returns the coin's nullifier, and
    its new set is the one the store holds afterwards; the registry and every
    balance are unchanged. *)
Theorem refresh_refines e accs pk sig d st st' r s :
  precompile_honest e -> is_ok (PublicKey_from_bytes pk) = true ->
  holds_registry st r -> holds_nullifiers st s ->
  refresh pid e accs (Instruction.Refresh pk sig d) st = Ok st' ->
  exists s', process_refresh r s (Instruction.Refresh pk sig d) = (s', Ok (compute_nullifier pk)) /\
    holds_nullifiers st' s' /\ holds_registry st' r /\
    forall k, acc_lamports (account_at st' k) = acc_lamports (account_at st k).
Proof using CO SK.
  intros Hh Hpk Hr Hn [Hc Hrec]%refresh_effect.
  apply (spend_checks_pure _ _ r) in Hc; [|done..].
  destruct (PublicKey_from_bytes pk); [|done..]. cbn in Hc.
  apply (records_pure _ _ _ s) in Hrec as (s' & Hi & Hn' & Hlam & Hother); [|done].
  exists s'. cbn [process_refresh]. rewrite Hc, Hi. split_and!; [done|done| |done].
  unfold holds_registry. by rewrite Hother by apply registry_ne_nullifier.
Qed.


Lemma process_deposit_ok r v d l v' : process_deposit r v (Instruction.Deposit d l) = (v', Ok tt) ->
  d = l /\ exists entry, KeysetRegistry_find_active_for_denom r d = Some entry /\
    v_collateral v + l <= u64_max.
Proof using.
  unfold process_deposit, checked_add. destruct (Z.eqb_spec d l) as [<-|]; [|done]. cbn [negb].
  destruct (_ =? _); [|done]. cbn [negb].
  destruct (KeysetRegistry_find_active_for_denom r d) as [entry|]; [|done].
  destruct (bool_decide _); [|done]. cbn [negb].
  destruct (Z.leb_spec (v_collateral v + d) u64_max); [|done]. intros _. eauto.
Qed.

(** When a deposit succeeds. The handler accepts exactly when the signer
    signed, the accounts are the expected ones, an active keyset of the
    denomination is registered, the amount is the denomination, and the vault
    account already holds at least that much; the store is not changed. No
    transfer is tied to the call: it succeeds as often as it is repeated. *)
Theorem deposit_exact signer ra va d l st st' :
  deposit pid [signer; ra; va] (Instruction.Deposit d l) st = Ok st' <->
  st' = st /\ ai_is_signer signer = true /\ ai_key ra = rkey pid /\
  ai_key va = pda pid (vault_seeds d) /\ d = l /\
  (exists r entry, holds_registry st r /\ KeysetRegistry_find_active_for_denom r d = Some entry) /\
  l <= acc_lamports (account_at st (pda pid (vault_seeds d))) /\
  acc_lamports (account_at st (pda pid (vault_seeds d))) + l <= u64_max.
Proof using.
  unfold deposit, holds_registry. split.
  - intros H. inv_ok. destruct (process_deposit _ _ _) as [v out] eqn:Hp. inv_ok. subst st'.
    apply verify_pda_ok in Hb0 as [Hk _], Hb1 as [Hv _]. apply negb_false_iff in Hb.
    unfold load_registry in Hb2. rewrite Hk in Hb2. rewrite Hv in *. apply Z.ltb_ge in Hb3.
    destruct out as [[]| |]; try done. apply process_deposit_ok in Hp as (H1 & entry & Hf & Hle).
    split_and!; eauto 10.
  - intros (-> & Hsig & Hk & Hv & <- & (r & entry & Hr & Hf) & Hle & Hmax).
    rewrite Hsig. step. destruct ra as [rk rs], va as [vk vs]. cbn [ai_key] in Hk, Hv. subst rk vk.
    pose proof (verify_pda_is keyset_registry_seeds rs) as H1. fold (rkey pid) in H1.
    unfold verify_keyset_registry_pda, verify_vault_pda, load_registry. rewrite H1. step.
    rewrite verify_pda_is. step. cbn [ai_key]. rewrite Hr. step.
    rewrite (proj2 (Z.ltb_ge _ _) Hle). step. cbn [process_deposit v_denom v_collateral].
    rewrite Z.eqb_refl, Hf. cbn [negb]. rewrite (find_active_active _ _ _ Hf). cbn.
    unfold checked_add. by rewrite (proj2 (Z.leb_le _ _) Hmax).
Qed.

(** C33: instructions are isolated from one another. One that succeeds leaves
    what a live account of the program holds as it was, unless it is of the
    kind that writes that account: registrations and revocations for the
    registry, refreshes and withdrawals for the nullifiers, sponsor deposits
    and payouts for the pool. *)
Theorem instruction_isolation e accs data ix st st' :
  pid <> system_program_id -> try_from_slice Instruction.deserialize_reader data = Some ix ->
  process_instruction pid e accs data st = Ok st' ->
  (forall r, live pid (rkey pid) st -> ~ writes pid ix (rkey pid) ->
     holds_registry st r -> holds_registry st' r) /\
  (forall s, live pid (nkey pid) st -> ~ writes pid ix (nkey pid) ->
     holds_nullifiers st s -> holds_nullifiers st' s) /\
  (forall p, live pid (pkey pid) st -> ~ writes pid ix (pkey pid) ->
     load_padded SponsorPool_default SponsorPool_read (acc_data (account_at st (pkey pid))) = Ok p ->
     load_padded SponsorPool_default SponsorPool_read (acc_data (account_at st' (pkey pid))) = Ok p).
Proof using SK.
  intros Hpid Hix H. unfold holds_registry, holds_nullifiers. split_and!.
  - intros r Hl Hw Hr. destruct (process_frame _ _ _ _ _ _ _ _ Hpid Hix Hw H Hl) as [_ [n ->]].
    by apply load_extend; [apply streaming_KeysetRegistry|].
  - intros s Hl Hw Hr. destruct (process_frame _ _ _ _ _ _ _ _ Hpid Hix Hw H Hl) as [_ [n ->]].
    by apply load_extend; [apply streaming_NullifierSet|].
  - intros p Hl Hw Hr. destruct (process_frame _ _ _ _ _ _ _ _ Hpid Hix Hw H Hl) as [_ [n ->]].
    by apply load_extend; [apply streaming_SponsorPool|].
Qed.
End refine.

(** ** Witnesses *)
#[local] Existing Instance toy.
#[local] Existing Instance toy_ok.
#[local] Existing Instance sim.
#[local] Existing Instance sim_ok.

Definition demo_revoke : Instruction.t := Instruction.Revoke (ke_keyset_id demo_entry) [].
Definition demo_revoked : KeysetRegistry := (process_revoke demo_registry demo_revoke).1.

Lemma demo_holds_registry : holds_registry Demo.pid Demo.chain demo_registry.
Proof. unfold holds_registry. vm_refl. Qed.
Lemma demo_holds_nullifiers : holds_nullifiers Demo.pid Demo.chain NullifierSet_new.
Proof. unfold holds_nullifiers. vm_refl. Qed.

Lemma registry_refines_witness : exists st',
  process_instruction Demo.pid (Demo.env_at 100) [Demo.user; Demo.registry]
    (Instruction.serialize demo_revoke) Demo.chain = Ok st' /\
  holds_registry Demo.pid st' demo_revoked /\
  forall k, k <> rkey Demo.pid -> same_account k Demo.chain st'.
Proof.
  apply (registry_refines Demo.pid (Demo.env_at 100) [Demo.user; Demo.registry]
           (Instruction.serialize demo_revoke) demo_revoke Demo.chain demo_registry demo_revoked (Ok tt))
    with (enc := default [] (KeysetRegistry_to_vec demo_revoked)).
  - vm_refl.
  - exists Demo.user, false. split; reflexivity.
  - exact demo_holds_registry.
  - vm_refl.
  - vm_refl.
  - apply Nat.leb_le. vm_refl.
Defined.

(** Every acceptance of the bridge in the demo transaction is of the one
    signature the precompile instruction carries. *)
Lemma demo_honest slot : precompile_honest (Demo.env_at slot).
Proof.
  intros sysvar pk msg sig (idx & data & Hi & Hz & Hd & Hr & Hs & Hp & Hn & Hm)%verify_ed25519_precompile_fields.
  cbn [load_current_index_checked load_instruction_at_checked sim Demo.env_at se_sysvar se_current
       se_instructions] in Hi, Hd.
  destruct (decide (ai_key sysvar = _)) as [Hk|]; [|done]. apply (inj Ok) in Hi as <-.
  change (Z.to_nat (1 - 1)) with 0%nat in Hd. cbn [lookup list_lookup ok_or] in Hd.
  apply (inj Ok) in Hd. injection Hd as <-.
  assert (length msg = 32%nat) as Hl.
  { apply Nat2Z.inj, (inj (Ok (E := SolError.t))). rewrite <- Hn. vm_refl. }
  rewrite Hl in Hm. destruct sig as [sr ss]. cbn [sig_r sig_s] in Hr, Hs.
  vm_compute in Hp, Hm, Hr, Hs. apply (inj Ok) in Hp as <-, Hm as <-, Hr as <-, Hs as <-.
  exists (PublicKey_from_secret demo_sk). split; vm_refl.
Qed.

Lemma refresh_refines_witness :
  let st1 := Demo.after (Demo.env_at 100) Demo.refresh_accounts Demo.refresh_ix Demo.chain in
  exists s', process_refresh demo_registry NullifierSet_new Demo.refresh_ix =
      (s', Ok (compute_nullifier demo_coin_pk)) /\
    holds_nullifiers Demo.pid st1 s' /\ holds_registry Demo.pid st1 demo_registry /\
    forall k, acc_lamports (account_at st1 k) = acc_lamports (account_at Demo.chain k).
Proof.
  intros st1.
  apply (refresh_refines Demo.pid (Demo.env_at 100) Demo.refresh_accounts demo_coin_pk demo_coin_sig
           1000 Demo.chain st1 demo_registry NullifierSet_new).
  - apply demo_honest.
  - vm_refl.
  - exact demo_holds_registry.
  - exact demo_holds_nullifiers.
  - vm_refl.
Defined.


Lemma instruction_isolation_witness :
  let st1 := Demo.after (Demo.env_at 100) Demo.withdraw_accounts Demo.withdraw_ix Demo.chain in
  holds_registry Demo.pid st1 demo_registry.
Proof.
  intros st1.
  apply (instruction_isolation Demo.pid (Demo.env_at 100) Demo.withdraw_accounts
           (Instruction.serialize Demo.withdraw_ix) Demo.withdraw_ix Demo.chain st1).
  - discriminate.
  - vm_refl.
  - vm_refl.
  - split; vm_compute; reflexivity.
  - discriminate.
  - exact demo_holds_registry.
Defined.
