(* ===== verification/ClientBase.v ===== *)
(** * tardus-client: errors

    Models [crates/tardus-client/src/error.rs]. *)
From S2P Require Import Prelude Crypto Core MintBase Wire Refresh.

Module InvoiceParseError.
Inductive t : Type :=
| WrongScheme
| MissingRecipient
| InvalidRecipientHex
| MissingDenom
| InvalidDenom
| InvalidRelayUrl
| MemoTooLong
| MemoNotBase64.
#[global] Instance t_eq_dec : EqDecision t.
Proof. solve_decision. Defined.
End InvoiceParseError.

Module ClientError.
Inductive t : Type :=
| Core (e : CoreError.t)
| Mint (e : MintError.t)
| Refresh (e : RefreshError.t)
| InvalidInvoice (e : InvoiceParseError.t)
| AeadFailure
| CoinNotFound
| DuplicateCoin
| CoinSignatureInvalid
| BackupValidationFailed.
#[global] Instance t_eq_dec : EqDecision t.
Proof. solve_decision. Defined.
End ClientError.
