(* ===== verification/Invoice.v ===== *)
(** * tardus-client: invoice URIs

    Models [crates/tardus-client/src/invoice.rs].  A [String] is the list of
    its UTF-8 bytes; the separators and the alphabets are ASCII, so splitting
    at a character is splitting at its byte. *)
From Stdlib Require Import Strings.Byte.
From S2P Require Import Prelude Crypto Core MintBase Wire Refresh ClientBase.

#[local] Open Scope byte_scope.
#[local] Open Scope Z_scope.

(** ** Strings *)

(** [u8::is_ascii], the byte literal [b'x'], character ranges. *)
Definition is_ascii (b : byte) : bool := Z_of_byte b <? 128.
Definition in_range (lo hi c : byte) : bool :=
  (Z_of_byte lo <=? Z_of_byte c) && (Z_of_byte c <=? Z_of_byte hi).

(** [str::strip_prefix] *)
Fixpoint strip_prefix (p s : bytes) : option bytes :=
  match p, s with
  | [], _ => Some s
  | x :: p, y :: s => if Byte.eqb x y then strip_prefix p s else None
  | _ :: _, [] => None
  end.

(** [str::split_once] at one character. *)
Fixpoint split_once (c : byte) (s : bytes) : option (bytes * bytes) :=
  match s with
  | [] => None
  | x :: s =>
      if Byte.eqb x c then Some ([], s)
      else '(a, b) ← split_once c s; Some (x :: a, b)
  end.

(** [str::split] at one character: at least one piece. *)
Fixpoint split (c : byte) (s : bytes) : list bytes :=
  match s with
  | [] => [[]]
  | x :: s =>
      if Byte.eqb x c then [] :: split c s
      else match split c s with
           | p :: ps => (x :: p) :: ps
           | [] => [[x]]
           end
  end.

(** [[String]::join] *)
Fixpoint join (sep : byte) (l : list bytes) : bytes :=
  match l with
  | [] => []
  | [a] => a
  | a :: l => a ++ sep :: join sep l
  end.

(** [str::parse::<u64>]: an optional plus sign, then digits, with checked
    arithmetic. *)
Definition checked_mul (a b : Z) : option Z := if a * b <=? u64_max then Some (a * b) else None.
Definition dec_digit (c : byte) : option Z :=
  if in_range "0" "9" c then Some (Z_of_byte c - 48) else None.
Fixpoint parse_digits (acc : Z) (s : bytes) : option Z :=
  match s with
  | [] => Some acc
  | c :: s =>
      d ← dec_digit c;
      acc ← checked_mul acc 10;
      acc ← checked_add acc d;
      parse_digits acc s
  end.
Definition parse_u64 (s : bytes) : option Z :=
  match s with
  | [] => None
  | c :: rest =>
      if Byte.eqb c "+" then (if bool_decide (rest = []) then None else parse_digits 0 rest)
      else parse_digits 0 s
  end.

(** [format!("{}", n)]; twenty digits hold every [u64]. *)
Fixpoint print_digits (fuel : nat) (n : Z) : bytes :=
  match fuel with
  | O => []
  | S fuel =>
      if n <? 10 then [byte_of_Z (48 + n)]
      else print_digits fuel (n / 10) ++ [byte_of_Z (48 + n mod 10)]
  end.
Definition print_u64 (n : Z) : bytes := print_digits 20 n.

(** ** Hexadecimal *)
Definition hex_nibble (c : byte) : option Z :=
  if in_range "0" "9" c then Some (Z_of_byte c - 48)
  else if in_range "a" "f" c then Some (Z_of_byte c - 97 + 10)
  else if in_range "A" "F" c then Some (Z_of_byte c - 65 + 10)
  else None.

Definition hex_pair (a b : byte) : option byte :=
  hi ← hex_nibble a;
  lo ← hex_nibble b;
  Some (byte_of_Z (Z.lor (Z.shiftl hi 4) lo)).

Fixpoint decode_hex (s : bytes) : option bytes :=
  match s with
  | a :: b :: s => x ← hex_pair a b; xs ← decode_hex s; Some (x :: xs)
  | _ => Some []
  end.

Definition decode_hex_32 (s : bytes) : option bytes :=
  if negb (length s =? 64)%nat then None else decode_hex s.

Definition HEX : bytes := ascii "0123456789abcdef".

(** [HEX[i] as char]: the index is a nibble. *)
Definition hex_char (alphabet : bytes) (i : Z) : byte := default "?"%byte (alphabet !! Z.to_nat i).

Definition encode_hex_32 (b : bytes) : bytes :=
  b ≫= λ x, [hex_char HEX (Z.shiftr (Z_of_byte x) 4); hex_char HEX (Z.land (Z_of_byte x) 15)].

(** ** Percent encoding *)
Fixpoint url_decode (s : bytes) : option bytes :=
  match s with
  | [] => Some []
  | c :: s =>
      if Byte.eqb c "%" then
        match s with
        | a :: b :: s =>
            decoded ← hex_pair a b;
            if negb (is_ascii decoded) then None
            else out ← url_decode s; Some (decoded :: out)
        | _ => None
        end
      else if Byte.eqb c "+" then out ← url_decode s; Some (" "%byte :: out)
      else if is_ascii c then out ← url_decode s; Some (c :: out)
      else None
  end.

Definition HEX_UPPER : bytes := ascii "0123456789ABCDEF".

Definition url_encode_byte (b : byte) : bytes :=
  if in_range "a" "z" b || in_range "A" "Z" b || in_range "0" "9" b || Byte.eqb b "-" ||
     Byte.eqb b "_" || Byte.eqb b "." || Byte.eqb b "~" || Byte.eqb b "/" || Byte.eqb b ":"
  then [b]
  else ["%"%byte; hex_char HEX_UPPER (Z.shiftr (Z_of_byte b) 4);
        hex_char HEX_UPPER (Z.land (Z_of_byte b) 15)].

Definition url_encode (s : bytes) : bytes := s ≫= url_encode_byte.

(** ** URL-safe base64 *)
Definition B64URL : bytes :=
  ascii "ABCDEFGHIJKLMNOPQRSTUVWXYZabcdefghijklmnopqrstuvwxyz0123456789-_".

Definition b64url_char (i : Z) : byte := hex_char B64URL i.

(** One group of [chunks_exact(3)], and the remainder. *)
Fixpoint b64url_encode (input : bytes) : bytes :=
  match input with
  | a :: b :: c :: rest =>
      let n := Z.lor (Z.lor (Z.shiftl (Z_of_byte a) 16) (Z.shiftl (Z_of_byte b) 8)) (Z_of_byte c) in
      b64url_char (Z.land (Z.shiftr n 18) 63) :: b64url_char (Z.land (Z.shiftr n 12) 63) ::
      b64url_char (Z.land (Z.shiftr n 6) 63) :: b64url_char (Z.land n 63) ::
      b64url_encode rest
  | [a; b] =>
      let n := Z.lor (Z.shiftl (Z_of_byte a) 16) (Z.shiftl (Z_of_byte b) 8) in
      [b64url_char (Z.land (Z.shiftr n 18) 63); b64url_char (Z.land (Z.shiftr n 12) 63);
       b64url_char (Z.land (Z.shiftr n 6) 63)]
  | [a] =>
      let n := Z.shiftl (Z_of_byte a) 16 in
      [b64url_char (Z.land (Z.shiftr n 18) 63); b64url_char (Z.land (Z.shiftr n 12) 63)]
  | [] => []
  end.

Definition b64url_index (c : byte) : option Z :=
  if in_range "A" "Z" c then Some (Z_of_byte c - 65)
  else if in_range "a" "z" c then Some (Z_of_byte c - 97 + 26)
  else if in_range "0" "9" c then Some (Z_of_byte c - 48 + 52)
  else if Byte.eqb c "-" then Some 62
  else if Byte.eqb c "_" then Some 63
  else None.

(** The loop over the characters of a chunk: [value << 6 | idx]. *)
Fixpoint b64url_value (value : Z) (chunk : bytes) : option Z :=
  match chunk with
  | [] => Some value
  | c :: chunk => idx ← b64url_index c; b64url_value (Z.lor (Z.shiftl value 6) idx) chunk
  end.

Definition b64url_chunk (chunk : bytes) : option bytes :=
  value ← b64url_value 0 chunk;
  let chunk_len := length chunk in
  let value := Z.shiftl value ((4 - Z.of_nat chunk_len) * 6) in
  let byte_at k := byte_of_Z (Z.land (Z.shiftr value k) 255) in
  match chunk_len with
  | 2%nat => Some [byte_at 16]
  | 3%nat => Some [byte_at 16; byte_at 8]
  | 4%nat => Some [byte_at 16; byte_at 8; byte_at 0]
  | _ => None
  end.

(** [bytes.chunks(4)] *)
Fixpoint b64url_decode (input : bytes) : option bytes :=
  match input with
  | [] => Some []
  | a :: b :: c :: d :: rest =>
      out ← b64url_chunk [a; b; c; d]; out' ← b64url_decode rest; Some (out ++ out')
  | chunk => b64url_chunk chunk
  end.

(** ** Invoices *)
Definition INVOICE_SCHEME : bytes := ascii "tardus://".
Definition MEMO_MAX_BYTES : nat := 128.

Record Invoice : Type := {
  inv_recipient_pubkey : bytes;
  inv_denom : Z;
  inv_relays : list bytes;
  inv_memo : option bytes;
}.

Definition invalid (e : InvoiceParseError.t) : ClientError.t := ClientError.InvalidInvoice e.

(** The mutable variables of the parameter loop. *)
Record parse_state : Type := {
  ps_denom : option Z; ps_relays : list bytes; ps_memo : option bytes }.

Definition parse_param (st : parse_state) (pair : bytes) : res ClientError.t parse_state :=
  kv ← ok_or (invalid InvoiceParseError.WrongScheme) (split_once "=" pair);
  let '(k, v) := kv in
  if bool_decide (k = ascii "denom") then
    d ← ok_or (invalid InvoiceParseError.InvalidDenom) (parse_u64 v);
    Ok {| ps_denom := Some d; ps_relays := ps_relays st; ps_memo := ps_memo st |}
  else if bool_decide (k = ascii "relay") then
    decoded ← ok_or (invalid InvoiceParseError.InvalidRelayUrl) (url_decode v);
    _ ← reject_if (bool_decide (decoded = [])) (invalid InvoiceParseError.InvalidRelayUrl);
    Ok {| ps_denom := ps_denom st; ps_relays := ps_relays st ++ [decoded]; ps_memo := ps_memo st |}
  else if bool_decide (k = ascii "memo") then
    decoded ← ok_or (invalid InvoiceParseError.MemoNotBase64) (b64url_decode v);
    _ ← reject_if (MEMO_MAX_BYTES <? length decoded)%nat (invalid InvoiceParseError.MemoTooLong);
    Ok {| ps_denom := ps_denom st; ps_relays := ps_relays st; ps_memo := Some decoded |}
  else Ok st.

Definition Invoice_parse (uri : bytes) : res ClientError.t Invoice :=
  body ← ok_or (invalid InvoiceParseError.WrongScheme) (strip_prefix INVOICE_SCHEME uri);
  let '(recipient_hex, query) := default (body, []) (split_once "?" body) in
  _ ← reject_if (bool_decide (recipient_hex = [])) (invalid InvoiceParseError.MissingRecipient);
  recipient_pubkey ←
    ok_or (invalid InvoiceParseError.InvalidRecipientHex) (decode_hex_32 recipient_hex);
  st ← res_fold parse_param {| ps_denom := None; ps_relays := []; ps_memo := None |}
         (filter (λ p, p <> []) (split "&" query));
  denom ← ok_or (invalid InvoiceParseError.MissingDenom) (ps_denom st);
  Ok {| inv_recipient_pubkey := recipient_pubkey; inv_denom := denom;
        inv_relays := ps_relays st; inv_memo := ps_memo st |}.

Definition invoice_params (inv : Invoice) : list bytes :=
  (ascii "denom=" ++ print_u64 (inv_denom inv)) ::
  ((λ relay, ascii "relay=" ++ url_encode relay) <$> inv_relays inv) ++
  match inv_memo inv with Some memo => [ascii "memo=" ++ b64url_encode memo] | None => [] end.

Definition Invoice_to_uri (inv : Invoice) : bytes :=
  INVOICE_SCHEME ++ encode_hex_32 (inv_recipient_pubkey inv) ++ ["?"] ++
  join "&" (invoice_params inv).

(** ** Examples *)
Example print_u64_max : parse_u64 (print_u64 u64_max) = Some u64_max.
Proof. reflexivity. Qed.
Example b64_roundtrip : b64url_decode (b64url_encode (ascii "tardus")) = Some (ascii "tardus").
Proof. reflexivity. Qed.
Example b64_short : b64url_decode (b64url_encode (ascii "tard")) = Some (ascii "tard").
Proof. reflexivity. Qed.

(** ** Lemmas *)

(** *** Splitting and joining *)
Lemma byte_eqb_eq a b : Byte.eqb a b = true <-> a = b.
Proof. split; [apply Byte.byte_dec_bl|apply Byte.byte_dec_lb]. Qed.

Lemma byte_eqb_refl a : Byte.eqb a a = true.
Proof. by apply byte_eqb_eq. Qed.

Lemma byte_eqb_ne a b : a <> b -> Byte.eqb a b = false.
Proof. intros H. apply not_true_is_false. by rewrite byte_eqb_eq. Qed.

Lemma strip_prefix_app p s : strip_prefix p (p ++ s) = Some s.
Proof. induction p as [|x p IH]; [done|]. cbn. by rewrite byte_eqb_refl. Qed.

Lemma split_once_app c a s : c ∉ a -> split_once c (a ++ c :: s) = Some (a, s).
Proof.
  induction a as [|x a IH]; cbn; [by rewrite byte_eqb_refl|].
  intros [Hx Ha]%not_elem_of_cons. rewrite byte_eqb_ne by congruence. by rewrite IH.
Qed.

Lemma split_none c a : c ∉ a -> split c a = [a].
Proof.
  induction a as [|x a IH]; [done|]. intros [Hx Ha]%not_elem_of_cons. cbn.
  rewrite byte_eqb_ne by congruence. by rewrite IH.
Qed.

Lemma split_cons c a s : c ∉ a -> split c (a ++ c :: s) = a :: split c s.
Proof.
  induction a as [|x a IH]; cbn; [by rewrite byte_eqb_refl|].
  intros [Hx Ha]%not_elem_of_cons. rewrite byte_eqb_ne by congruence. by rewrite IH.
Qed.

Lemma split_join c l : l <> [] -> (forall a, a ∈ l -> c ∉ a) -> split c (join c l) = l.
Proof.
  induction l as [|a l IH]; [done|]. intros _ Hl. destruct l as [|b l].
  - apply split_none, Hl. by apply list_elem_of_singleton.
  - cbn [join]. rewrite split_cons by (apply Hl; set_solver).
    f_equal. apply IH; [done|set_solver].
Qed.

(** *** Hexadecimal and percent encoding: byte by byte *)
Lemma hex_pair_encode x :
  hex_pair (hex_char HEX (Z.shiftr (Z_of_byte x) 4)) (hex_char HEX (Z.land (Z_of_byte x) 15)) =
  Some x.
Proof. by destruct x. Qed.

Lemma decode_encode_hex b : decode_hex (encode_hex_32 b) = Some b.
Proof.
  induction b as [|x b IH]; [done|]. unfold encode_hex_32 in *. cbn [mbind list_bind app decode_hex].
  rewrite hex_pair_encode. cbn. by rewrite IH.
Qed.

Lemma length_encode_hex b : length (encode_hex_32 b) = (2 * length b)%nat.
Proof.
  induction b as [|x b IH]; [done|]. unfold encode_hex_32 in *. cbn [mbind list_bind app length].
  rewrite IH. lia.
Qed.

Lemma length_decode_hex s b : decode_hex s = Some b -> length s = 64%nat -> length b = 32%nat.
Proof.
  assert (forall n s b, length s = (2 * n)%nat -> decode_hex s = Some b -> length b = n) as H;
    [|by intros H1 H2; apply (H 32%nat s)].
  clear. induction n as [|n IH]; intros s b Hs; destruct s as [|x [|y s]];
    cbn [length] in Hs; try lia.
  - by intros [= <-].
  - cbn. intros (z & _ & (zs & Hd & [= <-])%bind_Some)%bind_Some. cbn. f_equal.
    apply (IH s); [lia|done].
Qed.

Lemma url_decode_byte b s : is_ascii b = true ->
  url_decode (url_encode_byte b ++ s) = out ← url_decode s; Some (b :: out).
Proof. destruct b; try discriminate; reflexivity. Qed.

Lemma url_decode_encode s : Forall (λ b, is_ascii b = true) s -> url_decode (url_encode s) = Some s.
Proof.
  induction 1 as [|b s Hb _ IH]; [done|]. unfold url_encode in *. cbn [mbind list_bind].
  rewrite url_decode_byte, IH by done. done.
Qed.

Lemma url_decode_ascii s out : url_decode s = Some out -> Forall (λ b, is_ascii b = true) out.
Proof.
  revert out. assert (forall n s out, (length s <= n)%nat -> url_decode s = Some out ->
    Forall (λ b, is_ascii b = true) out) as H; [|intros out; by apply (H (length s))].
  clear. induction n as [|n IH]; intros [|c s] out Hn; try (cbn in Hn; lia);
    try (intros [= <-]; constructor). cbn [url_decode]. cbn in Hn.
  destruct (Byte.eqb c "%").
  - destruct s as [|a [|b s]]; try done.
    intros (x & _ & H)%bind_Some. destruct (is_ascii x) eqn:Hx; [|done]. cbn [negb] in H.
    apply bind_Some in H as (o & Ho & [= <-]). constructor; [done|].
    apply (IH s); [cbn in Hn; lia|done].
  - destruct (Byte.eqb c "+"); [|destruct (is_ascii c) eqn:Hc; [|done]];
      intros (o & Ho & [= <-])%bind_Some; (constructor; [done|]); apply (IH s); [lia|done|lia|done].
Qed.

(** *** Separators do not occur in encodings *)
Lemma hex_char_in al i : hex_char al i ∈ "?" :: al.
Proof.
  unfold hex_char. destruct (al !! Z.to_nat i) eqn:E; cbn; [|by left].
  right. by eapply list_elem_of_lookup_2.
Qed.

Lemma url_encode_sep s : "&" ∉ url_encode s.
Proof.
  intros (b & H & _)%list_elem_of_bind. revert H.
  destruct b; cbn; intros H; repeat (apply elem_of_cons in H as [H|H]; [done|]);
    by apply not_elem_of_nil in H.
Qed.

Lemma encode_hex_sep b : "?" ∉ encode_hex_32 b.
Proof.
  intros (x & H & _)%list_elem_of_bind. revert H.
  destruct x; cbn; intros H; repeat (apply elem_of_cons in H as [H|H]; [done|]);
    by apply not_elem_of_nil in H.
Qed.

Lemma b64url_char_sep i : b64url_char i <> "&".
Proof.
  intros H. pose proof (hex_char_in B64URL i) as Hin. fold (b64url_char i) in Hin. rewrite H in Hin.
  revert Hin. by apply (bool_decide_eq_true_1 ("&" ∉ "?" :: B64URL)).
Qed.

Lemma b64url_encode_sep m : "&" ∉ b64url_encode m.
Proof.
  assert (forall n m, (length m <= n)%nat -> "&" ∉ b64url_encode m) as H; [|by apply (H (length m))].
  clear. induction n as [|n IH]; intros m Hn; destruct m as [|a [|b [|c m]]]; cbn in Hn; try lia;
    cbn [b64url_encode]; cbn zeta;
    repeat (apply not_elem_of_cons; split; [intros Heq; by eapply b64url_char_sep|]);
    try apply not_elem_of_nil. apply IH. lia.
Qed.

(** *** Bit operations as arithmetic *)
Lemma lor_low a b k : 0 <= k -> 0 <= b < 2 ^ k -> Z.lor (a * 2 ^ k) b = a * 2 ^ k + b.
Proof.
  intros Hk Hb. symmetry. apply Z.add_nocarry_lor. apply Z.bits_inj'. intros n Hn.
  rewrite Z.land_spec, Z.bits_0. destruct (Z.lt_ge_cases n k) as [Hlt|Hge].
  - by rewrite Z.mul_pow2_bits_low.
  - rewrite <- (Z.mod_small b (2 ^ k)), Z.mod_pow2_bits_high by lia. apply andb_false_r.
Qed.

Lemma land_ones_mod x k : 0 <= k -> Z.land x (2 ^ k - 1) = x mod 2 ^ k.
Proof. intros Hk. rewrite <- Z.land_ones by done. by rewrite Z.ones_equiv, Z.sub_1_r. Qed.

(** *** Base64 *)
Lemma b64url_index_char i : 0 <= i < 64 -> b64url_index (b64url_char i) = Some i.
Proof.
  intros Hi. assert (forallb (λ i, bool_decide (b64url_index (b64url_char i) = Some i)) (seqZ 0 64) = true)
    as H by reflexivity.
  rewrite forallb_forall in H. apply (bool_decide_eq_true_1 _), H, list_elem_of_In, elem_of_seqZ. lia.
Qed.

(** The digits of a number in base 64. *)
Lemma b64url_value_char value i cs : 0 <= i < 64 -> 0 <= value ->
  b64url_value value (b64url_char i :: cs) = b64url_value (value * 64 + i) cs.
Proof.
  intros Hi Hv. cbn [b64url_value]. rewrite b64url_index_char by done. cbn [mbind option_bind].
  f_equal. rewrite Z.shiftl_mul_pow2 by lia. by apply (lor_low value i 6).
Qed.

Ltac b64_arith :=
  rewrite ?Z.shiftr_div_pow2, ?Z.shiftl_mul_pow2 by lia;
  try change 63 with (2 ^ 6 - 1); try change 255 with (2 ^ 8 - 1);
  rewrite ?land_ones_mod by lia.

Lemma byte_pack (a b c : byte) :
  Z.lor (Z.lor (Z.shiftl (Z_of_byte a) 16) (Z.shiftl (Z_of_byte b) 8)) (Z_of_byte c) =
  Z_of_byte a * 65536 + Z_of_byte b * 256 + Z_of_byte c.
Proof.
  pose proof (Z_of_byte_range a); pose proof (Z_of_byte_range b); pose proof (Z_of_byte_range c).
  rewrite !Z.shiftl_mul_pow2 by lia.
  rewrite (lor_low (Z_of_byte a) (Z_of_byte b * 2 ^ 8) 16) by lia.
  replace (Z_of_byte a * 2 ^ 16 + Z_of_byte b * 2 ^ 8) with ((Z_of_byte a * 256 + Z_of_byte b) * 2 ^ 8) by lia.
  rewrite lor_low by lia. lia.
Qed.

Lemma byte_of_Z_mod z b : z mod 256 = Z_of_byte b -> byte_of_Z z = b.
Proof. intros H. apply Z_of_byte_inj. by rewrite Z_of_byte_of_Z. Qed.

(** Six-bit digits. *)
Lemma digits_64 n : 0 <= n < 2 ^ 24 ->
  (((n / 2 ^ 18 mod 2 ^ 6) * 64 + n / 2 ^ 12 mod 2 ^ 6) * 64 + n / 2 ^ 6 mod 2 ^ 6) * 64 + n mod 2 ^ 6 = n.
Proof. intros Hn. Z.to_euclidean_division_equations. lia. Qed.

Lemma six_bits x : 0 <= x mod 2 ^ 6 < 64.
Proof. apply (Z.mod_pos_bound x (2 ^ 6)). lia. Qed.

(** A four-character chunk holds a 24-bit number. *)
Lemma b64url_chunk_4 n : 0 <= n < 2 ^ 24 ->
  b64url_chunk [b64url_char (n / 2 ^ 18 mod 2 ^ 6); b64url_char (n / 2 ^ 12 mod 2 ^ 6);
                b64url_char (n / 2 ^ 6 mod 2 ^ 6); b64url_char (n mod 2 ^ 6)] =
  Some [byte_of_Z (n / 2 ^ 16 mod 2 ^ 8); byte_of_Z (n / 2 ^ 8 mod 2 ^ 8); byte_of_Z (n mod 2 ^ 8)].
Proof.
  intros Hn. unfold b64url_chunk. pose proof (six_bits (n / 2 ^ 18)).
  pose proof (six_bits (n / 2 ^ 12)). pose proof (six_bits (n / 2 ^ 6)). pose proof (six_bits n).
  rewrite !b64url_value_char by lia. cbn [b64url_value mbind option_bind length].
  rewrite Z.add_0_l, digits_64 by done. change ((4 - Z.of_nat 4) * 6) with 0. rewrite Z.shiftl_0_r.
  b64_arith. by rewrite Z.pow_0_r, Z.div_1_r.
Qed.

(** Shorter chunks are four-character chunks whose tail is cut off. *)
Lemma b64url_chunk_3 n : 0 <= n < 2 ^ 24 -> n mod 2 ^ 6 = 0 ->
  b64url_chunk [b64url_char (n / 2 ^ 18 mod 2 ^ 6); b64url_char (n / 2 ^ 12 mod 2 ^ 6);
                b64url_char (n / 2 ^ 6 mod 2 ^ 6)] =
  Some [byte_of_Z (n / 2 ^ 16 mod 2 ^ 8); byte_of_Z (n / 2 ^ 8 mod 2 ^ 8)].
Proof.
  intros Hn H0. unfold b64url_chunk. pose proof (six_bits (n / 2 ^ 18)).
  pose proof (six_bits (n / 2 ^ 12)). pose proof (six_bits (n / 2 ^ 6)).
  rewrite !b64url_value_char by lia. cbn [b64url_value mbind option_bind length].
  pose proof (digits_64 n Hn) as Hd. rewrite H0, Z.add_0_r in Hd.
  change ((4 - Z.of_nat 3) * 6) with 6. rewrite Z.shiftl_mul_pow2, Z.mul_0_l, Z.add_0_l by lia.
  replace (((n / 2 ^ 18 mod 2 ^ 6 * 64 + n / 2 ^ 12 mod 2 ^ 6) * 64 + n / 2 ^ 6 mod 2 ^ 6) * 2 ^ 6)
    with n by lia.
  by b64_arith.
Qed.

Lemma b64url_chunk_2 n : 0 <= n < 2 ^ 24 -> n mod 2 ^ 6 = 0 -> n / 2 ^ 6 mod 2 ^ 6 = 0 ->
  b64url_chunk [b64url_char (n / 2 ^ 18 mod 2 ^ 6); b64url_char (n / 2 ^ 12 mod 2 ^ 6)] =
  Some [byte_of_Z (n / 2 ^ 16 mod 2 ^ 8)].
Proof.
  intros Hn H0 H1. unfold b64url_chunk. pose proof (six_bits (n / 2 ^ 18)).
  pose proof (six_bits (n / 2 ^ 12)).
  rewrite !b64url_value_char by lia. cbn [b64url_value mbind option_bind length].
  pose proof (digits_64 n Hn) as Hd. rewrite H0, H1, !Z.add_0_r in Hd.
  change ((4 - Z.of_nat 2) * 6) with 12. rewrite Z.shiftl_mul_pow2, Z.mul_0_l, Z.add_0_l by lia.
  replace ((n / 2 ^ 18 mod 2 ^ 6 * 64 + n / 2 ^ 12 mod 2 ^ 6) * 2 ^ 12) with n by lia.
  by b64_arith.
Qed.

Lemma byte_of_field z k (b : byte) : z / 2 ^ k mod 2 ^ 8 = Z_of_byte b ->
  byte_of_Z (z / 2 ^ k mod 2 ^ 8) = b.
Proof. intros ->. apply byte_of_Z_of_byte. Qed.

(** The three bytes of a 24-bit number. *)
Lemma unpack_bytes (a b c : byte) :
  let n := Z_of_byte a * 65536 + Z_of_byte b * 256 + Z_of_byte c in
  0 <= n < 2 ^ 24 /\ byte_of_Z (n / 2 ^ 16 mod 2 ^ 8) = a /\ byte_of_Z (n / 2 ^ 8 mod 2 ^ 8) = b /\
  byte_of_Z (n mod 2 ^ 8) = c.
Proof.
  pose proof (Z_of_byte_range a); pose proof (Z_of_byte_range b); pose proof (Z_of_byte_range c).
  intros n. split; [unfold n; lia|].
  assert (n / 2 ^ 16 mod 2 ^ 8 = Z_of_byte a /\ n / 2 ^ 8 mod 2 ^ 8 = Z_of_byte b /\
          n mod 2 ^ 8 = Z_of_byte c) as (-> & -> & ->).
  { unfold n. Z.to_euclidean_division_equations. lia. }
  by rewrite !byte_of_Z_of_byte.
Qed.

Lemma b64url_group a b c rest :
  b64url_decode (b64url_encode (a :: b :: c :: rest)) =
  out ← b64url_decode (b64url_encode rest); Some (a :: b :: c :: out).
Proof.
  cbn [b64url_encode]. cbn zeta. rewrite byte_pack.
  destruct (unpack_bytes a b c) as (Hn & Ha & Hb & Hc).
  revert Hn Ha Hb Hc. generalize (Z_of_byte a * 65536 + Z_of_byte b * 256 + Z_of_byte c).
  intros n Hn Ha Hb Hc. b64_arith. cbn [b64url_decode].
  by rewrite b64url_chunk_4, Ha, Hb, Hc by done.
Qed.

Lemma b64url_pair a b : b64url_decode (b64url_encode [a; b]) = Some [a; b].
Proof.
  cbn [b64url_encode]. cbn zeta.
  replace (Z.lor (Z.shiftl (Z_of_byte a) 16) (Z.shiftl (Z_of_byte b) 8))
    with (Z_of_byte a * 65536 + Z_of_byte b * 256 + Z_of_byte Byte.x00)
    by (rewrite <- byte_pack; apply Z.lor_0_r).
  destruct (unpack_bytes a b Byte.x00) as (Hn & Ha & Hb & _).
  b64_arith. cbn [b64url_decode]. rewrite b64url_chunk_3, Ha, Hb; [done..|].
  change (Z_of_byte Byte.x00) with 0. Z.to_euclidean_division_equations. lia.
Qed.

Lemma b64url_single a : b64url_decode (b64url_encode [a]) = Some [a].
Proof.
  cbn [b64url_encode]. cbn zeta.
  replace (Z.shiftl (Z_of_byte a) 16)
    with (Z_of_byte a * 65536 + Z_of_byte Byte.x00 * 256 + Z_of_byte Byte.x00)
    by (rewrite <- byte_pack, Z.lor_0_r; apply Z.lor_0_r).
  destruct (unpack_bytes a Byte.x00 Byte.x00) as (Hn & Ha & _).
  b64_arith. cbn [b64url_decode]. change (Z_of_byte Byte.x00) with 0 in *.
  rewrite b64url_chunk_2, Ha; [done..| |]; Z.to_euclidean_division_equations; lia.
Qed.

Lemma b64url_decode_encode m : b64url_decode (b64url_encode m) = Some m.
Proof.
  assert (forall n m, (length m <= n)%nat -> b64url_decode (b64url_encode m) = Some m) as H;
    [|by apply (H (length m))].
  clear. induction n as [|n IH]; intros m Hn; destruct m as [|a [|b [|c m]]]; cbn in Hn; try lia;
    [done..|apply b64url_single|apply b64url_pair|].
  rewrite b64url_group, IH by lia. done.
Qed.

(** *** Decimal numbers *)
Lemma dec_digit_char d : 0 <= d < 10 -> dec_digit (byte_of_Z (48 + d)) = Some d.
Proof.
  intros Hd. assert (forallb (λ d, bool_decide (dec_digit (byte_of_Z (48 + d)) = Some d)) (seqZ 0 10) = true)
    as H by reflexivity.
  rewrite forallb_forall in H. apply (bool_decide_eq_true_1 _), H, list_elem_of_In, elem_of_seqZ. lia.
Qed.

Lemma digit_char_not d c : 0 <= d < 10 -> Z_of_byte c < 48 -> byte_of_Z (48 + d) <> c.
Proof.
  intros Hd Hc H. apply (f_equal Z_of_byte) in H. rewrite Z_of_byte_of_Z, Z.mod_small in H; lia.
Qed.

Lemma parse_digits_app acc a b :
  parse_digits acc (a ++ b) = acc' ← parse_digits acc a; parse_digits acc' b.
Proof.
  revert acc; induction a as [|c a IH]; intros acc; [done|]. cbn.
  destruct (dec_digit c); [|done]. cbn. destruct (checked_mul acc 10); [|done]. cbn.
  destruct (checked_add _ _); [|done]. cbn. apply IH.
Qed.

Lemma print_digits_spec fuel n : 0 <= n < 10 ^ Z.of_nat fuel -> (0 < fuel)%nat -> n <= u64_max ->
  (exists d rest, 0 <= d < 10 /\ print_digits fuel n = byte_of_Z (48 + d) :: rest) /\
  "&" ∉ print_digits fuel n /\ parse_digits 0 (print_digits fuel n) = Some n.
Proof.
  revert n; induction fuel as [|fuel IH]; intros n Hn Hf Hmax; [lia|]. cbn [print_digits].
  rewrite Nat2Z.inj_succ, Z.pow_succ_r in Hn by lia.
  destruct (Z.ltb_spec n 10) as [Hlt|Hge].
  - split_and!; [exists n, []; split; [lia|done]| |].
    + rewrite list_elem_of_singleton. intros H. symmetry in H. revert H. apply digit_char_not; [lia|done].
    + cbn [parse_digits]. rewrite dec_digit_char by lia.
      change (checked_mul 0 10) with (Some 0). cbn [mbind option_bind]. unfold checked_add.
      rewrite Z.add_0_l, (proj2 (Z.leb_le _ _) Hmax). done.
  - assert (0 < fuel)%nat as Hf' by (destruct fuel; [cbn in Hn|]; lia).
    pose proof (Z.div_mod n 10 ltac:(lia)) as Hdm. pose proof (Z.mod_pos_bound n 10 ltac:(lia)) as Hm.
    destruct (IH (n / 10)) as ((d & rest & Hd & Hp) & Hs & Hv); [lia|done|lia|].
    split_and!.
    + exists d, (rest ++ [byte_of_Z (48 + n mod 10)]). by rewrite Hp.
    + rewrite elem_of_app, list_elem_of_singleton. intros [H|H]; [done|].
      symmetry in H. revert H. apply digit_char_not; [lia|done].
    + rewrite parse_digits_app, Hv. cbn [mbind option_bind parse_digits]. rewrite dec_digit_char by lia.
      cbn [mbind option_bind]. unfold checked_mul. rewrite (proj2 (Z.leb_le _ _)) by lia.
      cbn [mbind option_bind]. unfold checked_add. rewrite (proj2 (Z.leb_le _ _)) by lia.
      cbn [mbind option_bind]. f_equal. lia.
Qed.

Lemma print_u64_spec n : u64 n -> "&" ∉ print_u64 n /\ parse_u64 (print_u64 n) = Some n.
Proof.
  intros Hn. unfold u64, in_width in Hn. unfold print_u64.
  destruct (print_digits_spec 20 n) as ((d & rest & Hd & Hp) & Hs & Hv);
    [cbn; lia|lia|unfold u64_max; lia|].
  split; [done|]. revert Hv. rewrite Hp. unfold parse_u64.
  rewrite byte_eqb_ne by (apply digit_char_not; [lia|done]). done.
Qed.

Lemma parse_digits_range acc s n : 0 <= acc <= u64_max -> parse_digits acc s = Some n -> u64 n.
Proof.
  unfold u64, in_width. revert acc; induction s as [|c s IH]; intros acc Hacc; cbn.
  { intros [= <-]. unfold u64_max in Hacc. lia. }
  intros (d & Hd & (a & Ha & (b & Hb & H)%bind_Some)%bind_Some)%bind_Some.
  apply (IH b); [|done]. unfold checked_mul in Ha. unfold checked_add in Hb.
  destruct (Z.leb_spec (acc * 10) u64_max); [|done]. injection Ha as <-.
  destruct (Z.leb_spec (acc * 10 + d) u64_max); [|done]. injection Hb as <-.
  unfold dec_digit, in_range in Hd. change (Z_of_byte "0") with 48 in Hd.
  destruct (Z.leb_spec 48 (Z_of_byte c)); [|done]. cbn in Hd.
  destruct (_ <=? _); [|done]. injection Hd as <-. lia.
Qed.

Lemma parse_u64_range s n : parse_u64 s = Some n -> u64 n.
Proof.
  assert (0 <= 0 <= u64_max) as H0 by (unfold u64_max; lia).
  unfold parse_u64. destruct s as [|c s]; [done|].
  destruct (Byte.eqb c "+"); [case_bool_decide; [done|]|]; by apply parse_digits_range.
Qed.

(** *** The parameter loop *)

(** The values of the Rust type. *)
Definition typed_invoice (inv : Invoice) : Prop :=
  length (inv_recipient_pubkey inv) = 32%nat /\ u64 (inv_denom inv).

(** What the URI scheme can carry. *)
Definition relay_ok (relay : bytes) : Prop :=
  relay <> [] /\ Forall (λ b, is_ascii b = true) relay.
Definition memo_ok (memo : option bytes) : Prop :=
  forall m, memo = Some m -> (length m <= MEMO_MAX_BYTES)%nat.
Definition carried (inv : Invoice) : Prop :=
  Forall relay_ok (inv_relays inv) /\ memo_ok (inv_memo inv).

(** Evaluates the key of a parameter, which is a literal. *)
Ltac read_key :=
  match goal with |- context [split_once "=" (?k ++ ?v)] =>
    let kv := eval vm_compute in (split_once "=" k) in
    match kv with Some (?key, _) => change (split_once "=" (k ++ v)) with (Some (key, v)) end
  end; step;
  repeat match goal with |- context [bool_decide (?a = ascii ?b)] =>
    first [ change (bool_decide (a = ascii b)) with true | change (bool_decide (a = ascii b)) with false ]
  end; cbn iota.

Lemma parse_denom_param st n : u64 n ->
  parse_param st (ascii "denom=" ++ print_u64 n) =
  Ok {| ps_denom := Some n; ps_relays := ps_relays st; ps_memo := ps_memo st |}.
Proof.
  intros [_ Hp]%print_u64_spec. revert Hp. generalize (print_u64 n). intros v Hv.
  unfold parse_param. read_key. by rewrite Hv.
Qed.

Lemma parse_relay_param st relay : relay_ok relay ->
  parse_param st (ascii "relay=" ++ url_encode relay) =
  Ok {| ps_denom := ps_denom st; ps_relays := ps_relays st ++ [relay]; ps_memo := ps_memo st |}.
Proof.
  intros [Hne Hv%url_decode_encode]. revert Hv. generalize (url_encode relay). intros v Hv.
  unfold parse_param. read_key. rewrite Hv. step. by rewrite bool_decide_false.
Qed.

Lemma parse_memo_param st m : (length m <= MEMO_MAX_BYTES)%nat ->
  parse_param st (ascii "memo=" ++ b64url_encode m) =
  Ok {| ps_denom := ps_denom st; ps_relays := ps_relays st; ps_memo := Some m |}.
Proof.
  intros Hm. pose proof (b64url_decode_encode m) as Hv. revert Hv.
  generalize (b64url_encode m). intros v Hv. unfold parse_param. read_key. rewrite Hv. step.
  destruct (Nat.ltb_spec MEMO_MAX_BYTES (length m)); [lia|done].
Qed.

Lemma parse_relay_params st l : Forall relay_ok l ->
  res_fold parse_param st ((λ relay, ascii "relay=" ++ url_encode relay) <$> l) =
  Ok {| ps_denom := ps_denom st; ps_relays := ps_relays st ++ l; ps_memo := ps_memo st |}.
Proof.
  intros Hl. revert st; induction Hl as [|relay l Hr _ IH]; intros st.
  { cbn. rewrite app_nil_r. by destruct st. }
  rewrite fmap_cons. cbn [res_fold]. rewrite parse_relay_param by done. step.
  rewrite IH. cbn. by rewrite <- app_assoc.
Qed.

Lemma sep_app (k v : bytes) : bool_decide ("&" ∈ k) = false -> "&" ∉ v -> "&" ∉ k ++ v.
Proof. intros Hk%bool_decide_eq_false Hv [H|H]%elem_of_app; auto. Qed.

Lemma invoice_params_sep inv p : typed_invoice inv -> p ∈ invoice_params inv ->
  "&" ∉ p /\ p <> [].
Proof.
  intros [_ Hd]. unfold invoice_params. rewrite elem_of_cons, elem_of_app, list_elem_of_fmap.
  intros [->|[(relay & -> & _)|Hm]]; [| |destruct (inv_memo inv) as [m|];
    [apply list_elem_of_singleton in Hm as ->|by apply not_elem_of_nil in Hm]];
    (split; [apply sep_app; [reflexivity|]|discriminate]).
  - apply (print_u64_spec _ Hd).
  - apply url_encode_sep.
  - apply b64url_encode_sep.
Qed.

Lemma parse_params inv : typed_invoice inv -> carried inv ->
  res_fold parse_param {| ps_denom := None; ps_relays := []; ps_memo := None |} (invoice_params inv) =
  Ok {| ps_denom := Some (inv_denom inv); ps_relays := inv_relays inv; ps_memo := inv_memo inv |}.
Proof.
  intros [_ Hd] [Hr Hm]. unfold invoice_params. cbn [res_fold]. rewrite parse_denom_param by done. step.
  rewrite res_fold_app, parse_relay_params by done. step.
  destruct (inv_memo inv) as [m|]; [|done]. cbn [res_fold]. rewrite parse_memo_param by auto. done.
Qed.

(** *** Parsing what was printed, and what parsing returns *)
Lemma parse_to_uri inv : typed_invoice inv -> carried inv ->
  Invoice_parse (Invoice_to_uri inv) = Ok inv.
Proof.
  intros Ht Hc. unfold Invoice_parse, Invoice_to_uri. rewrite strip_prefix_app. step.
  change (encode_hex_32 (inv_recipient_pubkey inv) ++ ["?"] ++ join "&" (invoice_params inv))
    with (encode_hex_32 (inv_recipient_pubkey inv) ++ "?" :: join "&" (invoice_params inv)).
  rewrite split_once_app by apply encode_hex_sep. cbn [from_option id].
  pose proof (length_encode_hex (inv_recipient_pubkey inv)) as Hlen. rewrite (proj1 Ht) in Hlen.
  rewrite bool_decide_false by (intros H; by rewrite H in Hlen). step.
  unfold decode_hex_32. rewrite Hlen, decode_encode_hex. step.
  rewrite split_join; [|done|intros p Hp; by apply (invoice_params_sep inv)].
  rewrite filter_id_list by (intros p Hp; by apply (invoice_params_sep inv)).
  rewrite parse_params by done. step. by destruct inv.
Qed.

Definition state_ok (st : parse_state) : Prop :=
  (forall d, ps_denom st = Some d -> u64 d) /\ Forall relay_ok (ps_relays st) /\ memo_ok (ps_memo st).

Lemma parse_param_ok st pair st' : state_ok st -> parse_param st pair = Ok st' -> state_ok st'.
Proof.
  intros (Hd & Hr & Hm). unfold parse_param. intros H. inv_ok. destruct r as [k v].
  repeat case_bool_decide; inv_ok; subst; [| | |by split_and!].
  - split_and!; [intros ? [= <-]; by eapply parse_u64_range|done|done].
  - split_and!; [done| |done]. apply Forall_app. split; [done|]. apply Forall_singleton.
    apply bool_decide_eq_false in Hb1. split; [done|by eapply url_decode_ascii].
  - split_and!; [done|done|]. intros m [= <-]. cbn. by apply Nat.ltb_ge in Hb1.
Qed.

Lemma parse_carried uri inv : Invoice_parse uri = Ok inv -> typed_invoice inv /\ carried inv.
Proof.
  unfold Invoice_parse. intros H. inv_ok.
  destruct (default _ (split_once "?" r)) as [recipient_hex query]. inv_ok. subst inv.
  assert (state_ok r2) as (Hd & Hr & Hm).
  { eapply (res_fold_ok_ind parse_param (λ _, state_ok)); [|intros ? st p st'; apply parse_param_ok|exact Hb2].
    split_and!; [done|constructor|done]. }
  unfold decode_hex_32 in Hb1. destruct (Nat.eqb_spec (length recipient_hex) 64); [|done].
  cbn [negb] in Hb1.
  split; [|done]. split; [by eapply length_decode_hex|by apply Hd].
Qed.

(** ** Properties *)

(** C28: invoices and URIs. An invoice whose fields are values of the Rust type
    is parsed back from its URI exactly when every relay is a non-empty ASCII
    string and the memo has at most 128 bytes; and whatever a parse returns is
    such an invoice, so parsing a URI and printing the result is stable. *)
Theorem invoice_roundtrip inv : typed_invoice inv ->
  (Invoice_parse (Invoice_to_uri inv) = Ok inv <-> carried inv) /\
  forall uri, Invoice_parse uri = Ok inv -> Invoice_parse (Invoice_to_uri inv) = Ok inv.
Proof.
  intros Ht. assert (forall uri, Invoice_parse uri = Ok inv -> carried inv) as H
    by (intros uri Hu; by apply (parse_carried uri)).
  split; [split|]; [by apply H|by apply parse_to_uri|]. intros uri Hu. by eapply parse_to_uri, H.
Qed.

(** ** Witness *)
Definition demo_invoice : Invoice :=
  {| inv_recipient_pubkey := repeat Byte.xab 32; inv_denom := 1000000000;
     inv_relays := [ascii "https://relay.example/?a=b&c"]; inv_memo := Some (ascii "coffee") |}.

Lemma invoice_roundtrip_witness :
  Invoice_parse (Invoice_to_uri demo_invoice) = Ok demo_invoice <-> carried demo_invoice.
Proof.
  apply (invoice_roundtrip demo_invoice). split; [reflexivity|].
  unfold u64, in_width. cbn. lia.
Defined.
