(* ===== verification/Client.v ===== *)
(** * tardus-client: coin store, issuance and backups

    Models [crates/tardus-client/src/{coin_store,issue,backup}.rs].  A [String]
    is the list of its bytes; reading one checks that it is UTF-8.  The
    ChaCha20-Poly1305 crate is the class [Aead] of [Platform]. *)
From S2P Require Import Prelude Crypto ToyCurve Platform ToyPlatform Wire Core MintBase Refresh ClientBase.

(** ** coin_store.rs *)
Module CoinStatus.
Inductive t : Type := Active | InFlight | Spent.
#[global] Instance t_eq_dec : EqDecision t.
Proof. solve_decision. Defined.
End CoinStatus.

Record StoredCoin : Type := {
  stc_secret_bytes : bytes;
  stc_pubkey_bytes : bytes;
  stc_signature_bytes : bytes;
  stc_denom : Z;
  stc_status : CoinStatus.t;
  stc_label : option bytes;
}.

Record CoinStore : Type := { cst_version : Z; cst_coins : list StoredCoin }.

Definition CoinStore_new : CoinStore := {| cst_version := 1; cst_coins := [] |}.

Definition set_status (c : StoredCoin) (s : CoinStatus.t) : StoredCoin :=
  {| stc_secret_bytes := stc_secret_bytes c; stc_pubkey_bytes := stc_pubkey_bytes c;
     stc_signature_bytes := stc_signature_bytes c; stc_denom := stc_denom c;
     stc_status := s; stc_label := stc_label c |}.

Section coin_store.
Context `{C : Curve}.

Definition StoredCoin_nullifier (c : StoredCoin) : bytes :=
  sha256 (ascii "TARDUS-nullifier-v1" ++ stc_pubkey_bytes c).

Definition CoinStore_add (s : CoinStore) (coin : StoredCoin) : res ClientError.t CoinStore :=
  let nullifier := StoredCoin_nullifier coin in
  _ ← reject_if (existsb (λ c, bool_decide (StoredCoin_nullifier c = nullifier)) (cst_coins s))
                ClientError.DuplicateCoin;
  Ok {| cst_version := cst_version s; cst_coins := cst_coins s ++ [coin] |}.

(** [iter_mut().find(..)] and the assignment of the status. *)
Definition mark (status : CoinStatus.t) (s : CoinStore) (nullifier : bytes)
    : res ClientError.t CoinStore :=
  entry ← ok_or ClientError.CoinNotFound
            (list_find (λ c, StoredCoin_nullifier c = nullifier) (cst_coins s));
  let '(i, c) := entry in
  Ok {| cst_version := cst_version s; cst_coins := <[i := set_status c status]> (cst_coins s) |}.

Definition CoinStore_mark_in_flight : CoinStore -> bytes -> res ClientError.t CoinStore :=
  mark CoinStatus.InFlight.
Definition CoinStore_mark_spent : CoinStore -> bytes -> res ClientError.t CoinStore :=
  mark CoinStatus.Spent.
End coin_store.

(** [Iterator::sum] of [u64] values. *)
Definition sum_u64 (l : list Z) : Z := foldl (λ acc x, wrap 64 (acc + x)) 0 l.

Definition CoinStore_active_balance_for_denom (s : CoinStore) (denom : Z) : Z :=
  sum_u64 (stc_denom <$>
    filter (λ c, stc_denom c = denom /\ stc_status c = CoinStatus.Active) (cst_coins s)).

Definition CoinStore_total_active_balance (s : CoinStore) : Z :=
  sum_u64 (stc_denom <$> filter (λ c, stc_status c = CoinStatus.Active) (cst_coins s)).

Definition CoinStore_find_active (s : CoinStore) (denom : Z) : option StoredCoin :=
  snd <$> list_find (λ c, stc_denom c = denom /\ stc_status c = CoinStatus.Active) (cst_coins s).

(** *** Derived Borsh codecs *)
Definition CoinStatus_to_vec (s : CoinStatus.t) : bytes :=
  le_bytes 1 (match s with CoinStatus.Active => 0 | CoinStatus.InFlight => 1 | CoinStatus.Spent => 2 end).
Definition CoinStatus_read : reader CoinStatus.t :=
  tag ← read_u8;
  if tag =? 0 then mret CoinStatus.Active
  else if tag =? 1 then mret CoinStatus.InFlight
  else if tag =? 2 then mret CoinStatus.Spent
  else rlift None.

Definition StoredCoin_to_vec (c : StoredCoin) : bytes :=
  stc_secret_bytes c ++ stc_pubkey_bytes c ++ stc_signature_bytes c ++ le_bytes 8 (stc_denom c) ++
  CoinStatus_to_vec (stc_status c) ++ borsh_option borsh_bytes (stc_label c).
Definition StoredCoin_read : reader StoredCoin :=
  secret_bytes ← read_exact 32;
  pubkey_bytes ← read_exact 32;
  signature_bytes ← read_exact 64;
  denom ← read_u64;
  status ← CoinStatus_read;
  label ← read_option read_string;
  mret {| stc_secret_bytes := secret_bytes; stc_pubkey_bytes := pubkey_bytes;
          stc_signature_bytes := signature_bytes; stc_denom := denom; stc_status := status;
          stc_label := label |}.

Definition CoinStore_to_vec (s : CoinStore) : bytes :=
  le_bytes 1 (cst_version s) ++ borsh_vec StoredCoin_to_vec (cst_coins s).
Definition CoinStore_read : reader CoinStore :=
  version ← read_u8;
  coins ← read_vec StoredCoin_read;
  mret {| cst_version := version; cst_coins := coins |}.

(** ** issue.rs *)
Section issue.
Context `{C : Curve}.

Record IssueSession : Type :=
  { is_seed : bytes; is_user_state : UserState; is_cp_bytes : bytes }.

Definition issue_request (joint_pk : PublicKey) (mint_commit : BlindCommit) (r : rng)
    : res ClientError.t (BlindChallenge * IssueSession * rng) :=
  let '(seed, r) := rng_fill 32 r in
  let x := derive_coin_secret seed in
  sk ← expect_res (SecretKey_from_bytes (sc_to_bytes x));
  let pk := PublicKey_from_secret sk in
  let cp_bytes := PublicKey_to_bytes pk in
  out ← map_err ClientError.Core (blind_request mint_commit joint_pk cp_bytes r);
  let '(challenge, user_state, r) := out in
  Ok (challenge, {| is_seed := seed; is_user_state := user_state; is_cp_bytes := cp_bytes |}, r).

Definition issue_finalize (session : IssueSession) (response : BlindResponse)
    : res ClientError.t Coin :=
  sig ← map_err ClientError.Core (unblind (is_user_state session) response);
  let x := derive_coin_secret (is_seed session) in
  sk ← expect_res (SecretKey_from_bytes (sc_to_bytes x));
  map_err ClientError.Refresh (Coin_new sk (is_cp_bytes session) sig).
End issue.

(** ** backup.rs *)
Definition NONCE_LEN : nat := 12.
Definition TAG_LEN : nat := 16.

Section backup.
Context `{C : Curve} `{A : Aead}.

Definition BACKUP_HKDF_SALT : bytes := ascii "TARDUS-wallet-backup-salt-v1".
Definition BACKUP_HKDF_INFO : bytes := ascii "TARDUS-wallet-backup-v1".

Definition derive_backup_key (master_seed : bytes) : bytes :=
  hkdf_sha512 BACKUP_HKDF_SALT master_seed BACKUP_HKDF_INFO 32.

Definition seal_backup (master_seed plaintext : bytes) (r : rng) : res ClientError.t (bytes * rng) :=
  let key := derive_backup_key master_seed in
  let '(nonce_bytes, r) := rng_fill NONCE_LEN r in
  ciphertext ← ok_or ClientError.AeadFailure (aead_encrypt key nonce_bytes plaintext);
  Ok (nonce_bytes ++ ciphertext, r).

Definition open_backup (master_seed sealed : bytes) : res ClientError.t bytes :=
  if (length sealed <? NONCE_LEN + TAG_LEN)%nat then Err ClientError.BackupValidationFailed
  else
    let nonce := take NONCE_LEN sealed in
    let ciphertext := drop NONCE_LEN sealed in
    ok_or ClientError.BackupValidationFailed
      (aead_decrypt (derive_backup_key master_seed) nonce ciphertext).
End backup.

(** ** Lemmas *)
Section client_lemmas.
Context `{CO : CurveOk}.

(** *** The coin store *)
Definition nullifiers_of (s : CoinStore) : list bytes := StoredCoin_nullifier <$> cst_coins s.

Lemma CoinStore_add_ok s c s' : CoinStore_add s c = Ok s' <->
  StoredCoin_nullifier c ∉ nullifiers_of s /\
  s' = {| cst_version := cst_version s; cst_coins := cst_coins s ++ [c] |}.
Proof using.
  unfold CoinStore_add, nullifiers_of.
  assert (existsb (λ x, bool_decide (StoredCoin_nullifier x = StoredCoin_nullifier c)) (cst_coins s) = false
    <-> StoredCoin_nullifier c ∉ StoredCoin_nullifier <$> cst_coins s) as <-.
  { rewrite <- not_true_iff_false, existsb_exists, list_elem_of_fmap.
    split; intros H (x & H1 & H2); apply H; exists x.
    - split; [by apply list_elem_of_In|by apply bool_decide_eq_true].
    - split; [by apply bool_decide_eq_true in H2|by apply list_elem_of_In]. }
  destruct (existsb _ _); step; [naive_solver|]. split; [by intros <-%(inj Ok)|by intros [_ ->]].
Qed.

Lemma mark_ok st s n s' : mark st s n = Ok s' ->
  exists i c, cst_coins s !! i = Some c /\ StoredCoin_nullifier c = n /\
    s' = {| cst_version := cst_version s; cst_coins := <[i := set_status c st]> (cst_coins s) |}.
Proof using.
  unfold mark. intros H. inv_ok. destruct r as [i c]. inv_ok.
  apply list_find_Some in Hb as (Hi & Hn & _). by exists i, c.
Qed.

(** A store operation of the wallet; one that fails leaves the store. *)
Inductive store_op : Type :=
| OpAdd (coin : StoredCoin)
| OpInFlight (nullifier : bytes)
| OpSpent (nullifier : bytes).

Definition store_step (s : CoinStore) (op : store_op) : CoinStore :=
  match (match op with
         | OpAdd coin => CoinStore_add s coin
         | OpInFlight n => CoinStore_mark_in_flight s n
         | OpSpent n => CoinStore_mark_spent s n
         end) with
  | Ok s' => s'
  | _ => s
  end.

Definition store_run (s : CoinStore) (ops : list store_op) : CoinStore := foldl store_step s ops.

(** What a step keeps: the coins already there, in their order, with their
    data; statuses only leave [Active]. *)
Definition evolves (c c' : StoredCoin) : Prop :=
  c' = set_status c (stc_status c') /\ (stc_status c <> CoinStatus.Active -> stc_status c' <> CoinStatus.Active).
Definition store_evolves (s s' : CoinStore) : Prop :=
  exists l, Forall2 evolves (cst_coins s) l /\ exists new, cst_coins s' = l ++ new.

#[global] Instance evolves_refl : Reflexive evolves.
Proof. intros c. split; [by destruct c|done]. Qed.
#[global] Instance evolves_trans : Transitive evolves.
Proof. intros c1 c2 c3 [H1 H2] [H3 H4]. split; [by rewrite H3, H1 at 1|auto]. Qed.

#[global] Instance store_evolves_refl : Reflexive store_evolves.
Proof. intros s. exists (cst_coins s). split; [done|]. exists []. by rewrite app_nil_r. Qed.
#[global] Instance store_evolves_trans : Transitive store_evolves.
Proof.
  intros s1 s2 s3 (l1 & H1 & n1 & E1) (l2 & H2 & n2 & E2). rewrite E1 in H2.
  apply Forall2_app_inv_l in H2 as (k1 & k2 & Hk1 & Hk2 & ->).
  exists k1. split; [by transitivity l1|].
  exists (k2 ++ n2). by rewrite E2, app_assoc.
Qed.

Lemma evolves_nullifier c c' : evolves c c' -> StoredCoin_nullifier c' = StoredCoin_nullifier c.
Proof using. intros [-> _]. done. Qed.

Lemma store_step_ok s op : NoDup (nullifiers_of s) ->
  NoDup (nullifiers_of (store_step s op)) /\ store_evolves s (store_step s op).
Proof using.
  intros Hnd. unfold store_step.
  assert (forall st n s', st <> CoinStatus.Active -> mark st s n = Ok s' ->
    NoDup (nullifiers_of s') /\ store_evolves s s') as Hmark.
  { intros st n s' Hst (i & c & Hi & Hn & ->)%mark_ok. unfold nullifiers_of. cbn [cst_coins].
    split.
    - rewrite list_fmap_insert, list_insert_id; [done|]. by rewrite list_lookup_fmap, Hi.
    - eexists. cbn [cst_coins]. split; [|by exists []; rewrite app_nil_r].
      rewrite <- (list_insert_id (cst_coins s) i c Hi) at 1.
      apply Forall2_insert; [by apply Forall_Forall2_diag, Forall_true|]. split; [done|]. by intros _. }
  destruct op as [c|n|n].
  - destruct (CoinStore_add s c) as [s'| |] eqn:E; [|done..].
    apply CoinStore_add_ok in E as [Hn ->]. unfold nullifiers_of in *. cbn [cst_coins]. split.
    + rewrite fmap_app. apply NoDup_app. split_and!; [done| |apply NoDup_singleton].
      intros x Hx ->%list_elem_of_singleton. done.
    + exists (cst_coins s). split; [done|]. by exists [c].
  - unfold CoinStore_mark_in_flight. destruct (mark _ s n) as [s'| |] eqn:E; [eapply Hmark; [|exact E]; done|by split..].
  - unfold CoinStore_mark_spent. destruct (mark _ s n) as [s'| |] eqn:E; [eapply Hmark; [|exact E]; done|by split..].
Qed.

Lemma store_run_ok s ops : NoDup (nullifiers_of s) ->
  NoDup (nullifiers_of (store_run s ops)) /\ store_evolves s (store_run s ops).
Proof using.
  revert s; induction ops as [|op ops IH]; intros s Hnd; [done|]. cbn.
  destruct (store_step_ok s op Hnd) as [H1 H2]. destruct (IH _ H1) as [H3 H4].
  split; [done|]. by transitivity (store_step s op).
Qed.

(** A coin that has left [Active] is not offered again. *)
Lemma find_active_Some s d c : CoinStore_find_active s d = Some c ->
  c ∈ cst_coins s /\ stc_denom c = d /\ stc_status c = CoinStatus.Active.
Proof using.
  unfold CoinStore_find_active. intros ([i c'] & (Hi & Hc & _)%list_find_Some & ->)%fmap_Some.
  split; [|done]. by eapply list_elem_of_lookup_2.
Qed.

Lemma store_evolves_inactive s s' c c' : store_evolves s s' ->
  NoDup (nullifiers_of s') -> c ∈ cst_coins s -> c' ∈ cst_coins s' ->
  StoredCoin_nullifier c' = StoredCoin_nullifier c -> evolves c c'.
Proof using.
  intros (l & Hl & new & E) Hnd (i & Hi)%list_elem_of_lookup (j & Hj)%list_elem_of_lookup Hn.
  destruct (Forall2_lookup_l _ _ _ _ _ Hl Hi) as (d & Hd & Hev).
  assert (cst_coins s' !! i = Some d) as Hd' by (rewrite E; by apply lookup_app_l_Some).
  enough (i = j) as -> by naive_solver.
  apply (NoDup_lookup (nullifiers_of s') i j (StoredCoin_nullifier c)); [done|..];
    unfold nullifiers_of; rewrite list_lookup_fmap.
  - rewrite Hd'. cbn. by rewrite (evolves_nullifier c d).
  - rewrite Hj. cbn. by rewrite Hn.
Qed.

(** *** Issuance *)
Add Field client_field : sc_field.

(** What the user makes of a response: a signature, valid exactly when the
    response answers the blinded challenge. *)
Lemma unblind_exact commit pk P R msg r ch us r' resp s : valid_pk pk P ->
  pt_decompress (bc_r commit) = Some R -> blind_request commit pk msg r = Ok (ch, us, r') ->
  sc_from_canonical (br_s resp) = Some s ->
  exists sig c, sc_from_canonical (bch_c ch) = Some c /\ unblind us resp = Ok sig /\
    (schnorr_verify pk msg sig = Ok true <-> (s ⋅ pt_base = R + c ⋅ P)%pt) /\ wf_signature sig.
Proof.
  intros Hpk HR H Hs. pose proof Hpk as [HP Ht]. unfold blind_request, PublicKey_point in H.
  rewrite HP, HR in H. cbn [ok_or mbind res_bind] in H.
  destruct (sc_random r) as [alpha r3], (sc_random r3) as [beta r4]. injection H as <- <- <-.
  unfold unblind. rewrite Hs. step. eexists _, _. split_and!; [apply sc_canonical_to_bytes|done| |].
  2:{ split; cbn [sig_r sig_s us_r_prime]; auto with tardus. }
  rewrite (schnorr_verify_spec _ P) by done. cbn [sig_r sig_s us_alpha us_r_prime].
  rewrite pt_decompress_compress, sc_canonical_to_bytes.
  rewrite <- response_unblinds_iff by done. naive_solver.
Qed.

Lemma Coin_new_derived sk b sig : b = PublicKey_to_bytes (PublicKey_from_secret sk) ->
  Coin_new sk b sig = Ok {| coin_secret := sk; coin_pubkey_bytes := b; coin_signature := sig |}.
Proof. intros ->. unfold Coin_new. by rewrite bool_decide_true. Qed.

Lemma derived_key_ok seed : SecretKey_from_bytes (sc_to_bytes (derive_coin_secret seed)) =
  Ok {| sk_scalar := derive_coin_secret seed |}.
Proof. apply (SecretKey_roundtrip {| sk_scalar := derive_coin_secret seed |}). Qed.

Lemma map_err_Ok_iff {E E' A} (f : E -> E') (m : res E A) a : map_err f m = Ok a <-> m = Ok a.
Proof. by destruct m; split; intros [=->]. Qed.

(** *** Backups *)
Lemma seal_backup_ok {A : Aead} {AOk : AeadOk A} master_seed p r sealed r' :
  seal_backup master_seed p r = Ok (sealed, r') ->
  (NONCE_LEN + TAG_LEN <= length sealed)%nat /\ open_backup master_seed sealed = Ok p.
Proof.
  unfold seal_backup. destruct (rng_fill NONCE_LEN r) as [nonce r1] eqn:Hr. intros H.
  pose proof (rng_fill_length NONCE_LEN r) as Hn. rewrite Hr in Hn. cbn [fst] in Hn.
  inv_ok. simplify_eq. pose proof (aead_length _ _ _ _ Hb) as Hl.
  assert (NONCE_LEN + TAG_LEN <= length (nonce ++ r0))%nat as Hlen by (rewrite length_app, Hl; unfold TAG_LEN; lia).
  split; [done|]. unfold open_backup.
  destruct (Nat.ltb_spec (length (nonce ++ r0)) (NONCE_LEN + TAG_LEN)); [lia|].
  rewrite take_app_length', drop_app_length' by done. by rewrite (aead_decrypt_encrypt _ _ _ _ Hb).
Qed.
Lemma seal_backup_total {A : Aead} {AOk : AeadOk A} master_seed p r : Z.of_nat (length p) < 2 ^ 36 ->
  exists sealed r', seal_backup master_seed p r = Ok (sealed, r').
Proof.
  intros Hp. unfold seal_backup. destruct (rng_fill NONCE_LEN r) as [nonce r1].
  destruct (aead_total (derive_backup_key master_seed) nonce p Hp) as [c ->]. step. by do 2 eexists.
Qed.

Definition wf_stored_coin (c : StoredCoin) : Prop :=
  length (stc_secret_bytes c) = 32%nat /\ length (stc_pubkey_bytes c) = 32%nat /\
  length (stc_signature_bytes c) = 64%nat /\ u64 (stc_denom c) /\
  (forall l, stc_label c = Some l -> utf8_valid l = true /\ Z.of_nat (length l) < 2 ^ 32).
Definition wf_store (s : CoinStore) : Prop :=
  in_width 8 (cst_version s) /\ Z.of_nat (length (cst_coins s)) < 2 ^ 32 /\
  forall c, c ∈ cst_coins s -> wf_stored_coin c.

Lemma reads_CoinStatus s : reads CoinStatus_read (CoinStatus_to_vec s) s.
Proof.
  unfold CoinStatus_read, CoinStatus_to_vec. rewrite <- (app_nil_r (le_bytes 1 _)).
  destruct s; (eapply reads_bind; [by apply reads_u8|apply reads_ret]).
Qed.
#[local] Hint Resolve reads_CoinStatus : wire.

Lemma reads_StoredCoin c : wf_stored_coin c -> reads StoredCoin_read (StoredCoin_to_vec c) c.
Proof.
  intros (H1 & H2 & H3 & H4 & H5). unfold StoredCoin_read, StoredCoin_to_vec. destruct c as [x p sg d st lb].
  cbn [stc_secret_bytes stc_pubkey_bytes stc_signature_bytes stc_denom stc_status stc_label] in *.
  do 5 (eapply reads_bind; [solve [eauto with wire]|]; cbn beta).
  apply reads_bind_last, reads_option. intros l Hl. apply H5 in Hl as [? ?]. by apply reads_string.
Qed.

Lemma reads_CoinStore s : wf_store s -> reads CoinStore_read (CoinStore_to_vec s) s.
Proof.
  intros (H1 & H2 & H3). destruct s as [v l]. cbn [cst_version cst_coins] in *.
  eapply reads_bind; [by apply reads_u8|]. cbn beta.
  apply reads_bind_last, reads_vec; [done|]. intros c Hc. by apply reads_StoredCoin, H3.
Qed.
End client_lemmas.

(** ** Properties *)
Section client_properties.
Context `{CO : CurveOk}.

(** C29: however the store operations are called on a new store, nullifiers
    stay distinct, coins stay where they are with their data, and a coin that
    has been marked in flight or spent is never offered by [find_active]
    again. *)
Theorem coin_store_monotone ops1 ops2 :
  let s := store_run CoinStore_new ops1 in
  let s' := store_run s ops2 in
  NoDup (nullifiers_of s') /\ store_evolves s s' /\
  (forall c d c', c ∈ cst_coins s -> stc_status c <> CoinStatus.Active ->
     CoinStore_find_active s' d = Some c' -> StoredCoin_nullifier c' <> StoredCoin_nullifier c).
Proof using.
  intros s s'. destruct (store_run_ok CoinStore_new ops1 (NoDup_nil_2)) as [Hs _].
  destruct (store_run_ok s ops2 Hs) as [Hs' Hev]. split_and!; [done..|].
  intros c d c' Hc Hst (Hc' & _ & Ha)%find_active_Some Hn.
  destruct (store_evolves_inactive s s' c c') as [_ H]; [done..|]. by apply H.
Qed.

(** What the user gets from an issuance, for every response of the mint:
    a response that is not a canonical scalar is refused; any other yields a
    coin with the session's own key, and that coin verifies under the joint
    key exactly when the response answers the blinded challenge,
    s·B = R + c·P.  In particular an honest response gives a valid coin. *)
Theorem issue_finalize_exact pk P commit R r ch session r' resp :
  valid_pk pk P -> pt_decompress (bc_r commit) = Some R ->
  issue_request pk commit r = Ok (ch, session, r') ->
  match sc_from_canonical (br_s resp) with
  | None => issue_finalize session resp = Err (ClientError.Core CoreError.InvalidScalar)
  | Some s => exists coin c,
      sc_from_canonical (bch_c ch) = Some c /\ issue_finalize session resp = Ok coin /\
      sk_scalar (coin_secret coin) = derive_coin_secret (is_seed session) /\
      coin_pubkey_bytes coin = is_cp_bytes session /\
      (Coin_verify coin pk = Ok true <-> (s ⋅ pt_base = R + c ⋅ P)%pt)
  end.
Proof.
  intros Hpk HR H. unfold issue_request in H. destruct (rng_fill 32 r) as [seed r1].
  rewrite derived_key_ok in H. cbn [expect_res mbind res_bind] in H. inv_ok. destruct r0 as [[ch0 us] r2].
  injection H as -> <- ->. unfold issue_finalize. cbn [is_user_state is_seed is_cp_bytes].
  destruct (sc_from_canonical (br_s resp)) as [s|] eqn:Hs; [|by unfold unblind; rewrite Hs].
  destruct (unblind_exact commit pk P R _ r1 ch us r' resp s Hpk HR Hb Hs) as (sig & c & Hc & -> & Hv & _). step.
  rewrite derived_key_ok. step. rewrite Coin_new_derived by done. step.
  eexists _, c. split_and!; [done..|]. unfold Coin_verify. rewrite map_err_Ok_iff.
  cbn [coin_pubkey_bytes coin_signature]. exact Hv.
Qed.

(** A sealed backup opens, under the same master seed, to the coin store
    that was sealed; a blob too short for a nonce and a tag is refused. *)
Theorem backup_restores_store {A : Aead} {AOk : AeadOk A} master_seed s r sealed r' :
  wf_store s -> seal_backup master_seed (CoinStore_to_vec s) r = Ok (sealed, r') ->
  (NONCE_LEN + TAG_LEN <= length sealed)%nat /\
  (exists p, open_backup master_seed sealed = Ok p /\ try_from_slice CoinStore_read p = Some s) /\
  forall n, (n < NONCE_LEN + TAG_LEN)%nat ->
    open_backup master_seed (take n sealed) = Err ClientError.BackupValidationFailed.
Proof.
  intros Hs [Hlen Ho]%seal_backup_ok. split_and!; [done|exists (CoinStore_to_vec s); split; [done|]|].
  - by apply try_from_slice_reads, reads_CoinStore.
  - intros n Hlt. unfold open_backup. rewrite length_take.
    by destruct (Nat.ltb_spec (n `min` length sealed) (NONCE_LEN + TAG_LEN)); [|lia].
Qed.
End client_properties.

(** ** Concrete instances *)
#[local] Existing Instance toy.
#[local] Existing Instance toy_ok.

Definition client_pk : PublicKey := PublicKey_from_secret demo_sk.
Definition client_commit : BlindCommit := (issue_round1 7).1.1.
Definition client_request : BlindChallenge * IssueSession * rng :=
  match issue_request client_pk client_commit (9 : rng) with
  | Ok x => x
  | _ => ({| bch_c := [] |},
          {| is_seed := []; is_user_state := demo_user; is_cp_bytes := [] |}, (0 : rng))
  end.
Definition client_c : scalar := default sc_zero (sc_from_canonical (bch_c client_request.1.1)).
Definition client_s : scalar := (ss_k (issue_round1 7).1.2 + client_c * sk_scalar demo_sk)%sc.

Lemma issue_finalize_exact_witness :
  exists coin c,
    sc_from_canonical (bch_c client_request.1.1) = Some c /\
    issue_finalize client_request.1.2 {| br_s := sc_to_bytes client_s |} = Ok coin /\
    sk_scalar (coin_secret coin) = derive_coin_secret (is_seed client_request.1.2) /\
    coin_pubkey_bytes coin = is_cp_bytes client_request.1.2 /\
    (Coin_verify coin client_pk = Ok true <->
     (client_s ⋅ pt_base = ss_k (issue_round1 7).1.2 ⋅ pt_base + c ⋅ (sk_scalar demo_sk ⋅ pt_base))%pt).
Proof.
  pose proof (issue_finalize_exact client_pk (sk_scalar demo_sk ⋅ pt_base)%pt client_commit
    (ss_k (issue_round1 7).1.2 ⋅ pt_base)%pt 9 client_request.1.1 client_request.1.2
    client_request.2 {| br_s := sc_to_bytes client_s |}
    (PublicKey_from_secret_valid demo_sk) ltac:(vm_refl) ltac:(vm_refl)) as H.
  cbn [br_s] in H. rewrite sc_canonical_to_bytes in H. exact H.
Defined.

Definition demo_store : CoinStore := {|
  cst_version := 1;
  cst_coins := [{| stc_secret_bytes := replicate 32 Byte.x01; stc_pubkey_bytes := replicate 32 Byte.x02;
                   stc_signature_bytes := replicate 64 Byte.x03; stc_denom := 1000;
                   stc_status := CoinStatus.Active; stc_label := Some (ascii "rent") |}] |}.

Lemma backup_restores_store_witness :
  exists sealed r', seal_backup (A := toy_aead) (replicate 32 Byte.x09) (CoinStore_to_vec demo_store) 5
    = Ok (sealed, r') /\
  (NONCE_LEN + TAG_LEN <= length sealed)%nat /\
  (exists p, open_backup (A := toy_aead) (replicate 32 Byte.x09) sealed = Ok p /\
     try_from_slice CoinStore_read p = Some demo_store) /\
  forall n, (n < NONCE_LEN + TAG_LEN)%nat ->
    open_backup (A := toy_aead) (replicate 32 Byte.x09) (take n sealed)
      = Err ClientError.BackupValidationFailed.
Proof.
  eexists _, _. split; [reflexivity|].
  eapply (backup_restores_store (A := toy_aead) (AOk := toy_aead_ok)); [|reflexivity].
  split_and!; [done|done|]. cbn. intros c ->%list_elem_of_singleton.
  split_and!; [done|done|done|done|]. intros l [= <-]. split; reflexivity.
Defined.
