(* ===== verification/Storage.v ===== *)
(** * tardus-validator: share records on disk

    Models [crates/tardus-validator/src/{error,storage,share_store}.rs]: the
    share record, its encrypted file, and the two share stores behind the
    [ShareStore] trait. *)
From S2P Require Import Prelude Crypto ToyCurve Async Platform ToyPlatform Wire.

(** ** error.rs; the messages of the variants are left out *)
Module ValidatorError.
Inductive t : Type :=
| Io (e : io_error)
| StorageCorruption
| AeadFailure
| HkdfFailure
| ShareDecode
| NoShare (index : Z)
| Config.
End ValidatorError.

(** ** storage.rs *)
Definition STORAGE_HKDF_SALT : bytes := ascii "TARDUS-validator-storage-v1".
Definition STORAGE_HKDF_INFO : bytes := ascii "chacha20poly1305-key".
Definition NONCE_LEN : nat := 12.

Record ValidatorShareRecord : Type := {
  sr_keyset_id : bytes;
  sr_my_index : Z;
  sr_n : Z;
  sr_t : Z;
  sr_epoch : Z;
  sr_joint_pk_bytes : bytes;
  sr_my_share_bytes : bytes;
  sr_qual : list Z;
}.

Definition ValidatorShareRecord_to_vec (r : ValidatorShareRecord) : bytes :=
  sr_keyset_id r ++ le_bytes 2 (sr_my_index r) ++ le_bytes 2 (sr_n r) ++ le_bytes 2 (sr_t r) ++
  le_bytes 8 (sr_epoch r) ++ sr_joint_pk_bytes r ++ sr_my_share_bytes r ++
  borsh_vec (le_bytes 2) (sr_qual r).
Definition ValidatorShareRecord_read : reader ValidatorShareRecord :=
  keyset_id ← read_exact 33;
  my_index ← read_u16;
  n ← read_u16;
  t ← read_u16;
  epoch ← read_u64;
  joint_pk_bytes ← read_exact 32;
  my_share_bytes ← read_exact 32;
  qual ← read_vec read_u16;
  mret {| sr_keyset_id := keyset_id; sr_my_index := my_index; sr_n := n; sr_t := t;
          sr_epoch := epoch; sr_joint_pk_bytes := joint_pk_bytes;
          sr_my_share_bytes := my_share_bytes; sr_qual := qual |}.

Section storage.
Context `{C : Curve} `{A : Aead} `{HX : Hex}.

Definition derive_storage_key (master_seed : bytes) : bytes :=
  hkdf_sha512 STORAGE_HKDF_SALT master_seed STORAGE_HKDF_INFO 32.

Definition seal_record (master_seed nonce : bytes) (record : ValidatorShareRecord) : option bytes :=
  ciphertext ← aead_encrypt (derive_storage_key master_seed) nonce
                 (ValidatorShareRecord_to_vec record);
  Some (nonce ++ ciphertext).

(** A temporary file, then a rename. *)
Definition write_share_record (path master_seed : bytes) (record : ValidatorShareRecord)
    : io host ValidatorError.t unit :=
  nonce ← draw (rng_fill NONCE_LEN);
  sealed ← lift (ok_or ValidatorError.AeadFailure (seal_record master_seed nonce record));
  let tmp_path := path_with_extension path (ascii "tmp") in
  _ ← on_disk ValidatorError.Io (disk_write tmp_path sealed);
  on_disk ValidatorError.Io (disk_rename tmp_path path).

Definition open_record (master_seed sealed : bytes) : res ValidatorError.t ValidatorShareRecord :=
  if (length sealed <? NONCE_LEN + 16)%nat then Err ValidatorError.StorageCorruption
  else
    plaintext ← ok_or ValidatorError.AeadFailure
      (aead_decrypt (derive_storage_key master_seed) (take NONCE_LEN sealed) (drop NONCE_LEN sealed));
    ok_or ValidatorError.ShareDecode (try_from_slice ValidatorShareRecord_read plaintext).

Definition read_share_record (path master_seed : bytes)
    : io host ValidatorError.t ValidatorShareRecord :=
  sealed ← on_disk ValidatorError.Io (disk_read path);
  lift (open_record master_seed sealed).

Definition share_path (data_dir keyset_id : bytes) : bytes :=
  path_join data_dir (ascii "share_" ++ hex_encode keyset_id ++ ascii ".bin").

(** [path.extension() == Some("bin") && file_name.starts_with("share_")] *)
Definition is_share_file (path : bytes) : bool :=
  bool_decide (path_extension path = Some (ascii "bin")) &&
  bool_decide (ascii "share_" `prefix_of` path_file_name path).
End storage.

(** ** share_store.rs: the trait and its two implementations *)
Class ShareStore (S : Type) : Type := {
  load : bytes -> io S ValidatorError.t (option ValidatorShareRecord);
  save : ValidatorShareRecord -> io S ValidatorError.t unit;
  list_records : io S ValidatorError.t (list ValidatorShareRecord);
  backend_name : bytes;
}.

(** In memory; a poisoned mutex is a panic that already happened. *)
Abbreviation mock := (gmap bytes ValidatorShareRecord).

Section stores.
Context `{C : Curve} `{A : Aead} `{HX : Hex} `{DO : DirOrder}.

(** [Err(Error::Io(e)) if e.kind() == NotFound] *)
Definition found (r : res ValidatorError.t ValidatorShareRecord)
    : res ValidatorError.t (option ValidatorShareRecord) :=
  match r with
  | Ok rec => Ok (Some rec)
  | Err (ValidatorError.Io NotFound) => Ok None
  | Err e => Err e
  | Panic => Panic
  end.

Fixpoint catch {S E E' A B} (f : res E A -> res E' B) (p : io S E A) : io S E' B :=
  match p with
  | Done r => Done (f r)
  | Atomic g k => Atomic g (λ b, catch f (k b))
  end.

(** The loop of [list] over the directory: a file that does not open is
    skipped. *)
Fixpoint list_files (master_seed : bytes) (paths : list bytes)
    : io host ValidatorError.t (list ValidatorShareRecord) :=
  match paths with
  | [] => mret []
  | path :: paths =>
      if is_share_file path then
        rec ← catch (λ r, match r with Ok rec => Ok (Some rec) | Err _ => Ok None | Panic => Panic end)
                (read_share_record path master_seed);
        rest ← list_files master_seed paths;
        mret (option_list rec ++ rest)
      else list_files master_seed paths
  end.

Definition FileShareStore (data_dir master_seed : bytes) : ShareStore host := {|
  load keyset_id := catch found (read_share_record (share_path data_dir keyset_id) master_seed);
  save record :=
    write_share_record (share_path data_dir (sr_keyset_id record)) master_seed record;
  list_records :=
    paths ← on_disk ValidatorError.Io (disk_read_dir data_dir); list_files master_seed paths;
  backend_name := ascii "file";
|}.

Definition MockShareStore : ShareStore mock := {|
  load keyset_id := reads_state (λ m : mock, m !! keyset_id);
  save record := updates (λ m : mock, <[sr_keyset_id record := record]> m);
  list_records := reads_state (λ m : mock, (map_to_list m).*2);
  backend_name := ascii "mock";
|}.
End stores.

(** ** Lemmas *)
Definition wf_record (r : ValidatorShareRecord) : Prop :=
  length (sr_keyset_id r) = 33%nat /\ u16 (sr_my_index r) /\ u16 (sr_n r) /\ u16 (sr_t r) /\
  u64 (sr_epoch r) /\ length (sr_joint_pk_bytes r) = 32%nat /\
  length (sr_my_share_bytes r) = 32%nat /\
  Z.of_nat (length (sr_qual r)) < 2 ^ 32 /\ Forall u16 (sr_qual r).

Lemma reads_ValidatorShareRecord r : wf_record r ->
  reads ValidatorShareRecord_read (ValidatorShareRecord_to_vec r) r.
Proof.
  intros (H1 & H2 & H3 & H4 & H5 & H6 & H7 & H8 & H9).
  unfold ValidatorShareRecord_read, ValidatorShareRecord_to_vec. destruct r as [k i n t e pk sh q].
  cbn [sr_keyset_id sr_my_index sr_n sr_t sr_epoch sr_joint_pk_bytes sr_my_share_bytes sr_qual] in *.
  do 7 (eapply reads_bind; [solve [eauto with wire]|]; cbn beta).
  apply reads_bind_last, reads_vec; [done|]. intros a Ha. apply reads_u16.
  by eapply Forall_forall in H9.
Qed.

Lemma length_record r : wf_record r -> Z.of_nat (length (ValidatorShareRecord_to_vec r)) < 2 ^ 36.
Proof.
  intros (H1 & _ & _ & _ & _ & H6 & H7 & H8 & _).
  assert (forall l : list Z, length (mjoin (le_bytes 2 <$> l)) = (2 * length l)%nat) as Hq.
  { induction l as [|x l IH]; [done|].
    change (mjoin (le_bytes 2 <$> x :: l)) with (le_bytes 2 x ++ mjoin (le_bytes 2 <$> l)).
    rewrite length_app, length_le_bytes, IH. cbn [length]. lia. }
  unfold ValidatorShareRecord_to_vec, borsh_vec. rewrite !length_app, !length_le_bytes, Hq. lia.
Qed.

Section storage_lemmas.
Context `{CO : CurveOk} {A : Aead} {AOk : AeadOk A} {HX : Hex} {HOk : HexOk HX}.

Lemma seal_open seed nonce r : wf_record r -> length nonce = NONCE_LEN ->
  exists sealed, seal_record seed nonce r = Some sealed /\ open_record seed sealed = Ok r.
Proof.
  intros Hr Hn. unfold seal_record.
  destruct (aead_total (derive_storage_key seed) nonce _ (length_record r Hr)) as [c Hc].
  rewrite Hc. cbn. eexists. split; [done|]. pose proof (aead_length _ _ _ _ Hc) as Hl.
  unfold open_record. destruct (Nat.ltb_spec (length (nonce ++ c)) (NONCE_LEN + 16)) as [H|_].
  { rewrite length_app in H. lia. }
  rewrite take_app_length', drop_app_length' by done. rewrite (aead_decrypt_encrypt _ _ _ _ Hc). cbn.
  by rewrite (try_from_slice_reads _ _ r) by by apply reads_ValidatorShareRecord.
Qed.

Lemma share_name_chars k c : c ∈ ascii "share_" ++ hex_encode k -> c <> slash /\ c <> dot.
Proof.
  intros [H|H%hex_alphabet]%elem_of_app; apply list_elem_of_In in H; vm_compute in H;
    by repeat destruct H as [<-|H].
Qed.

Lemma share_name_slash k ext : slash ∉ ext -> slash ∉ ascii "share_" ++ hex_encode k ++ dot :: ext.
Proof.
  intros He H. rewrite app_assoc in H. apply elem_of_app in H as [H|H].
  - by apply share_name_chars in H as [? _].
  - apply elem_of_cons in H as [H|H]; [by apply (f_equal Z_of_byte) in H|done].
Qed.

Lemma share_path_name dir k :
  path_file_name (share_path dir k) = (ascii "share_" ++ hex_encode k) ++ dot :: ascii "bin".
Proof.
  unfold share_path. rewrite <- app_assoc. apply path_join_name, share_name_slash.
  intros H. apply list_elem_of_In in H. vm_compute in H. by repeat destruct H as [H|H].
Qed.

Lemma share_path_inj dir k1 k2 : share_path dir k1 = share_path dir k2 -> k1 = k2.
Proof.
  intros E. apply (f_equal path_file_name) in E. rewrite !share_path_name in E.
  apply app_inj_2 in E as [E _]; [|done]. apply app_inv_head in E. by apply hex_encode_inj.
Qed.

Lemma name_split_share k ext : dot ∉ ext ->
  name_split ((ascii "share_" ++ hex_encode k) ++ dot :: ext) =
    (ascii "share_" ++ hex_encode k, Some ext).
Proof. apply name_split_ext. intros H. by apply app_eq_nil in H as [H _]. Qed.

Lemma share_path_is_share dir k : is_share_file (share_path dir k) = true.
Proof.
  unfold is_share_file, path_extension. rewrite share_path_name, name_split_share.
  - rewrite !bool_decide_true; [done| |done]. rewrite <- app_assoc. by eexists.
  - intros H. apply list_elem_of_In in H. vm_compute in H. by repeat destruct H as [H|H].
Qed.

Lemma share_path_in_dir dir k : share_path dir k = path_join dir (path_file_name (share_path dir k)).
Proof. rewrite share_path_name. unfold share_path. by rewrite <- app_assoc. Qed.

Lemma tmp_not_share dir k :
  is_share_file (path_with_extension (share_path dir k) (ascii "tmp")) = false.
Proof.
  set (p := path_with_extension _ _).
  assert (path_extension p = Some (ascii "tmp")) as E; [|unfold is_share_file; by rewrite E].
  assert (slash ∉ (ascii "share_" ++ hex_encode k) ++ dot :: ascii "tmp") as Hs.
  { rewrite <- app_assoc. apply share_name_slash. intros H. apply list_elem_of_In in H.
    vm_compute in H. by repeat destruct H as [H|H]. }
  assert (dot ∉ ascii "tmp" /\ dot ∉ ascii "bin") as [Ht Hb].
  { split; intros H; apply list_elem_of_In in H; vm_compute in H; by repeat destruct H as [H|H]. }
  assert (path_file_name p = (ascii "share_" ++ hex_encode k) ++ dot :: ascii "tmp") as E.
  { unfold p, path_with_extension. rewrite share_path_name, name_split_share by done. cbn [fst].
    unfold path_file_name. destruct (rsplit_once slash (share_path dir k)) as [[d n]|].
    - by rewrite rsplit_once_app.
    - by rewrite rsplit_once_none. }
  unfold path_extension. by rewrite E, name_split_share.
Qed.

Lemma run_catch {S E E' X Y} (f : res E X -> res E' Y) (p : io S E X) (s : S) :
  run (catch f p) s = (f (run p s).1, (run p s).2).
Proof.
  revert s; induction p as [r|B g k IH]; intros s; cbn; [done|]. destruct (g s). apply IH.
Qed.

(** Writing a record on a disk without faults. *)
Lemma run_write_share_record dir seed r h : wf_record r -> no_faults h ->
  let path := share_path dir (sr_keyset_id r) in
  let tmp := path_with_extension path (ascii "tmp") in
  exists sealed h', run (write_share_record path seed r) h = (Ok tt, h') /\ no_faults h' /\
    open_record seed sealed = Ok r /\
    files h' = <[path := sealed]> (delete tmp (files h)) /\
    h_instant h' = h_instant h /\ h_unix h' = h_unix h.
Proof.
  intros Hr Hf path tmp. unfold write_share_record.
  rewrite run_bind. unfold draw. rewrite run_atomically.
  destruct (rng_fill NONCE_LEN (h_rng h)) as [nonce rg] eqn:Hn. cbn [fst snd].
  assert (length nonce = NONCE_LEN) as Hl.
  { pose proof (rng_fill_length NONCE_LEN (h_rng h)) as H. by rewrite Hn in H. }
  destruct (seal_open seed nonce r Hr Hl) as (sealed & Hs & Ho).
  rewrite run_bind, run_lift, Hs. cbn [ok_or]. rewrite run_bind.
  rewrite run_disk_write by done. fold tmp.
  rewrite run_disk_rename with (b := sealed); [|done|apply lookup_insert_eq].
  exists sealed. eexists. split; [done|]. split_and!; [done|done| |done|done].
  unfold with_files, files, set_files, set_disk. cbn. by rewrite delete_insert_eq.
Qed.

Lemma run_read_share_record path seed h : no_faults h ->
  run (read_share_record path seed) h =
    (sealed ← map_err ValidatorError.Io (ok_or NotFound (files h !! path)); open_record seed sealed, h).
Proof.
  intros Hf. unfold read_share_record. rewrite run_bind, run_disk_read by done.
  by destruct (files h !! path).
Qed.
End storage_lemmas.

(** ** The two stores are one store

    [store_call] is a call of the trait and [store_answer] what the caller
    sees; lists come back in an order of the backend's choosing. *)
Inductive store_call : Type :=
| Load (keyset_id : bytes)
| Save (record : ValidatorShareRecord)
| ListAll.
Inductive store_answer : Type :=
| Loaded (r : res ValidatorError.t (option ValidatorShareRecord))
| Saved (r : res ValidatorError.t unit)
| Listed (r : res ValidatorError.t (list ValidatorShareRecord)).

Definition answer {S} {SS : ShareStore S} (call : store_call) (s : S) : store_answer * S :=
  match call with
  | Load k => let '(r, s) := run (load k) s in (Loaded r, s)
  | Save rec => let '(r, s) := run (save rec) s in (Saved r, s)
  | ListAll => let '(r, s) := run list_records s in (Listed r, s)
  end.
Fixpoint answers {S} {SS : ShareStore S} (calls : list store_call) (s : S) : list store_answer :=
  match calls with
  | [] => []
  | call :: calls => let '(a, s) := answer call s in a :: answers calls s
  end.

Inductive same_answer : store_answer -> store_answer -> Prop :=
| same_loaded r : same_answer (Loaded r) (Loaded r)
| same_saved r : same_answer (Saved r) (Saved r)
| same_listed l1 l2 : l1 ≡ₚ l2 -> same_answer (Listed (Ok l1)) (Listed (Ok l2)).

(** The directory holds the file of every record of the map, which [opens]
    opens, and no other share file. *)
Record simulates `{C : Curve} `{HX : Hex} (dir : bytes)
    (opens : bytes -> res ValidatorError.t ValidatorShareRecord) (h : host) (m : mock) : Prop := {
  sim_faults : no_faults h;
  sim_file k r : m !! k = Some r -> exists sealed,
    files h !! share_path dir k = Some sealed /\ opens sealed = Ok r;
  sim_only p b : files h !! p = Some b -> is_share_file p = true ->
    p = path_join dir (path_file_name p) -> exists k, is_Some (m !! k) /\ p = share_path dir k;
}.
Abbreviation sim dir seed := (simulates dir (open_record seed)).

Section simulates.
Context `{CO : CurveOk} {HX : Hex} {HOk : HexOk HX} {DO : DirOrder} {DOk : DirOrderOk DO}.
Variables (dir : bytes) (opens : bytes -> res ValidatorError.t ValidatorShareRecord).
#[local] Abbreviation sims := (simulates dir opens).

Lemma sim_lookup h m k : sims h m ->
  (sealed ← map_err ValidatorError.Io (ok_or NotFound (files h !! share_path dir k)); opens sealed) =
    map_err ValidatorError.Io (ok_or NotFound (m !! k)).
Proof.
  intros [_ Hf Ho]. destruct (m !! k) as [r|] eqn:Hk.
  - destruct (Hf _ _ Hk) as (sealed & -> & Hs). cbn. by rewrite Hs.
  - destruct (files h !! share_path dir k) as [b|] eqn:Hb; [|done].
    apply Ho in Hb as (k' & [r Hk'] & E%share_path_inj); [congruence|apply share_path_is_share|].
    apply share_path_in_dir.
Qed.

Lemma sim_save h m r h' sealed : sims h m -> no_faults h' -> opens sealed = Ok r ->
  files h' = <[share_path dir (sr_keyset_id r) := sealed]>
    (delete (path_with_extension (share_path dir (sr_keyset_id r)) (ascii "tmp")) (files h)) ->
  sims h' (<[sr_keyset_id r := r]> m).
Proof.
  intros [_ Hf Ho] Hn Hr Hfiles. set (tmp := path_with_extension _ _) in *.
  assert (is_share_file tmp = false) as Htmp by apply tmp_not_share.
  assert (forall k, tmp <> share_path dir k) as Hne.
  { intros k E. by rewrite E, share_path_is_share in Htmp. }
  split; [done|..].
  - intros k r' Hk. rewrite Hfiles. destruct (decide (k = sr_keyset_id r)) as [->|Hk'].
    + rewrite lookup_insert_eq in Hk. rewrite lookup_insert_eq. injection Hk as <-. by exists sealed.
    + rewrite lookup_insert_ne in Hk by done.
      rewrite lookup_insert_ne by (by intros ?%share_path_inj).
      rewrite lookup_delete_ne by done. by apply Hf.
  - intros p b Hp Hs Hd. rewrite Hfiles in Hp.
    destruct (decide (p = share_path dir (sr_keyset_id r))) as [->|Hp'].
    + exists (sr_keyset_id r). by rewrite lookup_insert_eq.
    + rewrite lookup_insert_ne in Hp by done. apply lookup_delete_Some in Hp as [_ Hp].
      destruct (Ho _ _ Hp Hs Hd) as (k & Hk & ->). exists k. split; [|done].
      rewrite lookup_insert_ne; [done|]. by intros <-.
Qed.

(** The listing of the directory, and the share files in it. *)
Definition listing (h : host) : list bytes := dir_order (dir_files (h_disk h) dir).
Definition own_paths (h : host) (paths : list bytes) : Prop :=
  Forall (λ p, is_Some (files h !! p) /\ p = path_join dir (path_file_name p)) paths.

Lemma elem_of_listing h p :
  p ∈ listing h <-> is_Some (files h !! p) /\ p = path_join dir (path_file_name p).
Proof.
  unfold listing. rewrite dir_order_perm. unfold dir_files. rewrite list_elem_of_filter.
  rewrite list_elem_of_fmap. split.
  - intros [H ([q b] & -> & Hq%elem_of_map_to_list)]. split; [by exists b|done].
  - intros [[b Hb] H]. split; [done|]. exists (p, b). by rewrite elem_of_map_to_list.
Qed.
Lemma listing_own h : own_paths h (listing h).
Proof. apply Forall_forall. intros p. apply elem_of_listing. Qed.

Lemma sim_listing h m ks : sims h m ->
  filter (λ p, is_share_file p = true) (listing h) = share_path dir <$> ks ->
  Forall (λ k, is_Some (m !! k)) ks -> omap (m !!.) ks ≡ₚ (map_to_list m).*2.
Proof.
  intros Hsim Hks Hm. assert (ks ≡ₚ (map_to_list m).*1) as ->.
  { apply NoDup_Permutation.
    - apply (NoDup_fmap_1 (share_path dir)). rewrite <- Hks. apply NoDup_filter.
      unfold listing. rewrite dir_order_perm. apply NoDup_filter, NoDup_fst_map_to_list.
    - apply NoDup_fst_map_to_list.
    - intros k. rewrite list_elem_of_fmap. split.
      + intros Hk. rewrite Forall_forall in Hm. destruct (Hm k Hk) as [r Hr].
        exists (k, r). by rewrite elem_of_map_to_list.
      + intros ([k' r] & -> & Hr%elem_of_map_to_list). cbn.
        assert (share_path dir k' ∈ share_path dir <$> ks) as Hi.
        { rewrite <- Hks. apply list_elem_of_filter. split; [apply share_path_is_share|].
          apply elem_of_listing. destruct (sim_file _ _ h m Hsim _ _ Hr) as (s & Hs & _).
          split; [by exists s|apply share_path_in_dir]. }
        apply list_elem_of_fmap in Hi as (k & E%share_path_inj & Hi). by subst. }
  assert (forall l : list (bytes * ValidatorShareRecord),
    (forall k r, (k, r) ∈ l -> m !! k = Some r) -> omap (m !!.) l.*1 = l.*2) as Hl.
  { induction l as [|[k r] l IH]; intros Hl; [done|]. cbn.
    rewrite (Hl k r) by left. f_equal. apply IH. intros. apply Hl. by right. }
  rewrite Hl; [done|]. intros k r. apply elem_of_map_to_list.
Qed.

(** A loop over the directory that opens the share files one by one. *)
Lemma run_share_files {S} (loop : list bytes -> io S ValidatorError.t (list ValidatorShareRecord))
    (opened : bytes -> io S ValidatorError.t (option ValidatorShareRecord)) (s : S) h m paths :
  loop [] = mret [] ->
  (forall p ps, loop (p :: ps) = if is_share_file p then
     rec ← opened p; rest ← loop ps; mret (option_list rec ++ rest) else loop ps) ->
  (forall k r, m !! k = Some r -> run (opened (share_path dir k)) s = (Ok (Some r), s)) ->
  sims h m -> own_paths h paths ->
  exists ks, filter (λ p, is_share_file p = true) paths = share_path dir <$> ks /\
    Forall (λ k, is_Some (m !! k)) ks /\ run (loop paths) s = (Ok (omap (m !!.) ks), s).
Proof.
  intros H0 H1 Hopen Hsim. induction paths as [|p paths IH]; intros Hown; [exists []; by rewrite H0|].
  apply Forall_cons in Hown as [[[b Hp] Hpd] Hown].
  destruct (IH Hown) as (ks & Hks & Hm & Hrun). rewrite filter_cons, H1.
  destruct (is_share_file p) eqn:Hs.
  - destruct (sim_only _ _ h m Hsim p b Hp Hs Hpd) as (k & [r Hk] & ->). exists (k :: ks).
    rewrite decide_True by done. rewrite Hks. split_and!; [done|by constructor; [exists r|]|].
    rewrite run_bind, (Hopen k r Hk), run_bind, Hrun. cbn. by rewrite Hk.
  - rewrite decide_False by done. by exists ks.
Qed.
End simulates.

Section simulation.
Context `{CO : CurveOk} {A : Aead} {AOk : AeadOk A} {HX : Hex} {HOk : HexOk HX}
  {DO : DirOrder} {DOk : DirOrderOk DO}.
Variables (dir seed : bytes).

Definition wf_call (c : store_call) : Prop :=
  match c with Save r => wf_record r | _ => True end.

Lemma run_list_files h m paths : sim dir seed h m -> own_paths dir h paths ->
  exists ks, filter (λ p, is_share_file p = true) paths = share_path dir <$> ks /\
    Forall (λ k, is_Some (m !! k)) ks /\
    run (list_files seed paths) h = (Ok (omap (m !!.) ks), h).
Proof.
  intros Hsim. eapply (run_share_files dir (open_record seed) (list_files seed)); [done|done| |done].
  intros k r Hk. cbn beta. rewrite run_catch, run_read_share_record, (sim_lookup dir _ h m) by apply Hsim || done.
  by rewrite Hk.
Qed.

Lemma sim_list h m : sim dir seed h m ->
  exists l, run (list_records (ShareStore := FileShareStore dir seed)) h = (Ok l, h) /\
    l ≡ₚ (map_to_list m).*2.
Proof.
  intros Hsim. cbn [list_records FileShareStore]. rewrite run_bind, run_disk_read_dir by apply Hsim.
  destruct (run_list_files h m (listing dir h) Hsim (listing_own dir h)) as (ks & Hks & Hm & Hrun).
  exists (omap (m !!.) ks). split; [done|]. by eapply sim_listing.
Qed.

Lemma answer_sim c h m : sim dir seed h m -> wf_call c ->
  let '(a, h') := answer (SS := FileShareStore dir seed) c h in
  let '(a', m') := answer (SS := MockShareStore) c m in
  same_answer a a' /\ sim dir seed h' m'.
Proof.
  intros Hsim Hwf. destruct c as [k|r|]; cbn [answer].
  - cbn [load save list_records FileShareStore MockShareStore]. rewrite run_catch, run_read_share_record, (sim_lookup dir _ h m)
      by apply Hsim || done. cbn. destruct (m !! k); cbn; split; done || constructor.
  - cbn [load save list_records FileShareStore MockShareStore].
    destruct (run_write_share_record dir seed r h Hwf (sim_faults _ _ h m Hsim))
      as (sealed & h' & -> & Hn & Ho & Hf & _). cbn. split; [constructor|]. by eapply sim_save.
  - destruct (sim_list h m Hsim) as (l & -> & Hl). cbn. by split; [constructor|].
Qed.
End simulation.

(** ** Properties *)
Section storage_properties.
Context `{CO : CurveOk} {A : Aead} {AOk : AeadOk A} {HX : Hex} {HOk : HexOk HX}
  {DO : DirOrder} {DOk : DirOrderOk DO}.

(** C37: the encrypted file store answers every sequence of calls of the
    [ShareStore] trait as the in-memory store does, lists up to their order,
    when it starts on a directory without share files and the disk does not
    fail. *)
Theorem file_store_equals_mock dir seed calls h :
  no_faults h ->
  (forall p b, files h !! p = Some b -> is_share_file p = true ->
     p <> path_join dir (path_file_name p)) ->
  Forall wf_call calls ->
  Forall2 same_answer (answers (SS := FileShareStore dir seed) calls h)
    (answers (SS := MockShareStore) calls ∅).
Proof.
  intros Hn Hempty Hwf.
  assert (sim dir seed h ∅) as Hsim by (split; [done|done|]; intros p b Hp Hs E; by edestruct Hempty).
  clear Hn Hempty. revert h Hsim. generalize (∅ : mock).
  induction Hwf as [|c calls Hc _ IH]; intros m h Hsim; cbn; [constructor|].
  pose proof (answer_sim dir seed c h m Hsim Hc) as H.
  destruct (answer (SS := FileShareStore dir seed) c h) as [a h'].
  destruct (answer (SS := MockShareStore) c m) as [a' m'].
  destruct H as [Ha Hs]. constructor; [done|]. by apply IH.
Qed.
End storage_properties.

(** ** Concrete instances *)
#[local] Existing Instance toy.
#[local] Existing Instance toy_ok.
#[local] Existing Instance toy_aead.
#[local] Existing Instance toy_aead_ok.
#[local] Existing Instance toy_hex.
#[local] Existing Instance toy_hex_ok.
#[local] Existing Instance toy_order.
#[local] Existing Instance toy_order_ok.

Definition demo_host : host :=
  {| h_disk := {| d_files := ∅; d_faults := [] |}; h_rng := (7 : @rng toy); h_instant := 0; h_unix := 0 |}.
Definition demo_record (b : byte) (epoch : Z) : ValidatorShareRecord :=
  {| sr_keyset_id := replicate 33 b; sr_my_index := 3; sr_n := 5; sr_t := 3; sr_epoch := epoch;
     sr_joint_pk_bytes := replicate 32 b; sr_my_share_bytes := replicate 32 b; sr_qual := [1; 2; 3] |}.
Definition demo_seed : bytes := replicate 32 (byte_of_Z 9).
Definition demo_dir : bytes := ascii "data".
Definition demo_calls : list store_call :=
  [Load (replicate 33 Byte.x02); Save (demo_record Byte.x02 1); Save (demo_record Byte.x03 1);
   Save (demo_record Byte.x02 2); Load (replicate 33 Byte.x02); ListAll].

Lemma demo_record_wf b e : u64 e -> wf_record (demo_record b e).
Proof.
  intros He. split_and!; [done|done..|done|done|done|done|]. repeat (apply Forall_cons; split; [done|]). done.
Qed.

Lemma file_store_equals_mock_witness :
  Forall2 same_answer (answers (SS := FileShareStore demo_dir demo_seed) demo_calls demo_host)
    (answers (SS := MockShareStore) demo_calls ∅).
Proof.
  apply (file_store_equals_mock demo_dir demo_seed demo_calls demo_host).
  - reflexivity.
  - intros p b Hp. exfalso. revert Hp. unfold files, demo_host. cbn. by rewrite lookup_empty.
  - repeat (apply Forall_cons; split; [first [exact I|apply demo_record_wf; done]|]). constructor.
Defined.
