(* ===== verification/Transparency.v ===== *)
(** * tardus-validator: the transparency log

    Models [crates/tardus-validator/src/transparency_log.rs]: a file of JSON
    lines, each entry chained to the one before by its hash.  [serde_json] is
    the class [Json]; reading a line checks UTF-8 as [read_line] does. *)
From S2P Require Import Prelude Crypto ToyCurve Async Platform ToyPlatform Wire.

Module TransparencyEvent.
Inductive t : Type :=
| Boot (operator bind_addr : bytes) (share_loaded : bool) (keyset_id_hex : option bytes) (epoch : option Z)
| DkgStart (ceremony_id_hex : bytes) (my_index n t : Z)
| DkgFinalize (ceremony_id_hex : bytes) (my_index : Z) (joint_pk_hex : bytes) (qual : list Z)
| ReshareStart (ceremony_id_hex : bytes) (my_index n t : Z)
| ReshareFinalize (ceremony_id_hex : bytes) (my_index new_epoch : Z)
| SignSessionStart (session_id_hex : bytes) (my_index : Z)
| RefreshSessionStart (session_id_hex : bytes) (my_index kappa : Z)
| ShareReload (keyset_id_hex : bytes) (epoch : Z).
End TransparencyEvent.

Record LogEntry : Type := {
  le_event_id : bytes;
  le_prev_event_id : bytes;
  le_ts_unix_ms : Z;
  le_event : TransparencyEvent.t;
}.

(** ** serde_json on the two types *)
Class Json : Type := {
  event_to_string : TransparencyEvent.t -> option bytes;
  entry_to_string : LogEntry -> option bytes;
  entry_from_string : bytes -> option LogEntry;
}.

Definition newline : byte := byte_of_Z 10.
Definition u128 (z : Z) : Prop := in_width 128 z.

(** Every value is written, as an object on one line; reading inverts writing,
    and a [ts_unix_ms] that was read is a [u128]. *)
Class JsonOk (J : Json) : Prop := {
  event_to_string_total e : is_Some (event_to_string e);
  event_to_string_inj e1 e2 : event_to_string e1 = event_to_string e2 -> e1 = e2;
  entry_to_string_total e : is_Some (entry_to_string e);
  entry_from_to e s : u128 (le_ts_unix_ms e) -> entry_to_string e = Some s ->
    entry_from_string s = Some e;
  entry_from_typed s e : entry_from_string s = Some e -> u128 (le_ts_unix_ms e);
  entry_line e s : entry_to_string e = Some s ->
    newline ∉ s /\ utf8_valid s = true /\ exists m, s = ascii "{" ++ m ++ ascii "}";
}.

(** ** [str::trim]: the encodings of the Unicode white space *)
Definition white_space : list bytes :=
  map (map byte_of_Z)
    ([[9]; [10]; [11]; [12]; [13]; [32]; [194; 133]; [194; 160]; [225; 154; 128]; [226; 128; 168];
      [226; 128; 169]; [226; 128; 175]; [226; 129; 159]; [227; 128; 128]] ++
     map (λ k, [226; 128; k]) (seqZ 128 11)).

Fixpoint trim_start (fuel : nat) (s : bytes) : bytes :=
  match fuel with
  | O => s
  | S fuel =>
      match list_find (λ w, w `prefix_of` s) white_space with
      | Some (_, w) => trim_start fuel (drop (length w) s)
      | None => s
      end
  end.
Fixpoint trim_end (fuel : nat) (s : bytes) : bytes :=
  match fuel with
  | O => s
  | S fuel =>
      match list_find (λ w, w `suffix_of` s) white_space with
      | Some (_, w) => trim_end fuel (take (length s - length w) s)
      | None => s
      end
  end.
(** Each step removes a byte, so the length is fuel enough. *)
Definition trim (s : bytes) : bytes :=
  let s := trim_start (length s) s in trim_end (length s) s.

(** ** Lines: [read_line] until it returns 0 *)
Fixpoint lines (s : bytes) : list bytes :=
  match s with
  | [] => []
  | c :: s =>
      if decide (c = newline) then [c] :: lines s
      else match lines s with l :: ls => (c :: l) :: ls | [] => [[c]] end
  end.

Module ChainError.
Inductive t : Type := Open | Read | Parse | PrevMismatch | Reserialise | IdMismatch.
End ChainError.

Section transparency.
Context `{C : Curve} `{HX : Hex} `{J : Json}.

Definition genesis_id : bytes := replicate 64 (byte_of_Z 48).

(** The hash that [append] writes and [verify_chain] recomputes. *)
Definition event_hash (prev : bytes) (ts : Z) (event_json : bytes) : bytes :=
  hex_encode (sha256 (default [] (hex_decode prev) ++ le_bytes 16 ts ++ event_json)).

Record TransparencyLogger : Type := { tl_path : bytes; tl_last_event_id : bytes }.

(** One turn of the reading loops: the line must be UTF-8, blank lines are
    passed over. *)
Definition on_line {E A} (bad_utf8 : A -> E) (f : A -> bytes -> res E A) (a : A) (buf : bytes)
    : res E A :=
  if utf8_valid buf then
    let trimmed := trim buf in
    if bool_decide (trimmed = []) then Ok a else f a trimmed
  else Err (bad_utf8 a).
Definition over_lines {E A} (bad_utf8 : A -> E) (f : A -> bytes -> res E A) (a : A) (content : bytes)
    : res E A := res_fold (on_line bad_utf8 f) a (lines content).

Definition scan_line (last_id trimmed : bytes) : res io_error bytes :=
  Ok (match entry_from_string trimmed with Some entry => le_event_id entry | None => last_id end).
Definition collect_line (out : list LogEntry) (trimmed : bytes) : res io_error (list LogEntry) :=
  Ok (match entry_from_string trimmed with Some entry => out ++ [entry] | None => out end).

Definition scan_last_id (content : bytes) : res io_error bytes :=
  over_lines (λ _, OtherIo) scan_line genesis_id content.

(** [OpenOptions::new().create(true).append(true)] *)
Definition disk_open_append (path : bytes) (d : disk) : res io_error unit * disk :=
  let '(fault, d) := next_fault d in
  match fault with
  | Some _ => (Err OtherIo, d)
  | None => (Ok tt, set_files d (<[path := default [] (d_files d !! path)]> (d_files d)))
  end.
Definition disk_try_exists (path : bytes) (d : disk) : res io_error bool * disk :=
  let '(fault, d) := next_fault d in
  match fault with
  | Some _ => (Err OtherIo, d)
  | None => (Ok (bool_decide (is_Some (d_files d !! path))), d)
  end.

Definition TransparencyLogger_open (path : bytes) : io host io_error TransparencyLogger :=
  exists_ ← on_disk id (disk_try_exists path);
  last_id ←
    (if (exists_ : bool) then
       content ← on_disk id (disk_read path); lift (scan_last_id content)
     else mret genesis_id);
  _ ← on_disk id (disk_open_append path);
  mret {| tl_path := path; tl_last_event_id := last_id |}.

(** With double quotes in the code. *)
Definition serialise_failure : bytes :=
  (λ c, if decide (c = byte_of_Z 39) then byte_of_Z 34 else c) <$>
    ascii "{'type':'serialise_failure'}".

Definition TransparencyLogger_append (logger : TransparencyLogger) (event : TransparencyEvent.t)
    : io host io_error (bytes * TransparencyLogger) :=
  ts_unix_ms ← unix_ms_now;
  let event_json := default serialise_failure (event_to_string event) in
  let event_id := event_hash (tl_last_event_id logger) ts_unix_ms event_json in
  let entry := {| le_event_id := event_id; le_prev_event_id := tl_last_event_id logger;
                  le_ts_unix_ms := ts_unix_ms; le_event := event |} in
  line ← lift (ok_or OtherIo (entry_to_string entry));
  _ ← on_disk id (disk_append (tl_path logger) (line ++ [newline]));
  mret (event_id, {| tl_path := tl_path logger; tl_last_event_id := event_id |}).

(** One entry of the chain; the state is the expected predecessor and the
    count. *)
Definition verify_entry (st : bytes * Z) (trimmed : bytes) : res (Z * ChainError.t) (bytes * Z) :=
  let '(expected_prev, count) := st in
  entry ← ok_or (count, ChainError.Parse) (entry_from_string trimmed);
  _ ← reject_if (negb (bool_decide (le_prev_event_id entry = expected_prev)))
                (count, ChainError.PrevMismatch);
  event_json ← ok_or (count, ChainError.Reserialise) (event_to_string (le_event entry));
  let recomputed := event_hash (le_prev_event_id entry) (le_ts_unix_ms entry) event_json in
  _ ← reject_if (negb (bool_decide (recomputed = le_event_id entry)))
                (count, ChainError.IdMismatch);
  Ok (le_event_id entry, count + 1).

Definition verify_content (content : bytes) : res (Z * ChainError.t) Z :=
  st ← over_lines (λ st, (st.2, ChainError.Read)) verify_entry (genesis_id, 0) content; Ok st.2.

Definition verify_chain (path : bytes) : io host (Z * ChainError.t) Z :=
  content ← on_disk (λ _, (0, ChainError.Open)) (disk_read path);
  lift (verify_content content).

Definition entries_of (content : bytes) : res io_error (list LogEntry) :=
  over_lines (λ _, OtherIo) collect_line [] content.

Definition read_all (path : bytes) : io host io_error (list LogEntry) :=
  content ← on_disk id (disk_read path); lift (entries_of content).
End transparency.

(** ** Lemmas *)

(** *** Lines and blanks *)
Lemma lines_app_newline l s : newline ∉ l -> lines (l ++ newline :: s) = (l ++ [newline]) :: lines s.
Proof.
  induction l as [|c l IH]; intros Hl; cbn [app lines]; [by rewrite decide_True|].
  apply not_elem_of_cons in Hl as [Hc Hl]. rewrite decide_False by congruence. by rewrite IH.
Qed.

(** Whole lines: empty, or ending with a newline. *)
Definition complete (s : bytes) : Prop := s = [] \/ last s = Some newline.

Lemma lines_app s1 s2 : complete s1 -> lines (s1 ++ s2) = lines s1 ++ lines s2.
Proof.
  induction s1 as [|c s1 IH]; intros Hs; [done|]. cbn [app lines].
  destruct Hs as [Hs|Hs]; [done|].
  destruct s1 as [|d s1].
  - injection Hs as ->. cbn [app]. by rewrite decide_True.
  - rewrite IH by by right. destruct (decide (c = newline)) as [->|Hc]; [done|].
    destruct (lines (d :: s1)) as [|l ls] eqn:E; [|done].
    exfalso. revert E. cbn [lines]. destruct (decide (d = newline)); [done|].
    by destruct (lines s1).
Qed.

Lemma complete_app s l : complete (s ++ l ++ [newline]).
Proof. right. by rewrite app_assoc, last_snoc. Qed.

(** The white space that an object of one line ends or starts with. *)
Lemma white_space_head s : head s = Some (byte_of_Z 123) ->
  list_find (λ w, w `prefix_of` s) white_space = None.
Proof.
  intros Hs. apply list_find_None, Forall_forall. intros w Hw (k & ->).
  assert (Forall (λ w, head w <> None /\ head w <> Some (byte_of_Z 123)) white_space) as HF
    by (refine (bool_decide_eq_true_1 _ _); vm_compute; reflexivity).
  rewrite Forall_forall in HF. destruct (HF w Hw) as [H1 H2]. by destruct w.
Qed.

Lemma white_space_last s c : last s = Some c -> c = byte_of_Z 125 \/ c = newline ->
  list_find (λ w, w `suffix_of` s) white_space =
    if decide (c = newline) then Some (1%nat, [newline]) else None.
Proof.
  intros Hs Hc. apply last_Some in Hs as [m ->].
  assert (Forall (λ w, w = [newline] \/
    last w <> None /\ last w <> Some newline /\ last w <> Some (byte_of_Z 125)) white_space) as HF
    by (refine (bool_decide_eq_true_1 _ _); vm_compute; reflexivity).
  rewrite Forall_forall in HF.
  assert (forall w, w ∈ white_space -> w <> [newline] -> ~ w `suffix_of` m ++ [c]) as Hno.
  { intros w Hw Hne (k & E). destruct (HF w Hw) as [|(H0 & H1 & H2)]; [done|].
    destruct w as [|b w _] using rev_ind; [done|]. rewrite last_snoc in *.
    rewrite app_assoc in E. apply app_inj_tail in E as [_ ->]. naive_solver. }
  destruct (decide (c = newline)) as [->|Hne].
  - apply list_find_Some. split_and!; [done|by exists m|].
    intros j w Hj Hlt. apply Hno; [by eapply list_elem_of_lookup_2|].
    destruct j; [|lia]. injection Hj as <-. done.
  - apply list_find_None, Forall_forall. intros w Hw. destruct (decide (w = [newline])) as [->|Hw'].
    + intros (k & E). apply app_inj_tail in E as [_ ->]. done.
    + by apply Hno.
Qed.

Lemma trim_line m : let s := ascii "{" ++ m ++ ascii "}" in trim (s ++ [newline]) = s.
Proof.
  intros s. assert (last s = Some (byte_of_Z 125)) as Hl by (unfold s; rewrite app_assoc; apply (last_snoc (byte_of_Z 125))).
  unfold trim. assert (forall t, head t = Some (byte_of_Z 123) -> trim_start (length t) t = t) as Hstart.
  { intros t Ht. destruct (length t); [done|]. cbn [trim_start]. by rewrite white_space_head. }
  rewrite Hstart by done. rewrite length_app, Nat.add_comm. cbn [length Nat.add trim_end].
  rewrite (white_space_last _ newline) by (by rewrite last_snoc || right).
  rewrite decide_True by done. cbn [length]. rewrite length_app. cbn [length].
  rewrite Nat.add_sub, take_app_length. destruct (length s) as [|k]; [done|]. cbn [trim_end].
  rewrite (white_space_last _ (byte_of_Z 125)) by (done || by left). by rewrite decide_False.
Qed.

Section log_lemmas.
Context `{CO : CurveOk} {HX : Hex} {HOk : HexOk HX} {J : Json} {JOk : JsonOk J}.

Definition json_of (e : TransparencyEvent.t) : bytes := default serialise_failure (event_to_string e).

(** The chain that [verify_chain] accepts, from the predecessor [prev]. *)
Fixpoint linked (prev : bytes) (es : list LogEntry) : Prop :=
  match es with
  | [] => True
  | e :: es =>
      le_prev_event_id e = prev /\
      le_event_id e = event_hash prev (le_ts_unix_ms e) (json_of (le_event e)) /\
      linked (le_event_id e) es
  end.
Definition last_id_from (prev : bytes) (es : list LogEntry) : bytes :=
  default prev (le_event_id <$> last es).
Definition last_id (es : list LogEntry) : bytes := last_id_from genesis_id es.

Lemma last_id_from_cons prev e es : last_id_from prev (e :: es) = last_id_from (le_event_id e) es.
Proof.
  unfold last_id_from. destruct es as [|e' es]; [done|].
  change (last (e :: e' :: es)) with (last (e' :: es)).
  destruct (last (e' :: es)) eqn:E; [done|]. by apply last_None in E.
Qed.

Lemma last_id_snoc es e : last_id (es ++ [e]) = le_event_id e.
Proof. unfold last_id, last_id_from. by rewrite last_snoc. Qed.

Lemma linked_app prev es1 es2 :
  linked prev (es1 ++ es2) <-> linked prev es1 /\ linked (last_id_from prev es1) es2.
Proof.
  revert prev; induction es1 as [|e es1 IH]; intros prev; [by split; [|intros []]|].
  cbn [app linked]. rewrite IH, last_id_from_cons. tauto.
Qed.

Lemma over_lines_app {E A} (bad : A -> E) f a c1 c2 : complete c1 ->
  over_lines bad f a (c1 ++ c2) = (a ← over_lines bad f a c1; over_lines bad f a c2).
Proof. intros Hc. unfold over_lines. by rewrite lines_app, res_fold_app. Qed.

Lemma over_lines_entry {E A} (bad : A -> E) f a e s : entry_to_string e = Some s ->
  over_lines bad f a (s ++ [newline]) = f a s.
Proof.
  intros He. destruct (entry_line e s He) as (Hn & Hu & m & ->). unfold over_lines.
  rewrite lines_app_newline by done. cbn [lines res_fold]. unfold on_line. rewrite utf8_valid_app by done.
  rewrite trim_line. rewrite bool_decide_false by (intros H; by apply app_eq_nil in H as [H _]).
  by destruct (f a _).
Qed.

Lemma verify_entry_ok prev n e s : entry_from_string s = Some e ->
  forall st, verify_entry (prev, n) s = Ok st <->
    le_prev_event_id e = prev /\
    le_event_id e = event_hash prev (le_ts_unix_ms e) (json_of (le_event e)) /\
    st = (le_event_id e, n + 1).
Proof.
  intros He st. unfold verify_entry, json_of. rewrite He. cbn [ok_or mbind res_bind].
  destruct (event_to_string_total (le_event e)) as [js Hjs]. rewrite Hjs. cbn [ok_or default mbind res_bind].
  destruct (decide (le_prev_event_id e = prev)) as [->|Hp].
  - rewrite (bool_decide_eq_true_2 (prev = prev)) by done. step.
    destruct (decide (event_hash prev (le_ts_unix_ms e) js = le_event_id e)) as [E|E].
    + rewrite (bool_decide_eq_true_2 _ E). step. naive_solver.
    + rewrite (bool_decide_eq_false_2 _ E). step. naive_solver.
  - rewrite (bool_decide_eq_false_2 _ Hp). step. naive_solver.
Qed.

(** What acceptance means: the entries that [read_all] returns are linked. *)
Lemma verify_fold ls prev n out st :
  res_fold (on_line (λ st, (st.2, ChainError.Read)) verify_entry) (prev, n) ls = Ok st ->
  exists es, res_fold (on_line (λ _, OtherIo) collect_line) out ls = Ok (out ++ es) /\
    linked prev es /\ Forall (λ e, u128 (le_ts_unix_ms e)) es /\
    st = (last_id_from prev es, n + Z.of_nat (length es)).
Proof.
  revert prev n out; induction ls as [|l ls IH]; intros prev n out; cbn [res_fold].
  { intros [= <-]. exists []. rewrite app_nil_r. split_and!; [done|done|constructor|].
    cbn. by rewrite Z.add_0_r. }
  unfold on_line at 2 4. destruct (utf8_valid l); [|done]. cbn zeta.
  destruct (bool_decide (trim l = [])); [apply IH|].
  destruct (entry_from_string (trim l)) as [e|] eqn:He; [|unfold verify_entry; by rewrite He].
  assert (collect_line out (trim l) = Ok (out ++ [e])) as -> by (unfold collect_line; by rewrite He).
  intros H. apply bind_ok_inv in H as (st' & H1 & H).
  apply (verify_entry_ok _ _ e) in H1 as (Hp & Hi & ->); [|done].
  destruct (IH _ _ (out ++ [e]) H) as (es & Hes & Hl & Hu & ->). exists (e :: es).
  cbn [mbind res_bind]. rewrite Hes, <- app_assoc. split_and!; [done|done| |].
  - constructor; [by eapply entry_from_typed|done].
  - rewrite last_id_from_cons. f_equal. cbn [length]. lia.
Qed.

Lemma verify_content_ok c n : verify_content c = Ok n ->
  exists es, entries_of c = Ok es /\ linked genesis_id es /\
    Forall (λ e, u128 (le_ts_unix_ms e)) es /\ n = Z.of_nat (length es) /\
    over_lines (λ st, (st.2, ChainError.Read)) verify_entry (genesis_id, 0) c = Ok (last_id es, n).
Proof.
  unfold verify_content. intros H. apply bind_ok_inv in H as (st & H & [= <-]).
  destruct (verify_fold _ _ _ [] _ H) as (es & He & Hl & Hu & ->). by exists es.
Qed.

Lemma scan_fold ls out l : last_id out = l ->
  res_fold (on_line (λ _, OtherIo) scan_line) l ls =
  last_id <$> res_fold (on_line (λ _, OtherIo) collect_line) out ls.
Proof.
  revert out l; induction ls as [|s ls IH]; intros out l Hl; cbn [res_fold]; [by rewrite <- Hl|].
  unfold on_line at 2 4. destruct (utf8_valid s); [|done]. cbn zeta.
  destruct (bool_decide (trim s = [])); [by apply IH|].
  apply (IH (match entry_from_string (trim s) with Some e => out ++ [e] | None => out end)).
  destruct (entry_from_string (trim s)); [|done]. by rewrite last_id_snoc.
Qed.

Lemma scan_last_id_eq c : scan_last_id c = last_id <$> entries_of c.
Proof. by apply scan_fold. Qed.

(** *** Writing *)
Definition content_at (path : bytes) (h : host) : bytes := default [] (files h !! path).

(** A log of whole lines that verifies. *)
Record chain (path : bytes) (h : host) (es : list LogEntry) : Prop := {
  ch_complete : complete (content_at path h);
  ch_entries : entries_of (content_at path h) = Ok es;
  ch_verifies : verify_content (content_at path h) = Ok (Z.of_nat (length es));
}.

Lemma content_insert path h c : content_at path (with_files h (<[path := c]> (files h))) = c.
Proof. unfold content_at, with_files, files. cbn. by rewrite lookup_insert_eq. Qed.

Lemma append_content c es e s : complete c -> entries_of c = Ok es ->
  verify_content c = Ok (Z.of_nat (length es)) -> u128 (le_ts_unix_ms e) ->
  le_prev_event_id e = last_id es ->
  le_event_id e = event_hash (last_id es) (le_ts_unix_ms e) (json_of (le_event e)) ->
  entry_to_string e = Some s ->
  entries_of (c ++ s ++ [newline]) = Ok (es ++ [e]) /\
  verify_content (c ++ s ++ [newline]) = Ok (Z.of_nat (length (es ++ [e]))).
Proof.
  intros Hc He Hv Hts Hp Hi Hs. split.
  - unfold entries_of at 1. rewrite over_lines_app by done. fold (entries_of c). rewrite He. cbn [mbind res_bind].
    rewrite (over_lines_entry _ _ _ e) by done. unfold collect_line.
    by rewrite (entry_from_to e s).
  - destruct (verify_content_ok _ _ Hv) as (es' & He' & _ & _ & Hn & Hfold).
    rewrite He in He'. injection He' as <-.
    unfold verify_content. rewrite over_lines_app, Hfold by done. cbn [mbind res_bind].
    rewrite (over_lines_entry _ _ _ e) by done.
    destruct (verify_entry (last_id es, Z.of_nat (length es)) s) as [st|er|] eqn:Hve.
    + apply (verify_entry_ok _ _ e) in Hve as (_ & _ & ->); [|by apply entry_from_to].
      cbn. f_equal. rewrite length_app. cbn. lia.
    + assert (verify_entry (last_id es, Z.of_nat (length es)) s =
        Ok (le_event_id e, Z.of_nat (length es) + 1)) as E; [|by rewrite E in Hve].
      apply (verify_entry_ok _ _ e); [by apply entry_from_to|done].
    + assert (verify_entry (last_id es, Z.of_nat (length es)) s =
        Ok (le_event_id e, Z.of_nat (length es) + 1)) as E; [|by rewrite E in Hve].
      apply (verify_entry_ok _ _ e); [by apply entry_from_to|done].
Qed.

Lemma unix_ms_u128 t : t < 2 ^ 128 -> u128 (unix_ms t).
Proof.
  intros Ht. unfold unix_ms, u128, in_width. destruct (Z.ltb_spec t 0); [lia|].
  Z.to_euclidean_division_equations. lia.
Qed.

Lemma run_append logger event h es : no_faults h -> h_unix h < 2 ^ 128 ->
  chain (tl_path logger) h es -> tl_last_event_id logger = last_id es ->
  exists e h', let logger' := {| tl_path := tl_path logger; tl_last_event_id := le_event_id e |} in
    run (TransparencyLogger_append logger event) h = (Ok (le_event_id e, logger'), h') /\
    le_event e = event /\ no_faults h' /\ h_unix h' = h_unix h /\
    is_Some (files h' !! tl_path logger) /\ chain (tl_path logger) h' (es ++ [e]).
Proof.
  intros Hf Ht [Hc He Hv] Hl. set (ts := unix_ms (h_unix h)).
  set (e := {| le_event_id := event_hash (last_id es) ts (json_of event);
               le_prev_event_id := last_id es; le_ts_unix_ms := ts; le_event := event |}).
  destruct (entry_to_string_total e) as [s Hs].
  destruct (append_content _ es e s Hc He Hv) as [He' Hv']; [by apply unix_ms_u128|done..|].
  unfold TransparencyLogger_append. rewrite run_bind. unfold unix_ms_now, reads_state.
  rewrite run_atomically. cbn [fst snd]. rewrite run_bind, run_lift, Hl. fold ts. fold (json_of event).
  fold e. rewrite Hs. cbn [ok_or]. rewrite run_bind, run_disk_append by done.
  exists e, (with_files h (<[tl_path logger := content_at (tl_path logger) h ++ s ++ [newline]]> (files h))).
  split; [done|]. split_and!; [done|done|done| |].
  - exists (content_at (tl_path logger) h ++ s ++ [newline]). apply lookup_insert_eq.
  - split; rewrite content_insert; [apply complete_app|done|done].
Qed.

Lemma run_try_exists {E} (f : io_error -> E) p h : no_faults h ->
  run (on_disk f (disk_try_exists p)) h = (Ok (bool_decide (is_Some (files h !! p))), h).
Proof.
  unfold no_faults, on_disk, disk_try_exists, next_fault, files. destruct h as [[m l] r i u]. cbn.
  by intros ->.
Qed.

Lemma run_open_append {E} (f : io_error -> E) p h : no_faults h ->
  run (on_disk f (disk_open_append p)) h = (Ok tt, with_files h (<[p := content_at p h]> (files h))).
Proof.
  unfold no_faults, on_disk, disk_open_append, next_fault, content_at, files, with_files, set_disk, set_files.
  destruct h as [[m l] r i u]. cbn. by intros ->.
Qed.

Lemma run_open path h es : no_faults h -> chain path h es ->
  exists h', run (TransparencyLogger_open path) h =
    (Ok {| tl_path := path; tl_last_event_id := last_id es |}, h') /\
    no_faults h' /\ h_unix h' = h_unix h /\ is_Some (files h' !! path) /\
    content_at path h' = content_at path h.
Proof.
  intros Hf [_ He _]. unfold TransparencyLogger_open.
  rewrite run_bind, run_try_exists by done.
  exists (with_files h (<[path := content_at path h]> (files h))). split; cycle 1.
  { split_and!; [done|done|exists (content_at path h); apply lookup_insert_eq|apply content_insert]. }
  assert (scan_last_id (content_at path h) = Ok (last_id es)) as Hs by (by rewrite scan_last_id_eq, He).
  rewrite run_bind. destruct (files h !! path) as [c|] eqn:Hc.
  - rewrite bool_decide_true by done. rewrite run_bind, run_disk_read by done. rewrite Hc. cbn [ok_or map_err].
    unfold content_at in Hs. rewrite Hc in Hs. change (default [] (Some c)) with c in Hs. rewrite run_lift, Hs.
    by rewrite run_bind, run_open_append.
  - rewrite bool_decide_false by (by intros [? ?]).
    unfold content_at in Hs. rewrite Hc in Hs. injection Hs as Hs. cbn [run mret io_ret].
    rewrite run_bind, run_open_append by done. cbn [run mret io_ret]. by rewrite <- Hs.
Qed.
End log_lemmas.

(** A run of the daemon on its log: open, then append at the given times. *)
Section log_session.
Context `{C : Curve} `{HX : Hex} `{J : Json}.

Definition set_unix (h : host) (t : Z) : host :=
  {| h_disk := h_disk h; h_rng := h_rng h; h_instant := h_instant h; h_unix := t |}.

Fixpoint append_all (logger : TransparencyLogger) (l : list (Z * TransparencyEvent.t))
    : io host io_error TransparencyLogger :=
  match l with
  | [] => mret logger
  | (t, event) :: l =>
      _ ← updates (λ h, set_unix h t);
      r ← TransparencyLogger_append logger event;
      append_all r.2 l
  end.

Definition log_session (path : bytes) (l : list (Z * TransparencyEvent.t))
    : io host io_error TransparencyLogger :=
  logger ← TransparencyLogger_open path; append_all logger l.
End log_session.

Section log_properties.
Context `{CO : CurveOk} {HX : Hex} {HOk : HexOk HX} {J : Json} {JOk : JsonOk J}.

Lemma run_append_all logger l h es : no_faults h -> chain (tl_path logger) h es ->
  tl_last_event_id logger = last_id es -> is_Some (files h !! tl_path logger) ->
  Forall (λ x, x.1 < 2 ^ 128) l ->
  exists es' h', run (append_all logger l) h =
      (Ok {| tl_path := tl_path logger; tl_last_event_id := last_id (es ++ es') |}, h') /\
    le_event <$> es' = l.*2 /\ no_faults h' /\ is_Some (files h' !! tl_path logger) /\
    chain (tl_path logger) h' (es ++ es').
Proof.
  revert logger h es; induction l as [|[t event] l IH]; intros logger h es Hf Hch Hl Hs Ht.
  - exists [], h. rewrite app_nil_r. split_and!; [|done..]. cbn. rewrite <- Hl. by destruct logger.
  - apply Forall_cons in Ht as [Ht Hts]. cbn [append_all]. rewrite run_bind. unfold updates.
    rewrite run_atomically. cbn [fst snd].
    assert (chain (tl_path logger) (set_unix h t) es) as Hch' by (destruct Hch; by split).
    destruct (run_append logger event (set_unix h t) es) as (e & h1 & Hr & He & Hf1 & _ & Hs1 & Hc1);
      [done..|]. rewrite run_bind, Hr. cbn [snd].
    edestruct (IH {| tl_path := tl_path logger; tl_last_event_id := le_event_id e |} h1 (es ++ [e]))
      as (es' & h' & Hr' & He' & Hf' & Hs' & Hc'); [done|done|by rewrite last_id_snoc|done..|].
    rewrite <- app_assoc in Hr', Hc'. exists (e :: es'), h'. split_and!; [done| |done..].
    cbn. by rewrite He, <- He'.
Qed.

(** The log a daemon writes verifies. Opened on a file of whole lines that
    verifies (or on none) and appended to at any times, on a disk without
    faults, the file verifies with all its entries, [read_all] returns the old
    entries and then one for each event in order, and the next start of the
    daemon resumes at the same entry. *)
Theorem log_session_verifies path h es l :
  no_faults h -> chain path h es -> Forall (λ x, x.1 < 2 ^ 128) l ->
  exists logger h' es',
    run (log_session path l) h = (Ok logger, h') /\
    le_event <$> es' = l.*2 /\
    run (verify_chain path) h' = (Ok (Z.of_nat (length (es ++ es'))), h') /\
    run (read_all path) h' = (Ok (es ++ es'), h') /\
    (run (TransparencyLogger_open path) h').1 = Ok logger.
Proof.
  intros Hf Hch Ht. destruct (run_open path h es Hf Hch) as (h1 & Hr & Hf1 & _ & Hs1 & Hc1).
  destruct (run_append_all {| tl_path := path; tl_last_event_id := last_id es |} l h1 es)
    as (es' & h' & Hr' & He' & Hf' & [c Hs'] & Hc'); [done| |done..|].
  { cbn [tl_path]. destruct Hch. by split; rewrite Hc1. }
  cbn [tl_path] in *. pose proof Hc' as [_ Hen Hve].
  unfold content_at in Hen, Hve. rewrite Hs' in Hen, Hve.
  change (default [] (Some c)) with c in Hen, Hve.
  destruct (run_open path h' _ Hf' Hc') as (h2 & Hr2 & _).
  eexists _, h', es'. split; [unfold log_session; rewrite run_bind, Hr; exact Hr'|].
  split; [done|]. unfold verify_chain, read_all. rewrite !run_bind, !run_disk_read by done.
  rewrite Hs'. cbn [ok_or map_err]. rewrite !run_lift. by rewrite Hve, Hen, Hr2.
Qed.

(** *** Tampering *)
Lemma genesis_decode : hex_decode genesis_id = Some (replicate 32 (byte_of_Z 0)).
Proof. apply (hex_decode_zeros 32). Qed.

Lemma hash_input p1 ts1 js1 p2 ts2 js2 : u128 ts1 -> u128 ts2 -> length p1 = 32%nat ->
  length p2 = 32%nat -> p1 ++ le_bytes 16 ts1 ++ js1 = p2 ++ le_bytes 16 ts2 ++ js2 ->
  p1 = p2 /\ ts1 = ts2 /\ js1 = js2.
Proof.
  intros H1 H2 Hl1 Hl2 E. apply app_inj_1 in E as [-> E]; [|by rewrite Hl1].
  apply app_inj_1 in E as [E ->]; [|by rewrite !length_le_bytes].
  apply le_bytes_inj in E; done.
Qed.

(** The identifier of the last entry, or of the genesis, is 32 bytes. *)
Lemma linked_last es : linked genesis_id es ->
  exists b, hex_decode (last_id es) = Some b /\ length b = 32%nat /\
    (es = [] \/ last_id es = hex_encode b).
Proof.
  destruct es as [|e es _] using rev_ind; intros Hl.
  - exists (replicate 32 (byte_of_Z 0)). split_and!; [apply genesis_decode|done|by left].
  - rewrite last_id_snoc. apply linked_app in Hl as (_ & _ & -> & _). eexists.
    split_and!; [apply hex_decode_encode|apply sha256_length|by right].
Qed.

(** The bytes that an entry's identifier is the hash of. *)
Definition entry_input (e : LogEntry) : bytes :=
  default [] (hex_decode (le_prev_event_id e)) ++ le_bytes 16 (le_ts_unix_ms e) ++ json_of (le_event e).

(** Two entries, one of each log, that hash alike from different inputs; an
    entry that hashes to the genesis identifier. *)
Definition logs_collide (es1 es2 : list LogEntry) : Prop :=
  exists e1 e2, e1 ∈ es1 /\ e2 ∈ es2 /\ entry_input e1 <> entry_input e2 /\
    sha256 (entry_input e1) = sha256 (entry_input e2).
Definition hits_genesis (es : list LogEntry) : Prop :=
  exists e, e ∈ es /\ sha256 (entry_input e) = replicate 32 (byte_of_Z 0).

Lemma linked_snoc es e : linked genesis_id (es ++ [e]) <->
  linked genesis_id es /\ le_prev_event_id e = last_id es /\
  le_event_id e = hex_encode (sha256 (entry_input e)).
Proof.
  rewrite linked_app. fold (last_id es). cbn [linked]. unfold entry_input, event_hash.
  split; [intros (? & Hp & Hi & _)|intros (? & Hp & Hi)]; rewrite Hp in *; by split_and?.
Qed.

Lemma genesis_reached es : linked genesis_id es -> last_id es = genesis_id -> es = [] \/ hits_genesis es.
Proof.
  destruct es as [|e es _] using rev_ind; intros Hl Hg; [by left|right].
  rewrite last_id_snoc in Hg. apply linked_snoc in Hl as (_ & _ & Hi). exists e.
  split; [apply elem_of_app; right; by left|]. rewrite Hi in Hg. apply (f_equal hex_decode) in Hg.
  rewrite hex_decode_encode, genesis_decode in Hg. by injection Hg.
Qed.

Lemma last_id_decoded es1 es2 : linked genesis_id es1 -> linked genesis_id es2 ->
  hex_decode (last_id es1) = hex_decode (last_id es2) ->
  last_id es1 = last_id es2 \/ hits_genesis (es1 ++ es2).
Proof.
  intros L1 L2 D. assert (forall es, linked genesis_id es ->
      es = [] \/ exists x, x ∈ es /\ last_id es = hex_encode (sha256 (entry_input x))) as Hl.
  { intros es. destruct es as [|x es _] using rev_ind; [by left|]. intros (_ & _ & E)%linked_snoc. right.
    exists x. rewrite last_id_snoc. split; [apply elem_of_app; right; by left|done]. }
  assert (hex_decode (last_id []) = Some (replicate 32 (byte_of_Z 0))) as G by apply genesis_decode.
  destruct (Hl _ L1) as [->|(x1 & X1 & E1)], (Hl _ L2) as [->|(x2 & X2 & E2)]; [by left|..].
  - right. exists x2. rewrite E2, hex_decode_encode, G in D. split; [by apply elem_of_app; right|congruence].
  - right. exists x1. rewrite E1, hex_decode_encode, G in D. split; [by apply elem_of_app; left|congruence].
  - left. rewrite E1, E2, !hex_decode_encode in D. rewrite E1, E2. congruence.
Qed.

Lemma linked_same_last es1 es2 : linked genesis_id es1 -> linked genesis_id es2 ->
  Forall (λ e, u128 (le_ts_unix_ms e)) es1 -> Forall (λ e, u128 (le_ts_unix_ms e)) es2 ->
  last_id es1 = last_id es2 ->
  es1 = es2 \/ logs_collide es1 es2 \/ hits_genesis (es1 ++ es2).
Proof.
  revert es2; induction es1 as [|e1 es1 IH] using rev_ind; intros es2 H1 H2 T1 T2 Hl.
  { destruct (genesis_reached es2) as [->|]; auto. }
  destruct es2 as [|e2 es2 _] using rev_ind.
  { rewrite app_nil_r. destruct (genesis_reached (es1 ++ [e1])) as [|]; auto. }
  rewrite !last_id_snoc in Hl.
  apply linked_snoc in H1 as (L1 & P1 & I1). apply linked_snoc in H2 as (L2 & P2 & I2).
  apply Forall_app in T1 as [T1 [U1 _]%Forall_cons]. apply Forall_app in T2 as [T2 [U2 _]%Forall_cons].
  pose proof Hl as Hh. rewrite I1, I2 in Hh. apply hex_encode_inj in Hh.
  destruct (decide (entry_input e1 = entry_input e2)) as [E|E];
    [|right; left; exists e1, e2; split_and!; [set_solver..|done|done]].
  unfold entry_input in E. rewrite P1, P2 in E.
  destruct (linked_last es1 L1) as (b1 & D1 & B1 & _), (linked_last es2 L2) as (b2 & D2 & B2 & _).
  rewrite D1, D2 in E. cbn [from_option id] in E. apply hash_input in E as (-> & Hts & Hj); [|done..].
  assert (le_event e1 = le_event e2) as Hev.
  { apply event_to_string_inj. unfold json_of in Hj.
    destruct (event_to_string_total (le_event e1)) as [j1 E1], (event_to_string_total (le_event e2)) as [j2 E2].
    rewrite E1, E2 in *. cbn in Hj. by rewrite Hj. }
  destruct (last_id_decoded es1 es2) as [Hp|Hz]; [done|done|congruence| |].
  - destruct (IH es2) as [->|[(x & y & Hx & Hy & Hc)|(x & Hx & Hc)]]; [done..| | |].
    + left. f_equal. f_equal. destruct e1, e2. cbn in *. congruence.
    + right; left. exists x, y. set_solver.
    + right; right. exists x. set_solver.
  - destruct Hz as (x & Hx & Hc). right; right. exists x. set_solver.
Qed.

(** C36: the last identifier commits to the whole log. Two files that verify
    and whose last entries carry the same identifier hold the same entries;
    the only ways out are in the two logs themselves: two of their entries,
    one of each log, have the same SHA-256 from different inputs, or an entry
    of one of them hashes to the 32 zero bytes that stand for the genesis. *)
Theorem log_tamper_evident c1 c2 n1 n2 es1 es2 :
  verify_content c1 = Ok n1 -> verify_content c2 = Ok n2 ->
  entries_of c1 = Ok es1 -> entries_of c2 = Ok es2 -> last_id es1 = last_id es2 ->
  es1 = es2 \/ logs_collide es1 es2 \/ hits_genesis (es1 ++ es2).
Proof.
  intros (es1' & E1 & L1 & T1 & _)%verify_content_ok (es2' & E2 & L2 & T2 & _)%verify_content_ok H1 H2.
  rewrite E1 in H1. rewrite E2 in H2. injection H1 as <-. injection H2 as <-. by apply linked_same_last.
Qed.

(** What the chain does not show: entries cut off at the end. *)
Lemma truncated_log_verifies c s e es : complete c -> entries_of (c ++ s) = Ok (es ++ [e]) ->
  entries_of c = Ok es -> verify_content (c ++ s) = Ok (Z.of_nat (length (es ++ [e]))) ->
  verify_content c = Ok (Z.of_nat (length es)).
Proof.
  intros Hc _ He H. unfold verify_content in H. rewrite over_lines_app in H by done.
  apply bind_ok_inv in H as (st' & H & _). apply bind_ok_inv in H as (st & H & _).
  destruct (verify_fold _ _ _ [] _ H) as (es' & He' & _ & _ & ->).
  cbn [app] in He'. unfold entries_of, over_lines in He. rewrite He' in He. injection He as ->.
  unfold verify_content, over_lines in *. by rewrite H.
Qed.
End log_properties.

(** ** Concrete instances

    A line format for the witnesses: the fields of an entry, encoded as a
    number in binary, between braces. *)
Definition z_of_bytes (s : bytes) : list Z := Z_of_byte <$> s.
Definition bytes_of_z (l : list Z) : bytes := byte_of_Z <$> l.
Lemma bytes_of_z_of_bytes s : bytes_of_z (z_of_bytes s) = s.
Proof.
  unfold bytes_of_z, z_of_bytes. rewrite <- list_fmap_compose. rewrite <- (list_fmap_id s) at 2.
  apply list_fmap_ext. intros _ b _. apply byte_of_Z_of_byte.
Qed.

Definition event_fields (e : TransparencyEvent.t) : list (list Z) :=
  match e with
  | TransparencyEvent.Boot op ad sl ks ep =>
      [[0]; z_of_bytes op; z_of_bytes ad; [if sl then 1 else 0];
       match ks with Some s => 1 :: z_of_bytes s | None => [] end; option_list ep]
  | TransparencyEvent.DkgStart c i n t => [[1]; z_of_bytes c; [i; n; t]]
  | TransparencyEvent.DkgFinalize c i pk q => [[2]; z_of_bytes c; [i]; z_of_bytes pk; q]
  | TransparencyEvent.ReshareStart c i n t => [[3]; z_of_bytes c; [i; n; t]]
  | TransparencyEvent.ReshareFinalize c i e => [[4]; z_of_bytes c; [i; e]]
  | TransparencyEvent.SignSessionStart s i => [[5]; z_of_bytes s; [i]]
  | TransparencyEvent.RefreshSessionStart s i k => [[6]; z_of_bytes s; [i; k]]
  | TransparencyEvent.ShareReload k e => [[7]; z_of_bytes k; [e]]
  end.
Definition event_of_fields (l : list (list Z)) : option TransparencyEvent.t :=
  match l with
  | [[0]; op; ad; [sl]; ks; ep] =>
      Some (TransparencyEvent.Boot (bytes_of_z op) (bytes_of_z ad) (sl =? 1)
              (match ks with _ :: s => Some (bytes_of_z s) | [] => None end) (head ep))
  | [[1]; c; [i; n; t]] => Some (TransparencyEvent.DkgStart (bytes_of_z c) i n t)
  | [[2]; c; [i]; pk; q] => Some (TransparencyEvent.DkgFinalize (bytes_of_z c) i (bytes_of_z pk) q)
  | [[3]; c; [i; n; t]] => Some (TransparencyEvent.ReshareStart (bytes_of_z c) i n t)
  | [[4]; c; [i; e]] => Some (TransparencyEvent.ReshareFinalize (bytes_of_z c) i e)
  | [[5]; s; [i]] => Some (TransparencyEvent.SignSessionStart (bytes_of_z s) i)
  | [[6]; s; [i; k]] => Some (TransparencyEvent.RefreshSessionStart (bytes_of_z s) i k)
  | [[7]; k; [e]] => Some (TransparencyEvent.ShareReload (bytes_of_z k) e)
  | _ => None
  end.
Lemma event_of_event_fields e : event_of_fields (event_fields e) = Some e.
Proof.
  destruct e as [op ad sl ks ep|c i n t|c i pk q|c i n t|c i e|s i|s i k|k e]; cbn;
    rewrite !bytes_of_z_of_bytes; try done.
  destruct sl, ks, ep; cbn; by rewrite ?bytes_of_z_of_bytes.
Qed.

Fixpoint bits (p : positive) : bytes :=
  match p with
  | xH => []
  | xO p => byte_of_Z 48 :: bits p
  | xI p => byte_of_Z 49 :: bits p
  end.
Definition of_bits (s : bytes) : positive :=
  foldr (λ b p, if decide (b = byte_of_Z 49) then xI p else xO p) xH s.
Lemma of_bits_bits p : of_bits (bits p) = p.
Proof. induction p as [p IH|p IH|]; cbn; [| |done]; by f_equal. Qed.
Lemma bits_ascii p : Forall (λ b, b = byte_of_Z 48 \/ b = byte_of_Z 49) (bits p).
Proof. induction p; cbn; constructor; auto. Qed.

Definition braces (l : list (list Z)) : bytes := ascii "{" ++ bits (encode l) ++ ascii "}".
Definition unbraces (s : bytes) : option (list (list Z)) :=
  decode (of_bits (take (length s - 2) (drop 1 s))).
Lemma unbraces_braces l : unbraces (braces l) = Some l.
Proof.
  unfold unbraces, braces. set (b := bits (encode l)).
  replace (length (ascii "{" ++ b ++ ascii "}") - 2)%nat with (length b)
    by (rewrite !length_app; change (length (ascii "{")) with 1%nat;
        change (length (ascii "}")) with 1%nat; lia).
  change (drop 1 (ascii "{" ++ b ++ ascii "}")) with (b ++ ascii "}").
  rewrite take_app_length. unfold b. by rewrite of_bits_bits, decode_encode.
Qed.
Lemma braces_line l : newline ∉ braces l /\ utf8_valid (braces l) = true.
Proof.
  unfold braces. pose proof (bits_ascii (encode l)) as H. induction H as [|b s [->| ->] _ [IH1 IH2]].
  - split; [|by vm_compute]. intros H%list_elem_of_In. vm_compute in H. by repeat destruct H as [H|H].
  - split; [|done]. intros [E|[E|H]%elem_of_cons]%elem_of_cons; [done|done|]. apply IH1. by right.
  - split; [|done]. intros [E|[E|H]%elem_of_cons]%elem_of_cons; [done|done|]. apply IH1. by right.
Qed.

Definition entry_fields (e : LogEntry) : list (list Z) :=
  z_of_bytes (le_event_id e) :: z_of_bytes (le_prev_event_id e) :: [le_ts_unix_ms e] ::
  event_fields (le_event e).
Definition toy_json : Json := {|
  event_to_string e := Some (braces (event_fields e));
  entry_to_string e := Some (braces (entry_fields e));
  entry_from_string s :=
    l ← unbraces s;
    match l with
    | i :: p :: [ts] :: ev =>
        if decide (u128 ts) then
          e ← event_of_fields ev;
          Some {| le_event_id := bytes_of_z i; le_prev_event_id := bytes_of_z p;
                  le_ts_unix_ms := ts; le_event := e |}
        else None
    | _ => None
    end;
|}.

Lemma toy_json_ok : JsonOk toy_json.
Proof.
  split; cbn [toy_json event_to_string entry_to_string entry_from_string].
  - by eexists.
  - intros e1 e2 E%(inj Some). apply (f_equal unbraces) in E. rewrite !unbraces_braces in E.
    injection E as E. apply (f_equal event_of_fields) in E. rewrite !event_of_event_fields in E. by injection E.
  - by eexists.
  - intros e s Ht [= <-]. rewrite unbraces_braces. cbn [mbind option_bind entry_fields].
    rewrite decide_True by done. rewrite event_of_event_fields. cbn. rewrite !bytes_of_z_of_bytes.
    by destruct e.
  - intros s e. destruct (unbraces s) as [[|i [|p [|[|ts [|]] ev]]]|]; cbn; try done.
    destruct (decide (u128 ts)); [|done]. destruct (event_of_fields ev); cbn; [|done]. by intros [= <-].
  - intros e s [= <-]. destruct (braces_line (entry_fields e)) as [H1 H2].
    split_and!; [done|done|]. by eexists.
Qed.

#[local] Existing Instance toy.
#[local] Existing Instance toy_ok.
#[local] Existing Instance toy_hex.
#[local] Existing Instance toy_hex_ok.
#[local] Existing Instance toy_json.
#[local] Existing Instance toy_json_ok.

Definition log_host : host :=
  {| h_disk := {| d_files := ∅; d_faults := [] |}; h_rng := (7 : @rng toy); h_instant := 0; h_unix := 0 |}.
Definition demo_events : list (Z * TransparencyEvent.t) :=
  [(1700000000000000000, TransparencyEvent.Boot (ascii "op") (ascii "0.0.0.0:1") false None (Some 1));
   (1700000001000000000, TransparencyEvent.SignSessionStart (ascii "00ff") 3)].

Lemma log_session_verifies_witness :
  exists logger h' es',
    run (log_session (ascii "t.log") demo_events) log_host = (Ok logger, h') /\
    le_event <$> es' = demo_events.*2 /\
    run (verify_chain (ascii "t.log")) h' = (Ok (Z.of_nat (length ([] ++ es'))), h') /\
    run (read_all (ascii "t.log")) h' = (Ok ([] ++ es'), h') /\
    (run (TransparencyLogger_open (ascii "t.log")) h').1 = Ok logger.
Proof.
  apply (log_session_verifies (ascii "t.log") log_host [] demo_events).
  - reflexivity.
  - split; [by left|reflexivity|reflexivity].
  - repeat (apply Forall_cons; split; [reflexivity|]). constructor.
Defined.

Definition demo_log : bytes :=
  default [] (files (run (log_session (ascii "t.log") demo_events) log_host).2 !! ascii "t.log").
Definition demo_entries : list LogEntry :=
  match entries_of demo_log with Ok es => es | _ => [] end.

(** The same log with blank lines and spaces around its entries: another file. *)
Definition padded_log : bytes := newline :: ascii "  " ++ demo_log ++ [newline].
Definition padded_entries : list LogEntry :=
  match entries_of padded_log with Ok es => es | _ => [] end.

Lemma log_tamper_evident_witness :
  demo_log <> padded_log /\ length demo_entries = 2%nat /\
  (demo_entries = padded_entries \/ logs_collide demo_entries padded_entries \/
   hits_genesis (demo_entries ++ padded_entries)).
Proof.
  split; [intros H; apply (f_equal length) in H; revert H; vm_compute; discriminate|].
  split; [vm_refl|].
  apply (log_tamper_evident demo_log padded_log 2 2 demo_entries padded_entries); vm_refl.
Defined.
