(* ===== verification/Sessions.v ===== *)
(** * tardus-validator: in-flight sessions

    Models [crates/tardus-validator/src/{sign,refresh,dkg,reshare}_sessions.rs].
    The four files hold the same table, a map behind one mutex, over two kinds
    of entries; each method is one critical section.  Times are nanoseconds.
    A prune loop is a task that calls [prune] at every tick. *)
From S2P Require Import Prelude Crypto Async Poly MintBase Vss Sign Dkg Rotation Refresh.

(** [duration_since], zero when the clock has not advanced. *)
Definition duration_since (now earlier : Z) : Z := sat_sub now earlier.

Section table.
Context {K E : Type} `{Countable K} (created_at : E -> Z).

(** [insert] and [start] *)
Definition table_insert (id : K) (entry : E) (map : gmap K E) : res unit unit * gmap K E :=
  if bool_decide (is_Some (map !! id)) then (Err tt, map) else (Ok tt, <[id := entry]> map).
Definition table_take (id : K) (map : gmap K E) : option E * gmap K E :=
  (map !! id, delete id map).
Definition table_len (map : gmap K E) : Z := Z.of_nat (size map).
Definition table_is_empty (map : gmap K E) : bool := bool_decide (map = ∅).
Definition table_prune (ttl now : Z) (map : gmap K E) : Z * gmap K E :=
  let before := table_len map in
  let map := filter (λ e, duration_since now (created_at e.2) < ttl) map in
  (before - table_len map, map).
End table.

(** ** sign_sessions.rs, refresh_sessions.rs *)
Definition secs (n : Z) : Z := n * 1000000000.
Definition DEFAULT_SESSION_TTL : Z := secs 300.
Definition DEFAULT_REFRESH_TTL : Z := secs 300.

Section nonce_sessions.
Context `{C : Curve}.

Record SignSessionEntry : Type := { se_state : ValidatorR1State; se_created_at : Z }.
Definition SignSessions : Type := gmap SessionId SignSessionEntry.
Definition SignSessions_new : SignSessions := ∅.
Definition SignSessions_insert (entry : SignSessionEntry) (map : SignSessions) :=
  table_insert (v1s_session_id (se_state entry)) entry map.
Definition SignSessions_take (id : SessionId) (map : SignSessions) := table_take id map.
Definition SignSessions_len (map : SignSessions) : Z := table_len map.
Definition SignSessions_prune (ttl now : Z) (map : SignSessions) :=
  table_prune se_created_at ttl now map.

Record RefreshSessionEntry : Type := { re_state : ValidatorRefreshState; re_created_at : Z }.
Definition RefreshSessions : Type := gmap SessionId RefreshSessionEntry.
Definition RefreshSessions_new : RefreshSessions := ∅.
Definition RefreshSessions_insert (entry : RefreshSessionEntry) (map : RefreshSessions) :=
  table_insert (vrs_session_id (re_state entry)) entry map.
Definition RefreshSessions_take (id : SessionId) (map : RefreshSessions) := table_take id map.
Definition RefreshSessions_len (map : RefreshSessions) : Z := table_len map.
Definition RefreshSessions_prune (ttl now : Z) (map : RefreshSessions) :=
  table_prune re_created_at ttl now map.
End nonce_sessions.

(** ** dkg_sessions.rs, reshare_sessions.rs

    [R1] is the own first round, [P] a contribution of a peer. *)
Definition DEFAULT_DKG_TTL : Z := secs 3600.
Definition DEFAULT_RESHARE_TTL : Z := secs 3600.

Record ceremony (R1 P : Type) : Type := {
  cs_my_round1 : R1;
  cs_n : Z;
  cs_peer_contributions : gmap Z P;
  cs_created_at : Z;
}.
Arguments cs_my_round1 {R1 P}. Arguments cs_n {R1 P}.
Arguments cs_peer_contributions {R1 P}. Arguments cs_created_at {R1 P}.

Section ceremonies.
Context {R1 P : Type}.
Abbreviation ceremonies := (gmap CeremonyId (ceremony R1 P)).

Definition ceremony_contribute (id : CeremonyId) (from_index : Z) (contribution : P)
    (map : ceremonies) : res unit Z * ceremonies :=
  match map !! id with
  | None => (Err tt, map)
  | Some sess =>
      let peers := <[from_index := contribution]> (cs_peer_contributions sess) in
      let sess := {| cs_my_round1 := cs_my_round1 sess; cs_n := cs_n sess;
                     cs_peer_contributions := peers; cs_created_at := cs_created_at sess |} in
      (Ok (Z.of_nat (size peers)), <[id := sess]> map)
  end.

(** [indexed.sort_by_key(|(i, _)| *i)] *)
Definition by_index : relation (Z * P) := λ a b, a.1 <= b.1.
#[global] Instance by_index_dec : RelDecision by_index.
Proof. intros a b. unfold by_index. apply _. Defined.
Definition ordered_contributions (m : gmap Z P) : list P := (merge_sort by_index (map_to_list m)).*2.

(** A session without enough contributions is put back. *)
Definition ceremony_take_finalisable (id : CeremonyId) (map : ceremonies)
    : res unit (R1 * list P * Z) * ceremonies :=
  match map !! id with
  | None => (Err tt, map)
  | Some sess =>
      let map' := delete id map in
      let required := wrap 16 (cs_n sess - 1) in
      if Z.of_nat (size (cs_peer_contributions sess)) <? required
      then (Err tt, <[id := sess]> map')
      else (Ok (cs_my_round1 sess, ordered_contributions (cs_peer_contributions sess), cs_n sess), map')
  end.
End ceremonies.

Section ceremony_sessions.
Context `{C : Curve}.

Definition DkgSession : Type := ceremony DkgRound1Output PeerContribution.
Definition DkgSessions : Type := gmap CeremonyId DkgSession.
Definition DkgSessions_start (id : CeremonyId) (sess : DkgSession) (map : DkgSessions) :=
  table_insert id sess map.
Definition DkgSessions_contribute (id : CeremonyId) (from_index : Z) (contribution : PeerContribution)
  (map : DkgSessions) := ceremony_contribute id from_index contribution map.
Definition DkgSessions_take_finalisable (id : CeremonyId) (map : DkgSessions) :=
  ceremony_take_finalisable id map.
Definition DkgSessions_prune (ttl now : Z) (map : DkgSessions) :=
  table_prune (cs_created_at (R1 := DkgRound1Output)) ttl now map.

Definition ReshareSession : Type := ceremony ReshareRound1Output ResharePeerContribution.
Definition ReshareSessions : Type := gmap CeremonyId ReshareSession.
Definition ReshareSessions_start (id : CeremonyId) (sess : ReshareSession) (map : ReshareSessions) :=
  table_insert id sess map.
Definition ReshareSessions_contribute (id : CeremonyId) (from_index : Z)
  (contribution : ResharePeerContribution) (map : ReshareSessions) :=
  ceremony_contribute id from_index contribution map.
Definition ReshareSessions_take_finalisable (id : CeremonyId) (map : ReshareSessions) :=
  ceremony_take_finalisable id map.
Definition ReshareSessions_prune (ttl now : Z) (map : ReshareSessions) :=
  table_prune (cs_created_at (R1 := ReshareRound1Output)) ttl now map.
End ceremony_sessions.
