(* ===== verification/Validator.v ===== *)
(** * tardus-validator: state and HTTP handlers

    Models [crates/tardus-validator/src/{state,api}.rs].  A handler is an [io]
    program over the daemon's state: each lock acquisition, each draw from the
    generator, each clock reading and each disk access is one section, so
    requests interleave as they do in the daemon.  Requests are the decoded
    JSON bodies, responses the values put in the JSON body; of an error only
    the status code is kept.  The Solana RPC node is the class [Rpc]. *)
From S2P Require Import Prelude Crypto Async Platform Core Poly Wire MintBase Vss Sign Dkg Rotation Refresh.
From S2P Require Import Storage Transparency Sessions.

(** ** The Solana RPC node

    [get_account] is the reply to [getAccountInfo], sorted by the lookups of
    the code: [/result/value], [/data/0]. *)
Inductive rpc_reply : Type :=
| RequestFailed
| NotJson
| NoValue
| NullValue
| NoData
| Data (data_b64 : bytes).

Class Rpc : Type := {
  chain_state : Type;
  get_account : chain_state -> bytes -> bytes -> rpc_reply;
  bs58_encode : bytes -> bytes;
  base64_decode : bytes -> option bytes;
}.

(** ** state.rs *)
Record ValidatorConfig : Type := {
  vc_data_dir : bytes;
  vc_bind_addr : bytes;
  vc_operator_name : bytes;
  vc_master_seed : option bytes;
  vc_admin_token : option bytes;
  vc_solana_rpc_url : option bytes;
  vc_nullifier_tree_pda : option bytes;
}.

Record ValidatorState : Type := {
  vs_share : option ValidatorShareRecord;
  vs_sign_session_counter : Z;
  vs_refresh_session_counter : Z;
  vs_health_probes_served : Z;
  vs_share_reloads : Z;
  vs_started_at : Z;
}.

Section app.
Context `{C : Curve} `{RP : Rpc}.

(** The mutable part of [AppState], and the world around the daemon. *)
Record AppState : Type := {
  app_state : ValidatorState;
  app_sign_sessions : SignSessions;
  app_refresh_sessions : RefreshSessions;
  app_dkg_sessions : DkgSessions;
  app_reshare_sessions : ReshareSessions;
  app_transparency : option TransparencyLogger;
  app_host : host;
  app_chain : chain_state;
}.

Definition set_state (a : AppState) (s : ValidatorState) : AppState :=
  {| app_state := s; app_sign_sessions := app_sign_sessions a;
     app_refresh_sessions := app_refresh_sessions a; app_dkg_sessions := app_dkg_sessions a;
     app_reshare_sessions := app_reshare_sessions a; app_transparency := app_transparency a;
     app_host := app_host a; app_chain := app_chain a |}.
Definition set_sign (a : AppState) (m : SignSessions) : AppState :=
  {| app_state := app_state a; app_sign_sessions := m;
     app_refresh_sessions := app_refresh_sessions a; app_dkg_sessions := app_dkg_sessions a;
     app_reshare_sessions := app_reshare_sessions a; app_transparency := app_transparency a;
     app_host := app_host a; app_chain := app_chain a |}.
Definition set_refresh (a : AppState) (m : RefreshSessions) : AppState :=
  {| app_state := app_state a; app_sign_sessions := app_sign_sessions a;
     app_refresh_sessions := m; app_dkg_sessions := app_dkg_sessions a;
     app_reshare_sessions := app_reshare_sessions a; app_transparency := app_transparency a;
     app_host := app_host a; app_chain := app_chain a |}.
Definition set_dkg (a : AppState) (m : DkgSessions) : AppState :=
  {| app_state := app_state a; app_sign_sessions := app_sign_sessions a;
     app_refresh_sessions := app_refresh_sessions a; app_dkg_sessions := m;
     app_reshare_sessions := app_reshare_sessions a; app_transparency := app_transparency a;
     app_host := app_host a; app_chain := app_chain a |}.
Definition set_reshare (a : AppState) (m : ReshareSessions) : AppState :=
  {| app_state := app_state a; app_sign_sessions := app_sign_sessions a;
     app_refresh_sessions := app_refresh_sessions a; app_dkg_sessions := app_dkg_sessions a;
     app_reshare_sessions := m; app_transparency := app_transparency a;
     app_host := app_host a; app_chain := app_chain a |}.
Definition set_world (a : AppState) (l : option TransparencyLogger) (h : host) : AppState :=
  {| app_state := app_state a; app_sign_sessions := app_sign_sessions a;
     app_refresh_sessions := app_refresh_sessions a; app_dkg_sessions := app_dkg_sessions a;
     app_reshare_sessions := app_reshare_sessions a; app_transparency := l;
     app_host := h; app_chain := app_chain a |}.
Definition set_host (a : AppState) (h : host) : AppState := set_world a (app_transparency a) h.

Definition with_share (s : ValidatorState) (r : ValidatorShareRecord) : ValidatorState :=
  {| vs_share := Some r; vs_sign_session_counter := vs_sign_session_counter s;
     vs_refresh_session_counter := vs_refresh_session_counter s;
     vs_health_probes_served := vs_health_probes_served s; vs_share_reloads := vs_share_reloads s;
     vs_started_at := vs_started_at s |}.
Definition count_sign (s : ValidatorState) : ValidatorState :=
  {| vs_share := vs_share s; vs_sign_session_counter := sat_add (vs_sign_session_counter s) 1;
     vs_refresh_session_counter := vs_refresh_session_counter s;
     vs_health_probes_served := vs_health_probes_served s; vs_share_reloads := vs_share_reloads s;
     vs_started_at := vs_started_at s |}.
Definition count_refresh (s : ValidatorState) : ValidatorState :=
  {| vs_share := vs_share s; vs_sign_session_counter := vs_sign_session_counter s;
     vs_refresh_session_counter := sat_add (vs_refresh_session_counter s) 1;
     vs_health_probes_served := vs_health_probes_served s; vs_share_reloads := vs_share_reloads s;
     vs_started_at := vs_started_at s |}.
Definition count_probe (s : ValidatorState) : ValidatorState :=
  {| vs_share := vs_share s; vs_sign_session_counter := vs_sign_session_counter s;
     vs_refresh_session_counter := vs_refresh_session_counter s;
     vs_health_probes_served := sat_add (vs_health_probes_served s) 1;
     vs_share_reloads := vs_share_reloads s; vs_started_at := vs_started_at s |}.
Definition count_reload (s : ValidatorState) : ValidatorState :=
  {| vs_share := vs_share s; vs_sign_session_counter := vs_sign_session_counter s;
     vs_refresh_session_counter := vs_refresh_session_counter s;
     vs_health_probes_served := vs_health_probes_served s;
     vs_share_reloads := sat_add (vs_share_reloads s) 1; vs_started_at := vs_started_at s |}.

(** A status code. *)
Definition ApiError : Type := Z.
Definition BAD_REQUEST : ApiError := 400.
Definition UNAUTHORIZED : ApiError := 401.
Definition FORBIDDEN : ApiError := 403.
Definition NOT_FOUND : ApiError := 404.
Definition CONFLICT : ApiError := 409.
Definition UNPROCESSABLE_ENTITY : ApiError := 422.
Definition INTERNAL_SERVER_ERROR : ApiError := 500.
Definition SERVICE_UNAVAILABLE : ApiError := 503.

Abbreviation handler := (io AppState ApiError).

(** One critical section of each component of the state. *)
Definition on_state {A} (f : ValidatorState -> A * ValidatorState) : handler A :=
  atomically (λ a, let '(r, s) := f (app_state a) in (r, set_state a s)).
Definition on_sign {A} (f : SignSessions -> A * SignSessions) : handler A :=
  atomically (λ a, let '(r, m) := f (app_sign_sessions a) in (r, set_sign a m)).
Definition on_refresh {A} (f : RefreshSessions -> A * RefreshSessions) : handler A :=
  atomically (λ a, let '(r, m) := f (app_refresh_sessions a) in (r, set_refresh a m)).
Definition on_dkg {A} (f : DkgSessions -> A * DkgSessions) : handler A :=
  atomically (λ a, let '(r, m) := f (app_dkg_sessions a) in (r, set_dkg a m)).
Definition on_reshare {A} (f : ReshareSessions -> A * ReshareSessions) : handler A :=
  atomically (λ a, let '(r, m) := f (app_reshare_sessions a) in (r, set_reshare a m)).

(** A program on the host, its sections kept apart. *)
Fixpoint on_host {A} (p : prog host A) : prog AppState A :=
  match p with
  | Done a => Done a
  | Atomic f k => Atomic (λ a, let '(b, h) := f (app_host a) in (b, set_host a h)) (λ b, on_host (k b))
  end.

(** [map_err(|()| err(status, ..))] on the answer of a table. *)
Definition conflict {A} (e : ApiError) (r : res unit A) : res ApiError A := map_err (λ _, e) r.

Definition read_share : handler ValidatorShareRecord :=
  share ← on_state (λ s, (vs_share s, s)); lift (ok_or SERVICE_UNAVAILABLE share).

(** A generator call that may fail, before it draws. *)
Definition draw_res {E A} (f : rng -> res E (A * rng)) : io host ApiError (res E A) :=
  draw (λ r, match f r with
             | Ok (a, r') => (Ok a, r')
             | Err e => (Err e, r)
             | Panic => (Panic, r)
             end).
Definition app_draw {A} (f : rng -> A * rng) : handler A := on_host (draw f).
Definition app_draw_res {E A} (f : rng -> res E (A * rng)) : handler (res E A) := on_host (draw_res f).
Definition app_now : handler Z := on_host instant_now.
End app.
Abbreviation handler := (io AppState ApiError).

(** ** api.rs *)
Section api.
Context `{C : Curve} `{RP : Rpc} `{A : Aead} `{HX : Hex} `{J : Json} `{DO : DirOrder}.
(** [fuel] bounds the search of [h_generator]. *)
Variables (config : ValidatorConfig) (fuel : nat).

(** The logger's mutex is held while the entry is written: one section, since
    only its holder touches the log.  The writing itself is asynchronous, other
    tasks run meanwhile, and it may take its time, or never end, with the mutex
    held; then the schedule leaves this task, and those that wait for the
    mutex, alone.  A failure is ignored. *)
Definition tlog (event : TransparencyEvent.t) : handler unit :=
  atomically (λ a,
    match app_transparency a with
    | None => (tt, a)
    | Some logger =>
        let '(r, h) := run (TransparencyLogger_append logger event) (app_host a) in
        (tt, set_world a (Some (match r with Ok (_, logger) => logger | _ => logger end)) h)
    end).

(** *** Read-only endpoints *)
Record InfoResponse : Type := {
  ir_operator : bytes;
  ir_bind_addr : bytes;
  ir_share_loaded : bool;
  ir_keyset_id_hex : option bytes;
  ir_my_index : option Z;
  ir_n : option Z;
  ir_t : option Z;
  ir_epoch : option Z;
  ir_sign_sessions : Z;
  ir_refresh_sessions : Z;
}.

Definition health : handler Z :=
  on_state (λ s, let s := count_probe s in (vs_health_probes_served s, s)).

Definition info : handler InfoResponse :=
  on_state (λ s,
    ({| ir_operator := vc_operator_name config; ir_bind_addr := vc_bind_addr config;
        ir_share_loaded := bool_decide (is_Some (vs_share s));
        ir_keyset_id_hex := (λ r, hex_encode (sr_keyset_id r)) <$> vs_share s;
        ir_my_index := sr_my_index <$> vs_share s; ir_n := sr_n <$> vs_share s;
        ir_t := sr_t <$> vs_share s; ir_epoch := sr_epoch <$> vs_share s;
        ir_sign_sessions := vs_sign_session_counter s;
        ir_refresh_sessions := vs_refresh_session_counter s |}, s)).

(** *** Decoding of the hexadecimal fields *)
Definition decode_hex_array (n : nat) (s : bytes) : res ApiError bytes :=
  b ← ok_or BAD_REQUEST (hex_decode s);
  _ ← reject_if (negb (length b =? n)%nat) BAD_REQUEST;
  Ok b.
Definition decode_hex32 (s : bytes) : res ApiError bytes := decode_hex_array 32 s.
Definition decode_hex64 (s : bytes) : res ApiError bytes := decode_hex_array 64 s.
Definition decode_session_id (s : bytes) : res ApiError SessionId :=
  b ← decode_hex_array 16 s; Ok {| sid := b |}.
Definition decode_ceremony_id (s : bytes) : res ApiError CeremonyId :=
  b ← decode_hex_array 16 s; Ok {| cid := b |}.

(** *** Sign sessions *)
Record SignRound1Resp : Type :=
  { s1_from_index : Z; s1_session_id_hex : bytes; s1_r_i_hex : bytes }.
Record SignRound3Req : Type :=
  { s3_session_id_hex : bytes; s3_signing_set : list Z; s3_challenge_hex : bytes }.
Record SignRound3Resp : Type :=
  { s3_from_index : Z; s3_session_hex : bytes; s3_s_i_hex : bytes }.

Definition sign_round1 (session_id_hex : bytes) : handler SignRound1Resp :=
  session_id ← lift (decode_session_id session_id_hex);
  share ← read_share;
  let my_index := sr_my_index share in
  round1 ← app_draw (validator_round1 session_id my_index);
  let '(out, state) := round1 in
  now ← app_now;
  r ← on_sign (SignSessions_insert {| se_state := state; se_created_at := now |});
  _ ← lift (conflict CONFLICT r);
  _ ← on_state (λ s, (tt, count_sign s));
  _ ← tlog (TransparencyEvent.SignSessionStart (hex_encode (sid session_id)) my_index);
  mret {| s1_from_index := v1o_from_index out;
          s1_session_id_hex := hex_encode (sid (v1o_session_id out));
          s1_r_i_hex := hex_encode (v1o_r_i out) |}.

Definition sign_round3 (req : SignRound3Req) : handler SignRound3Resp :=
  session_id ← lift (decode_session_id (s3_session_id_hex req));
  c_bytes ← lift (decode_hex32 (s3_challenge_hex req));
  let challenge := {| bch_c := c_bytes |} in
  share ← read_share;
  my_share ← lift (map_err (λ _, INTERNAL_SERVER_ERROR) (SecretKey_from_bytes (sr_my_share_bytes share)));
  entry ← on_sign (SignSessions_take session_id);
  entry ← lift (ok_or NOT_FOUND entry);
  out ← lift (map_err (λ _, BAD_REQUEST)
                (partial_sign (se_state entry) challenge my_share (s3_signing_set req)));
  mret {| s3_from_index := v3o_from_index out;
          s3_session_hex := hex_encode (sid (v3o_session_id out));
          s3_s_i_hex := hex_encode (v3o_s_i out) |}.

(** *** Refresh sessions *)
Record RefreshRound1Resp : Type := {
  f1_from_index : Z;
  f1_session_id_hex : bytes;
  f1_kappa : Z;
  f1_r_per_candidate_hex : list bytes;
}.
Record RefreshRound5Req : Type := {
  f5_session_id_hex : bytes;
  f5_signing_set : list Z;
  f5_gamma_star : Z;
  f5_user_challenges_hex : list bytes;
  f5_melted_coin_pubkey_hex : bytes;
  f5_melted_coin_signature_hex : bytes;
}.
Record RefreshRound5Resp : Type :=
  { f5_from_index : Z; f5_session_hex : bytes; f5_s_partial_hex : bytes }.

Definition refresh_round1 (session_id_hex : bytes) (kappa : Z) : handler RefreshRound1Resp :=
  session_id ← lift (decode_session_id session_id_hex);
  _ ← lift (reject_if (kappa =? 0) BAD_REQUEST);
  share ← read_share;
  let my_index := sr_my_index share in
  round1 ← app_draw_res (λ r, validator_refresh_round1 session_id my_index kappa r);
  round1 ← lift (map_err (λ _, BAD_REQUEST) round1);
  let '(out, state) := round1 in
  now ← app_now;
  r ← on_refresh (RefreshSessions_insert {| re_state := state; re_created_at := now |});
  _ ← lift (conflict CONFLICT r);
  _ ← on_state (λ s, (tt, count_refresh s));
  _ ← tlog (TransparencyEvent.RefreshSessionStart (hex_encode (sid session_id)) my_index kappa);
  mret {| f1_from_index := vr1_from_index out;
          f1_session_id_hex := hex_encode (sid (vr1_session_id out)); f1_kappa := kappa;
          f1_r_per_candidate_hex := hex_encode <$> vr1_r_per_candidate out |}.

(** [chunks_exact(32)] *)
Fixpoint chunks_exact_32 (n : nat) (b : bytes) : list bytes :=
  match n with O => [] | S n => take 32 b :: chunks_exact_32 n (drop 32 b) end.

(** The account of the nullifier set, decoded by hand. *)
Definition leaves_contain (account_data nullifier : bytes) : res unit unit :=
  _ ← reject_if (length account_data <? 4)%nat tt;
  let count := Z.to_nat (le_Z (take 4 account_data)) in
  let expected_len := (4 + count * 32)%nat in
  _ ← reject_if (length account_data <? expected_len)%nat tt;
  let leaves_bytes := take (count * 32) (drop 4 account_data) in
  if existsb (λ chunk, bool_decide (chunk = nullifier))
       (chunks_exact_32 (length leaves_bytes / 32) leaves_bytes)
  then Ok tt else Err tt.

Definition verify_nullifier_finalized (rpc_url nullifier_tree_pda coin_pubkey : bytes)
    (chain : chain_state) : res unit unit :=
  let nullifier := sha256 (ascii "TARDUS-nullifier-v1" ++ coin_pubkey) in
  let pda_b58 := bs58_encode nullifier_tree_pda in
  data_b64 ← match get_account chain rpc_url pda_b58 with
             | Data d => Ok d
             | _ => Err tt
             end;
  account_data ← ok_or tt (base64_decode data_b64);
  leaves_contain account_data nullifier.

(** The on-chain guard of round 5; the account is read once.  The call to the
    node is one section, at the moment the node reads the account; a call that
    does not return is a task that is not scheduled again. *)
Definition nullifier_guard (melted_coin_pubkey : bytes) : handler unit :=
  match vc_solana_rpc_url config with
  | None => mret tt
  | Some rpc_url =>
      pda ← lift (ok_or INTERNAL_SERVER_ERROR (vc_nullifier_tree_pda config));
      r ← reads_state (λ a, verify_nullifier_finalized rpc_url pda melted_coin_pubkey (app_chain a));
      lift (conflict FORBIDDEN r)
  end.

(** [for (i, hx) in req.user_challenges_hex.iter().enumerate()] *)
Definition decode_challenges (l : list bytes) : res ApiError (list bytes) :=
  res_fold (λ challenges hx, c ← decode_hex32 hx; Ok (challenges ++ [c])) [] l.

Definition refresh_round5 (req : RefreshRound5Req) : handler RefreshRound5Resp :=
  session_id ← lift (decode_session_id (f5_session_id_hex req));
  let kappa := Z.of_nat (length (f5_user_challenges_hex req)) in
  _ ← lift (reject_if (255 <? kappa) BAD_REQUEST);
  _ ← lift (reject_if (kappa =? 0) BAD_REQUEST);
  _ ← lift (reject_if ((f5_gamma_star req =? 0) || (kappa <? f5_gamma_star req)) BAD_REQUEST);
  challenges ← lift (decode_challenges (f5_user_challenges_hex req));
  melted_coin_pubkey ← lift (decode_hex32 (f5_melted_coin_pubkey_hex req));
  sig_bytes ← lift (decode_hex64 (f5_melted_coin_signature_hex req));
  let melted_coin_signature := Signature_from_bytes sig_bytes in
  _ ← nullifier_guard melted_coin_pubkey;
  share ← read_share;
  my_share ← lift (map_err (λ _, INTERNAL_SERVER_ERROR) (SecretKey_from_bytes (sr_my_share_bytes share)));
  entry ← on_refresh (RefreshSessions_take session_id);
  entry ← lift (ok_or NOT_FOUND entry);
  let user_round2 := {| ur2_session_id := session_id; ur2_kappa := kappa;
                        ur2_challenges := challenges; ur2_melted_coin_pubkey := melted_coin_pubkey;
                        ur2_melted_coin_signature := melted_coin_signature |} in
  let challenge := {| mr3_session_id := session_id; mr3_gamma_star := f5_gamma_star req |} in
  out ← lift (map_err (λ _, BAD_REQUEST)
                (validator_refresh_round5 (re_state entry) user_round2 challenge my_share
                   (f5_signing_set req)));
  mret {| f5_from_index := vr5_from_index out;
          f5_session_hex := hex_encode (sid (vr5_session_id out));
          f5_s_partial_hex := hex_encode (vr5_s_partial out) |}.

(** *** DKG ceremonies *)
Record DkgStartReq : Type := { ds_ceremony_id_hex : bytes; ds_my_index : Z; ds_n : Z; ds_t : Z }.
(** Also the body of the answer of [/reshare/start]. *)
Record StartResp : Type := {
  st_ceremony_id_hex : bytes;
  st_my_index : Z;
  st_n : Z;
  st_t : Z;
  st_broadcast_borsh_hex : bytes;
  st_shares_borsh_hex : list bytes;
}.
Record ContributeReq : Type := {
  ct_ceremony_id_hex : bytes;
  ct_from_index : Z;
  ct_broadcast_borsh_hex : bytes;
  ct_share_for_me_borsh_hex : bytes;
}.
Record DkgFinalizeResp : Type := {
  fz_ceremony_id_hex : bytes;
  fz_my_index : Z;
  fz_joint_pk_hex : bytes;
  fz_qual : list Z;
  fz_share_persisted : bool;
}.

Definition dkg_start_handler (req : DkgStartReq) : handler StartResp :=
  ceremony_id ← lift (decode_ceremony_id (ds_ceremony_id_hex req));
  params ← lift (map_err (λ _, BAD_REQUEST) (VssParameters_new (ds_n req) (ds_t req)));
  h ← lift (map_err (λ _, BAD_REQUEST) (h_generator fuel));
  round1 ← app_draw_res (λ r, dkg_start ceremony_id (ds_my_index req) params h r);
  round1 ← lift (map_err (λ _, BAD_REQUEST) round1);
  broadcast_bytes ← lift (ok_or INTERNAL_SERVER_ERROR (DkgRound1Broadcast_serialize (do_broadcast round1)));
  let shares_hex := (λ s, hex_encode (VssShare_serialize s)) <$> do_shares round1 in
  now ← app_now;
  let session := {| cs_my_round1 := round1; cs_n := ds_n req; cs_peer_contributions := ∅;
                    cs_created_at := now |} in
  r ← on_dkg (DkgSessions_start ceremony_id session);
  _ ← lift (conflict CONFLICT r);
  _ ← tlog (TransparencyEvent.DkgStart (ds_ceremony_id_hex req) (ds_my_index req) (ds_n req) (ds_t req));
  mret {| st_ceremony_id_hex := ds_ceremony_id_hex req; st_my_index := ds_my_index req;
          st_n := ds_n req; st_t := ds_t req;
          st_broadcast_borsh_hex := hex_encode broadcast_bytes; st_shares_borsh_hex := shares_hex |}.

(** [hex::decode] and [try_from_slice] of one field. *)
Definition decode_borsh {X} (r : reader X) (s : bytes) : res ApiError X :=
  b ← ok_or BAD_REQUEST (hex_decode s); ok_or BAD_REQUEST (try_from_slice r b).

Definition dkg_contribute_handler (req : ContributeReq) : handler Z :=
  ceremony_id ← lift (decode_ceremony_id (ct_ceremony_id_hex req));
  broadcast ← lift (decode_borsh DkgRound1Broadcast_read (ct_broadcast_borsh_hex req));
  share_for_me ← lift (decode_borsh VssShare_read (ct_share_for_me_borsh_hex req));
  count ← on_dkg (DkgSessions_contribute ceremony_id (ct_from_index req)
                    {| pc_broadcast := broadcast; pc_share_for_me := share_for_me |});
  lift (conflict NOT_FOUND count).

(** [if let Some(seed) = app.config.master_seed.as_ref()] *)
Definition persist (record : ValidatorShareRecord) : handler bool :=
  match vc_master_seed config with
  | None => mret false
  | Some seed =>
      _ ← on_host (catch (map_err (λ _, INTERNAL_SERVER_ERROR))
            (write_share_record (share_path (vc_data_dir config) (sr_keyset_id record)) seed record));
      mret true
  end.

Definition dkg_finalize_handler (ceremony_id_hex : bytes) : handler DkgFinalizeResp :=
  ceremony_id ← lift (decode_ceremony_id ceremony_id_hex);
  taken ← on_dkg (DkgSessions_take_finalisable ceremony_id);
  taken ← lift (conflict NOT_FOUND taken);
  let '(round1, contributions, n) := taken in
  let my_index := dp_my_index (do_private round1) in
  let t := vp_t (dp_params (do_private round1)) in
  h ← lift (map_err (λ _, UNPROCESSABLE_ENTITY) (h_generator fuel));
  finalised ← lift (map_err (λ _, UNPROCESSABLE_ENTITY) (dkg_finalize round1 contributions h));
  let joint_pk_bytes := PublicKey_to_bytes (df_joint_pk finalised) in
  let keyset_id := byte_of_Z 2 :: joint_pk_bytes in
  let record := {| sr_keyset_id := keyset_id; sr_my_index := df_my_index finalised; sr_n := n;
                   sr_t := t; sr_epoch := 1; sr_joint_pk_bytes := joint_pk_bytes;
                   sr_my_share_bytes := SecretKey_to_bytes (df_my_share finalised);
                   sr_qual := df_qual finalised |} in
  share_persisted ← persist record;
  _ ← on_state (λ s, (tt, with_share s record));
  _ ← tlog (TransparencyEvent.DkgFinalize ceremony_id_hex my_index (hex_encode joint_pk_bytes)
              (df_qual finalised));
  mret {| fz_ceremony_id_hex := ceremony_id_hex; fz_my_index := my_index;
          fz_joint_pk_hex := hex_encode joint_pk_bytes; fz_qual := df_qual finalised;
          fz_share_persisted := share_persisted |}.

(** *** Reshare ceremonies *)
Record ReshareFinalizeResp : Type := {
  rz_ceremony_id_hex : bytes;
  rz_my_index : Z;
  rz_new_epoch : Z;
  rz_share_persisted : bool;
}.

(** The derived Borsh codec of the broadcast. *)
Definition ReshareRound1Broadcast_serialize (b : ReshareRound1Broadcast) : option bytes :=
  ped ← VssCommitments_serialize (rb_pedersen b);
  fel ← FeldmanCommitments_serialize (rb_feldman b);
  Some (cid (rb_ceremony_id b) ++ le_bytes 2 (rb_from_index b) ++ ped ++ fel).
Definition ReshareRound1Broadcast_read : reader ReshareRound1Broadcast :=
  c ← CeremonyId_read;
  i ← read_u16;
  ped ← VssCommitments_read;
  fel ← FeldmanCommitments_read;
  mret {| rb_ceremony_id := c; rb_from_index := i; rb_pedersen := ped; rb_feldman := fel |}.

Definition reshare_start_handler (ceremony_id_hex : bytes) : handler StartResp :=
  ceremony_id ← lift (decode_ceremony_id ceremony_id_hex);
  share ← read_share;
  let '(my_index, n, t) := (sr_my_index share, sr_n share, sr_t share) in
  params ← lift (map_err (λ _, INTERNAL_SERVER_ERROR) (VssParameters_new n t));
  h ← lift (map_err (λ _, BAD_REQUEST) (h_generator fuel));
  round1 ← app_draw_res (λ r, reshare_start ceremony_id my_index params h r);
  round1 ← lift (map_err (λ _, BAD_REQUEST) round1);
  broadcast_bytes ←
    lift (ok_or INTERNAL_SERVER_ERROR (ReshareRound1Broadcast_serialize (ro_broadcast round1)));
  let shares_hex := (λ s, hex_encode (VssShare_serialize s)) <$> ro_shares round1 in
  now ← app_now;
  let session := {| cs_my_round1 := round1; cs_n := n; cs_peer_contributions := ∅;
                    cs_created_at := now |} in
  r ← on_reshare (ReshareSessions_start ceremony_id session);
  _ ← lift (conflict CONFLICT r);
  _ ← tlog (TransparencyEvent.ReshareStart ceremony_id_hex my_index n t);
  mret {| st_ceremony_id_hex := ceremony_id_hex; st_my_index := my_index; st_n := n; st_t := t;
          st_broadcast_borsh_hex := hex_encode broadcast_bytes; st_shares_borsh_hex := shares_hex |}.

Definition reshare_contribute_handler (req : ContributeReq) : handler Z :=
  ceremony_id ← lift (decode_ceremony_id (ct_ceremony_id_hex req));
  broadcast ← lift (decode_borsh ReshareRound1Broadcast_read (ct_broadcast_borsh_hex req));
  share_for_me ← lift (decode_borsh VssShare_read (ct_share_for_me_borsh_hex req));
  count ← on_reshare (ReshareSessions_contribute ceremony_id (ct_from_index req)
                        {| rc_broadcast := broadcast; rc_share_for_me := share_for_me |});
  lift (conflict NOT_FOUND count).

(** The state is read twice: for the old share, then for the record's other
    fields, where a missing share is the [expect]. *)
Definition reshare_finalize_handler (ceremony_id_hex : bytes) : handler ReshareFinalizeResp :=
  ceremony_id ← lift (decode_ceremony_id ceremony_id_hex);
  taken ← on_reshare (ReshareSessions_take_finalisable ceremony_id);
  taken ← lift (conflict NOT_FOUND taken);
  let '(round1, contributions, n) := taken in
  share ← read_share;
  old_share ← lift (map_err (λ _, INTERNAL_SERVER_ERROR) (SecretKey_from_bytes (sr_my_share_bytes share)));
  h ← lift (map_err (λ _, UNPROCESSABLE_ENTITY) (h_generator fuel));
  finalised ← lift (map_err (λ _, UNPROCESSABLE_ENTITY)
                      (reshare_finalize round1 old_share contributions h));
  cur ← on_state (λ s, (vs_share s, s));
  cur ← lift (expect cur);
  let new_epoch := sat_add (sr_epoch cur) 1 in
  let record := {| sr_keyset_id := sr_keyset_id cur; sr_my_index := rf_my_index finalised;
                   sr_n := n; sr_t := sr_t cur; sr_epoch := new_epoch;
                   sr_joint_pk_bytes := sr_joint_pk_bytes cur;
                   sr_my_share_bytes := SecretKey_to_bytes (rf_new_share finalised);
                   sr_qual := rf_qual finalised |} in
  share_persisted ← persist record;
  _ ← on_state (λ s, (tt, with_share s record));
  _ ← tlog (TransparencyEvent.ReshareFinalize ceremony_id_hex (rf_my_index finalised) new_epoch);
  mret {| rz_ceremony_id_hex := ceremony_id_hex; rz_my_index := rf_my_index finalised;
          rz_new_epoch := new_epoch; rz_share_persisted := share_persisted |}.

(** *** Transparency log *)
Definition logger_of : handler TransparencyLogger :=
  logger ← reads_state app_transparency; lift (ok_or NOT_FOUND logger).

Definition transparency_log_handler : handler (list LogEntry * bytes) :=
  logger ← logger_of;
  entries ← on_host (catch (map_err (λ _, INTERNAL_SERVER_ERROR)) (read_all (tl_path logger)));
  mret (entries, tl_last_event_id logger).

Record ChainVerifyResp : Type := {
  cv_valid : bool;
  cv_entries_checked : Z;
  cv_failure_index : option Z;
}.
Definition transparency_verify_chain_handler : handler ChainVerifyResp :=
  logger ← logger_of;
  on_host (catch (λ r, match r with
    | Ok count => Ok {| cv_valid := true; cv_entries_checked := count; cv_failure_index := None |}
    | Err (idx, _) => Ok {| cv_valid := false; cv_entries_checked := idx; cv_failure_index := Some idx |}
    | Panic => Panic
    end) (verify_chain (tl_path logger))).

(** *** Observability and administration *)
Record Metrics : Type := {
  mt_uptime : Z;
  mt_share_loaded : bool;
  mt_health_probes : Z;
  mt_sign_sessions : Z;
  mt_sign_inflight : Z;
  mt_refresh_sessions : Z;
  mt_refresh_inflight : Z;
  mt_share_reloads : Z;
}.
(** The code keeps the read guard of the state to the end of the body.  Here the
    state is read in the first section, which gives the values the guard keeps,
    and the guard is not expressed: writers of the state, which the code makes
    wait, may run between the sections. *)
Definition metrics : handler Metrics :=
  s ← on_state (λ s, (s, s));
  now ← app_now;
  sign_inflight ← on_sign (λ m, (SignSessions_len m, m));
  refresh_inflight ← on_refresh (λ m, (RefreshSessions_len m, m));
  mret {| mt_uptime := duration_since now (vs_started_at s);
          mt_share_loaded := bool_decide (is_Some (vs_share s));
          mt_health_probes := vs_health_probes_served s;
          mt_sign_sessions := vs_sign_session_counter s; mt_sign_inflight := sign_inflight;
          mt_refresh_sessions := vs_refresh_session_counter s;
          mt_refresh_inflight := refresh_inflight; mt_share_reloads := vs_share_reloads s |}.

(** [x_admin_token] is the header, when present and printable. *)
Definition check_admin (x_admin_token : option bytes) : res ApiError unit :=
  expected ← ok_or FORBIDDEN (vc_admin_token config);
  supplied ← ok_or UNAUTHORIZED x_admin_token;
  reject_if (negb (bool_decide (supplied = expected))) UNAUTHORIZED.

Definition admin_sessions (x_admin_token : option bytes) : handler (Z * Z) :=
  _ ← lift (check_admin x_admin_token);
  sign_inflight ← on_sign (λ m, (SignSessions_len m, m));
  refresh_inflight ← on_refresh (λ m, (RefreshSessions_len m, m));
  mret (sign_inflight, refresh_inflight).

(** The loop over the directory, left at the first share file. *)
Fixpoint first_share (seed : bytes) (paths : list bytes) : handler (option ValidatorShareRecord) :=
  match paths with
  | [] => mret None
  | path :: paths =>
      if is_share_file path then
        record ← on_host (catch (map_err (λ _, INTERNAL_SERVER_ERROR)) (read_share_record path seed));
        mret (Some record)
      else first_share seed paths
  end.

Definition admin_reload_share (x_admin_token : option bytes) : handler (option (bytes * Z)) :=
  _ ← lift (check_admin x_admin_token);
  seed ← lift (ok_or SERVICE_UNAVAILABLE (vc_master_seed config));
  entries ← on_host (on_disk (λ _, INTERNAL_SERVER_ERROR) (disk_read_dir (vc_data_dir config)));
  loaded ← first_share seed entries;
  match loaded with
  | Some record =>
      _ ← on_state (λ s, (tt, count_reload (with_share s record)));
      mret (Some (hex_encode (sr_keyset_id record), sr_epoch record))
  | None => mret None
  end.
End api.

(** ** The router, the prune loops and the environment *)
Inductive request `{RP : Rpc} : Type :=
| Health
| Info
| GetMetrics
| SignRound1 (session_id_hex : bytes)
| SignRound3 (req : SignRound3Req)
| RefreshRound1 (session_id_hex : bytes) (kappa : Z)
| RefreshRound5 (req : RefreshRound5Req)
| DkgStartR (req : DkgStartReq)
| DkgContribute (req : ContributeReq)
| DkgFinalizeR (ceremony_id_hex : bytes)
| ReshareStartR (ceremony_id_hex : bytes)
| ReshareContribute (req : ContributeReq)
| ReshareFinalizeR (ceremony_id_hex : bytes)
| TransparencyLogR
| TransparencyVerify
| AdminSessions (x_admin_token : option bytes)
| AdminReload (x_admin_token : option bytes)
(** A tick of a prune loop. *)
| PruneSign (ttl : Z)
| PruneRefresh (ttl : Z)
| PruneDkg (ttl : Z)
| PruneReshare (ttl : Z)
(** The world outside the daemon: clocks advance, the chain grows. *)
| Elapse (ns : Z)
| ChainBecomes (c : chain_state).

Inductive response : Type :=
| RHealth (probes_served : Z)
| RInfo (r : InfoResponse)
| RMetrics (r : Metrics)
| RSign1 (r : SignRound1Resp)
| RSign3 (r : SignRound3Resp)
| RRefresh1 (r : RefreshRound1Resp)
| RRefresh5 (r : RefreshRound5Resp)
| RStart (r : StartResp)
| RContribute (count : Z)
| RDkgFinalize (r : DkgFinalizeResp)
| RReshareFinalize (r : ReshareFinalizeResp)
| RLog (entries : list LogEntry) (last : bytes)
| RVerify (r : ChainVerifyResp)
| RSessions (sign_inflight refresh_inflight : Z)
| RReload (loaded : option (bytes * Z))
| RPruned (evicted : Z)
| RNothing.

Section router.
Context `{C : Curve} `{RP : Rpc} `{A : Aead} `{HX : Hex} `{J : Json} `{DO : DirOrder}.
Variables (config : ValidatorConfig) (fuel : nat).

Definition elapse (ns : Z) (a : AppState) : AppState :=
  let h := app_host a in
  set_host a {| h_disk := h_disk h; h_rng := h_rng h; h_instant := h_instant h + ns;
                h_unix := h_unix h + ns |}.
Definition set_chain (a : AppState) (c : chain_state) : AppState :=
  {| app_state := app_state a; app_sign_sessions := app_sign_sessions a;
     app_refresh_sessions := app_refresh_sessions a; app_dkg_sessions := app_dkg_sessions a;
     app_reshare_sessions := app_reshare_sessions a; app_transparency := app_transparency a;
     app_host := app_host a; app_chain := c |}.

Definition answered {X} (f : X -> response) (p : handler X) : handler response := x ← p; mret (f x).

Definition router (req : request) : handler response :=
  match req with
  | Health => answered RHealth health
  | Info => answered RInfo (info config)
  | GetMetrics => answered RMetrics metrics
  | SignRound1 s => answered RSign1 (sign_round1 s)
  | SignRound3 r => answered RSign3 (sign_round3 r)
  | RefreshRound1 s k => answered RRefresh1 (refresh_round1 s k)
  | RefreshRound5 r => answered RRefresh5 (refresh_round5 config r)
  | DkgStartR r => answered RStart (dkg_start_handler fuel r)
  | DkgContribute r => answered RContribute (dkg_contribute_handler r)
  | DkgFinalizeR c => answered RDkgFinalize (dkg_finalize_handler config fuel c)
  | ReshareStartR c => answered RStart (reshare_start_handler fuel c)
  | ReshareContribute r => answered RContribute (reshare_contribute_handler r)
  | ReshareFinalizeR c => answered RReshareFinalize (reshare_finalize_handler config fuel c)
  | TransparencyLogR => answered (λ x, RLog x.1 x.2) transparency_log_handler
  | TransparencyVerify => answered RVerify transparency_verify_chain_handler
  | AdminSessions tok => answered (λ x, RSessions x.1 x.2) (admin_sessions config tok)
  | AdminReload tok => answered RReload (admin_reload_share config tok)
  | PruneSign ttl => now ← app_now; answered RPruned (on_sign (SignSessions_prune ttl now))
  | PruneRefresh ttl => now ← app_now; answered RPruned (on_refresh (RefreshSessions_prune ttl now))
  | PruneDkg ttl => now ← app_now; answered RPruned (on_dkg (DkgSessions_prune ttl now))
  | PruneReshare ttl => now ← app_now; answered RPruned (on_reshare (ReshareSessions_prune ttl now))
  | Elapse ns => answered (λ _, RNothing) (updates (elapse ns))
  | ChainBecomes c => answered (λ _, RNothing) (updates (λ a, set_chain a c))
  end.
End router.
