(* ===== verification/ToyValidator.v ===== *)
(** * A concrete validator

    A node that serves accounts from a map, and a daemon that holds the first
    share of the ceremony of [Dkg]'s witnesses. *)
From S2P Require Import Prelude Crypto ToyCurve Async Platform ToyPlatform Core Poly Wire MintBase Vss Sign Dkg Rotation Refresh.
From S2P Require Import Storage Transparency Sessions Validator.

Definition toy_rpc : Rpc := {|
  chain_state := gmap bytes bytes;
  get_account chain _ key := match chain !! key with Some d => Data d | None => NullValue end;
  bs58_encode b := b;
  base64_decode b := Some b;
|}.

#[local] Existing Instance toy.
#[local] Existing Instance toy_rpc.
#[local] Existing Instance toy_hex.

Definition demo_pda : bytes := repeat Byte.x05 32.
Definition demo_config (guard : bool) : ValidatorConfig :=
  {| vc_data_dir := ascii "data"; vc_bind_addr := ascii "0.0.0.0:1"; vc_operator_name := ascii "op";
     vc_master_seed := Some (repeat Byte.x07 32); vc_admin_token := Some (ascii "token");
     vc_solana_rpc_url := if guard then Some (ascii "rpc") else None;
     vc_nullifier_tree_pda := Some demo_pda |}.

Definition demo_record (j : Z) : ValidatorShareRecord :=
  {| sr_keyset_id := byte_of_Z 2 :: PublicKey_to_bytes (df_joint_pk (demo_fin j)); sr_my_index := j;
     sr_n := 3; sr_t := 2; sr_epoch := 1; sr_joint_pk_bytes := PublicKey_to_bytes (df_joint_pk (demo_fin j));
     sr_my_share_bytes := SecretKey_to_bytes (df_my_share (demo_fin j)); sr_qual := [1; 2; 3] |}.

Definition demo_host (seed : Z) : host :=
  {| h_disk := {| d_files := ∅; d_faults := [] |}; h_rng := (demo_rng seed : @rng toy);
     h_instant := 0; h_unix := 1700000000000000000 |}.

Definition demo_app (share : option ValidatorShareRecord) (seed : Z) : AppState :=
  {| app_state := {| vs_share := share; vs_sign_session_counter := 0; vs_refresh_session_counter := 0;
                     vs_health_probes_served := 0; vs_share_reloads := 0; vs_started_at := 0 |};
     app_sign_sessions := ∅; app_refresh_sessions := ∅; app_dkg_sessions := ∅; app_reshare_sessions := ∅;
     app_transparency := Some {| tl_path := ascii "t.log"; tl_last_event_id := genesis_id |};
     app_host := demo_host seed; app_chain := (∅ : gmap bytes bytes) |}.

Definition demo_sid (b : Byte.byte) : SessionId := {| sid := repeat b 16 |}.
Definition demo_sid_hex (b : Byte.byte) : bytes := hex_encode (repeat b 16).
