(* ===== verification/ValidatorRun.v ===== *)
(** * tardus-validator: handlers run alone

    The effect of each kind of section on the daemon's state, as rewrite
    rules, and requests served one after the other. *)
From S2P Require Import Prelude Crypto Async Platform Core Poly Wire MintBase Vss Sign Dkg Rotation Refresh.
From S2P Require Import Storage Transparency Sessions Validator.

(** One request after the other. *)
Fixpoint serve {S X} (tasks : list (prog S X)) (s : S) : list X * S :=
  match tasks with
  | [] => ([], s)
  | p :: tasks => let '(x, s) := run p s in let '(xs, s) := serve tasks s in (x :: xs, s)
  end.

Lemma table_insert_fresh {K E} `{Countable K} (id : K) (entry : E) (m : gmap K E) :
  m !! id = None -> table_insert id entry m = (Ok tt, <[id := entry]> m).
Proof. unfold table_insert. intros ->. by rewrite bool_decide_eq_false_2 by (by intros [? ?]). Qed.

Section run.
Context `{C : Curve} `{RP : Rpc}.
Implicit Types a : AppState.

Lemma run_on_state {X} (f : ValidatorState -> X * ValidatorState) a :
  run (on_state f) a = (Ok (f (app_state a)).1, set_state a (f (app_state a)).2).
Proof. unfold on_state. rewrite run_atomically. by destruct (f (app_state a)). Qed.
Lemma run_on_sign {X} (f : SignSessions -> X * SignSessions) a :
  run (on_sign f) a = (Ok (f (app_sign_sessions a)).1, set_sign a (f (app_sign_sessions a)).2).
Proof. unfold on_sign. rewrite run_atomically. by destruct (f (app_sign_sessions a)). Qed.
Lemma run_on_refresh {X} (f : RefreshSessions -> X * RefreshSessions) a :
  run (on_refresh f) a = (Ok (f (app_refresh_sessions a)).1, set_refresh a (f (app_refresh_sessions a)).2).
Proof. unfold on_refresh. rewrite run_atomically. by destruct (f (app_refresh_sessions a)). Qed.
Lemma run_on_dkg {X} (f : DkgSessions -> X * DkgSessions) a :
  run (on_dkg f) a = (Ok (f (app_dkg_sessions a)).1, set_dkg a (f (app_dkg_sessions a)).2).
Proof. unfold on_dkg. rewrite run_atomically. by destruct (f (app_dkg_sessions a)). Qed.
Lemma run_reads_state {X} (f : AppState -> X) a : run (reads_state (E := ApiError) f) a = (Ok (f a), a).
Proof. done. Qed.

Lemma run_on_host {X} (p : prog host X) a :
  run (on_host p) a = ((run p (app_host a)).1, set_host a (run p (app_host a)).2).
Proof.
  revert a; induction p as [x|B f k IH]; intros a; cbn.
  - by destruct a.
  - destruct (f (app_host a)) as [b h]. apply (IH b (set_host a h)).
Qed.

Lemma set_state_id a : set_state a (app_state a) = a.
Proof. by destruct a. Qed.
Lemma set_refresh_id a : set_refresh a (app_refresh_sessions a) = a.
Proof. by destruct a. Qed.
Lemma set_dkg_id a : set_dkg a (app_dkg_sessions a) = a.
Proof. by destruct a. Qed.

Lemma run_read_share a :
  run read_share a = (ok_or SERVICE_UNAVAILABLE (vs_share (app_state a)), a).
Proof.
  unfold read_share. rewrite run_bind, run_on_state, run_lift. cbn [fst snd]. by rewrite set_state_id.
Qed.

Lemma run_draw {X} (f : rng -> X * rng) a :
  exists h, run (app_draw f) a = (Ok (f (h_rng (app_host a))).1, set_host a h) /\ h_disk h = h_disk (app_host a).
Proof.
  unfold app_draw, draw. rewrite run_on_host, run_atomically. cbn. destruct (f _). cbn. eexists. by split.
Qed.

Lemma run_app_draw_res {E X} (f : rng -> res E (X * rng)) a :
  exists h, run (app_draw_res f) a =
      (Ok (match f (h_rng (app_host a)) with Ok (x, _) => Ok x | Err e => Err e | Panic => Panic end),
       set_host a h) /\ h_disk h = h_disk (app_host a).
Proof.
  unfold app_draw_res, draw_res, draw. rewrite run_on_host, run_atomically. cbn.
  destruct (f _) as [[x r]|e|]; cbn; (eexists; split; [reflexivity|done]).
Qed.

Lemma run_app_now a : run app_now a = (Ok (h_instant (app_host a)), a).
Proof.
  unfold app_now, instant_now. rewrite run_on_host. unfold reads_state. rewrite run_atomically.
  cbn. by destruct a.
Qed.

Lemma run_tlog `{HX : Hex} `{J : Json} event a : exists l h, run (tlog event) a = (Ok tt, set_world a l h).
Proof.
  unfold tlog. rewrite run_atomically. destruct (app_transparency a) eqn:Hl.
  - destruct (run _ _). eauto.
  - exists None, (app_host a). cbn. rewrite <- Hl. by destruct a.
Qed.
End run.

#[export] Hint Rewrite @run_bind @run_on_state @run_on_sign @run_on_refresh @run_on_dkg
  @run_reads_state @run_on_host @run_read_share @run_lift : run.

(** Executes the sections of a handler up to the next undetermined result. *)
Ltac run_step := autorewrite with run; cbn [fst snd].
