(* ===== verification/ValidatorProps.v ===== *)
(** * tardus-validator: interleaved requests, nonces and the nullifier guard

    Theorems about the handlers of [Validator] under arbitrary schedules of
    their sections, and about round 5 of a refresh. *)
From S2P Require Import Prelude Crypto ToyCurve Async Platform ToyPlatform Core Poly Wire MintBase Vss Sign Dkg Rotation Refresh.
From S2P Require Import Instruction Program Storage Transparency Sessions Validator ToyValidator.

(** ** Nonces

    [opens] are the requests that may put an entry into a table of nonces,
    [spends] those whose success has taken one out. *)
Definition answered_ok {S E X} (p : io S E X) : bool :=
  match p with Done (Ok _) => true | _ => false end.
Definition refused {S E X} (p : io S E X) : bool :=
  match p with Done (Ok _) => false | Done _ => true | Atomic _ _ => false end.

Section ledger.
Context {S E R X : Type} (opens spends : R -> bool).

(** Requests of the kind [f] whose task satisfies [g]. *)
Definition count_tasks (f : R -> bool) (g : io S E X -> bool) (reqs : list R)
    (tasks : list (io S E X)) : nat :=
  length (filter (λ x, f x.1 && g x.2 = true) (zip reqs tasks)).

Definition ledger_account (req : R) : account (res E X) := {|
  acc_mid c := c <= Z.b2z (opens req);
  acc_post r c :=
    c <= Z.b2z (opens req && match r with Ok _ => true | _ => false end)
       - Z.b2z (spends req && match r with Ok _ => true | _ => false end);
|}.

Lemma count_tasks_cons f g req reqs p ps :
  Z.of_nat (count_tasks f g (req :: reqs) (p :: ps)) =
    Z.b2z (f req && g p) + Z.of_nat (count_tasks f g reqs ps).
Proof.
  unfold count_tasks. cbn [zip zip_with]. rewrite filter_cons. cbn [fst snd].
  destruct (f req && g p); [rewrite decide_True by done|rewrite decide_False by done];
    cbn [length Z.b2z]; lia.
Qed.

Lemma ledger_counts reqs (ps : list (io S E X)) cs mu : length ps = length reqs ->
  length cs = length reqs ->
  (forall i req p c, reqs !! i = Some req -> ps !! i = Some p -> cs !! i = Some c ->
     acct mu (ledger_account req) p c) ->
  zsum cs <= Z.of_nat (count_tasks opens (λ p, negb (refused p)) reqs ps)
           - Z.of_nat (count_tasks spends answered_ok reqs ps).
Proof.
  revert ps cs; induction reqs as [|req reqs IH]; intros [|p ps] [|c cs] Hp Hc H; try done.
  rewrite !count_tasks_cons. cbn [zsum foldr]. fold (zsum cs).
  assert (zsum cs <= Z.of_nat (count_tasks opens (λ p, negb (refused p)) reqs ps)
    - Z.of_nat (count_tasks spends answered_ok reqs ps)) as IH'.
  { apply IH; [by injection Hp|by injection Hc|]. intros i. apply (H (Datatypes.S i)). }
  pose proof (H 0%nat req p c eq_refl eq_refl eq_refl) as Ha.
  destruct p as [[x|e|]|Y f k]; cbn [acct ledger_account acc_post acc_mid answered_ok refused negb] in *;
    rewrite ?andb_true_r, ?andb_false_r in *; cbn [Z.b2z] in *; lia.
Qed.

(** However the sections of the requests interleave, no more nonces are spent
    than were opened. *)
Lemma spent_le_opened (mu : S -> Z) (route : R -> io S E X) reqs schedule s :
  mu s = 0 -> (forall s, 0 <= mu s) ->
  (forall req, acct mu (ledger_account req) (route req) 0) ->
  let tasks := (exec schedule (s, route <$> reqs)).2 in
  (count_tasks spends answered_ok reqs tasks <=
   count_tasks opens (λ p, negb (refused p)) reqs tasks)%nat.
Proof.
  intros H0 Hmu Hroute. cbn zeta.
  destruct (exec_acct mu (ledger_account <$> reqs) schedule s s (route <$> reqs)
    (replicate (length reqs) 0)) as (cs & Hl & Hacc & Hsum).
  - by rewrite length_replicate, length_fmap.
  - intros i p Hi. apply list_lookup_fmap_Some in Hi as (req & -> & Hreq).
    exists (ledger_account req), 0. rewrite list_lookup_fmap, Hreq. split_and!; [done| |apply Hroute].
    apply lookup_replicate_2. by eapply lookup_lt_Some.
  - assert (forall n, zsum (replicate n 0) = 0) as -> by (induction n as [|n IH]; [done|exact IH]). lia.
  - rewrite H0 in Hsum. specialize (Hmu (exec schedule (s, route <$> reqs)).1).
    rewrite length_fmap in Hl. assert (length (exec schedule (s, route <$> reqs)).2 = length reqs) as Hlen.
    { rewrite length_exec. apply length_fmap. }
    pose proof (ledger_counts reqs _ cs mu Hlen Hl) as H.
    apply Nat2Z.inj_le, Z.le_0_sub. transitivity (zsum cs); [rewrite Hsum, Z.sub_0_r; exact Hmu|].
    apply H.
    intros i req p c Hreq Hp Hc. destruct (Hacc i p Hp) as (a & c' & Ha & Hc' & Hac).
    rewrite list_lookup_fmap, Hreq in Ha. injection Ha as <-. rewrite Hc in Hc'. by injection Hc' as ->.
Qed.
End ledger.

(** *** The two tables of nonces *)
Section nonces.
Context `{C : Curve} `{RP : Rpc} `{A : Aead} `{HX : Hex} `{J : Json} `{DO : DirOrder}.
Variables (config : ValidatorConfig) (fuel : nat) (id : SessionId).

Definition names_session (hex : bytes) : bool :=
  match decode_session_id hex with Ok s => bool_decide (s = id) | _ => false end.
Definition opens_sign (req : request) : bool :=
  match req with SignRound1 hex => names_session hex | _ => false end.
Definition spends_sign (req : request) : bool :=
  match req with SignRound3 r => names_session (s3_session_id_hex r) | _ => false end.
Definition opens_refresh (req : request) : bool :=
  match req with RefreshRound1 hex _ => names_session hex | _ => false end.
Definition spends_refresh (req : request) : bool :=
  match req with RefreshRound5 r => names_session (f5_session_id_hex r) | _ => false end.

Definition in_flight {T} (m : gmap SessionId T) : Z := Z.b2z (bool_decide (is_Some (m !! id))).
Definition sign_in_flight (a : AppState) : Z := in_flight (app_sign_sessions a).
Definition refresh_in_flight (a : AppState) : Z := in_flight (app_refresh_sessions a).

Lemma in_flight_range {T} (m : gmap SessionId T) : 0 <= in_flight m <= 1.
Proof. unfold in_flight. case_bool_decide; cbn; lia. Qed.

Lemma in_flight_insert {T} k (e : T) m :
  in_flight (table_insert k e m).2 - in_flight m =
    Z.b2z (bool_decide (k = id) && match (table_insert k e m).1 with Ok _ => true | _ => false end).
Proof.
  unfold table_insert, in_flight. destruct (decide (is_Some (m !! k))) as [Hk|Hk].
  - rewrite (bool_decide_eq_true_2 _ Hk). cbn. rewrite andb_false_r. cbn. lia.
  - rewrite (bool_decide_eq_false_2 _ Hk). cbn. rewrite andb_true_r.
    destruct (decide (k = id)) as [->|Hne].
    + rewrite lookup_insert_eq, (bool_decide_eq_true_2 (is_Some (Some e))) by done.
      rewrite (bool_decide_eq_false_2 (is_Some (m !! id))) by done.
      by rewrite bool_decide_eq_true_2.
    + rewrite lookup_insert_ne by done. rewrite (bool_decide_eq_false_2 (k = id)) by done. cbn. lia.
Qed.

Lemma in_flight_take {T} k (m : gmap SessionId T) :
  in_flight (table_take k m).2 - in_flight m =
    - Z.b2z (bool_decide (k = id) && bool_decide (is_Some (table_take k m).1)).
Proof.
  unfold table_take, in_flight. cbn [fst snd]. destruct (decide (k = id)) as [->|Hne].
  - rewrite lookup_delete_eq, (bool_decide_eq_false_2 (is_Some None)) by (by intros [? ?]).
    rewrite (bool_decide_eq_true_2 (id = id)) by done. cbn. lia.
  - rewrite lookup_delete_ne by done. rewrite (bool_decide_eq_false_2 (k = id)) by done. cbn. lia.
Qed.

Lemma in_flight_prune {T} (f : T -> Z) ttl now m :
  in_flight (table_prune f ttl now m).2 - in_flight m <= 0.
Proof.
  unfold table_prune, in_flight. cbn [snd].
  destruct (filter _ m !! id) as [e|] eqn:He; rewrite ?He.
  - apply map_lookup_filter_Some in He as [He _]. rewrite He. lia.
  - rewrite (bool_decide_eq_false_2 (is_Some None)) by (by intros [? ?]).
    case_bool_decide; cbn; lia.
Qed.

Lemma in_flight_nonneg {T} (m : gmap SessionId T) : 0 <= in_flight m.
Proof. apply in_flight_range. Qed.
End nonces.

(** *** Requests that leave a table alone *)
Section quiet.
Context `{C : Curve} `{RP : Rpc} `{A : Aead} `{HX : Hex} `{J : Json} `{DO : DirOrder}.
Variables (config : ValidatorConfig) (fuel : nat) (mu : AppState -> Z).

(** The measure looks neither at the state record nor at the world. *)
Hypothesis mu_state : forall a s, mu (set_state a s) = mu a.
Hypothesis mu_world : forall a l h, mu (set_world a l h) = mu a.

Lemma silent_on_state {X} (f : ValidatorState -> X * ValidatorState) : silent mu (on_state f).
Proof. intros a. cbn. destruct (f (app_state a)). split; [apply mu_state|done]. Qed.
Lemma silent_on_host {X} (p : prog host X) : silent mu (on_host p).
Proof.
  induction p as [x|Y f k IH]; [done|]. intros a. destruct (f (app_host a)) as [b h] eqn:Hf.
  split; [apply mu_world|apply IH].
Qed.
Lemma silent_tlog event : silent mu (tlog event).
Proof.
  intros a. destruct (app_transparency a) as [l|]; [|done].
  destruct (run _ _) as [r h]. split; [apply mu_world|done].
Qed.
Lemma silent_draw {X} (f : rng -> X * rng) : silent mu (app_draw f).
Proof. apply silent_on_host. Qed.
Lemma silent_draw_res {E X} (f : rng -> res E (X * rng)) : silent mu (app_draw_res f).
Proof. apply silent_on_host. Qed.
Lemma silent_now : silent mu app_now.
Proof. apply silent_on_host. Qed.
Lemma silent_reads {X} (f : AppState -> X) : silent mu (reads_state (E := ApiError) f).
Proof. by intros a. Qed.
Lemma silent_done {X} (r : res ApiError X) : silent mu (Done r).
Proof. done. Qed.
Lemma silent_read_share : silent mu read_share.
Proof. apply silent_bind; [apply silent_on_state|]. intros. apply silent_lift. Qed.
Lemma silent_logger : silent mu logger_of.
Proof. apply silent_bind; [apply silent_reads|]. intros. apply silent_lift. Qed.
Lemma silent_on_sign {X} (f : SignSessions -> X * SignSessions) :
  (forall a, mu (set_sign a (f (app_sign_sessions a)).2) = mu a) -> silent mu (on_sign f).
Proof. intros H a. specialize (H a). cbn. by destruct (f (app_sign_sessions a)). Qed.
Lemma silent_on_refresh {X} (f : RefreshSessions -> X * RefreshSessions) :
  (forall a, mu (set_refresh a (f (app_refresh_sessions a)).2) = mu a) -> silent mu (on_refresh f).
Proof. intros H a. specialize (H a). cbn. by destruct (f (app_refresh_sessions a)). Qed.
Lemma silent_on_dkg {X} (f : DkgSessions -> X * DkgSessions) :
  (forall a, mu (set_dkg a (f (app_dkg_sessions a)).2) = mu a) -> silent mu (on_dkg f).
Proof. intros H a. specialize (H a). cbn. by destruct (f (app_dkg_sessions a)). Qed.
Lemma silent_on_reshare {X} (f : ReshareSessions -> X * ReshareSessions) :
  (forall a, mu (set_reshare a (f (app_reshare_sessions a)).2) = mu a) -> silent mu (on_reshare f).
Proof. intros H a. specialize (H a). cbn. by destruct (f (app_reshare_sessions a)). Qed.

Create HintDb quiet.
#[local] Hint Resolve silent_on_state silent_on_host silent_tlog silent_draw silent_draw_res silent_now
  silent_reads silent_done silent_read_share silent_logger silent_lift : quiet.
Ltac quiet :=
  repeat first
    [ exact I
    | match goal with
      | |- silent _ (match ?x with _ => _ end) => destruct x
      | |- silent _ (let '(_, _) := ?x in _) => destruct x
      | |- silent _ (_ ≫= _) => apply silent_bind; [|intros ?]
      | |- silent _ (on_sign _) => apply silent_on_sign; solve [auto|intros []; done]
      | |- silent _ (on_refresh _) => apply silent_on_refresh; solve [auto|intros []; done]
      end
    | solve [eauto with quiet] ].

Lemma silent_guard pk : silent mu (nullifier_guard config pk).
Proof. unfold nullifier_guard. quiet. Qed.
Lemma silent_persist r : silent mu (persist config r).
Proof. unfold persist. quiet. Qed.
Lemma silent_first_share seed paths : silent mu (first_share seed paths).
Proof. induction paths as [|p paths IH]; cbn [first_share]; quiet. Qed.
#[local] Hint Resolve silent_guard silent_persist silent_first_share : quiet.

Lemma silent_answered {X} (f : X -> response) (p : handler X) : silent mu p -> silent mu (answered f p).
Proof. intros Hp. unfold answered. quiet. Qed.

(** What is left to look at: who writes the tables. *)
Definition writes_sign (req : request) : bool :=
  match req with SignRound1 _ | SignRound3 _ | PruneSign _ => true | _ => false end.
Definition writes_refresh (req : request) : bool :=
  match req with RefreshRound1 _ _ | RefreshRound5 _ | PruneRefresh _ => true | _ => false end.

Hypothesis mu_dkg : forall a m, mu (set_dkg a m) = mu a.
Hypothesis mu_reshare : forall a m, mu (set_reshare a m) = mu a.
Hypothesis mu_chain : forall a c, mu (set_chain a c) = mu a.

Lemma silent_any_dkg {X} (f : DkgSessions -> X * DkgSessions) : silent mu (on_dkg f).
Proof using mu_dkg. apply silent_on_dkg. intros a. apply mu_dkg. Qed.
Lemma silent_any_reshare {X} (f : ReshareSessions -> X * ReshareSessions) : silent mu (on_reshare f).
Proof using mu_reshare. apply silent_on_reshare. intros a. apply mu_reshare. Qed.
#[local] Hint Resolve silent_any_dkg silent_any_reshare : quiet.

Lemma silent_others req :
  (writes_sign req = true -> forall a m, mu (set_sign a m) = mu a) ->
  (writes_refresh req = true -> forall a m, mu (set_refresh a m) = mu a) ->
  silent mu (router config fuel req).
Proof.
  intros Hs Hr. destruct req; cbn [router]; cbn [writes_sign writes_refresh] in *;
    try specialize (Hs eq_refl); try specialize (Hr eq_refl); try apply silent_answered;
    unfold health, info, metrics, sign_round1, sign_round3, refresh_round1, refresh_round5,
      dkg_start_handler, dkg_contribute_handler, dkg_finalize_handler, reshare_start_handler,
      reshare_contribute_handler, reshare_finalize_handler, transparency_log_handler,
      transparency_verify_chain_handler, admin_sessions, admin_reload_share; quiet.
  all: try (apply silent_answered; quiet).
  - intros a. split; [apply mu_world|done].
  - intros a. split; [apply mu_chain|done].
Qed.
End quiet.

(** *** The writers *)
Section writers.
Context `{C : Curve} `{RP : Rpc} `{A : Aead} `{HX : Hex} `{J : Json} `{DO : DirOrder}.
Variables (config : ValidatorConfig) (fuel : nat) (id : SessionId).

Abbreviation sign_acc := (ledger_account (E := ApiError) (X := response) (opens_sign id) (spends_sign id)).
Abbreviation refresh_acc :=
  (ledger_account (E := ApiError) (X := response) (opens_refresh id) (spends_refresh id)).

(** The account of a body, from that of its answer. *)
Definition before {X} (g : X -> response) (a : account (res ApiError response)) :
    account (res ApiError X) :=
  {| acc_mid := acc_mid a; acc_post r c := acc_post a (g <$> r) c |}.

Lemma acct_answered {X} mu (a : account (res ApiError response)) (g : X -> response) (p : handler X) c :
  acct mu (before g a) p c -> acct mu a (answered g p) c.
Proof.
  unfold answered, mbind, io_bind. revert c; induction p as [[x|e|]|Y f k IH]; intros c H; try exact H.
  destruct H as [Hm Hk]. split; [done|]. intros s. apply IH, Hk.
Qed.

(** A request that does not open starts at zero and may always stop. *)
Lemma ledger_start {S : Type} (opens spends : request -> bool) req (mu : S -> Z)
    (p : io S ApiError response) :
  silent mu p -> spends req = false -> acct mu (ledger_account opens spends req) p 0.
Proof.
  intros Hp Hs. apply silent_acct; [done|cbn; destruct (opens req); cbn; lia|].
  intros r. cbn. rewrite Hs. destruct (opens req), r; cbn; lia.
Qed.

Lemma names_session_true hex : names_session id hex = true <-> decode_session_id hex = Ok id.
Proof.
  unfold names_session. destruct (decode_session_id hex) as [s|e|]; [|done..].
  rewrite bool_decide_eq_true. naive_solver.
Qed.

Lemma acct_draw {X Y} mu (a : account (res ApiError Y)) (f : rng -> X * rng) (k : X -> handler Y) c :
  (forall s h, mu (set_host s h) = mu s) -> acc_mid a c -> (forall r, acct mu a (k (f r).1) c) ->
  acct mu a (app_draw f ≫= k) c.
Proof.
  intros Hmu Hm Hk. cbn. split; [done|]. intros s. destruct (f (h_rng (app_host s))) as [x r] eqn:Hf.
  cbn. rewrite Hmu, Z.sub_diag, Z.add_0_r. specialize (Hk (h_rng (app_host s))). by rewrite Hf in Hk.
Qed.

Lemma acct_draw_res {E X Y} mu (a : account (res ApiError Y)) (f : rng -> res E (X * rng))
    (k : res E X -> handler Y) c :
  (forall s h, mu (set_host s h) = mu s) -> acc_mid a c ->
  (forall r, acct mu a (k (fst <$> f r)) c) -> acct mu a (app_draw_res f ≫= k) c.
Proof.
  intros Hmu Hm Hk. apply (acct_draw mu a); [done|done|]. intros r. specialize (Hk r).
  by destruct (f r) as [[]|e|].
Qed.

(** The end of both first rounds: the entry goes into the table, or the
    request is refused. *)
Lemma acct_insert {T Y} (mu : AppState -> Z) (a : account (res ApiError Y))
    (f : AppState -> res unit unit * AppState) (get : AppState -> gmap SessionId T) k e (rest : handler Y) :
  (forall s, mu s = in_flight id (get s)) ->
  (forall s, (f s).1 = (table_insert k e (get s)).1 /\ get (f s).2 = (table_insert k e (get s)).2) ->
  acc_mid a 0 -> acc_post a (Err CONFLICT) 0 ->
  acct mu a rest (Z.b2z (bool_decide (k = id))) ->
  acct mu a (r ← atomically f; _ ← lift (conflict CONFLICT r); rest) 0.
Proof.
  intros Hmu Hf Hmid Herr Hrest. apply acct_section; [done|]. intros s.
  rewrite !Hmu. destruct (Hf s) as [H1 H2]. rewrite H1, H2.
  pose proof (in_flight_insert id k e (get s)) as Hd. rewrite Hd. clear Hd.
  unfold table_insert. destruct (bool_decide (is_Some (get s !! k))); cbn [fst].
  - rewrite andb_false_r. exact Herr.
  - rewrite andb_true_r. exact Hrest.
Qed.

(** The end of both later rounds: the entry is taken out, then the answer. *)
Lemma acct_take {T Y} (mu : AppState -> Z) (a : account (res ApiError Y))
    (f : AppState -> option T * AppState) (get : AppState -> gmap SessionId T) k (rest : T -> handler Y) :
  (forall s, mu s = in_flight id (get s)) ->
  (forall s, (f s).1 = (table_take k (get s)).1 /\ get (f s).2 = (table_take k (get s)).2) ->
  acc_mid a 0 -> acc_post a (Err NOT_FOUND) 0 ->
  (forall e, acct mu a (rest e) (- Z.b2z (bool_decide (k = id)))) ->
  acct mu a (e ← atomically f; e ← lift (ok_or NOT_FOUND e); rest e) 0.
Proof.
  intros Hmu Hf Hmid Herr Hrest. apply acct_section; [done|]. intros s.
  rewrite !Hmu. destruct (Hf s) as [H1 H2]. rewrite H2.
  pose proof (in_flight_take id k (get s)) as Hd. rewrite Hd. clear Hd. rewrite H1. cbn [fst table_take].
  destruct (get s !! k) as [e|] eqn:Hk.
  - rewrite (bool_decide_eq_true_2 (is_Some (Some e))) by done. rewrite andb_true_r. apply Hrest.
  - rewrite (bool_decide_eq_false_2 (is_Some None)) by (by intros [? ?]). rewrite andb_false_r. exact Herr.
Qed.

(** The account of a first round on [hex], of a later round on [hex]. *)
Lemma names_ok hex s : decode_session_id hex = Ok s -> names_session id hex = bool_decide (s = id).
Proof. unfold names_session. by intros ->. Qed.
Lemma names_not_ok hex : (forall s, decode_session_id hex <> Ok s) -> names_session id hex = false.
Proof. unfold names_session. destruct (decode_session_id hex); naive_solver. Qed.

Ltac account := cbn [before ledger_account acc_mid acc_post opens_sign spends_sign opens_refresh
  spends_refresh fmap res_fmap]; rewrite ?andb_false_r, ?andb_true_r; cbn [Z.b2z];
  try match goal with |- context [Z.b2z ?b] => destruct b end; cbn [Z.b2z]; try lia.

Lemma sign_round1_acct hex : acct (sign_in_flight id) (sign_acc (SignRound1 hex))
  (router config fuel (SignRound1 hex)) 0.
Proof.
  apply acct_answered. unfold sign_round1. apply acct_lift; [intros e; account|account|intros s Hs].
  apply acct_silent_bind; [by apply silent_read_share|account|intros e; account|account|intros share].
  apply acct_draw; [done|account|intros r]. unfold validator_round1. destruct (sc_random r) as [k r'].
  cbn [fst]. apply acct_silent_bind; [by apply silent_now|account|intros e; account|account|intros now].
  set (entry := {| se_state := {| v1s_session_id := s; v1s_my_index := sr_my_index share; v1s_k_i := k |};
    se_created_at := now |}).
  unfold on_sign. apply (acct_insert _ _ _ app_sign_sessions s entry); [done| |account|account|].
  { intros a. unfold SignSessions_insert. cbn [v1s_session_id se_state entry].
    by destruct (table_insert s entry (app_sign_sessions a)). }
  unfold on_state, tlog.
  apply acct_silent; [|done|intros []].
  { cbn. rewrite (names_ok hex s) by done. lia. }
  apply acct_silent; [| |intros []].
  { cbn. rewrite (names_ok hex s) by done. lia. }
  { intros a. destruct (app_transparency a); [|done]. by destruct (run _ _). }
  cbn. rewrite (names_ok hex s) by done. rewrite andb_true_r. lia.
Qed.

Lemma sign_round3_acct req : acct (sign_in_flight id) (sign_acc (SignRound3 req))
  (router config fuel (SignRound3 req)) 0.
Proof.
  apply acct_answered. unfold sign_round3. apply acct_lift; [intros e; account|account|intros s Hs].
  apply acct_lift; [intros e; account|account|intros c _].
  apply acct_silent_bind; [by apply silent_read_share|account|intros e; account|account|intros share].
  apply acct_lift; [intros e; account|account|intros sk _].
  unfold on_sign. apply (acct_take _ _ _ app_sign_sessions s); [done|by intros a|account|account|].
  intros entry. apply acct_lift; [intros e|..|intros out _]; cbn; rewrite (names_ok _ s) by done; account.
Qed.

Lemma refresh_round1_acct hex kappa : acct (refresh_in_flight id) (refresh_acc (RefreshRound1 hex kappa))
  (router config fuel (RefreshRound1 hex kappa)) 0.
Proof.
  apply acct_answered. unfold refresh_round1. apply acct_lift; [intros e; account|account|intros s Hs].
  apply acct_lift; [intros e; account|account|intros _ _].
  apply acct_silent_bind; [by apply silent_read_share|account|intros e; account|account|intros share].
  apply acct_draw_res; [done|account|intros r].
  destruct (validator_refresh_round1 s (sr_my_index share) kappa r) as [[[out st] r']|e|] eqn:Hr;
    [|cbn; account|cbn; account].
  assert (vrs_session_id st = s) as Hst.
  { unfold validator_refresh_round1 in Hr. inv_ok. destruct (foldl _ _ _) as [[ks rs] r2].
    inv_ok. by simplify_eq. }
  apply acct_lift; [intros e; account|account|intros round1 [= <-]].
  apply acct_silent_bind; [by apply silent_now|account|intros e; account|account|intros now].
  set (entry := {| re_state := st; re_created_at := now |}).
  unfold on_refresh. apply (acct_insert _ _ _ app_refresh_sessions s entry); [done| |account|account|].
  { intros a. unfold RefreshSessions_insert. cbn [re_state entry]. rewrite Hst.
    by destruct (table_insert s entry (app_refresh_sessions a)). }
  unfold on_state, tlog.
  apply acct_silent; [|done|intros []].
  { cbn. rewrite (names_ok hex s) by done. lia. }
  apply acct_silent; [| |intros []].
  { cbn. rewrite (names_ok hex s) by done. lia. }
  { intros a. destruct (app_transparency a); [|done]. by destruct (run _ _). }
  cbn. rewrite (names_ok hex s) by done. rewrite andb_true_r. lia.
Qed.

Lemma refresh_round5_acct req : acct (refresh_in_flight id) (refresh_acc (RefreshRound5 req))
  (router config fuel (RefreshRound5 req)) 0.
Proof.
  apply acct_answered. unfold refresh_round5. apply acct_lift; [intros e; account|account|intros s Hs].
  do 3 (apply acct_lift; [intros e; account|account|intros _ _]).
  apply acct_lift; [intros e; account|account|intros cs _].
  apply acct_lift; [intros e; account|account|intros pk _].
  apply acct_lift; [intros e; account|account|intros sg _].
  apply acct_silent_bind; [by apply silent_guard|account|intros e; account|account|intros _].
  apply acct_silent_bind; [by apply silent_read_share|account|intros e; account|account|intros share].
  apply acct_lift; [intros e; account|account|intros sk _].
  unfold on_refresh. apply (acct_take _ _ _ app_refresh_sessions s); [done|by intros a|account|account|].
  intros entry. apply acct_lift; [intros e|..|intros out _]; cbn; rewrite (names_ok _ s) by done; account.
Qed.

Lemma sign_acct req : acct (sign_in_flight id) (sign_acc req) (router config fuel req) 0.
Proof.
  destruct (writes_sign req) eqn:Hw.
  - destruct req; try done; [apply sign_round1_acct|apply sign_round3_acct|].
    cbn [router]. apply acct_silent_bind;
      [by apply silent_now|account|intros e; account|account|intros now].
    apply acct_answered. cbn. split; [lia|]. intros s.
    pose proof (in_flight_prune id se_created_at ttl now (app_sign_sessions s)) as Hp.
    unfold table_prune in Hp. cbn [snd] in Hp.
    unfold sign_in_flight. cbn [app_sign_sessions set_sign]. lia.
  - apply ledger_start; [|by destruct req].
    by apply silent_others; try done; rewrite Hw.
Qed.

Lemma refresh_acct req : acct (refresh_in_flight id) (refresh_acc req) (router config fuel req) 0.
Proof.
  destruct (writes_refresh req) eqn:Hw.
  - destruct req; try done; [apply refresh_round1_acct|apply refresh_round5_acct|].
    cbn [router]. apply acct_silent_bind;
      [by apply silent_now|account|intros e; account|account|intros now].
    apply acct_answered. cbn. split; [lia|]. intros s.
    pose proof (in_flight_prune id re_created_at ttl now (app_refresh_sessions s)) as Hp.
    unfold table_prune in Hp. cbn [snd] in Hp.
    unfold refresh_in_flight. cbn [app_refresh_sessions set_refresh]. lia.
  - apply ledger_start; [|by destruct req].
    by apply silent_others; try done; rewrite Hw.
Qed.
End writers.

(** ** Properties *)
Section interleaving_properties.
Context `{C : Curve} `{RP : Rpc} `{A : Aead} `{HX : Hex} `{J : Json} `{DO : DirOrder}.
Variables (config : ValidatorConfig) (fuel : nat).

(** C6: a nonce is used once, under every interleaving. Whatever requests the
    daemon serves at the same time and however their critical sections
    interleave (with prune loops, clocks and the chain among them), the
    partial signatures handed out for a session identifier that was not in
    flight at the start are at most as many as the first rounds for that
    identifier that were not refused; so for blind signing and for
    refreshes. *)
Theorem nonce_spent_once id reqs schedule a :
  app_sign_sessions a !! id = None -> app_refresh_sessions a !! id = None ->
  let tasks := (exec schedule (a, router config fuel <$> reqs)).2 in
  (count_tasks (spends_sign id) answered_ok reqs tasks <=
     count_tasks (opens_sign id) (λ p, negb (refused p)) reqs tasks)%nat /\
  (count_tasks (spends_refresh id) answered_ok reqs tasks <=
     count_tasks (opens_refresh id) (λ p, negb (refused p)) reqs tasks)%nat.
Proof.
  intros Hs Hr tasks. split.
  - apply (spent_le_opened _ _ (sign_in_flight id)).
    + exact (f_equal (λ o, Z.b2z (bool_decide (is_Some o))) Hs).
    + intros s. apply in_flight_nonneg.
    + apply sign_acct.
  - apply (spent_le_opened _ _ (refresh_in_flight id)).
    + exact (f_equal (λ o, Z.b2z (bool_decide (is_Some o))) Hr).
    + intros s. apply in_flight_nonneg.
    + apply refresh_acct.
Qed.

End interleaving_properties.

(** ** Witnesses: two clients race for one session *)
#[local] Existing Instance toy.
#[local] Existing Instance toy_rpc.
#[local] Existing Instance toy_aead.
#[local] Existing Instance toy_hex.
#[local] Existing Instance toy_json.
#[local] Existing Instance toy_order.

Definition race_sign : request :=
  SignRound3 {| s3_session_id_hex := demo_sid_hex Byte.x01; s3_signing_set := [1; 2];
                s3_challenge_hex := hex_encode (le_bytes 32 5) |}.
Definition race_refresh : request :=
  RefreshRound5 {| f5_session_id_hex := demo_sid_hex Byte.x01; f5_signing_set := [1; 2];
    f5_gamma_star := 2; f5_user_challenges_hex := replicate 3 (hex_encode (le_bytes 32 9));
    f5_melted_coin_pubkey_hex := hex_encode (le_bytes 32 1);
    f5_melted_coin_signature_hex := hex_encode (le_bytes 64 1) |}.
Definition race : list request :=
  [SignRound1 (demo_sid_hex Byte.x01); SignRound1 (demo_sid_hex Byte.x01); race_sign; race_sign;
   RefreshRound1 (demo_sid_hex Byte.x01) 3; race_refresh; race_refresh; Elapse 1; PruneSign DEFAULT_SESSION_TTL].
Definition race_schedule : list nat :=
  [0; 1; 0; 1; 0; 1; 0; 1; 4; 4; 4; 4]%nat ++ concat (replicate 10 (seq 0 9)).
Definition race_tasks := (exec race_schedule
  (demo_app (Some (demo_record 1)) 21, router (demo_config false) 64 <$> race)).2.

Lemma nonce_spent_once_witness :
  count_tasks (spends_sign (demo_sid Byte.x01)) answered_ok race race_tasks = 1%nat /\
  count_tasks (spends_refresh (demo_sid Byte.x01)) answered_ok race race_tasks = 1%nat /\
  (count_tasks (spends_sign (demo_sid Byte.x01)) answered_ok race race_tasks <=
     count_tasks (opens_sign (demo_sid Byte.x01)) (λ p, negb (refused p)) race race_tasks)%nat /\
  (count_tasks (spends_refresh (demo_sid Byte.x01)) answered_ok race race_tasks <=
     count_tasks (opens_refresh (demo_sid Byte.x01)) (λ p, negb (refused p)) race race_tasks)%nat.
Proof.
  split; [vm_refl|]. split; [vm_refl|].
  apply (nonce_spent_once (demo_config false) 64 (demo_sid Byte.x01) race race_schedule
    (demo_app (Some (demo_record 1)) 21)); reflexivity.
Defined.
