(* ===== verification/ValidatorGuard.v ===== *)
(** * tardus-validator: round 5, the nullifier guard, failed ceremonies

    What round 5 of a refresh checks and what it does not, the hand-written
    decoder of the nullifier account against the program's own, and the fate
    of a ceremony whose finalisation fails. *)
From S2P Require Import Prelude Crypto ToyCurve Async Platform ToyPlatform Core Poly Wire MintBase Vss Sign Dkg Rotation Refresh.
From S2P Require Import Instruction Program Solana Ed25519 Sbf SbfFrame Storage Transparency Sessions Validator ToyValidator ValidatorRun.

(** ** The account of the nullifier set *)
Lemma chunks_take n b : chunks_exact_32 n (take (n * 32) b) = chunks_exact_32 n b.
Proof.
  revert b; induction n as [|n IH]; intros b; [done|]. cbn [chunks_exact_32].
  rewrite take_take, Nat.min_l by lia. replace (S n * 32)%nat with (32 + n * 32)%nat by lia.
  by rewrite <- take_drop_commute, IH.
Qed.

Lemma read_n_exact n inp :
  read_n (read_exact 32) n inp =
    if decide (n * 32 <= length inp)%nat
    then Some (chunks_exact_32 n inp, drop (n * 32) inp) else None.
Proof.
  revert inp; induction n as [|n IH]; intros inp; cbn [read_n chunks_exact_32].
  - by rewrite decide_True by lia.
  - unfold mbind at 1, reader_bind at 1. unfold read_exact at 1.
    destruct (decide (32 <= length inp)%nat) as [H|H]; [|by rewrite decide_False by lia].
    unfold mbind, reader_bind. rewrite IH, length_drop.
    destruct (decide (n * 32 <= length inp - 32)%nat) as [H'|H'].
    + rewrite decide_True by lia. rewrite drop_drop. done.
    + by rewrite decide_False by lia.
Qed.

Lemma read_vec_exact data :
  read_vec (read_exact 32) data =
    if decide (4 <= length data)%nat
    then read_n (read_exact 32) (Z.to_nat (le_Z (take 4 data))) (drop 4 data) else None.
Proof.
  unfold read_vec, read_u32, read_uint, mbind, reader_bind. unfold read_exact at 1.
  destruct (decide _); done.
Qed.

Lemma leaves_contain_spec data n : leaves_contain data n = Ok tt <->
  exists l rest, read_vec (read_exact 32) data = Some (l, rest) /\ n ∈ l.
Proof.
  unfold leaves_contain. rewrite read_vec_exact.
  destruct (Nat.ltb_spec (length data) 4) as [H4|H4].
  { rewrite decide_False by lia. split; [done|]. by intros (l & rest & ? & _). }
  rewrite decide_True by lia. rewrite read_n_exact, length_drop. cbn [reject_if mbind res_bind].
  generalize (Z.to_nat (le_Z (take 4 data))). intros count.
  destruct (Nat.ltb_spec (length data) (4 + count * 32)) as [Hc|Hc].
  { rewrite decide_False by lia. split; [done|]. by intros (l & rest & ? & _). }
  rewrite decide_True by lia. cbn [reject_if mbind res_bind].
  rewrite length_take, length_drop, Nat.min_l, Nat.div_mul, chunks_take by lia.
  set (l := chunks_exact_32 count (drop 4 data)).
  assert (existsb (λ chunk, bool_decide (chunk = n)) l = true <-> n ∈ l) as He.
  { rewrite existsb_exists, list_elem_of_In. setoid_rewrite bool_decide_eq_true. naive_solver. }
  destruct (existsb _ l); naive_solver.
Qed.

Lemma read_vec_zeros data l rest :
  all_zero data = true -> read_vec (read_exact 32) data = Some (l, rest) -> l = [].
Proof.
  intros Hz. rewrite read_vec_exact. case_decide as H4; [|done].
  rewrite <- (take_drop 4 data), all_zero_app in Hz. apply andb_true_iff in Hz as [Hz _].
  rewrite all_zero_le_Z by done. by intros [= <- _].
Qed.

Lemma leaves_contain_recorded data n : leaves_contain data n = Ok tt <-> recorded_in n data.
Proof.
  rewrite leaves_contain_spec. unfold recorded_in, load_padded, NullifierSet_read, mbind, reader_bind.
  destruct (all_zero data) eqn:Hz.
  - split; [|intros (s & <-%(inj Ok) & []%elem_of_empty)].
    intros (l & rest & Hl & Hn). apply read_vec_zeros in Hl as ->; [|done]. by apply elem_of_nil in Hn.
  - destruct (read_vec (read_exact 32) data) as [[l rest]|]; cbn.
    + split; [intros (? & ? & [= <- <-] & Hn)|intros (s & <-%(inj Ok) & Hn)].
      * eexists. split; [done|]. by apply elem_of_list_to_set.
      * exists l, rest. split; [done|]. by apply elem_of_list_to_set in Hn.
    + naive_solver.
Qed.

Section guard.
Context `{C : Curve} `{RP : Rpc}.

(** C35: the daemon reads the account as the program writes it. The nullifier
    guard, which decodes the account by hand, accepts a coin exactly when the
    node answers with an account and the program's own decoder of that account
    yields a set that holds the coin's nullifier; fresh (all zero), padded,
    short and truncated accounts included. *)
Theorem guard_reads_program_account rpc_url pda coin_pubkey chain :
  verify_nullifier_finalized rpc_url pda coin_pubkey chain = Ok tt <->
  exists d data, get_account chain rpc_url (bs58_encode pda) = Data d /\
    base64_decode d = Some data /\
    exists s, load_padded NullifierSet_new NullifierSet_read data = Ok s /\
      NullifierSet_contains s (compute_nullifier coin_pubkey) = true.
Proof.
  unfold verify_nullifier_finalized.
  destruct (get_account _ _ _) as [| | | | |d] eqn:Hg; cbn [mbind res_bind]; [naive_solver..|].
  destruct (base64_decode d) as [data|] eqn:Hb; cbn [ok_or mbind res_bind]; [|naive_solver].
  rewrite leaves_contain_recorded. unfold recorded_in, NullifierSet_contains.
  setoid_rewrite bool_decide_eq_true. split.
  - intros (s & Hs & Hn). exists d, data. split_and!; [done..|]. by exists s.
  - intros (? & ? & [= <-] & Hd & H). rewrite Hb in Hd. injection Hd as <-. exact H.
Qed.
End guard.

(** ** Round 5 *)
Section round5.
Context `{C : Curve} `{RP : Rpc} `{HX : Hex}.
Variable config : ValidatorConfig.

(** The session a round 5 consumes. *)
Definition round5_session (req : RefreshRound5Req) : option SessionId :=
  match decode_session_id (f5_session_id_hex req) with Ok s => Some s | _ => None end.

(** [p] reads and writes the entry of [id] in the refresh table, and otherwise
    reads the state only. *)
Definition local_to {X} (id : SessionId) (p : handler X) : Prop :=
  forall a m, m !! id = app_refresh_sessions a !! id ->
    exists m', run p (set_refresh a m) = ((run p a).1, set_refresh a m') /\
      m' !! id = app_refresh_sessions (run p a).2 !! id /\
      forall s, s <> id -> m' !! s = m !! s.

Lemma local_run {X} id (p : handler X) a : local_to id p -> exists m, (run p a).2 = set_refresh a m.
Proof.
  intros H. destruct (H a _ eq_refl) as (m & Hm & _). rewrite set_refresh_id in Hm.
  rewrite Hm. by exists m.
Qed.

Lemma local_bind {X Y} id (p : handler X) (k : X -> handler Y) :
  local_to id p -> (forall x, local_to id (k x)) -> local_to id (p ≫= k).
Proof.
  intros Hp Hk a m Hm. destruct (Hp a m Hm) as (m1 & H1 & Hid & Ho).
  destruct (local_run _ _ a Hp) as [m0 H0]. rewrite !run_bind, H1.
  destruct (run p a) as [r a'] eqn:Ha. cbn [fst snd] in *. subst a'.
  destruct r as [x| |]; [|by exists m1..].
  destruct (Hk x (set_refresh a m0) m1 Hid) as (m2 & H2 & Hid2 & Ho2).
  exists m2. split_and!; [exact H2|exact Hid2|]. intros s Hs. by rewrite Ho2, Ho.
Qed.

Lemma local_lift {X} id (r : res ApiError X) : local_to id (lift r).
Proof. intros a m Hm. by exists m. Qed.
Lemma local_read_share id : local_to id read_share.
Proof. intros a m Hm. rewrite !run_read_share. by exists m. Qed.
Lemma local_chain {X} id (f : chain_state -> X) : local_to id (reads_state (λ a, f (app_chain a))).
Proof. intros a m Hm. by exists m. Qed.
Lemma local_guard id pk : local_to id (nullifier_guard config pk).
Proof.
  unfold nullifier_guard. destruct (vc_solana_rpc_url config); [|apply local_lift].
  apply local_bind; [apply local_lift|intros pda]. apply local_bind; [|intros r; apply local_lift].
  apply (local_chain id (verify_nullifier_finalized _ pda pk)).
Qed.
Lemma local_take id : local_to id (on_refresh (RefreshSessions_take id)).
Proof.
  intros a m Hm. rewrite !run_on_refresh. exists (delete id m). split_and!.
  - exact (f_equal (λ o, (Ok o, set_refresh a (delete id m))) Hm).
  - exact (eq_trans (lookup_delete_eq m id) (eq_sym (lookup_delete_eq _ id))).
  - intros s Hs. by apply (lookup_delete_ne m).
Qed.

#[local] Hint Resolve local_lift local_read_share local_guard local_take : core.
Lemma local_round5 req id : round5_session req = Some id -> local_to id (refresh_round5 config req).
Proof.
  unfold round5_session, refresh_round5. intros Hid.
  destruct (decode_session_id _) as [s| |]; [|done..]. injection Hid as ->.
  match goal with |- local_to _ (_ ≫= ?k) => change (local_to id (k id)) end. cbv beta zeta.
  repeat (apply local_bind; [by auto|intros ?]). apply local_lift.
Qed.

Lemma round5_unreadable req a : round5_session req = None ->
  exists r, run (refresh_round5 config req) a = (r, a) /\
    forall a', run (refresh_round5 config req) a' = (r, a').
Proof.
  unfold round5_session, refresh_round5. intros Hid.
  destruct (decode_session_id _); [done|eexists; by split..].
Qed.

Lemma serve_round5 reqs : forall a m, NoDup (round5_session <$> reqs) ->
  (forall req s, req ∈ reqs -> round5_session req = Some s -> m !! s = app_refresh_sessions a !! s) ->
  (serve (refresh_round5 config <$> reqs) (set_refresh a m)).1 =
    (λ req, (run (refresh_round5 config req) a).1) <$> reqs.
Proof.
  induction reqs as [|req reqs IH]; intros a m Hnd Hm; [done|].
  apply NoDup_cons in Hnd as [Hnew Hnd]. cbn [serve fmap list_fmap].
  assert (exists m', run (refresh_round5 config req) (set_refresh a m) =
            ((run (refresh_round5 config req) a).1, set_refresh a m') /\
          forall s, round5_session req <> Some s -> m' !! s = m !! s) as (m' & -> & Hm').
  { destruct (round5_session req) as [id|] eqn:Hid.
    - destruct (local_round5 req id Hid a m) as (m' & H & _ & Ho).
      { apply (Hm req); [by left|done]. }
      exists m'. split; [exact H|]. intros s Hs. apply Ho. congruence.
    - destruct (round5_unreadable req a Hid) as (r & -> & H). rewrite H. by exists m. }
  specialize (IH a m' Hnd). destruct (serve _ (set_refresh a m')) as [rs a']. cbn [fst] in *.
  f_equal. apply IH. intros req' s Hin Hs.
  rewrite Hm'; [by apply (Hm req'); [right|]|]. intros He. apply Hnew. rewrite He, <- Hs.
  by apply list_elem_of_fmap_2.
Qed.

(** [req] with another signature of the melted coin. *)
Definition with_signature (req : RefreshRound5Req) (hex : bytes) : RefreshRound5Req :=
  {| f5_session_id_hex := f5_session_id_hex req; f5_signing_set := f5_signing_set req;
     f5_gamma_star := f5_gamma_star req; f5_user_challenges_hex := f5_user_challenges_hex req;
     f5_melted_coin_pubkey_hex := f5_melted_coin_pubkey_hex req;
     f5_melted_coin_signature_hex := hex |}.

(** What round 5 does not check. Whatever coins a list of round 5 requests
    for distinct sessions melts (the same coin in each, say), every one is
    answered as if it were the only one: no request makes a later one fail.
    And the answer is the same for every well-formed signature of the melted
    coin. *)
Theorem round5_forgets_the_coin reqs a :
  NoDup (round5_session <$> reqs) ->
  (serve (refresh_round5 config <$> reqs) a).1 =
    (λ req, (run (refresh_round5 config req) a).1) <$> reqs /\
  forall req sig sig', decode_hex64 (f5_melted_coin_signature_hex req) = Ok sig ->
    forall hex, decode_hex64 hex = Ok sig' ->
    run (refresh_round5 config (with_signature req hex)) a = run (refresh_round5 config req) a.
Proof.
  intros Hnd. split.
  - rewrite <- (set_refresh_id a) at 1. by apply serve_round5.
  - intros req sig sig' H hex H'. unfold refresh_round5. cbn [with_signature f5_session_id_hex
      f5_user_challenges_hex f5_gamma_star f5_melted_coin_pubkey_hex f5_melted_coin_signature_hex
      f5_signing_set]. by rewrite H, H'.
Qed.
End round5.

(** ** Finalisation of a ceremony *)
Section finalize.
Context `{C : Curve} `{RP : Rpc} `{A : Aead} `{HX : Hex} `{J : Json}.
Variables (config : ValidatorConfig) (fuel : nat).

Lemma run_persist record a : exists r h, run (persist config record) a = (r, set_host a h) /\ 
  r <> Err NOT_FOUND.
Proof.
  unfold persist. destruct (vc_master_seed config) as [seed|].
  - run_step. rewrite run_catch. destruct (run _ (app_host a)) as [[x|e|] h]; cbn; do 2 eexists; by split.
  - exists (Ok false), (app_host a). by destruct a.
Qed.

Lemma take_finalisable_cases {R1 P} id (m : gmap CeremonyId (ceremony R1 P)) :
  ceremony_take_finalisable id m = (Err tt, m) \/
  exists x, ceremony_take_finalisable id m = (Ok x, delete id m).
Proof.
  unfold ceremony_take_finalisable. destruct (m !! id) as [sess|] eqn:Hm; [|by left].
  destruct (_ <? _); [left|right; eauto]. by rewrite insert_delete_eq, insert_id.
Qed.

Lemma take_finalisable_absent {R1 P} id (m : gmap CeremonyId (ceremony R1 P)) :
  m !! id = None -> ceremony_take_finalisable id m = (Err tt, m).
Proof. unfold ceremony_take_finalisable. by intros ->. Qed.

Lemma finalize_absent hex id a : decode_ceremony_id hex = Ok id -> app_dkg_sessions a !! id = None ->
  run (dkg_finalize_handler config fuel hex) a = (Err NOT_FOUND, a).
Proof.
  intros Hid Ha. unfold dkg_finalize_handler. rewrite Hid. run_step.
  unfold DkgSessions_take_finalisable. rewrite take_finalisable_absent by done.
  cbn. by rewrite set_dkg_id.
Qed.

Lemma finalize_index own received h fin :
  dkg_finalize own received h = Ok fin -> df_my_index fin = dp_my_index (do_private own).
Proof. unfold dkg_finalize, dkg_combine. intros H. inv_res. cbv zeta in H. inv_ok. by simplify_eq. Qed.

(** What an answer [r] leaves, once the ceremony has been taken out. *)
Definition finalized (a : AppState) (id : CeremonyId) (hex : bytes)
    (r : res ApiError DkgFinalizeResp) (a' : AppState) : Prop :=
  r <> Err NOT_FOUND /\ app_dkg_sessions a' = delete id (app_dkg_sessions a) /\
  run (dkg_finalize_handler config fuel hex) a' = (Err NOT_FOUND, a') /\
  match r with
  | Ok resp => exists record, vs_share (app_state a') = Some record /\
      fz_my_index resp = sr_my_index record /\ fz_qual resp = sr_qual record /\
      fz_joint_pk_hex resp = hex_encode (sr_joint_pk_bytes record)
  | _ => vs_share (app_state a') = vs_share (app_state a)
  end.

(** A finalisation is all or nothing, and is tried once. It is refused
    with 404 and nothing changes when the ceremony is unknown or misses
    contributions; any other answer has removed the ceremony, so that the
    request repeated gets 404, also when the answer was an error, a failure to
    write the share or a panic; and the daemon has the share exactly when the
    answer was positive. *)
Theorem finalize_consumes_ceremony hex id a : decode_ceremony_id hex = Ok id ->
  let '(r, a') := run (dkg_finalize_handler config fuel hex) a in
  (r = Err NOT_FOUND /\ a' = a) \/ finalized a id hex r a'.
Proof.
  intros Hid.
  assert (forall a', app_dkg_sessions a' = delete id (app_dkg_sessions a) ->
    run (dkg_finalize_handler config fuel hex) a' = (Err NOT_FOUND, a')) as Hagain.
  { intros a' Ha. apply (finalize_absent _ id); [done|].
    rewrite Ha. exact (lookup_delete_eq _ id). }
  assert (forall r a', r <> Err NOT_FOUND -> app_dkg_sessions a' = delete id (app_dkg_sessions a) ->
    match r with
    | Ok resp => exists record, vs_share (app_state a') = Some record /\
      fz_my_index resp = sr_my_index record /\ fz_qual resp = sr_qual record /\
      fz_joint_pk_hex resp = hex_encode (sr_joint_pk_bytes record)
    | _ => vs_share (app_state a') = vs_share (app_state a)
    end -> finalized a id hex r a') as Hend by (intros r a' H1 H2 H3; by split_and!; auto).
  unfold dkg_finalize_handler at 1. rewrite Hid. run_step.
  unfold DkgSessions_take_finalisable.
  destruct (take_finalisable_cases id (app_dkg_sessions a)) as [H|[[[round1 received] n] H]]; rewrite H.
  { left. cbn. by rewrite set_dkg_id. }
  run_step. cbn [conflict map_err]. run_step.
  destruct (h_generator fuel) as [h| |]; cbn [map_err]; [|right; by apply Hend..].
  run_step. destruct (dkg_finalize round1 received h) as [fin| |] eqn:Hfin; cbn [map_err]; [|right; by apply Hend..].
  run_step. match goal with |- context [persist config ?r] => set (record := r) end.
  match goal with |- context [run (persist config record) ?a] =>
    destruct (run_persist record a) as (r & h' & -> & Hr) end.
  destruct r as [p|e|]; [|right; apply Hend; [congruence|done..]|right; by apply Hend].
  run_step. match goal with |- context [tlog ?e] => set (event := e) end.
  match goal with |- context [run (tlog event) ?a] => destruct (run_tlog event a) as (l & h2 & ->) end.
  right. apply Hend; [done|done|]. exists record. by rewrite <- (finalize_index _ _ _ _ Hfin).
Qed.
End finalize.

(** ** Witnesses *)
#[local] Existing Instance toy.
#[local] Existing Instance toy_rpc.
#[local] Existing Instance toy_aead.
#[local] Existing Instance toy_hex.
#[local] Existing Instance toy_json.
#[local] Existing Instance toy_order.

(** One coin, whose nullifier is on chain, melted in two sessions. *)
Definition melt_coin : bytes := le_bytes 32 77.
Definition melt_chain : gmap bytes bytes :=
  {[ demo_pda := default [] (NullifierSet_to_vec {| ns_leaves := {[ compute_nullifier melt_coin ]} |}) ++ zeros 64 ]}.
Definition melt (b : Byte.byte) : RefreshRound5Req :=
  {| f5_session_id_hex := demo_sid_hex b; f5_signing_set := [1; 2];
     f5_gamma_star := 2; f5_user_challenges_hex := replicate 3 (hex_encode (le_bytes 32 9));
     f5_melted_coin_pubkey_hex := hex_encode melt_coin;
     f5_melted_coin_signature_hex := hex_encode (zeros 64) |}.
Definition melt_app : AppState :=
  (serve [router (demo_config true) 64 (ChainBecomes melt_chain);
          router (demo_config true) 64 (RefreshRound1 (demo_sid_hex Byte.x01) 3);
          router (demo_config true) 64 (RefreshRound1 (demo_sid_hex Byte.x02) 3)]
     (demo_app (Some (demo_record 1)) 33)).2.
Definition melt_answers : list (res ApiError RefreshRound5Resp) :=
  (serve (refresh_round5 (demo_config true) <$> [melt Byte.x01; melt Byte.x02]) melt_app).1.

Lemma round5_forgets_the_coin_witness :
  forallb is_ok melt_answers = true /\
  melt_answers = (λ req, (run (refresh_round5 (demo_config true) req) melt_app).1) <$> [melt Byte.x01; melt Byte.x02] /\
  run (refresh_round5 (demo_config true) (with_signature (melt Byte.x01) (hex_encode (repeat Byte.xff 64)))) melt_app =
    run (refresh_round5 (demo_config true) (melt Byte.x01)) melt_app.
Proof.
  split; [vm_refl|].
  destruct (round5_forgets_the_coin (demo_config true) [melt Byte.x01; melt Byte.x02] melt_app) as [H1 H2].
  - refine (bool_decide_eq_true_1 _ _). vm_refl.
  - split; [exact H1|]. apply (H2 _ (zeros 64) (repeat Byte.xff 64)); vm_refl.
Defined.

(** A ceremony with one peer of two, then with both. *)
Definition hex_of (o : option bytes) : bytes := hex_encode (default [] o).
Definition contribution (j i : Z) : ContributeReq :=
  {| ct_ceremony_id_hex := hex_encode (cid demo_cid); ct_from_index := i;
     ct_broadcast_borsh_hex := hex_of (DkgRound1Broadcast_serialize (do_broadcast (demo_outs i)));
     ct_share_for_me_borsh_hex := hex_of (VssShare_serialize <$> do_shares (demo_outs i) !! Z.to_nat (j - 1)) |}.
Definition ceremony_app : AppState :=
  (serve [router (demo_config false) 64 (DkgStartR {| ds_ceremony_id_hex := hex_encode (cid demo_cid);
            ds_my_index := 1; ds_n := 3; ds_t := 2 |});
          router (demo_config false) 64 (DkgContribute (contribution 1 2));
          router (demo_config false) 64 (DkgContribute (contribution 1 3))]
     (demo_app None 101)).2.

Lemma finalize_consumes_ceremony_witness :
  is_ok (run (dkg_finalize_handler (demo_config false) 64 (hex_encode (cid demo_cid))) ceremony_app).1 = true /\
  let '(r, a') := run (dkg_finalize_handler (demo_config false) 64 (hex_encode (cid demo_cid))) ceremony_app in
  (r = Err NOT_FOUND /\ a' = ceremony_app) \/
  finalized (demo_config false) 64 ceremony_app demo_cid (hex_encode (cid demo_cid)) r a'.
Proof.
  split; [vm_refl|].
  apply (finalize_consumes_ceremony (demo_config false) 64 (hex_encode (cid demo_cid)) demo_cid ceremony_app).
  vm_refl.
Defined.
