(* ===== verification/ValidatorDkg.v ===== *)
(** * tardus-validator: a key generation over the HTTP interface

    [n] daemons are started on one ceremony, exchange their answers in any
    order and finalise: the handlers of [Validator] composed with the protocol
    of [Dkg], through the hexadecimal and Borsh codecs and the table of
    ceremonies. *)
From S2P Require Import Prelude Crypto ToyCurve Async Platform ToyPlatform Core Poly Wire MintBase Vss Sign Dkg Rotation Refresh.
From S2P Require Import Storage Transparency Sessions Validator ToyValidator ValidatorRun.

(** ** The messages of the daemons *)
(** What node [i]'s answer to [/dkg/start] makes a client post to node [j]. *)
Definition contribution_of (resps : Z -> StartResp) (j i : Z) : option ContributeReq :=
  s ← st_shares_borsh_hex (resps i) !! Z.to_nat (j - 1);
  Some {| ct_ceremony_id_hex := st_ceremony_id_hex (resps i); ct_from_index := i;
          ct_broadcast_borsh_hex := st_broadcast_borsh_hex (resps i); ct_share_for_me_borsh_hex := s |}.

Section wire.
Context `{CO : CurveOk}.

Lemma deal_lengths secret params h r : vp_t params < 2 ^ 16 ->
  let '(ped, fel, _, _) := deal secret params h r in
  Z.of_nat (length (vc_coeffs ped)) < 2 ^ 16 /\ Z.of_nat (length (fc_coeffs fel)) < 2 ^ 16.
Proof.
  intros Ht. unfold deal.
  destruct (random_scalars _ r) as [f r1]. destruct (random_scalars _ r1) as [g r2].
  cbn [vc_coeffs fc_coeffs]. rewrite length_zip_with, length_fmap, length_take. lia.
Qed.

Lemma dkg_start_wire ceremony i params h r out r' : vp_t params < 2 ^ 16 ->
  dkg_start ceremony i params h r = Ok (out, r') ->
  is_Some (DkgRound1Broadcast_serialize (do_broadcast out)) /\ wf_signature (db_pok (do_broadcast out)).
Proof.
  intros Ht. unfold dkg_start. destruct (sc_random r) as [s r1].
  pose proof (deal_lengths s params h r1 Ht) as Hd.
  destruct (deal s params h r1) as [[[ped fel] shares] r2]. destruct Hd as [Hp Hf].
  intros H. inv_ok. destruct (schnorr_sign _ _ _ _) as [pok rs] eqn:Hs. simplify_eq. cbn. split.
  - unfold DkgRound1Broadcast_serialize, VssCommitments_serialize, FeldmanCommitments_serialize,
      serialize_point_vec. cbn. rewrite !decide_True by done. by eexists.
  - unfold schnorr_sign in Hs. destruct (sc_random r2) as [k rk]. injection Hs as <- _.
    split; cbn; auto with tardus.
Qed.
End wire.

(** ** The handlers, one by one *)
Section handlers.
Context `{CO : CurveOk} `{RP : Rpc} `{A : Aead} {AOk : AeadOk A} `{HX : Hex} {HOk : HexOk HX} `{J : Json}.
Implicit Types a : AppState.

Lemma run_append_faults logger event h : no_faults h ->
  no_faults (run (TransparencyLogger_append logger event) h).2.
Proof.
  intros Hf. unfold TransparencyLogger_append. rewrite run_bind. unfold unix_ms_now, reads_state.
  rewrite run_atomically. cbn [fst snd]. rewrite run_bind, run_lift.
  destruct (ok_or _ _) as [line| |]; [|done..].
  rewrite run_bind, run_disk_append by done. done.
Qed.

Lemma run_tlog_faults event a : no_faults (app_host a) ->
  exists l h, run (tlog event) a = (Ok tt, set_world a l h) /\ no_faults h.
Proof.
  intros Hf. unfold tlog. rewrite run_atomically. destruct (app_transparency a) as [logger|] eqn:Hl.
  - pose proof (run_append_faults logger event _ Hf) as H. destruct (run _ _) as [r h]. by eauto.
  - exists None, (app_host a). cbn. rewrite <- Hl. by destruct a.
Qed.

Lemma run_persist_ok config record a : wf_record record -> no_faults (app_host a) ->
  exists h, run (persist config record) a =
    (Ok (bool_decide (is_Some (vc_master_seed config))), set_host a h) /\ no_faults h.
Proof.
  intros Hr Hf. unfold persist. destruct (vc_master_seed config) as [seed|].
  - run_step. rewrite run_catch.
    destruct (run_write_share_record (vc_data_dir config) seed record _ Hr Hf)
      as (sealed & h' & -> & Hf' & _). cbn. by exists h'.
  - exists (app_host a). by destruct a.
Qed.
End handlers.

(** ** One node *)
Definition start_req (hex : bytes) (n t i : Z) : DkgStartReq :=
  {| ds_ceremony_id_hex := hex; ds_my_index := i; ds_n := n; ds_t := t |}.

Section node.
Context `{CO : CurveOk} `{RP : Rpc} `{A : Aead} {AOk : AeadOk A} `{HX : Hex} {HOk : HexOk HX} `{J : Json}.
Context (fuel : nat) (h : point) (hex : bytes) (id : CeremonyId) (n t : Z).
Hypothesis Hid : decode_ceremony_id hex = Ok id.
Hypothesis Hh : h_generator fuel = Ok h.
Hypothesis Htf : pt_torsion_free h = true.
Hypothesis Ht : 1 <= t <= n.
Hypothesis Hn : n < 2 ^ 16.
Abbreviation params := {| vp_n := n; vp_t := t |}.
Implicit Types a : AppState.

(** A node that ran its first round and holds the contributions [peers]. *)
Definition in_round (out : DkgRound1Output) (peers : gmap Z PeerContribution) (a : AppState) : Prop :=
  no_faults (app_host a) /\ exists created,
    app_dkg_sessions a !! id =
      Some {| cs_my_round1 := out; cs_n := n; cs_peer_contributions := peers; cs_created_at := created |}.

(** The answer of the first round. *)
Definition announces (i : Z) (out : DkgRound1Output) (resp : StartResp) : Prop :=
  exists enc, DkgRound1Broadcast_serialize (do_broadcast out) = Some enc /\
    wf_signature (db_pok (do_broadcast out)) /\
    resp = {| st_ceremony_id_hex := hex; st_my_index := i; st_n := n; st_t := t;
              st_broadcast_borsh_hex := hex_encode enc;
              st_shares_borsh_hex := (λ s, hex_encode (VssShare_serialize s)) <$> do_shares out |}.

Lemma contribute_table {R1 P} i (p : P) (m : gmap CeremonyId (ceremony R1 P)) sess :
  m !! id = Some sess ->
  ceremony_contribute id i p m =
    let peers := <[i := p]> (cs_peer_contributions sess) in
    (Ok (Z.of_nat (size peers)),
     <[id := {| cs_my_round1 := cs_my_round1 sess; cs_n := cs_n sess;
                cs_peer_contributions := peers; cs_created_at := cs_created_at sess |}]> m).
Proof. unfold ceremony_contribute. by intros ->. Qed.

Lemma take_table {R1 P} (m : gmap CeremonyId (ceremony R1 P)) sess :
  m !! id = Some sess -> 1 <= cs_n sess <= n ->
  Z.of_nat (size (cs_peer_contributions sess)) = cs_n sess - 1 ->
  ceremony_take_finalisable id m =
    (Ok (cs_my_round1 sess, ordered_contributions (cs_peer_contributions sess), cs_n sess), delete id m).
Proof using Hn.
  unfold ceremony_take_finalisable. intros -> Hs Hsz.
  rewrite wrap_small by (unfold in_width; lia). by replace (_ <? _) with false by lia.
Qed.

Lemma cid_length : length (cid id) = 16%nat.
Proof using Hid.
  unfold decode_ceremony_id, decode_hex_array in Hid. clear Ht Hn Hh. inv_res.
  by simplify_eq.
Qed.

Lemma run_start i a : 1 <= i <= n -> app_dkg_sessions a !! id = None -> no_faults (app_host a) ->
  exists out r' resp a', dkg_start id i params h (h_rng (app_host a)) = Ok (out, r') /\
    run (dkg_start_handler fuel (start_req hex n t i)) a = (Ok resp, a') /\
    in_round out ∅ a' /\ announces i out resp.
Proof using All.
  intros Hi Hnew Hf.
  destruct (dkg_start_ok id i params h (h_rng (app_host a))) as (out & r' & Hs & _); [cbn; lia..|done|].
  destruct (dkg_start_wire id i params h _ out r' ltac:(cbn; lia) Hs) as [[enc He] Hsig].
  unfold dkg_start_handler, start_req. cbn [ds_ceremony_id_hex ds_my_index ds_n ds_t].
  rewrite Hid. run_step. unfold VssParameters_new.
  replace (t =? 0) with false by lia. replace (n <? t) with false by lia. cbn [orb reject_if mbind res_bind map_err].
  run_step. rewrite Hh. cbn [map_err]. run_step.
  destruct (run_app_draw_res (λ r, dkg_start id i params h r) a) as (hs & -> & Hd). rewrite Hs.
  cbn [map_err]. run_step. rewrite He. cbn [ok_or]. run_step. rewrite run_app_now. run_step.
  unfold DkgSessions_start. rewrite table_insert_fresh by exact Hnew. cbn [fst snd conflict map_err]. run_step.
  match goal with |- context [run (tlog ?e) ?a] =>
    destruct (run_tlog_faults e a) as (l & hs2 & -> & Hf2) end; [by unfold no_faults; cbn; rewrite Hd|].
  cbn [run]. do 4 eexists. split; [done|]. split; [reflexivity|]. split.
  - split; [done|]. eexists. exact (lookup_insert_eq _ _ _).
  - by exists enc.
Qed.

Lemma decode_borsh_encode {X} (r : reader X) b (x : X) :
  reads r b x -> decode_borsh r (hex_encode b) = Ok x.
Proof using HOk.
  intros Hr. unfold decode_borsh. rewrite hex_decode_encode. cbn [ok_or mbind res_bind].
  by rewrite (try_from_slice_reads r b x).
Qed.

(** What node [j] gets from node [i]. *)
Lemma run_contribute resps outs polys j i a out peers : 1 <= i <= n -> 1 <= j <= n ->
  announces i (outs i) (resps i) -> honest_output id params h (polys i) i (outs i) ->
  in_round out peers a ->
  exists p req a', deliver outs j i = Some p /\ contribution_of resps j i = Some req /\
    run (dkg_contribute_handler req) a = (Ok (Z.of_nat (size (<[i := p]> peers))), a') /\
    in_round out (<[i := p]> peers) a'.
Proof using All.
  intros Hi Hj (enc & He & Hsig & Hresp) Ho [Hf (created & Ha)].
  destruct (ho_share _ _ _ _ _ _ Ho j Hj) as (s & Hs & Hsi & _).
  destruct (ho_ids _ _ _ _ _ _ Ho) as [Hc Hfi].
  unfold deliver, contribution_of. rewrite Hs, Hresp. cbn [st_shares_borsh_hex].
  rewrite list_lookup_fmap, Hs. cbn [fmap option_fmap option_map mbind option_bind].
  do 3 eexists. split; [done|]. split; [done|].
  unfold dkg_contribute_handler. cbn [ct_ceremony_id_hex ct_broadcast_borsh_hex
    ct_share_for_me_borsh_hex ct_from_index st_ceremony_id_hex st_broadcast_borsh_hex].
  rewrite Hid. run_step.
  rewrite (decode_borsh_encode DkgRound1Broadcast_read enc (do_broadcast (outs i))).
  2:{ apply reads_DkgRound1Broadcast; [done| |rewrite Hfi; unfold u16, in_width; lia|done].
      rewrite Hc. apply cid_length. }
  run_step. rewrite (decode_borsh_encode VssShare_read _ s)
    by (apply reads_VssShare; rewrite Hsi; unfold u16, in_width; lia).
  run_step. unfold DkgSessions_contribute. rewrite (contribute_table _ _ _ _ Ha).
  cbn [fst snd conflict map_err]. run_step.
  split; [reflexivity|]. split; [done|]. exists created. exact (lookup_insert_eq _ _ _).
Qed.

(** The table entry holds what the nodes of [from] sent to [j]. *)
Definition delivered (outs : Z -> DkgRound1Output) (j : Z) (from : list Z)
    (peers : gmap Z PeerContribution) : Prop :=
  (forall i p, peers !! i = Some p <-> i ∈ from /\ deliver outs j i = Some p) /\
  size peers = length from.

Lemma delivered_insert outs j from peers i p : i ∉ from -> deliver outs j i = Some p ->
  delivered outs j from peers -> delivered outs j (from ++ [i]) (<[i := p]> peers).
Proof using All.
  intros Hi Hp [Hm Hs]. split.
  - intros i' p'. rewrite lookup_insert_Some, Hm, elem_of_app, list_elem_of_singleton.
    destruct (decide (i = i')) as [->|]; naive_solver.
  - rewrite map_size_insert_None, Hs, length_app; [cbn; lia|].
    destruct (peers !! i) as [q|] eqn:Hq; [|done]. by apply Hm in Hq as [? _].
Qed.

Lemma run_contributions resps outs polys j out order : forall from a peers,
  1 <= j <= n -> NoDup (from ++ order) ->
  (forall i, i ∈ order -> 1 <= i <= n /\ announces i (outs i) (resps i) /\
     honest_output id params h (polys i) i (outs i)) ->
  in_round out peers a -> delivered outs j from peers ->
  exists reqs a' peers', mapM (contribution_of resps j) order = Some reqs /\
    serve (dkg_contribute_handler <$> reqs) a =
      (Ok <$> seqZ (Z.of_nat (length from) + 1) (Z.of_nat (length order)), a') /\
    in_round out peers' a' /\ delivered outs j (from ++ order) peers'.
Proof using All.
  induction order as [|i order IH]; intros from a peers Hj Hnd Hall Hr Hd.
  { exists [], a, peers. by rewrite app_nil_r. }
  destruct (Hall i ltac:(by left)) as (Hi & Hai & Hoi).
  destruct (run_contribute resps outs polys j i a out peers Hi Hj Hai Hoi Hr)
    as (p & req & a1 & Hp & Hreq & Hrun & Hr1).
  assert (i ∉ from) as Hif by (apply NoDup_app in Hnd as (_ & Hx & _); intros Hin; by destruct (Hx i Hin); left).
  pose proof (delivered_insert _ _ _ _ _ _ Hif Hp Hd) as Hd1.
  destruct (IH (from ++ [i]) a1 (<[i := p]> peers)) as (reqs & a2 & peers' & Hm & Hs & Hr2 & Hd2);
    [done|by rewrite <- app_assoc|by intros; apply Hall; right|done|done|].
  exists (req :: reqs), a2, peers'. rewrite <- app_assoc in Hd2. split_and!; [|..|done|done].
  - cbn. by rewrite Hreq; cbn; rewrite Hm.
  - cbn [serve fmap list_fmap]. rewrite Hrun. destruct Hd1 as [_ Hsz].
    assert (serve (dkg_contribute_handler <$> reqs) a1 =
      (Ok <$> seqZ (Z.of_nat (length (from ++ [i])) + 1) (Z.of_nat (length order)), a2)) as Hs' by exact Hs.
    rewrite length_app in Hs'. cbn [length] in Hs'. 
    rewrite (seqZ_cons _ (Z.of_nat (length (i :: order)))) by (cbn; lia).
    rewrite Hsz, length_app. cbn [length fmap list_fmap].
    replace (Z.pred (Z.of_nat (S (length order)))) with (Z.of_nat (length order)) by lia.
    replace (Z.of_nat (length from + 1)) with (Z.of_nat (length from) + 1) in * by lia.
    replace (Z.succ (Z.of_nat (length from) + 1)) with (Z.of_nat (length from) + 1 + 1) by lia.
    change (list_fmap ?f) with (fmap (M := list) f). 
    by rewrite Hs'.
Qed.

(** The contributions in the order [take_finalisable] hands them out. *)
Lemma received_order outs j order peers : NoDup order -> delivered outs j order peers ->
  exists order', order' ≡ₚ order /\
    Forall2 (λ i p, deliver outs j i = Some p) order' (ordered_contributions peers).
Proof using All.
  intros Hnd [Hm Hs]. set (l := merge_sort by_index (map_to_list peers)).
  assert (l ≡ₚ map_to_list peers) as Hl by apply merge_sort_Permutation.
  assert (forall i p, (i, p) ∈ l -> i ∈ order /\ deliver outs j i = Some p) as Hin
    by (intros i p; rewrite Hl, elem_of_map_to_list; apply Hm).
  exists l.*1. split.
  - apply submseteq_length_Permutation.
    + apply NoDup_submseteq; [rewrite Hl; apply NoDup_fst_map_to_list|].
      intros k ([k' p] & -> & Hk)%list_elem_of_fmap. by apply (Hin k' p).
    + rewrite length_fmap, Hl, length_map_to_list. lia.
  - unfold ordered_contributions. fold l. apply Forall2_fmap, Forall_Forall2_diag, Forall_forall.
    intros [i p] Hip. by apply (Hin i p).
Qed.

(** The record node [j] ends with: its share is the value at [j] of [F]. *)
Definition dkg_record (F : list scalar) (j : Z) : ValidatorShareRecord :=
  let pk := PublicKey_from_secret {| sk_scalar := peval F sc_zero |} in
  {| sr_keyset_id := byte_of_Z 2 :: PublicKey_to_bytes pk; sr_my_index := j; sr_n := n; sr_t := t;
     sr_epoch := 1; sr_joint_pk_bytes := PublicKey_to_bytes pk;
     sr_my_share_bytes := SecretKey_to_bytes {| sk_scalar := peval F (sc_of_u64 j) |};
     sr_qual := seqZ 1 n |}.

Lemma wf_dkg_record F j : 1 <= j <= n -> wf_record (dkg_record F j).
Proof using All.
  intros Hj. unfold wf_record, dkg_record, PublicKey_from_secret, PublicKey_to_bytes, SecretKey_to_bytes.
  cbn [sr_keyset_id sr_my_index sr_n sr_t sr_epoch sr_joint_pk_bytes sr_my_share_bytes sr_qual pk_bytes length
    sk_scalar].
  rewrite !pt_compress_length, sc_to_bytes_length, length_seqZ. unfold u16, u64, in_width.
  split_and!; try done; try lia. apply Forall_forall. intros k Hk%elem_of_seqZ. lia.
Qed.

Lemma run_finalize config outs polys j order peers a : 1 <= j <= n ->
  (forall i, 1 <= i <= n -> honest_output id params h (polys i) i (outs i)) ->
  j :: order ≡ₚ seqZ 1 n -> delivered outs j order peers -> in_round (outs j) peers a ->
  let F := joint_poly polys n in
  let pk_hex := hex_encode (sr_joint_pk_bytes (dkg_record F j)) in
  exists a', run (dkg_finalize_handler config fuel hex) a =
    (Ok {| fz_ceremony_id_hex := hex; fz_my_index := j; fz_joint_pk_hex := pk_hex;
           fz_qual := seqZ 1 n;
           fz_share_persisted := bool_decide (is_Some (vc_master_seed config)) |}, a') /\
    vs_share (app_state a') = Some (dkg_record F j).
Proof using All.
  intros Hj Ho Horder Hd [Hf (created & Ha)] F pk_hex.
  assert (NoDup order) as Hnd.
  { assert (NoDup (j :: order)) as Hx by (rewrite Horder; apply NoDup_seqZ). by apply NoDup_cons in Hx as []. }
  destruct (received_order outs j order peers Hnd Hd) as (order' & Hp & Hrecv).
  pose proof (honest_finalize id params h polys outs ltac:(cbn; lia) Ho j order' _ Hj
    ltac:(cbn; by rewrite Hp) Hrecv) as Hfin. cbn [vp_n] in Hfin.
  destruct (ho_private _ _ _ _ _ _ (Ho j Hj)) as (_ & Hpi & Hpp).
  assert (Z.of_nat (size peers) = n - 1) as Hsz.
  { destruct Hd as [_ ->]. apply Permutation_length in Horder. cbn in Horder.
    rewrite length_seqZ in Horder. lia. }
  unfold dkg_finalize_handler. rewrite Hid. run_step. unfold DkgSessions_take_finalisable.
  rewrite (take_table _ _ Ha) by (cbn; lia). cbn [fst snd conflict map_err]. run_step.
  cbn [cs_my_round1 cs_peer_contributions cs_n]. rewrite Hh. cbn [map_err]. run_step.
  rewrite Hfin. cbn [map_err]. run_step. rewrite Hpp, Hpi. cbn [vp_t df_my_index df_joint_pk df_my_share df_qual].
  match goal with |- context [persist config ?r] => change r with (dkg_record F j) end.
  match goal with |- context [run (persist config _) ?a] =>
    destruct (run_persist_ok config (dkg_record F j) a) as (hs & -> & _); [by apply wf_dkg_record|done|] end.
  run_step. match goal with |- context [run (tlog ?e) ?a] =>
    destruct (run_tlog e a) as (l & h2 & ->) end.
  eexists. split; [reflexivity|done].
Qed.
End node.

(** ** Properties *)
Section dkg_over_http.
Context `{CO : CurveOk} `{RP : Rpc} `{A : Aead} {AOk : AeadOk A} `{HX : Hex} {HOk : HexOk HX} `{J : Json}.

(** C19: a key generation between daemons succeeds. [n] daemons that do not
    know the ceremony answer its start; whatever clients then carry the
    answers to whom, each daemon that receives those of all others, in any
    order, counts them and answers its finalisation with the same joint key
    and the full qualified set, persists its share when a master seed is
    configured, and holds the record of its share of one polynomial with at
    most [t] coefficients whose constant term is the secret of that key. *)
Theorem dkg_over_http configs fuel h hex id n t apps :
  decode_ceremony_id hex = Ok id -> h_generator fuel = Ok h -> 1 <= t <= n -> n < 2 ^ 16 ->
  (forall i, 1 <= i <= n -> app_dkg_sessions (apps i) !! id = None /\ no_faults (app_host (apps i))) ->
  (forall i, 1 <= i <= n -> exists resp a',
     run (dkg_start_handler fuel (start_req hex n t i)) (apps i) = (Ok resp, a')) /\
  forall resps a1s, (forall i, 1 <= i <= n ->
     run (dkg_start_handler fuel (start_req hex n t i)) (apps i) = (Ok (resps i), a1s i)) ->
  exists F, (length F <= Z.to_nat t)%nat /\
    forall j order, 1 <= j <= n -> j :: order ≡ₚ seqZ 1 n ->
      exists reqs a2 a3, mapM (contribution_of resps j) order = Some reqs /\
        serve (dkg_contribute_handler <$> reqs) (a1s j) = (Ok <$> seqZ 1 (n - 1), a2) /\
        run (dkg_finalize_handler (configs j) fuel hex) a2 =
          (Ok {| fz_ceremony_id_hex := hex; fz_my_index := j;
                 fz_joint_pk_hex := hex_encode (PublicKey_to_bytes
                   (PublicKey_from_secret {| sk_scalar := peval F sc_zero |}));
                 fz_qual := seqZ 1 n;
                 fz_share_persisted := bool_decide (is_Some (vc_master_seed (configs j))) |}, a3) /\
        vs_share (app_state a3) = Some (dkg_record n t F j).
Proof.
  intros Hid Hh Ht Hn Happs. pose proof (h_generator_tf _ _ Hh) as Htf.
  pose proof (λ i Hi, run_start fuel h hex id n t Hid Hh Htf Ht Hn i (apps i) Hi
    (proj1 (Happs i Hi)) (proj2 (Happs i Hi))) as Hstart. split.
  { intros i Hi. destruct (Hstart i Hi) as (out & r' & resp & a' & _ & Hr & _). eauto. }
  intros resps a1s Hresps. set (params := {| vp_n := n; vp_t := t |}).
  set (rng_of := λ i, h_rng (app_host (apps i))).
  destruct (Hstart 1 ltac:(lia)) as (out1 & _).
  set (outs := λ i, match dkg_start id i params h (rng_of i) with Ok (o, _) => o | _ => out1 end).
  assert (forall i, 1 <= i <= n -> (exists r, dkg_start id i params h (rng_of i) = Ok (outs i, r)) /\
    in_round id n (outs i) ∅ (a1s i) /\ announces hex n t i (outs i) (resps i)) as Hall.
  { intros i Hi. destruct (Hstart i Hi) as (out & r' & resp & a' & Hs & Hr & H1 & H2).
    rewrite Hresps in Hr by done. injection Hr as <- <-.
    assert (outs i = out) as -> by (unfold outs, rng_of, params; by rewrite Hs). by eauto. }
  set (polys := λ i, dkg_poly params (rng_of i)).
  assert (forall i, 1 <= i <= n -> honest_output id params h (polys i) i (outs i)) as Ho.
  { apply (started_honest id params h rng_of outs); [cbn; lia|done|]. intros i Hi. by apply Hall. }
  exists (joint_poly polys n). split.
  { apply length_joint. intros i. unfold polys. rewrite length_dkg_poly by (cbn; lia). done. }
  intros j order Hj Horder.
  assert (NoDup (j :: order)) as Hnd by (rewrite Horder; apply NoDup_seqZ).
  destruct (run_contributions fuel h hex id n t Hid Hh Htf Ht Hn resps outs polys j (outs j) order []
    (a1s j) ∅) as (reqs & a2 & peers & Hreqs & Hs & Hr2 & Hd2);
    [done|by apply NoDup_cons in Hnd as []| |by apply Hall| |].
  { intros i Hi. assert (1 <= i <= n) as Hi'; [|by split; [|split; [apply Hall|apply Ho]]].
    assert (i ∈ seqZ 1 n) as Hx%elem_of_seqZ by (rewrite <- Horder; by right). lia. }
  { split; [|done]. intros i p. rewrite lookup_empty. set_solver. }
  destruct (run_finalize fuel h hex id n t Hid Hh Htf Ht Hn (configs j) outs polys j order peers a2
    Hj Ho Horder Hd2 Hr2) as (a3 & Hf & Hsh).
  exists reqs, a2, a3. split_and!; [done| |exact Hf|exact Hsh].
  rewrite Hs. apply Permutation_length in Horder. rewrite length_seqZ in Horder.
  cbn [length] in *. by replace (Z.of_nat (length order)) with (n - 1) by lia.
Qed.
End dkg_over_http.

(** ** Witness: three daemons, threshold two *)
#[local] Existing Instance toy.
#[local] Existing Instance toy_ok.
#[local] Existing Instance toy_rpc.
#[local] Existing Instance toy_aead.
#[local] Existing Instance toy_aead_ok.
#[local] Existing Instance toy_hex.
#[local] Existing Instance toy_hex_ok.
#[local] Existing Instance toy_json.

Definition net_hex : bytes := hex_encode (cid demo_cid).
Definition net_apps (i : Z) : AppState := demo_app None (100 + i).
Definition no_resp : StartResp :=
  {| st_ceremony_id_hex := []; st_my_index := 0; st_n := 0; st_t := 0; st_broadcast_borsh_hex := [];
     st_shares_borsh_hex := [] |}.
Definition net_start (i : Z) := run (dkg_start_handler 64 (start_req net_hex 3 2 i)) (net_apps i).
Definition net_resps (i : Z) : StartResp := match (net_start i).1 with Ok r => r | _ => no_resp end.
Definition net_started (i : Z) : AppState := (net_start i).2.

Lemma dkg_over_http_witness :
  exists F, (length F <= 2)%nat /\ exists reqs a2 a3,
    mapM (contribution_of net_resps 2) [3; 1] = Some reqs /\
    serve (dkg_contribute_handler <$> reqs) (net_started 2) = ([Ok 1; Ok 2], a2) /\
    vs_share (app_state a3) = Some (dkg_record 3 2 F 2) /\
    (run (dkg_finalize_handler (demo_config false) 64 net_hex) a2).2 = a3.
Proof.
  destruct (dkg_over_http (λ _, demo_config false) 64 demo_h net_hex demo_cid 3 2 net_apps) as [_ H];
    [vm_refl|vm_refl|lia|lia|intros i Hi; split; reflexivity|].
  destruct (H net_resps net_started) as (F & Hl & HF).
  - intros i Hi. assert (i = 1 \/ i = 2 \/ i = 3) as [-> | [-> | ->]] by lia; vm_refl.
  - exists F. split; [exact Hl|].
    destruct (HF 2 [3; 1]) as (reqs & a2 & a3 & H1 & H2 & H3 & H4); [lia| |].
    + change (2 :: [3; 1] ≡ₚ [1; 2; 3]). solve_Permutation.
    + exists reqs, a2, a3. split_and!; [exact H1|exact H2|exact H4|]. by rewrite H3.
Defined.
