(* ===== verification/ValidatorTypes.v ===== *)
(** * tardus-validator: the types of the state under every interleaving

    An invariant of the daemon's state that every section of every handler
    keeps, whatever the other handlers do, and what it buys: no request makes
    the daemon panic, but the finalisation of a ceremony that holds a
    contribution with an empty Feldman vector. *)
From S2P Require Import Prelude Crypto ToyCurve Async Rely Platform ToyPlatform Core Poly Wire MintBase Vss Sign Dkg Rotation Refresh.
From S2P Require Import RefreshProps Storage Transparency Sessions Validator ToyValidator ValidatorRun ValidatorDkg.

(** ** Well-formed states *)
Section wf.
Context `{C : Curve} `{RP : Rpc}.
(** The second generator; the ceremonies that may hold a contribution with an
    empty Feldman vector; and what a panic has to be explained by. *)
Variables (h : point) (tainted_dkg tainted_reshare : CeremonyId -> Prop) (excuse : Prop).

Record wf_state (s : ValidatorState) : Prop := {
  ws_share r : vs_share s = Some r -> wf_record r;
  ws_sign : u64 (vs_sign_session_counter s);
  ws_refresh : u64 (vs_refresh_session_counter s);
  ws_probes : u64 (vs_health_probes_served s);
  ws_reloads : u64 (vs_share_reloads s);
}.

Definition wf_sign (id : SessionId) (e : SignSessionEntry) : Prop :=
  v1s_session_id (se_state e) = id /\ u16 (v1s_my_index (se_state e)).
Definition wf_refresh (id : SessionId) (e : RefreshSessionEntry) : Prop :=
  vrs_session_id (re_state e) = id /\ u16 (vrs_my_index (re_state e)) /\
  1 <= vrs_kappa (re_state e) < 2 ^ 8 /\
  length (vrs_k_per_candidate (re_state e)) = Z.to_nat (vrs_kappa (re_state e)).

(** A ceremony holds a first round of this daemon; a contribution with an empty
    Feldman vector taints it. *)
Definition wf_contribution (tainted : Prop) (i from : Z) (fel : FeldmanCommitments) : Prop :=
  u16 i /\ u16 from /\ (fc_coeffs fel = [] -> tainted).
Definition wf_params (params : VssParameters) (n i : Z) : Prop :=
  vp_n params = n /\ u16 n /\ 1 <= vp_t params <= n /\ u16 i.
Definition wf_dkg (id : CeremonyId) (s : DkgSession) : Prop :=
  (exists i params r r', dkg_start id i params h r = Ok (cs_my_round1 s, r') /\ wf_params params (cs_n s) i) /\
  map_Forall (λ i p, wf_contribution (tainted_dkg id) i (db_from_index (pc_broadcast p)) (db_feldman (pc_broadcast p)))
    (cs_peer_contributions s).
Definition wf_reshare (id : CeremonyId) (s : ReshareSession) : Prop :=
  (exists i params r r', reshare_start id i params h r = Ok (cs_my_round1 s, r') /\ wf_params params (cs_n s) i) /\
  map_Forall (λ i p, wf_contribution (tainted_reshare id) i (rb_from_index (rc_broadcast p)) (rb_feldman (rc_broadcast p)))
    (cs_peer_contributions s).

Record wf_app (a : AppState) : Prop := {
  wa_state : wf_state (app_state a);
  wa_sign : map_Forall wf_sign (app_sign_sessions a);
  wa_refresh : map_Forall wf_refresh (app_refresh_sessions a);
  wa_dkg : map_Forall wf_dkg (app_dkg_sessions a);
  wa_reshare : map_Forall wf_reshare (app_reshare_sessions a);
}.

(** A share, once loaded, stays loaded. *)
Definition keeps_share (a a' : AppState) : Prop :=
  is_Some (vs_share (app_state a)) -> is_Some (vs_share (app_state a')).
#[global] Instance keeps_share_preorder : PreOrder keeps_share.
Proof. split; [intros a H; exact H|]. intros a b c H1 H2 H. exact (H2 (H1 H)). Qed.

Definition no_panic {X} (r : res ApiError X) (_ : AppState) : Prop := r = Panic -> excuse.
Definition ok {X} (s : AppState) (p : handler X) : Prop := safe wf_app keeps_share s no_panic p.

(** ** Rules *)
Lemma ok_lift_excused {X Y} s (r : res ApiError X) (f : X -> handler Y) :
  (r = Panic -> excuse) -> (forall x, r = Ok x -> ok s (f x)) -> ok s (lift r ≫= f).
Proof.
  intros Hp Hf. apply safe_bind, safe_lift. destruct r; [by apply Hf|done|]. intros _. by apply Hp.
Qed.
Lemma ok_lift {X Y} s (r : res ApiError X) (f : X -> handler Y) :
  r <> Panic -> (forall x, r = Ok x -> ok s (f x)) -> ok s (lift r ≫= f).
Proof. intros Hp. by apply ok_lift_excused. Qed.
Lemma ok_ret {X} s (x : X) : ok s (mret x).
Proof. by intros H. Qed.
Lemma ok_last {X} s (r : res ApiError X) : r <> Panic -> ok s (lift r).
Proof. by intros Hp H. Qed.

Lemma ok_section {X Y} s (g : AppState -> X * AppState) (f : X -> handler Y) :
  (forall a, wf_app a -> keeps_share s a ->
     wf_app (g a).2 /\ keeps_share a (g a).2 /\ ok (g a).2 (f (g a).1)) ->
  ok s (atomically g ≫= f).
Proof. intros H. by apply safe_bind, safe_atomically. Qed.

Lemma ok_state {X Y} s (g : ValidatorState -> X * ValidatorState) (f : X -> handler Y) :
  (forall v, wf_state v -> wf_state (g v).2 /\ (is_Some (vs_share v) -> is_Some (vs_share (g v).2))) ->
  (forall a v, wf_state v -> keeps_share s a -> app_state a = (g v).2 ->
     (is_Some (vs_share (app_state s)) -> is_Some (vs_share v)) -> ok a (f (g v).1)) ->
  ok s (on_state g ≫= f).
Proof.
  intros Hg Hf. apply ok_section. intros a Ha Hs.
  destruct (Hg _ (wa_state _ Ha)) as [H1 H2]. specialize (Hf (set_state a (g (app_state a)).2) _ (wa_state _ Ha)).
  destruct (g (app_state a)) as [x v]. cbn in *. split_and!; [|exact H2|].
  - destruct Ha. by split.
  - apply Hf; [|done|exact Hs]. intros H. apply H2, Hs, H.
Qed.

Lemma ok_read_share {Y} s (f : ValidatorShareRecord -> handler Y) :
  (forall a r, wf_record r -> keeps_share s a -> is_Some (vs_share (app_state a)) -> ok a (f r)) ->
  ok s (read_share ≫= f).
Proof.
  intros H. apply safe_bind. unfold read_share. apply safe_bind, safe_atomically.
  intros a Ha Hs. cbn. destruct a as [v ? ? ? ? ? ? ?]. cbn. split_and!; [by destruct Ha|done|].
  destruct (vs_share v) as [r|] eqn:Hr; cbn; [|done].
  apply H; [by apply (ws_share _ (wa_state _ Ha))|done|by exists r].
Qed.

Lemma ok_sign {X Y} s (g : SignSessions -> X * SignSessions) (f : X -> handler Y) :
  (forall m, map_Forall wf_sign m -> map_Forall wf_sign (g m).2) ->
  (forall a m, map_Forall wf_sign m -> keeps_share s a -> ok a (f (g m).1)) ->
  ok s (on_sign g ≫= f).
Proof.
  intros Hg Hf. apply ok_section. intros a Ha Hs.
  specialize (Hg _ (wa_sign _ Ha)). specialize (Hf (set_sign a (g (app_sign_sessions a)).2) _ (wa_sign _ Ha) Hs).
  destruct (g (app_sign_sessions a)) as [x m]. cbn in *. split_and!; [|by intros H|done].
  destruct Ha. by split.
Qed.

Lemma ok_refresh {X Y} s (g : RefreshSessions -> X * RefreshSessions) (f : X -> handler Y) :
  (forall m, map_Forall wf_refresh m -> map_Forall wf_refresh (g m).2) ->
  (forall a m, map_Forall wf_refresh m -> keeps_share s a -> ok a (f (g m).1)) ->
  ok s (on_refresh g ≫= f).
Proof.
  intros Hg Hf. apply ok_section. intros a Ha Hs.
  specialize (Hg _ (wa_refresh _ Ha)).
  specialize (Hf (set_refresh a (g (app_refresh_sessions a)).2) _ (wa_refresh _ Ha) Hs).
  destruct (g (app_refresh_sessions a)) as [x m]. cbn in *. split_and!; [|by intros H|done].
  destruct Ha. by split.
Qed.

Lemma ok_dkg {X Y} s (g : DkgSessions -> X * DkgSessions) (f : X -> handler Y) :
  (forall m, map_Forall wf_dkg m -> map_Forall wf_dkg (g m).2) ->
  (forall a m, map_Forall wf_dkg m -> keeps_share s a -> ok a (f (g m).1)) ->
  ok s (on_dkg g ≫= f).
Proof.
  intros Hg Hf. apply ok_section. intros a Ha Hs.
  specialize (Hg _ (wa_dkg _ Ha)). specialize (Hf (set_dkg a (g (app_dkg_sessions a)).2) _ (wa_dkg _ Ha) Hs).
  destruct (g (app_dkg_sessions a)) as [x m]. cbn in *. split_and!; [|by intros H|done].
  destruct Ha. by split.
Qed.

Lemma ok_reshare {X Y} s (g : ReshareSessions -> X * ReshareSessions) (f : X -> handler Y) :
  (forall m, map_Forall wf_reshare m -> map_Forall wf_reshare (g m).2) ->
  (forall a m, map_Forall wf_reshare m -> keeps_share s a -> ok a (f (g m).1)) ->
  ok s (on_reshare g ≫= f).
Proof.
  intros Hg Hf. apply ok_section. intros a Ha Hs.
  specialize (Hg _ (wa_reshare _ Ha)).
  specialize (Hf (set_reshare a (g (app_reshare_sessions a)).2) _ (wa_reshare _ Ha) Hs).
  destruct (g (app_reshare_sessions a)) as [x m]. cbn in *. split_and!; [|by intros H|done].
  destruct Ha. by split.
Qed.

(** Programs of the host: their state is not constrained. *)
Definition total {X} (P : X -> Prop) (r : res ApiError X) : Prop :=
  match r with Ok x => P x | Err _ => True | Panic => False end.

Lemma wf_host a hs : wf_app a -> wf_app (set_host a hs).
Proof. intros []. by split. Qed.

Lemma safe_on_host {X} s (p : prog host X) P (Q : X -> AppState -> Prop) : always P p ->
  (forall x a, P x -> keeps_share s a -> Q x a) -> safe wf_app keeps_share s Q (on_host p).
Proof.
  revert s; induction p as [x|B g k IH]; intros s Hp HQ; [by apply HQ|].
  intros a Ha Hs. specialize (Hp (app_host a)). destruct (g (app_host a)) as [b hs]. cbn in *.
  split_and!; [by apply wf_host|intros H; exact H|]. apply IH; [done|].
  intros x a' Hx Ha'. apply HQ; [done|]. intros H. apply Ha', Hs, H.
Qed.

Lemma ok_host {X Y} s (p : io host ApiError X) (P : X -> Prop) (f : X -> handler Y) :
  always (total P) p -> (forall x a, P x -> keeps_share s a -> ok a (f x)) -> ok s (on_host p ≫= f).
Proof.
  intros Hp Hf. apply safe_bind. eapply safe_on_host; [exact Hp|].
  intros [x|e|] a Hx Ha; [by apply Hf|done|done].
Qed.
Lemma ok_host_last {X} s (p : io host ApiError X) (P : X -> Prop) : always (total P) p -> ok s (on_host p).
Proof. intros Hp. eapply safe_on_host; [exact Hp|]. by intros [x|e|] a Hx Ha. Qed.

Lemma ok_draw {X Y} s (g : rng -> X * rng) (f : X -> handler Y) :
  (forall a r, keeps_share s a -> ok a (f (g r).1)) -> ok s (app_draw g ≫= f).
Proof.
  intros Hf. apply (ok_host _ _ (λ x, exists r, x = (g r).1)); [|intros x a (r & ->) Ha; by apply Hf].
  intros hs. cbn. destruct (g (h_rng hs)) as [x r] eqn:E. exists (h_rng hs). by rewrite E.
Qed.
Lemma ok_draw_res {E X Y} s (g : rng -> res E (X * rng)) (f : res E X -> handler Y) :
  (forall a r, keeps_share s a ->
     ok a (f (match g r with Ok (x, _) => Ok x | Err e => Err e | Panic => Panic end))) ->
  ok s (app_draw_res g ≫= f).
Proof.
  intros Hf. apply (ok_host _ _ (λ x, exists r, x = match g r with Ok (x, _) => Ok x | Err e => Err e | Panic => Panic end));
    [|intros x a (r & ->) Ha; by apply Hf].
  intros hs. cbn. exists (h_rng hs). by destruct (g (h_rng hs)) as [[x r]|e|].
Qed.
Lemma ok_now {Y} s (f : Z -> handler Y) : (forall t a, keeps_share s a -> ok a (f t)) -> ok s (app_now ≫= f).
Proof. intros Hf. apply (ok_host _ _ (λ _, True)); [by intros hs|]. intros t a _. apply Hf. Qed.

Lemma ok_tlog `{HX : Hex} `{J : Json} {Y} s event (f : unit -> handler Y) :
  (forall a, keeps_share s a -> ok a (f tt)) -> ok s (tlog event ≫= f).
Proof.
  intros Hf. apply ok_section. intros a Ha Hs.
  destruct (app_transparency a) as [logger|]; [|by split_and!; [| |apply Hf]].
  destruct (run _ (app_host a)) as [r hs]. cbn. split_and!; [|intros H; exact H|].
  - destruct Ha. by split.
  - apply Hf. exact Hs.
Qed.

Lemma ok_answered {X} s (g : X -> response) (p : handler X) : ok s p -> ok s (answered g p).
Proof.
  intros H. apply safe_bind. eapply safe_mono; [|exact H].
  intros [x|e|] a Hx; [by apply ok_ret|by intros|]. intros _. by apply Hx.
Qed.

(** ** The tables *)
Lemma forall_insert {T} (P : SessionId -> T -> Prop) id e m :
  P id e -> map_Forall P m -> map_Forall P (table_insert id e m).2.
Proof. intros He Hm. unfold table_insert. case_bool_decide; [done|]. by apply map_Forall_insert_2. Qed.
Lemma forall_start {T} (P : CeremonyId -> T -> Prop) id e m :
  P id e -> map_Forall P m -> map_Forall P (table_insert id e m).2.
Proof. intros He Hm. unfold table_insert. case_bool_decide; [done|]. by apply map_Forall_insert_2. Qed.
Lemma forall_take {K T} `{Countable K} (P : K -> T -> Prop) id m :
  map_Forall P m -> map_Forall P (table_take id m).2.
Proof. intros Hm. by apply map_Forall_delete. Qed.
Lemma forall_prune {K T} `{Countable K} (P : K -> T -> Prop) (created : T -> Z) ttl now m :
  map_Forall P m -> map_Forall P (table_prune created ttl now m).2.
Proof. intros Hm k e He. cbn in He. apply map_lookup_filter_Some in He as [He _]. by apply Hm. Qed.

Lemma forall_contribute {R1 P} (W : CeremonyId -> ceremony R1 P -> Prop) id i p m :
  (forall sess, W id sess -> W id {| cs_my_round1 := cs_my_round1 sess; cs_n := cs_n sess;
     cs_peer_contributions := <[i := p]> (cs_peer_contributions sess); cs_created_at := cs_created_at sess |}) ->
  map_Forall W m -> map_Forall W (ceremony_contribute id i p m).2.
Proof.
  intros Hp Hm. unfold ceremony_contribute. destruct (m !! id) as [sess|] eqn:Hs; [|done].
  apply map_Forall_insert_2; [|done]. by apply Hp, Hm.
Qed.

Lemma forall_take_finalisable {R1 P} (W : CeremonyId -> ceremony R1 P -> Prop) id m :
  map_Forall W m -> map_Forall W (ceremony_take_finalisable id m).2.
Proof.
  intros Hm. unfold ceremony_take_finalisable. destruct (m !! id) as [sess|] eqn:Hs; [|done].
  destruct (_ <? _); cbn; [|by apply map_Forall_delete].
  apply map_Forall_insert_2; [by apply Hm|by apply map_Forall_delete].
Qed.
End wf.

(** ** The pure parts of the handlers do not panic *)
Section pure.
Context `{CO : CurveOk} `{HX : Hex}.

Lemma decode_array_ok n s : decode_hex_array n s <> Panic.
Proof. unfold decode_hex_array. intros H. by inv_panic. Qed.
Lemma decode_session_ok s : decode_session_id s <> Panic.
Proof. unfold decode_session_id. intros H. inv_panic. by apply decode_array_ok in H. Qed.
Lemma decode_ceremony_ok s : decode_ceremony_id s <> Panic.
Proof. unfold decode_ceremony_id. intros H. inv_panic. by apply decode_array_ok in H. Qed.
Lemma decode_challenges_ok l : decode_challenges l <> Panic.
Proof.
  unfold decode_challenges. intros (cs & hx & _ & H)%res_fold_panic. inv_panic.
  by apply decode_array_ok in H.
Qed.
Lemma decode_borsh_ok {X} (r : reader X) s : decode_borsh r s <> Panic.
Proof. unfold decode_borsh. intros H. by inv_panic. Qed.
Lemma map_err_ok' {E E' X} (f : E -> E') (r : res E X) : r <> Panic -> map_err f r <> Panic.
Proof. intros H H'. by apply map_err_panic in H'. Qed.
Lemma params_ok n t : VssParameters_new n t <> Panic.
Proof. unfold VssParameters_new. intros H. by inv_panic. Qed.

Lemma secret_key_ok b : SecretKey_from_bytes b <> Panic.
Proof. unfold SecretKey_from_bytes. by destruct (sc_from_canonical b). Qed.

Lemma lagrange_no_panic l i : lagrange_coefficient_at_zero l i <> Panic.
Proof.
  unfold lagrange_coefficient_at_zero. intros H. inv_panic.
  apply res_fold_panic in H as ([num den] & k & _ & H).
  destruct (k =? i); [done|]. by case_bool_decide.
Qed.

Lemma expect_secret {E} sk : exists s, expect (E := E) (sc_from_canonical (SecretKey_to_bytes sk)) = Ok s.
Proof. unfold SecretKey_to_bytes. rewrite sc_canonical_to_bytes. by eexists. Qed.

Lemma partial_sign_ok st c sk l : partial_sign st c sk l <> Panic.
Proof.
  unfold partial_sign. destruct (expect_secret (E := MintError.t) sk) as [s Hs]. rewrite Hs.
  intros H. inv_panic. by apply lagrange_no_panic in H.
Qed.

Lemma round5_no_panic st u c sk l : vrs_kappa st = Z.of_nat (length (vrs_k_per_candidate st)) ->
  0 <= mr3_gamma_star c <= Z.of_nat (length (ur2_challenges u)) ->
  validator_refresh_round5 st u c sk l <> Panic.
Proof.
  intros Hk Hg H. unfold validator_refresh_round5 in H.
  destruct (expect_secret (E := RefreshError.t) sk) as [s Hs]. rewrite Hs in H.
  apply bind_panic_inv in H as [H|([] & _ & H)]; [by apply reject_if_panic in H|].
  apply bind_panic_inv in H as [H|([] & Hb & H)]; [by apply reject_if_panic in H|].
  inv_ok. apply orb_false_iff in Hb as [H0%Z.eqb_neq Hle%Z.ltb_ge].
  destruct (ur2_challenges u !! _) as [cb|] eqn:Hc; [|apply lookup_ge_None in Hc; lia].
  destruct (vrs_k_per_candidate st !! _) as [k|] eqn:Hkk; [|apply lookup_ge_None in Hkk; lia].
  cbn [expect mbind res_bind] in H. inv_panic. by apply lagrange_no_panic in H.
Qed.
End pure.

Section ceremonies.
Context `{CO : CurveOk} `{HX : Hex}.

Lemma length_decode_challenges l cs : decode_challenges l = Ok cs -> length cs = length l.
Proof.
  unfold decode_challenges. intros H.
  apply (res_fold_ok_ind _ (λ done cs, length cs = length done)) in H; [done|done|].
  intros done s a s' Hl Hs. inv_ok. subst. rewrite !length_app, Hl. done.
Qed.

Lemma dkg_start_no_panic id i params h r : 1 <= vp_t params -> 0 <= i -> pt_torsion_free h = true ->
  dkg_start id i params h r <> Panic.
Proof.
  intros Ht Hi Hh. destruct (decide (1 <= i <= vp_n params)) as [Hr|Hr].
  - destruct (dkg_start_ok id i params h r Ht Hr Hh) as (out & r' & -> & _). done.
  - unfold dkg_start. assert ((i =? 0) || (vp_n params <? i) = true) as -> by lia. done.
Qed.

Lemma reshare_start_no_panic id i params h r : reshare_start id i params h r <> Panic.
Proof.
  unfold reshare_start. intros H. inv_panic. by destruct (deal _ _ _ _) as [[[? ?] ?] ?].
Qed.

Lemma started_index id i params h r out r' : dkg_start id i params h r = Ok (out, r') ->
  i <> 0 /\ i <= vp_n params.
Proof. unfold dkg_start. intros H. inv_ok. apply orb_false_iff in Hb as []. lia. Qed.
Lemma reshare_index id i params h r out r' : reshare_start id i params h r = Ok (out, r') ->
  i <> 0 /\ i <= vp_n params.
Proof. unfold reshare_start. intros H. inv_ok. apply orb_false_iff in Hb as []. lia. Qed.

Lemma reshare_check_peer_panic own h seen peer :
  reshare_check_peer own h seen peer = Panic -> fc_coeffs (rb_feldman (rc_broadcast peer)) = [].
Proof.
  unfold reshare_check_peer. intros H. inv_panic; [|by apply verify_share_no_panic in H].
  unfold verify_reshare_round1, FeldmanCommitments_secret_commitment in H.
  destruct (fc_coeffs _) as [|P l]; [done|]. cbn in H. by destruct (is_identity P).
Qed.

Lemma reshare_finalize_panics_only_on_empty id i params h r own r' sk received :
  1 <= vp_t params -> vp_n params < 2 ^ 16 -> u16 i -> pt_torsion_free h = true ->
  reshare_start id i params h r = Ok (own, r') ->
  reshare_finalize own sk received h = Panic ->
  exists peer, peer ∈ received /\ fc_coeffs (rb_feldman (rc_broadcast peer)) = [].
Proof.
  intros Ht Hn Hu Hh Hs H. unfold u16, in_width in Hu.
  pose proof (reshare_index _ _ _ _ _ _ _ Hs) as Hi.
  pose proof (reshare_start_ok _ _ _ _ _ _ _ Ht Hh Hs) as Ho.
  destruct (rso_private _ _ _ _ _ _ Ho) as (_ & Hpi & Hpp).
  destruct (rso_share _ _ _ _ _ _ Ho i ltac:(lia)) as (s & Hsi & _).
  unfold reshare_finalize in H. rewrite (rso_a0 _ _ _ _ _ _ Ho) in H.
  destruct (negb _); [done|]. cbn [mbind res_bind reject_if] in H.
  apply bind_panic_inv in H as [H|(seen & _ & H)].
  - apply res_fold_panic in H as (seen & p & Hp & H). apply reshare_check_peer_panic in H.
    by exists p.
  - exfalso. unfold reshare_combine in H. rewrite Hpi, wrap_small in H by (unfold in_width; lia).
    rewrite Hsi in H. cbn [expect mbind res_bind] in H.
    destruct (expect_secret (E := MintError.t) sk) as [x Hx]. rewrite Hx in H. inv_panic.
    + apply res_fold_panic in H as (d & p & _ & H). by inv_panic.
    + unfold SecretKey_from_bytes in H. by rewrite sc_canonical_to_bytes in H.
Qed.

(** *** What a finalisation stores *)
Lemma ordered_in {P} (m : gmap Z P) p : p ∈ ordered_contributions m -> exists i, m !! i = Some p.
Proof.
  unfold ordered_contributions. intros ([i p'] & -> & Hi)%list_elem_of_fmap.
  rewrite merge_sort_Permutation, elem_of_map_to_list in Hi. by exists i.
Qed.

Lemma sorted_qual i l : u16 i -> Forall u16 l -> Forall u16 (merge_sort Z.le (i :: l)).
Proof. intros Hi Hl. rewrite merge_sort_Permutation. by constructor. Qed.

Lemma dkg_finalize_typed id i params h r own r' received fin :
  wf_params params (vp_n params) i -> pt_torsion_free h = true ->
  dkg_start id i params h r = Ok (own, r') ->
  Forall (λ p, u16 (db_from_index (pc_broadcast p))) received ->
  dkg_finalize own received h = Ok fin ->
  wf_record {| sr_keyset_id := byte_of_Z 2 :: PublicKey_to_bytes (df_joint_pk fin);
    sr_my_index := df_my_index fin; sr_n := vp_n params; sr_t := vp_t params; sr_epoch := 1;
    sr_joint_pk_bytes := PublicKey_to_bytes (df_joint_pk fin);
    sr_my_share_bytes := SecretKey_to_bytes (df_my_share fin); sr_qual := df_qual fin |}.
Proof.
  intros (_ & Hn & Ht & Hu) Hh Hs Hall Hfin. unfold u16, in_width in Hn, Hu.
  pose proof (started_index _ _ _ _ _ _ _ Hs) as Hi.
  destruct (dkg_start_ok id i params h r) as (out & r2 & Hs' & Ho); [lia..|done|].
  rewrite Hs in Hs'. injection Hs' as <- _.
  destruct (ho_private _ _ _ _ _ _ Ho) as (_ & Hpi & Hpp).
  apply dkg_finalize_ok in Hfin as (Hl & _ & _ & _ & self & _ & ->); [|rewrite Hpp; lia|rewrite Hpi; lia].
  rewrite Hpp in Hl. unfold wf_record, dkg_result, PublicKey_to_bytes, SecretKey_to_bytes.
  cbn [sr_keyset_id sr_my_index sr_n sr_t sr_epoch sr_joint_pk_bytes sr_my_share_bytes sr_qual
    df_my_index df_joint_pk df_my_share df_qual pk_bytes sk_scalar length].
  rewrite Hpi, pt_compress_length, sc_to_bytes_length.
  split_and!; try (done || (unfold u16, u64, in_width; lia)).
  - rewrite merge_sort_Permutation. cbn [length]. rewrite length_fmap. lia.
  - apply sorted_qual; [unfold u16, in_width; lia|]. by apply Forall_fmap.
Qed.

Lemma reshare_finalize_typed id i params h r own r' sk received fin cur epoch :
  wf_params params (vp_n params) i -> pt_torsion_free h = true ->
  reshare_start id i params h r = Ok (own, r') ->
  Forall (λ p, u16 (rb_from_index (rc_broadcast p))) received ->
  reshare_finalize own sk received h = Ok fin -> wf_record cur -> u64 epoch ->
  wf_record {| sr_keyset_id := sr_keyset_id cur; sr_my_index := rf_my_index fin; sr_n := vp_n params;
    sr_t := sr_t cur; sr_epoch := epoch; sr_joint_pk_bytes := sr_joint_pk_bytes cur;
    sr_my_share_bytes := SecretKey_to_bytes (rf_new_share fin); sr_qual := rf_qual fin |}.
Proof.
  intros (_ & Hn & Ht & Hu) Hh Hs Hall Hfin (W1 & _ & _ & W4 & _ & W6 & _) He.
  unfold u16, in_width in Hn, Hu.
  pose proof (reshare_index _ _ _ _ _ _ _ Hs) as Hi.
  pose proof (reshare_start_ok id i params h r own r' ltac:(lia) Hh Hs) as Ho.
  destruct (rso_private _ _ _ _ _ _ Ho) as (_ & Hpi & Hpp).
  apply reshare_finalize_ok in Hfin as (Hl & _ & _ & _ & self & _ & ->); [|rewrite Hpp; lia|rewrite Hpi; lia].
  rewrite Hpp in Hl. unfold wf_record, reshare_result, SecretKey_to_bytes.
  cbn [sr_keyset_id sr_my_index sr_n sr_t sr_epoch sr_joint_pk_bytes sr_my_share_bytes sr_qual
    rf_my_index rf_new_share rf_qual sk_scalar].
  rewrite Hpi, sc_to_bytes_length.
  split_and!; try (done || (unfold u16, u64, in_width; lia)).
  - rewrite merge_sort_Permutation. cbn [length]. rewrite length_fmap. lia.
  - apply sorted_qual; [unfold u16, in_width; lia|]. by apply Forall_fmap.
Qed.

(** *** What the decoders return *)
Lemma read_u16_Some inp z rest : read_u16 inp = Some (z, rest) -> u16 z.
Proof. intros [_ H]%(read_uint_Some 2). exact H. Qed.

Lemma read_broadcast_typed inp b rest :
  DkgRound1Broadcast_read inp = Some (b, rest) -> u16 (db_from_index b).
Proof.
  unfold DkgRound1Broadcast_read.
  intros (c & i1 & _ & (i & i2 & Hi & H)%reader_bind_Some)%reader_bind_Some.
  do 3 apply reader_bind_Some in H as (? & ? & _ & H). injection H as <- _. by eapply read_u16_Some.
Qed.
Lemma read_reshare_typed inp b rest :
  ReshareRound1Broadcast_read inp = Some (b, rest) -> u16 (rb_from_index b).
Proof.
  unfold ReshareRound1Broadcast_read.
  intros (c & i1 & _ & (i & i2 & Hi & H)%reader_bind_Some)%reader_bind_Some.
  do 2 apply reader_bind_Some in H as (? & ? & _ & H). injection H as <- _. by eapply read_u16_Some.
Qed.

Lemma decode_borsh_inv {X} (r : reader X) s x :
  decode_borsh r s = Ok x -> exists b rest, r b = Some (x, rest).
Proof.
  unfold decode_borsh, try_from_slice. intros H. inv_ok.
  destruct (r r0) as [[x' [|]]|] eqn:E; [|done..]. injection H as ->. eauto.
Qed.

Lemma read_n_length {X} (r : reader X) n inp l rest : read_n r n inp = Some (l, rest) -> length l = n.
Proof.
  revert inp l; induction n as [|n IH]; intros inp l; cbn; [by intros [= <- <-]|].
  intros (a & i1 & _ & (l' & i2 & Hl & [= <- <-])%reader_bind_Some)%reader_bind_Some.
  cbn. f_equal. by eapply IH.
Qed.

Lemma read_record_typed inp r rest : ValidatorShareRecord_read inp = Some (r, rest) -> wf_record r.
Proof.
  unfold ValidatorShareRecord_read.
  intros (k & i1 & [_ H1]%read_exact_Some & H)%reader_bind_Some.
  apply reader_bind_Some in H as (i & i2 & H2%read_u16_Some & H).
  apply reader_bind_Some in H as (n & i3 & H3%read_u16_Some & H).
  apply reader_bind_Some in H as (t & i4 & H4%read_u16_Some & H).
  apply reader_bind_Some in H as (e & i5 & [_ H5]%(read_uint_Some 8) & H).
  apply reader_bind_Some in H as (pk & i6 & [_ H6]%read_exact_Some & H).
  apply reader_bind_Some in H as (sh & i7 & [_ H7]%read_exact_Some & H).
  apply reader_bind_Some in H as (q & i8 & Hq & H). injection H as <- _.
  apply reader_bind_Some in Hq as (len & i9 & [_ H8]%(read_uint_Some 4) & Hq).
  pose proof (read_n_length _ _ _ _ _ Hq) as Hl.
  unfold wf_record. cbn [sr_keyset_id sr_my_index sr_n sr_t sr_epoch sr_joint_pk_bytes sr_my_share_bytes sr_qual].
  split_and!; try done; [rewrite Hl; lia|].
  eapply read_n_Forall; [|exact Hq]. intros. by eapply read_u16_Some.
Qed.
End ceremonies.

(** ** Programs of the host do not panic *)
Section host.
Context `{CO : CurveOk} `{A : Aead} `{HX : Hex} `{J : Json} `{DO : DirOrder}.

Lemma always_catch {S E E' X Y} (P : res E' Y -> Prop) (f : res E X -> res E' Y) (p : io S E X) :
  always (λ r, P (f r)) p -> always P (catch f p).
Proof. induction p as [r|B g k IH]; cbn; [done|]. intros H s. apply IH, H. Qed.

(** A disk operation that returns a value or an error. *)
Lemma always_on_disk {E X} (f : io_error -> E) (op : disk -> res io_error X * disk) (P : res E X -> Prop) :
  (forall d, (op d).1 <> Panic) -> (forall r, r <> Panic -> P r) -> always P (on_disk f op).
Proof.
  intros Hop HP hs. cbn. specialize (Hop (h_disk hs)). destruct (op (h_disk hs)) as [r d]. cbn in *.
  apply HP. by destruct r.
Qed.

Lemma always_draw {E X} (g : rng -> X * rng) (P : res E X -> Prop) :
  (forall x, P (Ok x)) -> always P (draw g).
Proof. intros HP hs. cbn. by destruct (g (h_rng hs)). Qed.

Lemma disk_read_ok path d : (disk_read path d).1 <> Panic.
Proof.
  unfold disk_read. destruct (next_fault d) as [[?|] d']; cbn; [done|]. by destruct (d_files d' !! path).
Qed.
Lemma disk_write_ok path b d : (disk_write path b d).1 <> Panic.
Proof. unfold disk_write. by destruct (next_fault d) as [[?|] d']. Qed.
Lemma disk_rename_ok p q d : (disk_rename p q d).1 <> Panic.
Proof.
  unfold disk_rename. destruct (next_fault d) as [[?|] d']; [done|]. by destruct (d_files d' !! p).
Qed.
Lemma disk_read_dir_ok dir d : (disk_read_dir dir d).1 <> Panic.
Proof. unfold disk_read_dir. by destruct (next_fault d) as [[?|] d']. Qed.

Lemma over_lines_ok {E X} (bad : X -> E) (f : X -> bytes -> res E X) a content :
  (forall a l, f a l <> Panic) -> over_lines bad f a content <> Panic.
Proof.
  unfold over_lines. intros Hf (a' & l & _ & H)%res_fold_panic. unfold on_line in H.
  destruct (utf8_valid l); [|done]. case_bool_decide; [done|]. by apply Hf in H.
Qed.

Lemma entries_ok content : entries_of content <> Panic.
Proof. by apply over_lines_ok. Qed.
Lemma verify_ok content : verify_content content <> Panic.
Proof.
  unfold verify_content. intros H. inv_panic. revert H. apply over_lines_ok.
  intros [p c] l H. unfold verify_entry in H. by inv_panic.
Qed.

Lemma read_record_ok path seed : always (λ r, r <> Panic /\ forall rec, r = Ok rec -> wf_record rec)
  (read_share_record path seed).
Proof.
  unfold read_share_record. apply always_bind, always_on_disk; [apply disk_read_ok|].
  intros [sealed|e|] Hr; [|done..]. apply always_lift. unfold open_record. destruct (_ <? _)%nat; [done|].
  split.
  - intros H. by inv_panic.
  - intros rec H. inv_ok. unfold try_from_slice in H.
    destruct (ValidatorShareRecord_read _) as [[rec' [|]]|] eqn:E; [|done..]. injection H as ->.
    by eapply read_record_typed.
Qed.

Lemma write_record_ok path seed r : always (λ r, r <> Panic) (write_share_record path seed r).
Proof.
  unfold write_share_record. apply always_bind, always_draw. intros nonce. apply always_bind, always_lift.
  destruct (ok_or _ _) as [sealed| |] eqn:E; [|done|by apply ok_or_panic in E].
  apply always_bind, always_on_disk; [apply disk_write_ok|]. intros [[]|e|] Hr; [|done..].
  apply always_on_disk; [apply disk_rename_ok|done].
Qed.
End host.

(** ** The handlers *)
(** ** The requests that matter to a panic *)
Section requests.
Context `{C : Curve} `{RP : Rpc} `{HX : Hex}.

(** A contribution to the ceremony [id] whose Feldman vector is empty. *)
Definition brings_empty_dkg (req : request) (id : CeremonyId) : Prop :=
  match req with
  | DkgContribute r => decode_ceremony_id (ct_ceremony_id_hex r) = Ok id /\
      exists b, decode_borsh DkgRound1Broadcast_read (ct_broadcast_borsh_hex r) = Ok b /\
        fc_coeffs (db_feldman b) = []
  | _ => False
  end.
Definition brings_empty_reshare (req : request) (id : CeremonyId) : Prop :=
  match req with
  | ReshareContribute r => decode_ceremony_id (ct_ceremony_id_hex r) = Ok id /\
      exists b, decode_borsh ReshareRound1Broadcast_read (ct_broadcast_borsh_hex r) = Ok b /\
        fc_coeffs (rb_feldman b) = []
  | _ => False
  end.

Definition finalises_dkg (req : request) (id : CeremonyId) : Prop :=
  match req with DkgFinalizeR hex => decode_ceremony_id hex = Ok id | _ => False end.
Definition finalises_reshare (req : request) (id : CeremonyId) : Prop :=
  match req with ReshareFinalizeR hex => decode_ceremony_id hex = Ok id | _ => False end.

(** A ceremony in which the daemon already holds such a contribution. *)
Definition holds_empty_dkg (a : AppState) (id : CeremonyId) : Prop :=
  exists sess i p, app_dkg_sessions a !! id = Some sess /\ cs_peer_contributions sess !! i = Some p /\
    fc_coeffs (db_feldman (pc_broadcast p)) = [].
Definition holds_empty_reshare (a : AppState) (id : CeremonyId) : Prop :=
  exists sess i p, app_reshare_sessions a !! id = Some sess /\ cs_peer_contributions sess !! i = Some p /\
    fc_coeffs (rb_feldman (rc_broadcast p)) = [].

(** What explains that [req], served with [reqs] from the state [a], panics. *)
Definition empty_vector_finalised (a : AppState) (reqs : list request) (req : request) : Prop :=
  exists id,
    finalises_dkg req id /\ (holds_empty_dkg a id \/ exists r, r ∈ reqs /\ brings_empty_dkg r id) \/
    finalises_reshare req id /\
      (holds_empty_reshare a id \/ exists r, r ∈ reqs /\ brings_empty_reshare r id).
End requests.

(** ** The handlers *)
Section handlers.
Context `{CO : CurveOk} `{RP : Rpc} `{A : Aead} `{HX : Hex} `{J : Json} `{DO : DirOrder}.
Variables (config : ValidatorConfig) (fuel : nat) (h : point).
Variables (Td Tr : CeremonyId -> Prop) (Ex : Prop).
Hypothesis Hh : h_generator fuel = Ok h.
Implicit Types a s : AppState.

#[local] Hint Resolve decode_session_ok decode_ceremony_ok decode_array_ok decode_challenges_ok decode_borsh_ok
  reject_if_panic ok_or_panic map_err_ok' params_ok secret_key_ok partial_sign_ok
  reshare_start_no_panic : no_panic.

Lemma insert_no_panic {K T} `{Countable K} (k : K) (e : T) m : (table_insert k e m).1 <> Panic.
Proof. unfold table_insert. by case_bool_decide. Qed.
Lemma contribute_no_panic {R1 P} id i (p : P) (m : gmap CeremonyId (ceremony R1 P)) :
  (ceremony_contribute id i p m).1 <> Panic.
Proof. unfold ceremony_contribute. by destruct (m !! id). Qed.
Lemma take_no_panic {R1 P} id (m : gmap CeremonyId (ceremony R1 P)) :
  (ceremony_take_finalisable id m).1 <> Panic.
Proof. unfold ceremony_take_finalisable. destruct (m !! id); [|done]. by destruct (_ <? _). Qed.

Ltac unfolds :=
  cbv beta delta [conflict decode_hex32 decode_hex64 SignSessions_insert RefreshSessions_insert
    DkgSessions_start DkgSessions_contribute DkgSessions_take_finalisable ReshareSessions_start
    ReshareSessions_contribute ReshareSessions_take_finalisable].
(** One step of a handler. *)
Ltac ok_step :=
  first
    [ apply ok_ret
    | apply ok_read_share; intros ? ? ? ? ?
    | apply ok_now; intros ? ? ?
    | apply ok_tlog; intros ? ?
    | apply ok_lift; [solve [unfolds; auto 6 with no_panic]|intros ? ?]
    | apply ok_lift;
        [apply map_err_ok'; first [apply insert_no_panic|apply contribute_no_panic|apply take_no_panic]
        |intros ? ?] ].
Ltac oks := repeat ok_step.

(** The fields of the state that only grow. *)
Lemma count_ok (v : ValidatorState) (g : ValidatorState -> ValidatorState) :
  wf_state v -> vs_share (g v) = vs_share v ->
  (vs_sign_session_counter (g v), vs_refresh_session_counter (g v), vs_health_probes_served (g v),
   vs_share_reloads (g v)) ∈
   [(vs_sign_session_counter v, vs_refresh_session_counter v, vs_health_probes_served v, vs_share_reloads v);
    (sat_add (vs_sign_session_counter v) 1, vs_refresh_session_counter v, vs_health_probes_served v, vs_share_reloads v);
    (vs_sign_session_counter v, sat_add (vs_refresh_session_counter v) 1, vs_health_probes_served v, vs_share_reloads v);
    (vs_sign_session_counter v, vs_refresh_session_counter v, sat_add (vs_health_probes_served v) 1, vs_share_reloads v);
    (vs_sign_session_counter v, vs_refresh_session_counter v, vs_health_probes_served v, sat_add (vs_share_reloads v) 1)] ->
  wf_state (g v).
Proof using All.
  intros [H1 H2 H3 H4 H5] Hs Hc.
  assert (forall z, u64 z -> u64 (sat_add z 1)) as Hsat
    by (unfold u64, in_width, sat_add, u64_max; lia).
  rewrite !elem_of_cons, elem_of_nil in Hc.
  destruct (g v). cbn in *. subst.
  repeat destruct Hc as [Hc|Hc]; try done; injection Hc as -> -> -> ->; split; cbn; auto.
Qed.

Lemma with_share_ok v r : wf_state v -> wf_record r ->
  wf_state (with_share v r) /\ (is_Some (vs_share v) -> is_Some (vs_share (with_share v r))).
Proof using All. intros [] Hr. split; [split; cbn; try done; by intros r' [= <-]|]. by eexists. Qed.

Lemma sign_round1_ok s hex : ok h Td Tr Ex s (sign_round1 hex).
Proof using All.
  unfold sign_round1. ok_step. ok_step. apply ok_draw. intros a2 r2 Ha2.
  unfold validator_round1. destruct (sc_random r2) as [k r3]. cbn [fst]. ok_step.
  apply ok_sign.
  { intros m Hm. apply (forall_insert wf_sign); [|exact Hm]. split; [done|].
    match goal with H : wf_record _ |- _ => apply H end. }
  intros a3 m Hm Ha3. ok_step.
  apply ok_state; [intros v Hv; split; [apply (count_ok v count_sign); [done|done|set_solver]|done]|].
  intros. oks.
Qed.

Lemma sign_round3_ok s req : ok h Td Tr Ex s (sign_round3 req).
Proof using All.
  unfold sign_round3. oks. apply ok_sign; [intros m Hm; by apply (forall_take wf_sign)|].
  intros a9 m Hm Ha9. oks.
Qed.

Lemma refresh_round1_ok s hex kappa : in_width 8 kappa -> ok h Td Tr Ex s (refresh_round1 hex kappa).
Proof using All.
  intros Hk. unfold refresh_round1. oks. apply ok_draw_res. intros a2 r2 Ha2.
  match goal with H : reject_if _ _ = Ok _ |- _ => apply reject_if_ok, Z.eqb_neq in H end.
  rewrite validator_refresh_round1_eq by (unfold in_width in Hk; lia). cbn [map_err]. ok_step.
  apply ok_refresh.
  { intros m Hm. apply (forall_insert wf_refresh); [|exact Hm].
    split_and!; cbn; [done|match goal with H : wf_record _ |- _ => apply H end|unfold in_width in Hk; lia..|].
    apply length_nonces. }
  intros a3 m Hm Ha3. ok_step.
  apply ok_state; [intros v Hv; split; [apply (count_ok v count_refresh); [done|done|set_solver]|done]|].
  intros. oks.
Qed.

Lemma verify_nullifier_ok url pda pk c : verify_nullifier_finalized url pda pk c <> Panic.
Proof using All.
  unfold verify_nullifier_finalized. intros H. inv_panic; [by destruct (get_account _ _ _)|].
  unfold leaves_contain in H. inv_panic. by destruct (existsb _ _).
Qed.

Lemma nullifier_guard_ok {Y} s pk (f : unit -> handler Y) :
  (forall a, keeps_share s a -> ok h Td Tr Ex a (f tt)) -> ok h Td Tr Ex s (nullifier_guard config pk ≫= f).
Proof using All.
  intros Hf. apply safe_bind. unfold nullifier_guard.
  destruct (vc_solana_rpc_url config) as [url|]; [|by apply Hf].
  destruct (vc_nullifier_tree_pda config) as [pda|]; [|done]. intros a Ha Hs. cbn.
  split_and!; [done|intros H; exact H|].
  pose proof (verify_nullifier_ok url pda pk (app_chain a)) as Hv.
  destruct (verify_nullifier_finalized _ _ _ _) as [[]|[]|]; [by apply Hf|done|done].
Qed.

Lemma refresh_round5_ok s req : in_width 8 (f5_gamma_star req) -> ok h Td Tr Ex s (refresh_round5 config req).
Proof using All.
  intros Hg. unfold refresh_round5. oks. apply nullifier_guard_ok. intros a1 Ha1. oks.
  apply ok_refresh; [intros m Hm; by apply (forall_take wf_refresh)|]. intros a2 m Hm Ha2.
  apply ok_lift; [apply ok_or_panic|]. intros entry He%ok_or_ok. cbn in He. apply Hm in He as (Hid & _ & Hk & Hl).
  apply ok_lift; [|intros out _; apply ok_ret]. apply map_err_ok', round5_no_panic; cbn; [rewrite Hl; lia|].
  repeat match goal with H : reject_if _ _ = Ok _ |- _ => apply reject_if_ok in H end.
  match goal with H : decode_challenges _ = Ok _ |- _ => rewrite (length_decode_challenges _ _ H) end.
  unfold in_width in Hg. lia.
Qed.

(** *** Ceremonies *)
Lemma Htf : pt_torsion_free h = true.
Proof using All. by apply (h_generator_tf fuel). Qed.

Lemma vss_params n t params : u16 n -> u16 t -> VssParameters_new n t = Ok params ->
  params = {| vp_n := n; vp_t := t |} /\ 1 <= t <= n.
Proof using All.
  unfold VssParameters_new, u16, in_width. intros Hn Ht H. inv_ok. apply orb_false_iff in Hb as [].
  split; [done|lia].
Qed.

Lemma dkg_start_ok' s req : u16 (ds_my_index req) -> u16 (ds_n req) -> u16 (ds_t req) ->
  ok h Td Tr Ex s (dkg_start_handler fuel req).
Proof using All.
  intros Hi Hn Ht. unfold dkg_start_handler. oks.
  match goal with H : map_err _ (VssParameters_new _ _) = Ok ?p |- _ =>
    apply map_err_ok in H; apply vss_params in H as [-> Hp]; [|done..] end.
  rewrite Hh. cbn [map_err].
  apply ok_draw_res. intros a1 r1 Ha1.
  pose proof (dkg_start_no_panic x (ds_my_index req) {| vp_n := ds_n req; vp_t := ds_t req |} h r1
    ltac:(cbn; lia) ltac:(unfold u16, in_width in Hi; lia) Htf) as Hnp.
  destruct (dkg_start x (ds_my_index req) _ h r1) as [[out r2]|e|] eqn:Hs; [|done|done]. oks.
  apply ok_dkg.
  { intros m Hm. apply (forall_start (wf_dkg h Td)); [|exact Hm]. split; [|apply map_Forall_empty].
    match goal with H : map_err _ (Ok out) = Ok _ |- _ => injection H as <- end.
    exists (ds_my_index req), {| vp_n := ds_n req; vp_t := ds_t req |}, r1, r2. by split. }
  intros. oks.
Qed.

Lemma dkg_contribute_ok s req : u16 (ct_from_index req) ->
  (forall id, brings_empty_dkg (DkgContribute req) id -> Td id) ->
  ok h Td Tr Ex s (dkg_contribute_handler req).
Proof using All.
  intros Hi Hfel. unfold dkg_contribute_handler. oks.
  match goal with Hid : decode_ceremony_id _ = Ok ?id, H : decode_borsh DkgRound1Broadcast_read _ = Ok ?b |- _ =>
    assert (fc_coeffs (db_feldman b) = [] -> Td id) by (intros He; apply Hfel; split; [done|by exists b]);
    apply decode_borsh_inv in H as (enc & rest & H); apply read_broadcast_typed in H end.
  apply ok_dkg.
  - intros m Hm. apply (forall_contribute (wf_dkg h Td)); [|exact Hm]. intros sess [Hr Hp].
    split; [exact Hr|]. by apply map_Forall_insert_2.
  - intros a m Hm Ha. apply ok_last, map_err_ok', contribute_no_panic.
Qed.

Lemma reshare_contribute_ok s req : u16 (ct_from_index req) ->
  (forall id, brings_empty_reshare (ReshareContribute req) id -> Tr id) ->
  ok h Td Tr Ex s (reshare_contribute_handler req).
Proof using All.
  intros Hi Hfel. unfold reshare_contribute_handler. oks.
  match goal with Hid : decode_ceremony_id _ = Ok ?id, H : decode_borsh ReshareRound1Broadcast_read _ = Ok ?b |- _ =>
    assert (fc_coeffs (rb_feldman b) = [] -> Tr id) by (intros He; apply Hfel; split; [done|by exists b]);
    apply decode_borsh_inv in H as (enc & rest & H); apply read_reshare_typed in H end.
  apply ok_reshare.
  - intros m Hm. apply (forall_contribute (wf_reshare h Tr)); [|exact Hm]. intros sess [Hr Hp].
    split; [exact Hr|]. by apply map_Forall_insert_2.
  - intros a m Hm Ha. apply ok_last, map_err_ok', contribute_no_panic.
Qed.

Lemma reshare_start_ok' s hex : ok h Td Tr Ex s (reshare_start_handler fuel hex).
Proof using All.
  unfold reshare_start_handler. ok_step. ok_step. ok_step.
  match goal with H : wf_record _ |- _ => destruct H as (_ & Hi & Hn & Ht & _) end.
  match goal with H : map_err _ (VssParameters_new _ _) = Ok ?p |- _ =>
    apply map_err_ok in H; apply vss_params in H as [-> Hp]; [|done..] end.
  rewrite Hh. cbn [map_err].
  apply ok_draw_res. intros a1 r1 Ha1.
  destruct (reshare_start x (sr_my_index r) _ h r1) as [[out r2]|e|] eqn:Hs;
    [|done|by apply reshare_start_no_panic in Hs]. oks.
  apply ok_reshare.
  { intros m Hm. apply (forall_start (wf_reshare h Tr)); [|exact Hm]. split; [|apply map_Forall_empty].
    match goal with H : map_err _ (Ok out) = Ok _ |- _ => injection H as <- end.
    exists (sr_my_index r), {| vp_n := sr_n r; vp_t := sr_t r |}, r1, r2. by split. }
  intros. oks.
Qed.

Lemma persist_ok {Y} s record (f : bool -> handler Y) :
  (forall b a, keeps_share s a -> ok h Td Tr Ex a (f b)) -> ok h Td Tr Ex s (persist config record ≫= f).
Proof using All.
  intros Hf. apply safe_bind. unfold persist. destruct (vc_master_seed config) as [seed|]; [|by apply Hf].
  apply safe_bind. eapply (safe_on_host h _ _ _ _ (total (λ _, True))).
  - apply always_catch. eapply always_mono; [|apply write_record_ok]. by intros [[]|e|].
  - intros [[]|e|] a Hx Ha; [by apply Hf|done|done].
Qed.

(** What [take_finalisable] hands out, and the contributions in it. *)
Lemma taken_ok {R1 P} (W : CeremonyId -> ceremony R1 P -> Prop) id m round1 received n :
  map_Forall W m -> (ceremony_take_finalisable id m).1 = Ok (round1, received, n) ->
  exists sess, W id sess /\ cs_my_round1 sess = round1 /\ cs_n sess = n /\
    received = ordered_contributions (cs_peer_contributions sess).
Proof using All.
  intros Hm. unfold ceremony_take_finalisable. destruct (m !! id) as [sess|] eqn:Hs; [|done].
  destruct (_ <? _); [done|]. intros [= <- <- <-]. exists sess. by split; [apply Hm|].
Qed.

Lemma ordered_forall {P} (W : Z -> P -> Prop) (Q : P -> Prop) m :
  (forall i p, W i p -> Q p) -> map_Forall W m -> Forall Q (ordered_contributions m).
Proof using All.
  intros HQ Hm. apply Forall_forall. intros p (i & Hp)%ordered_in. by eapply HQ, Hm.
Qed.

Lemma dkg_finalize_ok' s hex : (forall id, finalises_dkg (DkgFinalizeR hex) id -> Td id -> Ex) ->
  ok h Td Tr Ex s (dkg_finalize_handler config fuel hex).
Proof using All.
  intros Hex. unfold dkg_finalize_handler. ok_step.
  apply ok_dkg; [intros m Hm; by apply (forall_take_finalisable (wf_dkg h Td))|]. intros a1 m Hm Ha1.
  apply ok_lift; [apply map_err_ok', take_no_panic|]. intros [[round1 received] n] Htaken%map_err_ok.
  apply (taken_ok _ _ _ _ _ _ Hm) in Htaken as (sess & [(i & params & r & r' & Hs & Hp) Hc] & <- & <- & ->).
  pose proof Hp as (Hpn & Hu & Hpt & Hi). unfold u16, in_width in Hu.
  set (own := cs_my_round1 sess) in *. set (received := ordered_contributions _).
  assert (Forall (λ p, u16 (db_from_index (pc_broadcast p))) received) as Hidx
    by (apply (ordered_forall _ _ _ (λ i p H, proj1 (proj2 H)) Hc)).
  rewrite Hh. apply ok_lift; [done|]. intros h' [= <-].
  apply ok_lift_excused.
  - intros Hpanic%map_err_panic.
    apply (dkg_finalize_panics_only_on_empty x i params h r own r') in Hpanic as (p & Hin & He);
      [|lia|lia|done|apply Htf|done].
    apply ordered_in in Hin as (k & Hk). by apply (Hex x), (Hc k p Hk).
  - intros fin Hfin%map_err_ok. pose proof (started_index _ _ _ _ _ _ _ Hs) as Hn1.
    assert (dp_params (do_private own) = params) as ->.
    { pose proof Hi as Hi'. unfold u16, in_width in Hi'.
      destruct (dkg_start_ok x i params h r) as (own' & r2 & Hs' & Ho); [lia..|apply Htf|].
      rewrite Hs in Hs'. injection Hs' as <- _. apply (ho_private _ _ _ _ _ _ Ho). }
    apply persist_ok. intros b a2 Ha2. rewrite <- Hpn.
    apply ok_state; [intros v Hv; apply with_share_ok; [done|]|intros; oks].
    apply (dkg_finalize_typed x i params h r own r' received fin); try done; [|apply Htf].
    unfold wf_params. by rewrite Hpn.
Qed.

Lemma reshare_finalize_ok' s hex :
  (forall id, finalises_reshare (ReshareFinalizeR hex) id -> Tr id -> Ex) ->
  ok h Td Tr Ex s (reshare_finalize_handler config fuel hex).
Proof using All.
  intros Hex. unfold reshare_finalize_handler. ok_step.
  apply ok_reshare; [intros m Hm; by apply (forall_take_finalisable (wf_reshare h Tr))|]. intros a1 m Hm Ha1.
  apply ok_lift; [apply map_err_ok', take_no_panic|]. intros [[round1 received] n] Htaken%map_err_ok.
  apply (taken_ok _ _ _ _ _ _ Hm) in Htaken as (sess & [(i & params & r & r' & Hs & Hp) Hc] & <- & <- & ->).
  pose proof Hp as (Hpn & Hu & Hpt & Hi). unfold u16, in_width in Hu.
  set (own := cs_my_round1 sess) in *. set (received := ordered_contributions _).
  apply ok_read_share. intros a2 share Hshare Ha2 Hloaded. ok_step.
  rewrite Hh. apply ok_lift; [done|]. intros h' [= <-].
  apply ok_lift_excused.
  - intros Hpanic%map_err_panic.
    apply (reshare_finalize_panics_only_on_empty x i params h r own r') in Hpanic as (p & Hin & He);
      [|lia|lia|done|apply Htf|done].
    apply ordered_in in Hin as (k & Hk). by apply (Hex x), (Hc k p Hk).
  - intros fin Hfin%map_err_ok. apply ok_state; [by intros v Hv|]. intros a3 v Hv Ha3 _ Hkept.
    destruct (Hkept Hloaded) as [cur Hcur]. cbn [fst]. rewrite Hcur. cbn [expect].
    apply ok_lift; [done|]. intros cur' [= <-].
    apply persist_ok. intros b a4 Ha4.
    apply ok_state; [intros v' Hv'; apply with_share_ok; [done|]|intros; oks].
    rewrite <- Hpn. apply (reshare_finalize_typed x i params h r own r' x0 received fin); try done.
    + unfold wf_params. by rewrite Hpn.
    + apply Htf.
    + apply (ordered_forall _ _ _ (λ i p H, proj1 (proj2 H)) Hc).
    + by apply (ws_share _ Hv).
    + pose proof (ws_share _ Hv _ Hcur) as (_ & _ & _ & _ & He & _).
      unfold u64, in_width, sat_add, u64_max in *. lia.
Qed.

(** *** The rest of the interface *)
Lemma logger_ok {Y} s (f : TransparencyLogger -> handler Y) :
  (forall l a, keeps_share s a -> ok h Td Tr Ex a (f l)) -> ok h Td Tr Ex s (logger_of ≫= f).
Proof using All.
  intros Hf. apply safe_bind. intros a Ha Hs. cbn. split_and!; [done|intros H; exact H|].
  destruct (app_transparency a); [by apply Hf|done].
Qed.

Lemma transparency_log_ok s : ok h Td Tr Ex s transparency_log_handler.
Proof using All.
  apply logger_ok. intros l a _. eapply ok_host with (P := λ _, True); [|intros; oks].
  apply always_catch. unfold read_all. apply always_bind, always_on_disk; [apply disk_read_ok|].
  intros [c|e|] Hr; [|done..]. apply always_lift. pose proof (entries_ok c) as Hc.
  by destruct (entries_of c).
Qed.

Lemma transparency_verify_ok s : ok h Td Tr Ex s transparency_verify_chain_handler.
Proof using All.
  apply logger_ok. intros l a _. eapply ok_host_last with (P := λ _, True).
  apply always_catch. unfold verify_chain. apply always_bind, always_on_disk; [apply disk_read_ok|].
  intros [c|[i e]|] Hr; [|done..]. apply always_lift. pose proof (verify_ok c) as Hc.
  by destruct (verify_content c) as [?|[? ?]|].
Qed.

Lemma check_admin_ok tok : check_admin config tok <> Panic.
Proof using All. unfold check_admin. intros H. by inv_panic. Qed.
#[local] Hint Resolve check_admin_ok : no_panic.

Lemma metrics_ok s : ok h Td Tr Ex s metrics.
Proof using All.
  unfold metrics. apply ok_state; [by intros v Hv|]. intros. oks.
  apply ok_sign; [done|]. intros. apply ok_refresh; [done|]. intros. oks.
Qed.

Lemma admin_sessions_ok s tok : ok h Td Tr Ex s (admin_sessions config tok).
Proof using All.
  unfold admin_sessions. oks. apply ok_sign; [done|]. intros. apply ok_refresh; [done|]. intros. oks.
Qed.

Lemma first_share_ok {Y} s seed paths (f : option ValidatorShareRecord -> handler Y) :
  (forall o a, keeps_share s a -> (forall r, o = Some r -> wf_record r) -> ok h Td Tr Ex a (f o)) ->
  ok h Td Tr Ex s (first_share seed paths ≫= f).
Proof using All.
  intros Hf. induction paths as [|path paths IH]; [by apply Hf|]. cbn [first_share].
  destruct (is_share_file path); [|exact IH]. apply safe_bind, safe_bind.
  eapply (safe_on_host h _ _ _ _ (total wf_record)).
  - apply always_catch. eapply always_mono; [|apply read_record_ok]. intros [r|e|] [H1 H2]; [|done|done].
    by apply H2.
  - intros [r|e|] a Hx Ha; [|done|done]. apply Hf; [done|]. by intros r' [= <-].
Qed.

Lemma admin_reload_ok s tok : ok h Td Tr Ex s (admin_reload_share config tok).
Proof using All.
  unfold admin_reload_share. oks.
  apply (ok_host h _ _ _ _ _ (λ _, True)).
  { apply always_on_disk; [apply disk_read_dir_ok|]. by intros [l|e|]. }
  intros entries a _ Ha. apply first_share_ok. intros [r|] a1 Ha1 Hr; [|apply ok_ret].
  apply ok_state; [|intros; apply ok_ret]. intros v Hv.
  destruct (with_share_ok v r Hv (Hr r eq_refl)) as [Hw Hk]. split; [|exact Hk].
  apply (count_ok (with_share v r) count_reload); [done|done|set_solver].
Qed.

(** Requests with arguments of their machine types. *)
Definition wf_request (req : request) : Prop :=
  match req with
  | RefreshRound1 _ kappa => in_width 8 kappa
  | RefreshRound5 r => in_width 8 (f5_gamma_star r)
  | DkgStartR r => u16 (ds_my_index r) /\ u16 (ds_n r) /\ u16 (ds_t r)
  | DkgContribute r | ReshareContribute r => u16 (ct_from_index r)
  | _ => True
  end.

Lemma router_ok s req : wf_request req ->
  (forall id, brings_empty_dkg req id -> Td id) -> (forall id, brings_empty_reshare req id -> Tr id) ->
  (forall id, finalises_dkg req id -> Td id -> Ex) ->
  (forall id, finalises_reshare req id -> Tr id -> Ex) ->
  ok h Td Tr Ex s (router config fuel req).
Proof using All.
  destruct req; intros Hw H1 H2 H3 H4; cbn [router wf_request] in *; try (apply ok_now; intros).
  - apply ok_state; [|intros; apply ok_ret]. intros v Hv. split; [|done].
    apply (count_ok v count_probe); [done|done|set_solver].
  - apply ok_state; [by intros v Hv|intros; apply ok_ret].
  - apply ok_answered, metrics_ok.
  - apply ok_answered, sign_round1_ok.
  - apply ok_answered, sign_round3_ok.
  - by apply ok_answered, refresh_round1_ok.
  - by apply ok_answered, refresh_round5_ok.
  - destruct Hw as (W1 & W2 & W3). by apply ok_answered, dkg_start_ok'.
  - by apply ok_answered, dkg_contribute_ok.
  - by apply ok_answered, dkg_finalize_ok'.
  - apply ok_answered, reshare_start_ok'.
  - by apply ok_answered, reshare_contribute_ok.
  - by apply ok_answered, reshare_finalize_ok'.
  - apply ok_answered, transparency_log_ok.
  - apply ok_answered, transparency_verify_ok.
  - apply ok_answered, admin_sessions_ok.
  - apply ok_answered, admin_reload_ok.
  - apply ok_sign; [intros m Hm; by apply (forall_prune wf_sign)|intros; apply ok_ret].
  - apply ok_refresh; [intros m Hm; by apply (forall_prune wf_refresh)|intros; apply ok_ret].
  - apply ok_dkg; [intros m Hm; by apply (forall_prune (wf_dkg h Td))|intros; apply ok_ret].
  - apply ok_reshare; [intros m Hm; by apply (forall_prune (wf_reshare h Tr))|intros; apply ok_ret].
  - apply ok_section. intros a Ha Hs. split_and!; [by apply wf_host|intros H; exact H|apply ok_ret].
  - apply ok_section. intros a Ha Hs. split_and!; [destruct Ha; by split|intros H; exact H|apply ok_ret].
Qed.
End handlers.

(** ** Property *)
Section typed.
Context `{CO : CurveOk} `{RP : Rpc} `{A : Aead} `{HX : Hex} `{J : Json} `{DO : DirOrder}.

(** The state with its types, whatever the contributions of its ceremonies. *)
Definition typed (h : point) (a : AppState) : Prop := wf_app h (λ _, True) (λ _, True) a.

Lemma wf_app_mono h (Td Td' Tr Tr' : CeremonyId -> Prop) a :
  (forall id, (exists sess i p, app_dkg_sessions a !! id = Some sess /\
     cs_peer_contributions sess !! i = Some p /\ fc_coeffs (db_feldman (pc_broadcast p)) = [] /\ Td id) -> Td' id) ->
  (forall id, (exists sess i p, app_reshare_sessions a !! id = Some sess /\
     cs_peer_contributions sess !! i = Some p /\ fc_coeffs (rb_feldman (rc_broadcast p)) = [] /\ Tr id) -> Tr' id) ->
  wf_app h Td Tr a -> wf_app h Td' Tr' a.
Proof.
  intros Hd Hr [H1 H2 H3 H4 H5]. split; [done..| |].
  - intros id sess Hs. destruct (H4 id sess Hs) as [Hstart Hc]. split; [exact Hstart|].
    intros i p Hp. destruct (Hc i p Hp) as (? & ? & Ht). split_and!; [done..|]. eauto 10.
  - intros id sess Hs. destruct (H5 id sess Hs) as [Hstart Hc]. split; [exact Hstart|].
    intros i p Hp. destruct (Hc i p Hp) as (? & ? & Ht). split_and!; [done..|]. eauto 10.
Qed.

(** C10: the state keeps its types under every request, and what a panic
    means. With [h] the second generator, from a state of the declared
    types (counters and indices in range, a share record of the sizes of
    its fields, every session stored under its own identifier with as many
    nonces as candidates, every ceremony holding a first round of this
    daemon; contributions of any content), whatever requests are served at
    once, contributions with an empty Feldman vector among them, under any
    interleaving of their sections, with disk faults, prune loops and a
    reload of the share among them: the state has its types again and a
    loaded share stays loaded. Every answer is a value or an error, with
    one exception: the finalisation of a ceremony to which a contribution
    with an empty Feldman vector was made, before or by one of these
    requests. *)
Theorem daemon_well_typed config fuel h reqs schedule a :
  h_generator fuel = Ok h -> typed h a -> Forall wf_request reqs ->
  let '(a', tasks) := exec schedule (a, router config fuel <$> reqs) in
  typed h a' /\ keeps_share a a' /\
  forall i req answer, reqs !! i = Some req -> tasks !! i = Some (Done answer) ->
    answer <> Panic \/ empty_vector_finalised a reqs req.
Proof.
  intros Hh Ha Hreqs.
  set (Td := λ id, holds_empty_dkg a id \/ exists r, r ∈ reqs /\ brings_empty_dkg r id).
  set (Tr := λ id, holds_empty_reshare a id \/ exists r, r ∈ reqs /\ brings_empty_reshare r id).
  set (Qs := (λ req, no_panic (X := response) (empty_vector_finalised a reqs req)) <$> reqs).
  destruct (exec_safe (wf_app h Td Tr) keeps_share Qs schedule a (router config fuel <$> reqs)) as (H1 & H2 & H3).
  - apply Forall_fmap, Forall_forall. intros req _. by intros r s s' _.
  - eapply wf_app_mono; [..|exact Ha]; intros id (sess & i & p & ? & ? & ? & _); left; by exists sess, i, p.
  - unfold Qs. apply Forall2_fmap_l, Forall2_fmap_r, Forall_Forall2_diag, Forall_forall.
    intros req Hin. exists a. split; [done|]. rewrite Forall_forall in Hreqs.
    apply router_ok; [done|by apply Hreqs|..].
    + intros id Hb. right. by exists req.
    + intros id Hb. right. by exists req.
    + intros id Hf Ht. exists id. by left.
    + intros id Hf Ht. exists id. by right.
  - destruct (exec schedule _) as [a' tasks]. cbn [fst snd] in *. split_and!; [|done|].
    { by eapply wf_app_mono; [..|exact H1]. }
    intros i req answer Hreq Hi. destruct (Forall2_lookup_r _ _ _ _ _ H3 Hi) as (Q & HQ & s0 & _ & Hs).
    unfold Qs in HQ. rewrite list_lookup_fmap, Hreq in HQ. injection HQ as <-.
    destruct answer; [by left..|]. right. by apply Hs.
Qed.
End typed.

(** ** Witness: a ceremony, a session and a refresh at once *)
#[local] Existing Instance toy.
#[local] Existing Instance toy_ok.
#[local] Existing Instance toy_rpc.
#[local] Existing Instance toy_aead.
#[local] Existing Instance toy_hex.
#[local] Existing Instance toy_json.
#[local] Existing Instance toy_order.

Definition mixed_contribution (i : Z) : ContributeReq :=
  default {| ct_ceremony_id_hex := []; ct_from_index := 0; ct_broadcast_borsh_hex := [];
             ct_share_for_me_borsh_hex := [] |} (contribution_of net_resps 1 i).
Definition mixed : list request :=
  [DkgStartR (start_req net_hex 3 2 1); DkgContribute (mixed_contribution 2);
   DkgContribute (mixed_contribution 3); DkgFinalizeR net_hex; SignRound1 (demo_sid_hex Byte.x01);
   RefreshRound1 (demo_sid_hex Byte.x01) 3; AdminReload (Some (ascii "token")); Health].
(** The ceremony is started first; then the requests take turns. *)
Definition mixed_schedule : list nat := replicate 12 0%nat ++ concat (replicate 12 (seq 0 8)).

(** The same ceremony with a contribution of no Feldman commitment. *)
Definition empty_contribution : ContributeReq :=
  {| ct_ceremony_id_hex := net_hex; ct_from_index := 2;
     ct_broadcast_borsh_hex :=
       hex_encode (default [] (DkgRound1Broadcast_serialize (pc_broadcast (demo_empty_peer 2))));
     ct_share_for_me_borsh_hex :=
       hex_encode (VssShare_serialize {| share_index := 1; f_share := sc_zero; g_share := sc_zero |}) |}.
Definition poisoned : list request :=
  [DkgStartR (start_req net_hex 3 2 1); DkgContribute empty_contribution;
   DkgContribute (mixed_contribution 3); DkgFinalizeR net_hex].
(** One request after the other. *)
Definition poisoned_schedule : list nat := concat (replicate 12 <$> seq 0 4).

Lemma demo_share_wf : wf_record (demo_record 1).
Proof. split_and!; try vm_refl; refine (bool_decide_eq_true_1 _ _); vm_refl. Qed.

Definition wf_requestb (req : request) : bool :=
  match req with
  | RefreshRound1 _ kappa => bool_decide (in_width 8 kappa)
  | RefreshRound5 r => bool_decide (in_width 8 (f5_gamma_star r))
  | DkgStartR r => bool_decide (u16 (ds_my_index r) /\ u16 (ds_n r) /\ u16 (ds_t r))
  | DkgContribute r | ReshareContribute r => bool_decide (u16 (ct_from_index r))
  | _ => true
  end.
Lemma wf_requests reqs : forallb wf_requestb reqs = true -> Forall wf_request reqs.
Proof.
  intros H. apply Forall_forall. intros req Hin.
  rewrite forallb_forall in H. specialize (H req (proj1 (list_elem_of_In _ _) Hin)).
  destruct req; cbn in *; try done; by apply bool_decide_eq_true in H.
Qed.

Lemma demo_typed : typed demo_h (demo_app (Some (demo_record 1)) 101).
Proof. split; [|by intros ? ?..]. split; [intros r [= <-]; apply demo_share_wf|by vm_compute..]. Qed.

(** The first run holds no empty vector; in the second the last request panics. *)
Lemma daemon_well_typed_witness :
  (let '(a', tasks) := exec mixed_schedule (demo_app (Some (demo_record 1)) 101, router (demo_config false) 64 <$> mixed) in
   typed demo_h a' /\ keeps_share (demo_app (Some (demo_record 1)) 101) a' /\
   forall i req answer, mixed !! i = Some req -> tasks !! i = Some (Done answer) ->
     answer <> Panic \/ empty_vector_finalised (demo_app (Some (demo_record 1)) 101) mixed req) /\
  (let '(a', tasks) := exec poisoned_schedule (demo_app (Some (demo_record 1)) 101, router (demo_config false) 64 <$> poisoned) in
   typed demo_h a' /\ keeps_share (demo_app (Some (demo_record 1)) 101) a' /\
   forall i req answer, poisoned !! i = Some req -> tasks !! i = Some (Done answer) ->
     answer <> Panic \/ empty_vector_finalised (demo_app (Some (demo_record 1)) 101) poisoned req) /\
  match (exec poisoned_schedule (demo_app (Some (demo_record 1)) 101,
           router (demo_config false) 64 <$> poisoned)).2 !! 3%nat with
  | Some (Done Panic) => True
  | _ => False
  end.
Proof.
  split; [|split; [|vm_compute; exact I]].
  - apply (daemon_well_typed (demo_config false) 64 demo_h mixed mixed_schedule (demo_app (Some (demo_record 1)) 101));
      [vm_refl|exact demo_typed|].
    apply wf_requests; vm_refl.
  - apply (daemon_well_typed (demo_config false) 64 demo_h poisoned poisoned_schedule (demo_app (Some (demo_record 1)) 101));
      [vm_refl|exact demo_typed|].
    apply wf_requests; vm_refl.
Defined.
