(* ===== verification/Relay.v ===== *)
(** * tardus-relay: the inbox and its handlers

    Models [crates/tardus-relay/src/{error,state,inbox,api}.rs].  A handler is
    an [io] program over the daemon's state, in the style of [Validator]; a
    lock, a clock reading and a draw from the generator are one section each.
    The memory backend is a map behind a mutex that a panic poisons; the other
    backend is the table the code keeps in SQLite, with each statement of the
    source a function on its rows. *)
From S2P Require Import Prelude Crypto Async Platform.

Module RelayError.
Inductive t : Type := Io | BadRecipient | InboxFull (max : Z) | PayloadTooLarge (size max : Z) | NotFound.
End RelayError.

(** ** state.rs *)
Record RelayConfig : Type := {
  rl_bind_addr : bytes;
  rl_operator_name : bytes;
  rl_max_per_recipient : Z;
  rl_max_payload_bytes : Z;
}.
Record RelayState : Type := { rs_started_at : Z; rs_deposits_total : Z; rs_fetches_total : Z }.

(** ** inbox.rs *)
Record Message : Type := {
  msg_id : bytes;
  msg_payload_hex : bytes;
  msg_received_at_unix_ms : Z;
  msg_expires_at_unix_ms : Z;
}.
#[global] Instance Message_eq_dec : EqDecision Message.
Proof. solve_decision. Defined.
Record StoredMessage : Type := { sm_msg : Message; sm_expires_at_inst : Z }.

(** [std::sync::Mutex]: [Poisoned] after a panic of its holder; [lock().expect]
    then panics.  That is the behaviour of a build that unwinds; in the release
    profile ([panic = "abort"]) a panic ends the process instead. *)
Inductive mutex (A : Type) : Type := Guarded (a : A) | Poisoned.
Arguments Guarded {A} a. Arguments Poisoned {A}.

(** A row of the table [messages], [id] its primary key; a fault makes the
    next statement fail. *)
Record Row : Type := {
  row_id : bytes;
  row_recipient : bytes;
  row_payload_hex : bytes;
  row_received_at : Z;
  row_expires_at : Z;
}.
Record database : Type := { db_rows : list Row; db_faults : list bool }.

(** The order in which SQLite returns the rows of a [SELECT] without
    [ORDER BY]. *)
Class RowOrder : Type := { row_order : list Row -> list Row }.
Class RowOrderOk (O : RowOrder) : Prop := { row_order_perm l : row_order l ≡ₚ l }.

(** [as i64], and [as u128] of an [i64]. *)
Definition as_i64 (z : Z) : Z := (z + 2 ^ 63) mod 2 ^ 64 - 2 ^ 63.
Definition as_u128 (z : Z) : Z := z mod 2 ^ 128.

(** The last instant a 64-bit [Instant] represents, in nanoseconds;
    [Instant + Duration] panics beyond it. *)
Definition INSTANT_LIMIT : Z := 2 ^ 63 * 1000000000.

Section statements.
Context `{RO : RowOrder}.

(** One statement: it fails, or runs [f] on the rows. *)
Definition statement {A} (f : list Row -> option A * list Row) (d : database) : option A * database :=
  match db_faults d with
  | true :: faults => (None, {| db_rows := db_rows d; db_faults := faults |})
  | faults => let '(a, rows) := f (db_rows d) in
              (a, {| db_rows := rows; db_faults := tail faults |})
  end.

Definition is_live (now : Z) (r : Row) : bool := now <? row_expires_at r.
(** [SELECT COUNT( * ) FROM messages WHERE recipient = ? AND expires_at_unix_ms > ?] *)
Definition sql_count (recipient : bytes) (now : Z) (rows : list Row) : option Z * list Row :=
  (Some (Z.of_nat (length (filter (λ r, row_recipient r = recipient /\ is_live now r = true) rows))), rows).
(** [INSERT INTO messages .. VALUES (?, ?, ?, ?, ?)] *)
Definition sql_insert (r : Row) (rows : list Row) : option unit * list Row :=
  if existsb (λ r', bool_decide (row_id r' = row_id r)) rows then (None, rows) else (Some tt, rows ++ [r]).
(** [SELECT .. WHERE recipient = ? AND expires_at_unix_ms > ?] *)
Definition sql_select (recipient : bytes) (now : Z) (rows : list Row) : option (list Row) * list Row :=
  (Some (row_order (filter (λ r, row_recipient r = recipient /\ is_live now r = true) rows)), rows).
(** [DELETE .. WHERE recipient = ? AND id = ?] *)
Definition sql_delete (recipient id : bytes) (rows : list Row) : option Z * list Row :=
  let kept := filter (λ r, ~ (row_recipient r = recipient /\ row_id r = id)) rows in
  (Some (Z.of_nat (length rows - length kept)), kept).
(** [DELETE .. WHERE expires_at_unix_ms <= ?] *)
Definition sql_prune (now : Z) (rows : list Row) : option Z * list Row :=
  let kept := filter (λ r, is_live now r = true) rows in
  (Some (Z.of_nat (length rows - length kept)), kept).
(** [SELECT COUNT( * ) FROM messages] *)
Definition sql_total (rows : list Row) : option Z * list Row := (Some (Z.of_nat (length rows)), rows).
End statements.

Abbreviation buckets := (gmap bytes (list StoredMessage)).
Inductive Backend : Type :=
| Memory (m : mutex buckets)
| Sqlite (m : database).

Definition row_of (recipient : bytes) (m : Message) : Row :=
  {| row_id := msg_id m; row_recipient := recipient; row_payload_hex := msg_payload_hex m;
     row_received_at := as_i64 (msg_received_at_unix_ms m);
     row_expires_at := as_i64 (msg_expires_at_unix_ms m) |}.
Definition message_of (r : Row) : Message :=
  {| msg_id := row_id r; msg_payload_hex := row_payload_hex r;
     msg_received_at_unix_ms := as_u128 (row_received_at r);
     msg_expires_at_unix_ms := as_u128 (row_expires_at r) |}.

Section inbox.
Context `{RO : RowOrder}.
Variable config : RelayConfig.

(** One critical section on the backend: the branches of [deposit] after the
    clocks are read and the identifier is drawn. *)
Definition InboxStore_deposit (recipient : bytes) (msg : Message) (now_unix_ms now_inst ttl : Z)
    (b : Backend) : res RelayError.t unit * Backend :=
  match b with
  | Memory Poisoned => (Panic, Memory Poisoned)
  | Memory (Guarded map) =>
      let bucket := default [] (map !! recipient) in
      if rl_max_per_recipient config <=? Z.of_nat (length bucket)
      then (Err (RelayError.InboxFull (rl_max_per_recipient config)),
            Memory (Guarded (<[recipient := bucket]> map)))
      else if INSTANT_LIMIT <=? now_inst + ttl then (Panic, Memory Poisoned)
      else (Ok tt, Memory (Guarded (<[recipient :=
              bucket ++ [{| sm_msg := msg; sm_expires_at_inst := now_inst + ttl |}]]> map)))
  | Sqlite db =>
      let '(count, db) := statement (sql_count recipient (as_i64 now_unix_ms)) db in
      match count with
      | None => (Err RelayError.BadRecipient, Sqlite db)
      | Some count =>
          if rl_max_per_recipient config <=? count
          then (Err (RelayError.InboxFull (rl_max_per_recipient config)), Sqlite db)
          else let '(done, db) := statement (sql_insert (row_of recipient msg)) db in
               match done with
               | None => (Err RelayError.BadRecipient, Sqlite db)
               | Some _ => (Ok tt, Sqlite db)
               end
      end
  end.

Definition InboxStore_list {E} (recipient : bytes) (now_unix_ms now_inst : Z) (b : Backend)
    : res E (list Message) * Backend :=
  match b with
  | Memory Poisoned => (Panic, Memory Poisoned)
  | Memory (Guarded map) =>
      (Ok (match map !! recipient with
           | None => []
           | Some bucket => sm_msg <$> filter (λ m, now_inst < sm_expires_at_inst m) bucket
           end), b)
  | Sqlite db =>
      let '(rows, db) := statement (sql_select recipient (as_i64 now_unix_ms)) db in
      (Ok (message_of <$> default [] rows), Sqlite db)
  end.

Definition InboxStore_remove {E} (recipient id : bytes) (b : Backend) : res E bool * Backend :=
  match b with
  | Memory Poisoned => (Panic, Memory Poisoned)
  | Memory (Guarded map) =>
      match map !! recipient with
      | None => (Ok false, b)
      | Some bucket =>
          let kept := filter (λ m, msg_id (sm_msg m) <> id) bucket in
          (Ok (negb (length bucket =? length kept)%nat), Memory (Guarded (<[recipient := kept]> map)))
      end
  | Sqlite db =>
      let '(n, db) := statement (sql_delete recipient id) db in
      (Ok (match n with Some n => 0 <? n | None => false end), Sqlite db)
  end.

Definition unexpired (now_inst : Z) (bucket : list StoredMessage) : list StoredMessage :=
  filter (λ m, now_inst < sm_expires_at_inst m) bucket.
Definition InboxStore_prune {E} (now_unix_ms now_inst : Z) (b : Backend) : res E Z * Backend :=
  match b with
  | Memory Poisoned => (Panic, Memory Poisoned)
  | Memory (Guarded map) =>
      let evicted := map_fold (λ _ bucket n, n + Z.of_nat (length bucket - length (unexpired now_inst bucket)))
                       0 map in
      (Ok evicted, Memory (Guarded (filter (λ kb, kb.2 <> []) (unexpired now_inst <$> map))))
  | Sqlite db =>
      let '(n, db) := statement (sql_prune (as_i64 now_unix_ms)) db in (Ok (default 0 n), Sqlite db)
  end.

Definition InboxStore_total_messages {E} (b : Backend) : res E Z * Backend :=
  match b with
  | Memory Poisoned => (Panic, Memory Poisoned)
  | Memory (Guarded map) => (Ok (map_fold (λ _ bucket n, n + Z.of_nat (length bucket)) 0 map), b)
  | Sqlite db => let '(n, db) := statement sql_total db in (Ok (default 0 n), Sqlite db)
  end.
Definition InboxStore_is_persistent (b : Backend) : bool :=
  match b with Sqlite _ => true | Memory _ => false end.
End inbox.

(** ** api.rs *)
Module RelayStatus.
Definition BAD_REQUEST : Z := 400.
Definition INTERNAL_SERVER_ERROR : Z := 500.
Definition SERVICE_UNAVAILABLE : Z := 503.
End RelayStatus.
Definition DEFAULT_TTL_SECS : Z := 7 * 24 * 3600.

Section relay.
Context `{C : Curve} `{HX : Hex} `{RO : RowOrder}.
Variable config : RelayConfig.

Record RelayApp : Type := { ra_state : RelayState; ra_inbox : Backend; ra_host : host }.
Definition set_counters (a : RelayApp) (s : RelayState) : RelayApp :=
  {| ra_state := s; ra_inbox := ra_inbox a; ra_host := ra_host a |}.
Definition set_inbox (a : RelayApp) (b : Backend) : RelayApp :=
  {| ra_state := ra_state a; ra_inbox := b; ra_host := ra_host a |}.
Definition set_world (a : RelayApp) (h : host) : RelayApp :=
  {| ra_state := ra_state a; ra_inbox := ra_inbox a; ra_host := h |}.

(** One section on the host; on the inbox, with the monotonic clock read while
    it is held; on the counters. *)
Definition on_world {E A} (f : host -> A * host) : io RelayApp E A :=
  atomically (λ a, let '(r, h) := f (ra_host a) in (r, set_world a h)).
Definition on_inbox {E A} (f : Z -> Backend -> res E A * Backend) : io RelayApp E A :=
  r ← atomically (λ a, let '(r, b) := f (h_instant (ra_host a)) (ra_inbox a) in (r, set_inbox a b));
  lift r.
Definition on_counters {E A} (f : RelayState -> A * RelayState) : io RelayApp E A :=
  atomically (λ a, let '(r, s) := f (ra_state a) in (r, set_counters a s)).
Definition wall_clock {E} : io RelayApp E Z := on_world (λ h, (unix_ms (h_unix h), h)).
Definition monotonic {E} : io RelayApp E Z := on_world (λ h, (h_instant h, h)).

Definition random_id {E} : io RelayApp E bytes :=
  b ← on_world (λ h, let '(b, r) := rng_fill 16 (h_rng h) in (b, set_rng h r)); mret (hex_encode b).

(** [ttl] in seconds. *)
Definition store_deposit (recipient payload_hex : bytes) (ttl_secs : Z) : io RelayApp RelayError.t Message :=
  let approx_bytes := Z.of_nat (length payload_hex) / 2 in
  _ ← lift (reject_if (rl_max_payload_bytes config <? approx_bytes)
              (RelayError.PayloadTooLarge approx_bytes (rl_max_payload_bytes config)));
  now_unix_ms ← wall_clock;
  now_inst ← monotonic;
  id ← random_id;
  let msg := {| msg_id := id; msg_payload_hex := payload_hex; msg_received_at_unix_ms := now_unix_ms;
                msg_expires_at_unix_ms := now_unix_ms + ttl_secs * 1000 |} in
  _ ← on_inbox (λ _, InboxStore_deposit config recipient msg now_unix_ms now_inst (ttl_secs * 1000000000));
  mret msg.

Definition store_list {E} (recipient : bytes) : io RelayApp E (list Message) :=
  now_unix_ms ← wall_clock;
  on_inbox (λ now_inst, InboxStore_list recipient now_unix_ms now_inst).
Definition store_remove {E} (recipient id : bytes) : io RelayApp E bool :=
  on_inbox (λ _, InboxStore_remove recipient id).
Definition store_prune {E} : io RelayApp E Z :=
  now_unix_ms ← wall_clock;
  now_inst ← monotonic;
  on_inbox (λ _, InboxStore_prune now_unix_ms now_inst).
Definition store_total {E} : io RelayApp E Z := on_inbox (λ _, InboxStore_total_messages).

Definition parse_recipient (hex_str : bytes) : res Z bytes :=
  b ← ok_or RelayStatus.BAD_REQUEST (hex_decode hex_str);
  _ ← reject_if (negb (length b =? 32)%nat) RelayStatus.BAD_REQUEST;
  Ok b.

Record HealthResponse : Type := {
  hr_uptime_seconds : Z;
  hr_deposits_total : Z;
  hr_fetches_total : Z;
  hr_messages_inflight : Z;
}.
(** The code keeps the read guard of the counters while it waits for the inbox.
    Here they are read in the first section, which gives the values the guard
    keeps; that their writers wait meanwhile is not expressed. *)
Definition relay_health : io RelayApp Z HealthResponse :=
  s ← on_counters (λ s, (s, s));
  now ← monotonic;
  inflight ← store_total;
  mret {| hr_uptime_seconds := sat_sub now (rs_started_at s) / 1000000000;
          hr_deposits_total := rs_deposits_total s; hr_fetches_total := rs_fetches_total s;
          hr_messages_inflight := inflight |}.

Definition count_deposit (s : RelayState) : RelayState :=
  {| rs_started_at := rs_started_at s; rs_deposits_total := sat_add (rs_deposits_total s) 1;
     rs_fetches_total := rs_fetches_total s |}.
Definition count_fetch (s : RelayState) : RelayState :=
  {| rs_started_at := rs_started_at s; rs_deposits_total := rs_deposits_total s;
     rs_fetches_total := sat_add (rs_fetches_total s) 1 |}.

(** The status of an error of the inbox. *)
Definition deposit_status (e : RelayError.t) : Z :=
  match e with
  | RelayError.PayloadTooLarge _ _ => RelayStatus.BAD_REQUEST
  | RelayError.InboxFull _ => RelayStatus.SERVICE_UNAVAILABLE
  | _ => RelayStatus.INTERNAL_SERVER_ERROR
  end.
(** [.map_err(..)] on a call that awaits. *)
Fixpoint map_error {S E E' A} (f : E -> E') (p : io S E A) : io S E' A :=
  match p with
  | Done r => Done (map_err f r)
  | Atomic g k => Atomic g (λ b, map_error f (k b))
  end.

Definition relay_deposit (recipient_hex payload_hex : bytes) (ttl_secs : option Z) : io RelayApp Z Message :=
  recipient ← lift (parse_recipient recipient_hex);
  msg ← map_error deposit_status (store_deposit recipient payload_hex (default DEFAULT_TTL_SECS ttl_secs));
  _ ← on_counters (λ s, (tt, count_deposit s));
  mret msg.
Definition relay_list (recipient_hex : bytes) : io RelayApp Z (list Message) :=
  recipient ← lift (parse_recipient recipient_hex);
  messages ← store_list recipient;
  _ ← on_counters (λ s, (tt, count_fetch s));
  mret messages.
Definition relay_remove (recipient_hex message_id : bytes) : io RelayApp Z bool :=
  recipient ← lift (parse_recipient recipient_hex);
  store_remove recipient message_id.

(** The routes, a tick of the prune loop, and time. *)
Inductive relay_request : Type :=
| RelayHealth
| RelayInfo
| RelayDeposit (recipient_hex payload_hex : bytes) (ttl_secs : option Z)
| RelayList (recipient_hex : bytes)
| RelayRemove (recipient_hex message_id : bytes)
| RelayPrune
| RelayElapse (ns : Z).
Inductive relay_response : Type :=
| RespHealth (r : HealthResponse)
| RespInfo (c : RelayConfig)
| RespDeposit (m : Message)
| RespList (l : list Message)
| RespRemove (removed : bool)
| RespPrune (evicted : Z)
| RespElapse.

Definition pass (ns : Z) (h : host) : host :=
  {| h_disk := h_disk h; h_rng := h_rng h; h_instant := h_instant h + ns; h_unix := h_unix h + ns |}.
Definition responds {A} (f : A -> relay_response) (p : io RelayApp Z A) : io RelayApp Z relay_response :=
  x ← p; mret (f x).
Definition relay_router (req : relay_request) : io RelayApp Z relay_response :=
  match req with
  | RelayHealth => responds RespHealth relay_health
  | RelayInfo => mret (RespInfo config)
  | RelayDeposit r p t => responds RespDeposit (relay_deposit r p t)
  | RelayList r => responds RespList (relay_list r)
  | RelayRemove r i => responds RespRemove (relay_remove r i)
  | RelayPrune => responds RespPrune store_prune
  | RelayElapse ns => responds (λ _, RespElapse) (on_world (λ h, (tt, pass ns h)))
  end.
End relay.
