(* ===== verification/RelayProps.v ===== *)
(** * tardus-relay: no message is lost, and how the relay is lost

    What the handlers of [Relay] keep under every interleaving: a message that
    was accepted stays until it is removed or expires.  And what one request
    can do to the memory backend. *)
From S2P Require Import Prelude Crypto ToyCurve Async Rely Platform ToyPlatform Relay.

(** ** Slots

    Where a backend keeps a message, and until when. *)
Inductive slot : Type := InMemory (m : StoredMessage) | InTable (r : Row).
Definition slot_id (s : slot) : bytes :=
  match s with InMemory m => msg_id (sm_msg m) | InTable r => row_id r end.
Definition holds (b : Backend) (recipient : bytes) (s : slot) : Prop :=
  match b, s with
  | Memory (Guarded map), InMemory m => m ∈ default [] (map !! recipient)
  | Sqlite db, InTable r => row_recipient r = recipient /\ r ∈ db_rows db
  | _, _ => False
  end.
Definition intact (b : Backend) : Prop := b <> Memory Poisoned.

(** ** What each operation keeps *)
Section operations.
Context `{RO : RowOrder}.
Variable config : RelayConfig.

Lemma statement_rows {A} (f : list Row -> option A * list Row) (P : list Row -> Prop) d :
  P (db_rows d) -> P (f (db_rows d)).2 -> P (db_rows (statement f d).2).
Proof.
  intros H1 H2. unfold statement. destruct (db_faults d) as [|[] faults]; [|done|].
  all: by destruct (f (db_rows d)).
Qed.

Lemma statement_Some {A} (f : list Row -> option A * list Row) d a :
  (statement f d).1 = Some a -> (f (db_rows d)).1 = Some a /\ db_rows (statement f d).2 = (f (db_rows d)).2.
Proof.
  unfold statement. destruct (db_faults d) as [|[] faults]; [|done|];
    by destruct (f (db_rows d)).
Qed.

Lemma deposit_keeps rec s recipient msg t1 t2 ttl b :
  let b' := (InboxStore_deposit config recipient msg t1 t2 ttl b).2 in
  intact b' -> intact b /\ (holds b rec s -> holds b' rec s).
Proof.
  destruct b as [[map|]|db]; cbn [InboxStore_deposit]; [|done|].
  - assert (forall l, default [] (map !! recipient) `prefix_of` l -> holds (Memory (Guarded map)) rec s ->
      holds (Memory (Guarded (<[recipient := l]> map))) rec s) as Hk.
    { intros l [l' ->] H. destruct s as [m|]; [|done]. cbn in *.
      destruct (decide (recipient = rec)) as [->|Hne].
      - rewrite lookup_insert_eq. cbn. apply elem_of_app. by left.
      - by rewrite lookup_insert_ne. }
    destruct (_ <=? _); [|destruct (_ <=? _)]; cbn; intros Hi; [|done|]; (split; [done|apply Hk]).
    + done.
    + by eexists.
  - pose proof (statement_rows (sql_count recipient (as_i64 t1)) (λ l, db_rows db = l) db eq_refl eq_refl) as H1.
    destruct (statement (sql_count _ _) db) as [[n|] db1]; cbn in *.
    2:{ intros _. split; [done|]. destruct s; [done|]. by rewrite H1. }
    destruct (_ <=? n); cbn.
    { intros _. split; [done|]. destruct s; [done|]. by rewrite H1. }
    pose proof (statement_rows (sql_insert (row_of recipient msg)) (λ l, db_rows db1 `prefix_of` l) db1) as H2.
    destruct H2 as [l Hl]; [done| |].
    { unfold sql_insert. destruct (existsb _ _); [done|]. by eexists. }
    destruct (statement (sql_insert _) db1) as [[u|] db2]; cbn in *; intros _; (split; [done|]);
      destruct s; try done; rewrite Hl, H1; intros [? ?]; (split; [done|]); apply elem_of_app; by left.
Qed.

Lemma list_keeps {E} rec s recipient t1 t2 b :
  let b' := (InboxStore_list (E := E) recipient t1 t2 b).2 in
  intact b' -> intact b /\ (holds b rec s -> holds b' rec s).
Proof.
  destruct b as [[map|]|db]; cbn [InboxStore_list]; [done|done|].
  pose proof (statement_rows (sql_select recipient (as_i64 t1)) (λ l, db_rows db = l) db eq_refl eq_refl) as H.
  destruct (statement _ db) as [rows db']. cbn in *. intros _. split; [done|]. destruct s; [done|]. by rewrite <- H.
Qed.

Lemma total_keeps {E} rec s b :
  let b' := (InboxStore_total_messages (E := E) b).2 in
  intact b' -> intact b /\ (holds b rec s -> holds b' rec s).
Proof.
  destruct b as [[map|]|db]; cbn [InboxStore_total_messages]; [done|done|].
  pose proof (statement_rows sql_total (λ l, db_rows db = l) db eq_refl eq_refl) as H.
  destruct (statement _ db) as [rows db']. cbn in *. intros _. split; [done|]. destruct s; [done|]. by rewrite <- H.
Qed.

Lemma remove_keeps {E} rec s recipient id b : (rec, slot_id s) <> (recipient, id) ->
  let b' := (InboxStore_remove (E := E) recipient id b).2 in
  intact b' -> intact b /\ (holds b rec s -> holds b' rec s).
Proof.
  intros Hne. destruct b as [[map|]|db]; cbn [InboxStore_remove]; [|done|].
  - destruct (map !! recipient) as [bucket|] eqn:Hb; [|done]. intros _. split; [done|].
    destruct s as [m|]; [|done]. cbn. destruct (decide (recipient = rec)) as [->|Hr].
    + rewrite Hb, lookup_insert_eq. cbn. intros Hm. apply list_elem_of_filter. split; [|done].
      cbn in Hne. congruence.
    + by rewrite lookup_insert_ne.
  - pose proof (statement_rows (sql_delete recipient id)
      (λ l, forall r, row_recipient r = rec -> row_id r = slot_id s -> r ∈ db_rows db -> r ∈ l) db) as H.
    destruct (statement _ db) as [n db']. cbn in *. intros _. split; [done|].
    destruct s as [|r]; [done|]. intros [Hr Hin]. split; [done|]. apply H; try done.
    intros r' Hr' Hi Hin'. apply list_elem_of_filter. split; [|done]. intros [? ?]. apply Hne. cbn in *. congruence.
Qed.
End operations.

(** ** Interleavings *)
Section interleaving.
Context `{C : Curve} `{HX : Hex} `{RO : RowOrder}.
Variable config : RelayConfig.
(** The pairs of recipient and identifier that some request removes. *)
Variable removed : list (bytes * bytes).
(** The lifetimes, in seconds, that some deposit asks for. *)
Variable lifetimes : list Z.

(** Not expired at an instant and a wall clock. *)
Definition live_at (inst ms : Z) (s : slot) : Prop :=
  match s with InMemory m => inst < sm_expires_at_inst m | InTable r => ms < row_expires_at r end.
Definition live (a : RelayApp) (s : slot) : Prop :=
  live_at (h_instant (ra_host a)) (unix_ms (h_unix (ra_host a))) s.

Lemma as_i64_le z : 0 <= z -> as_i64 z <= z.
Proof. unfold as_i64. intros Hz. Z.to_euclidean_division_equations. lia. Qed.
Lemma unix_ms_nonneg t : 0 <= unix_ms t.
Proof. unfold unix_ms. destruct (Z.ltb_spec t 0); [lia|]. Z.to_euclidean_division_equations. lia. Qed.
Lemma unix_ms_mono t t' : t <= t' -> unix_ms t <= unix_ms t'.
Proof.
  unfold unix_ms. intros Ht. destruct (Z.ltb_spec t 0), (Z.ltb_spec t' 0); try lia;
    Z.to_euclidean_division_equations; lia.
Qed.

Lemma prune_keeps {E} rec s t1 t2 b : 0 <= t1 -> live_at t2 t1 s ->
  let b' := (InboxStore_prune (E := E) t1 t2 b).2 in
  intact b' -> intact b /\ (holds b rec s -> holds b' rec s).
Proof using.
  intros Ht Hl. destruct b as [[map|]|db]; cbn [InboxStore_prune]; [|done|].
  - intros _. split; [done|]. destruct s as [m|]; [|done]. cbn in *.
    destruct (map !! rec) as [bucket|] eqn:Hb; [|by intros []%elem_of_nil]. cbn. intros Hm.
    assert (m ∈ unexpired t2 bucket) as Hm' by (by apply list_elem_of_filter).
    rewrite (map_lookup_filter_Some_2 _ (unexpired t2 <$> map) rec (unexpired t2 bucket)); [done| |].
    + by rewrite lookup_fmap, Hb.
    + cbn. intros He. rewrite He in Hm'. by apply elem_of_nil in Hm'.
  - pose proof (statement_rows (sql_prune (as_i64 t1))
      (λ l, forall r, t1 < row_expires_at r -> r ∈ db_rows db -> r ∈ l) db) as H.
    destruct (statement _ db) as [n db']. cbn in *. intros _. split; [done|].
    destruct s as [|r]; [done|]. intros [Hr Hin]. split; [done|]. apply H; try done.
    intros r' Hr' Hin'. apply list_elem_of_filter. split; [|done]. unfold is_live.
    pose proof (as_i64_le t1 Ht). lia.
Qed.

(** One of the lifetimes reaches past the last instant there is. *)
Definition out_of_range (a : RelayApp) : Prop :=
  exists ttl, ttl ∈ lifetimes /\ INSTANT_LIMIT <= h_instant (ra_host a) + ttl * 1000000000.

(** Time does not run backwards; a poisoned inbox stays poisoned, and only a
    lifetime out of range poisons it; what is not removed and has not expired
    is kept. *)
Definition keeps (a a' : RelayApp) : Prop :=
  h_instant (ra_host a) <= h_instant (ra_host a') /\ h_unix (ra_host a) <= h_unix (ra_host a') /\
  ((intact (ra_inbox a') -> intact (ra_inbox a)) /\
   (intact (ra_inbox a) -> intact (ra_inbox a') \/ out_of_range a')) /\
  forall rec s, (rec, slot_id s) ∉ removed -> intact (ra_inbox a') -> live a' s ->
    holds (ra_inbox a) rec s -> holds (ra_inbox a') rec s.

Lemma live_later a a' s : h_instant (ra_host a) <= h_instant (ra_host a') ->
  h_unix (ra_host a) <= h_unix (ra_host a') -> live a' s -> live a s.
Proof using.
  intros Hi Hu. unfold live, live_at. pose proof (unix_ms_mono _ _ Hu). destruct s; lia.
Qed.

Lemma out_of_range_later a a' : h_instant (ra_host a) <= h_instant (ra_host a') ->
  out_of_range a -> out_of_range a'.
Proof using. intros Hi (ttl & H1 & H2). exists ttl. split; [done|lia]. Qed.

#[global] Instance keeps_preorder : PreOrder keeps.
Proof using.
  split; [intros a; unfold keeps; split_and!; [lia|lia|done|by left|done]|].
  intros a b c (H1 & H2 & [H3 P3] & H4) (H5 & H6 & [H7 P7] & H8).
  unfold keeps. split_and!; [lia|lia|by auto| |].
  { intros Ha. destruct (P3 Ha) as [Hb|Hb]; [by apply P7|]. right. by apply (out_of_range_later b). }
  intros rec s Hr Hi Hl Hh. apply H8; [done|done|done|].
  apply H4; [done|by apply H7| |done]. by apply (live_later b c).
Qed.

(** A section on the inbox that keeps every slot. *)
Lemma keeps_inbox a b :
  (intact b -> intact (ra_inbox a)) -> (intact (ra_inbox a) -> intact b \/ out_of_range a) ->
  (forall rec s, (rec, slot_id s) ∉ removed -> live a s -> intact b ->
     holds (ra_inbox a) rec s -> holds b rec s) ->
  keeps a (set_inbox a b).
Proof using.
  intros H1 H2 H3. unfold keeps. split_and!; cbn; [lia|lia|done|done|]. intros rec s Hr Hi Hl. by apply H3.
Qed.

Lemma keeps_world a h : h_instant (ra_host a) <= h_instant h -> h_unix (ra_host a) <= h_unix h ->
  keeps a (set_world a h).
Proof using. intros H1 H2. unfold keeps. split_and!; try done. by left. Qed.
Lemma keeps_counters a s : keeps a (set_counters a s).
Proof using. unfold keeps. split_and!; cbn; [lia|lia|done|by left|done]. Qed.

(** *** The handlers *)
Abbreviation safe := (safe (λ _ : RelayApp, True) keeps).
(** The requests, apart from their answers. *)
Definition wf_request (req : relay_request) : Prop :=
  match req with
  | RelayRemove hex id => forall rec, parse_recipient hex = Ok rec -> (rec, id) ∈ removed
  | RelayDeposit _ _ ttl => default DEFAULT_TTL_SECS ttl ∈ lifetimes
  | RelayElapse ns => 0 <= ns
  | _ => True
  end.

Lemma safe_world {E X Y} s (f : host -> X * host) (Q : res E Y -> RelayApp -> Prop) (k : X -> io RelayApp E Y) :
  (forall h, h_instant h <= h_instant (f h).2 /\ h_unix h <= h_unix (f h).2) ->
  (forall a, keeps s a -> safe (set_world a (f (ra_host a)).2) Q (k (f (ra_host a)).1)) ->
  safe s Q (on_world f ≫= k).
Proof using.
  intros Hf Hk. apply safe_bind, safe_atomically. intros a _ Ha. specialize (Hk a Ha).
  destruct (Hf (ra_host a)) as [H1 H2]. destruct (f (ra_host a)) as [x h]. cbn in *.
  split_and!; [done|by apply keeps_world|done].
Qed.

Lemma safe_counters {E X Y} s (f : RelayState -> X * RelayState) (Q : res E Y -> RelayApp -> Prop)
    (k : X -> io RelayApp E Y) :
  (forall a x, keeps s a -> safe a Q (k x)) -> safe s Q (on_counters f ≫= k).
Proof using.
  intros Hk. apply safe_bind, safe_atomically. intros a _ Ha. destruct (f (ra_state a)) as [x c].
  split_and!; [done|apply keeps_counters|]. apply Hk. etrans; [exact Ha|apply keeps_counters].
Qed.

(** An operation of the inbox that keeps every slot that is not removed and
    not expired. *)
Definition keeps_slots {E X} (f : Z -> Backend -> res E X * Backend) (a : RelayApp) : Prop :=
  forall rec s, (rec, slot_id s) ∉ removed -> live a s ->
    let b' := (f (h_instant (ra_host a)) (ra_inbox a)).2 in
    intact b' -> intact (ra_inbox a) /\ (holds (ra_inbox a) rec s -> holds b' rec s).

Lemma safe_inbox {E X} s (f : Z -> Backend -> res E X * Backend) (Q : res E X -> RelayApp -> Prop) :
  (forall a, keeps s a -> keeps_slots f a) ->
  (forall a, intact (f (h_instant (ra_host a)) (ra_inbox a)).2 -> intact (ra_inbox a)) ->
  (forall a, keeps s a -> intact (ra_inbox a) ->
     intact (f (h_instant (ra_host a)) (ra_inbox a)).2 \/ out_of_range a) ->
  (forall a a', keeps s a -> a' = set_inbox a (f (h_instant (ra_host a)) (ra_inbox a)).2 -> keeps s a' ->
     Q (f (h_instant (ra_host a)) (ra_inbox a)).1 a') ->
  safe s Q (on_inbox f).
Proof using.
  intros Hk Hi Hp HQ. apply safe_bind, safe_atomically. intros a _ Ha.
  specialize (Hk a Ha). specialize (Hi a). specialize (Hp a Ha). specialize (HQ a).
  assert (keeps a (set_inbox a (f (h_instant (ra_host a)) (ra_inbox a)).2)) as Hka.
  { apply keeps_inbox; [exact Hi|exact Hp|]. intros rec sl Hr Hl Hb. by apply Hk. }
  specialize (HQ _ Ha eq_refl ltac:(by etrans)).
  destruct (f _ (ra_inbox a)) as [r b]. cbn in *. by split_and!.
Qed.

(** The slot of an accepted message. *)
Definition slot_for (inst ms ttl : Z) (rec : bytes) (m : Message) (s : slot) : Prop :=
  match s with
  | InMemory sm => sm_msg sm = m /\ inst + ttl * 1000000000 <= sm_expires_at_inst sm
  | InTable r => r = row_of rec m /\ ms + ttl * 1000 <= msg_expires_at_unix_ms m
  end.

Lemma deposit_holds rec msg t1 t2 ttl b inst ms :
  inst <= t2 -> ms + ttl * 1000 <= msg_expires_at_unix_ms msg ->
  (InboxStore_deposit config rec msg t1 t2 (ttl * 1000000000) b).1 = Ok tt ->
  exists s, slot_for inst ms ttl rec msg s /\ slot_id s = msg_id msg /\
    holds (InboxStore_deposit config rec msg t1 t2 (ttl * 1000000000) b).2 rec s.
Proof using.
  intros Hi Hm. destruct b as [[map|]|db]; cbn [InboxStore_deposit]; [|done|].
  - destruct (_ <=? _); [done|]. destruct (_ <=? _); [done|]. intros _.
    exists (InMemory {| sm_msg := msg; sm_expires_at_inst := t2 + ttl * 1000000000 |}).
    split; [split; cbn; [done|lia]|]. split; [done|]. cbn. rewrite lookup_insert_eq. cbn. apply elem_of_app. right. by left.
  - destruct (statement (sql_count _ _) db) as [[n|] db1]; [|done]. destruct (_ <=? n); [done|].
    pose proof (statement_Some (sql_insert (row_of rec msg)) db1 tt) as H.
    destruct (statement (sql_insert _) db1) as [[[]|] db2]; [|done]. intros _.
    destruct (H eq_refl) as [H1 H2]. cbn in H2. exists (InTable (row_of rec msg)).
    split; [by split|]. split; [done|]. split; [done|]. cbn. rewrite H2. unfold sql_insert in *.
    destruct (existsb _ _); [done|]. apply elem_of_app. right. by left.
Qed.

Lemma deposit_unpoisoned rec msg t1 t2 ttl b :
  intact (InboxStore_deposit config rec msg t1 t2 ttl b).2 -> intact b.
Proof using. intros H. by apply (deposit_keeps config rec (InMemory {| sm_msg := msg; sm_expires_at_inst := 0 |}) rec msg t1 t2 ttl b H). Qed.

Lemma deposit_poisons rec msg t1 t2 ttl b : intact b ->
  intact (InboxStore_deposit config rec msg t1 t2 ttl b).2 \/ INSTANT_LIMIT <= t2 + ttl.
Proof using.
  intros Hb. destruct b as [[map|]|db]; cbn [InboxStore_deposit]; [|done|].
  - destruct (_ <=? _); [by left|]. destruct (Z.leb_spec INSTANT_LIMIT (t2 + ttl)); [by right|by left].
  - left. destruct (statement _ db) as [[n|] db1]; [|done]. destruct (_ <=? n); [done|].
    by destruct (statement _ db1) as [[u|] db2].
Qed.

(** A deposit that was answered: its slot is held as long as it is neither
    removed nor expired. *)
Definition kept (inst ms ttl : Z) (rec : bytes) (m : Message) (a : RelayApp) : Prop :=
  (rec, msg_id m) ∈ removed \/
  exists s, slot_for inst ms ttl rec m s /\
    (live a s -> intact (ra_inbox a) -> holds (ra_inbox a) rec s).

Lemma kept_later inst ms ttl rec m a a' : keeps a a' -> kept inst ms ttl rec m a -> kept inst ms ttl rec m a'.
Proof using.
  intros (H1 & H2 & [H3 _] & H4) [Hr|(s & Hs & Hh)]; [by left|].
  destruct (decide ((rec, msg_id m) ∈ removed)) as [?|Hn]; [by left|]. right. exists s. split; [done|].
  intros Hl Hi. apply H4; [|done|done|apply Hh; [by apply (live_later a a')|by apply H3]].
  destruct s as [sm|r]; cbn in *; [by destruct Hs as [-> _]|by destruct Hs as [-> _]].
Qed.

Lemma random_id_safe {E Y} s (Q : res E Y -> RelayApp -> Prop) (k : bytes -> io RelayApp E Y) :
  (forall a id, keeps s a -> safe a Q (k id)) -> safe s Q (random_id ≫= k).
Proof using.
  intros Hk. apply safe_bind. unfold random_id. apply safe_world.
  - intros h. by destruct (rng_fill 16 (h_rng h)).
  - intros a Ha. apply Hk. etrans; [exact Ha|]. apply keeps_world; by destruct (rng_fill 16 (h_rng (ra_host a))).
Qed.

Lemma store_deposit_safe a0 s rec payload ttl : ttl ∈ lifetimes -> keeps a0 s ->
  safe s (λ r a, match r with
    | Ok m => kept (h_instant (ra_host a0)) (unix_ms (h_unix (ra_host a0))) ttl rec m a
    | _ => True end) (store_deposit config rec payload ttl).
Proof using.
  intros Httl (Hi0 & Hu0 & _). unfold store_deposit. apply safe_bind, safe_lift. destruct (reject_if _ _); [|done|done].
  apply safe_world; [done|]. intros a1 (Hi1 & Hu1 & _). apply safe_world; [done|]. intros a2 (Hi2 & Hu2 & _).
  cbn in Hi2, Hu2. cbn [fst]. apply random_id_safe. intros a3 id (Hi3 & _).
  set (msg := {| msg_id := id; msg_payload_hex := payload;
    msg_received_at_unix_ms := unix_ms (h_unix (ra_host a1));
    msg_expires_at_unix_ms := unix_ms (h_unix (ra_host a1)) + ttl * 1000 |}).
  apply safe_bind, safe_inbox.
  - intros a4 _ rec' sl Hr Hl b' Hb. by apply deposit_keeps.
  - intros a4. apply deposit_unpoisoned.
  - intros a4 Ha4 Hb. destruct Ha4 as (Hi4 & _).
    match goal with |- intact (InboxStore_deposit _ _ _ ?t1 ?t2 ?d ?b).2 \/ _ =>
      destruct (deposit_poisons rec msg t1 t2 d b Hb) as [?|Hd]; [by left|] end.
    right. exists ttl. split; [done|]. cbn in Hi3, Hi4. lia.
  - intros a4 a5 _ -> _.
    match goal with |- context [(InboxStore_deposit config rec msg ?t1 ?t2 ?d ?b).1] =>
      destruct (InboxStore_deposit config rec msg t1 t2 d b).1 as [[]|e|] eqn:Hd end; [|done|done].
    right. destruct (deposit_holds rec msg (unix_ms (h_unix (ra_host a1))) (h_instant (ra_host a2)) ttl
      (ra_inbox a4) (h_instant (ra_host a0)) (unix_ms (h_unix (ra_host a0)))) as (sl & Hs & _ & Hh);
      [lia| |done|].
    { cbn. pose proof (unix_ms_mono (h_unix (ra_host a0)) (h_unix (ra_host a1))). lia. }
    by exists sl.
Qed.

(** What the answer of [req] promises from then on. *)
Definition promised (a0 : RelayApp) (req : relay_request) (r : res Z relay_response) (a : RelayApp) : Prop :=
  match req, r with
  | RelayDeposit hex _ ttl, Ok (RespDeposit m) => forall rec, parse_recipient hex = Ok rec ->
      kept (h_instant (ra_host a0)) (unix_ms (h_unix (ra_host a0))) (default DEFAULT_TTL_SECS ttl) rec m a
  | _, _ => True
  end.

Lemma promised_stable a0 req : stable keeps (promised a0 req).
Proof using.
  intros r a a' Ha. destruct req, r as [[]|e|]; cbn; try done. intros H rec Hr. eapply kept_later; eauto.
Qed.

Lemma safe_any {E X} s (f : Z -> Backend -> res E X * Backend) :
  (forall a, keeps s a -> keeps_slots f a) ->
  (forall t, (f t (Memory Poisoned)).2 = Memory Poisoned) ->
  (forall t b, intact b -> intact (f t b).2) ->
  safe s (λ _ _, True) (on_inbox f).
Proof using.
  intros H1 H2 H3. apply safe_inbox; [done| |intros a _ Ha; left; by apply H3|done].
  intros a H Hp. apply H. by rewrite Hp, H2.
Qed.

Lemma safe_responds {X} s (Q : res Z relay_response -> RelayApp -> Prop) (f : X -> relay_response) (p : io RelayApp Z X) :
  safe s (λ r a, Q (f <$> r) a) p -> safe s Q (responds f p).
Proof using. intros H. apply safe_bind. eapply safe_mono; [|exact H]. by intros [x|e|] a. Qed.

Lemma safe_then {E X Y} s (p : io RelayApp E X) (k : X -> io RelayApp E Y) :
  safe s (λ _ _, True) p -> (forall x a, safe a (λ _ _, True) (k x)) -> safe s (λ _ _, True) (p ≫= k).
Proof using. intros Hp Hk. apply safe_bind. eapply safe_mono; [|exact Hp]. by intros [x|e|] a; [intros _; apply Hk|..]. Qed.

(** The other operations do not panic under the lock. *)
Ltac stays :=
  intros ? [[?|]|?] H; [cbn; repeat case_match; done|done|cbn; by destruct (statement _ _)].

Lemma relay_router_safe a0 s req : wf_request req -> keeps a0 s ->
  safe s (promised a0 req) (relay_router config req).
Proof using.
  intros Hw Ha0. destruct req as [| |hex p ttl|hex|hex id| |ns]; cbn [relay_router wf_request] in *.
  - apply safe_responds. unfold relay_health, store_total. apply (safe_counters s). intros a x Ha.
    apply safe_world; [done|]. intros a1 Ha1.
    apply safe_then; [|done]. apply safe_any; [|done|stays]. intros a2 _ rec sl _ _. apply total_keeps.
  - done.
  - apply safe_responds. unfold relay_deposit. apply safe_bind, safe_lift.
    destruct (parse_recipient hex) as [rec| |] eqn:Hrec; [|done|done]. apply safe_bind.
    apply (safe_converted _ _ (@map_error RelayApp RelayError.t Z Message)); [done|done|].
    eapply safe_mono; [|by apply (store_deposit_safe a0)]. intros [m|e|] a Hk; cbn [map_err]; [|done|done].
    apply safe_counters. intros a1 x Ha1. cbn. rewrite Hrec. intros rec' [= <-]. by eapply kept_later.
  - apply safe_responds. unfold relay_list, store_list. apply safe_bind, safe_lift.
    destruct (parse_recipient hex); [|done|done]. apply safe_then; [|intros l a'; by apply safe_counters].
    apply safe_world; [done|]. intros a1 Ha1. apply safe_any; [|done|stays].
    intros a2 _ rec sl _ _. apply list_keeps.
  - apply safe_responds. unfold relay_remove, store_remove. apply safe_bind, safe_lift.
    destruct (parse_recipient hex) as [recipient| |]; [|done|done]. apply safe_any; [|done|stays].
    intros a _ rec sl Hr _. apply remove_keeps. intros [= -> He]. apply Hr. rewrite He. by apply Hw.
  - apply safe_responds. unfold store_prune.
    apply safe_world; [done|]. intros a1 (_ & _ & _). apply safe_world; [done|]. intros a2 (Hi2 & Hu2 & _).
    apply safe_any; [|done|stays]. intros a3 (Hi3 & Hu3 & _) rec sl _ Hl. cbn [fst snd set_world ra_host] in *.
    apply prune_keeps; [apply unix_ms_nonneg|].
    pose proof (unix_ms_mono (h_unix (ra_host a1)) (h_unix (ra_host a3))).
    unfold live in Hl. destruct sl; cbn [live_at] in *; lia.
  - apply safe_responds, safe_atomically. intros a _ Ha. cbn.
    split_and!; [done|apply keeps_world; cbn; lia|done].
Qed.
End interleaving.

(** ** Properties *)
Section relay_properties.
Context `{C : Curve} `{HX : Hex} `{RO : RowOrder}.
Variable config : RelayConfig.

(** The lifetimes that the deposits among [reqs] ask for. *)
Definition lifetimes_of (reqs : list relay_request) : list Z :=
  omap (λ req, match req with
               | RelayDeposit _ _ ttl => Some (default DEFAULT_TTL_SECS ttl)
               | _ => None end) reqs.
(** The requests remove at most [removed], and time runs forwards. *)
Definition removes_only (removed : list (bytes * bytes)) (req : relay_request) : Prop :=
  match req with
  | RelayRemove hex id => forall rec, parse_recipient hex = Ok rec -> (rec, id) ∈ removed
  | RelayElapse ns => 0 <= ns
  | _ => True
  end.

(** C26: what the relay keeps, whatever requests it serves at once and however
    their sections interleave (ticks of the prune loop, failing SQL statements
    and the passing of time among them). The inbox stays intact (the SQLite
    backend always is; the mutex of the memory backend is not poisoned) as long
    as no deposit asks for a lifetime that ends past the last instant the clock
    represents, which half of the 64-bit values do. If the inbox is intact at
    the end, every message that was in the inbox of a recipient, and every
    message whose deposit was answered, is there if no request removed it and
    its lifetime is not over; the lifetime of a new message is at least the one
    its sender asked for. *)
Theorem relay_keeps_messages reqs removed schedule a :
  Forall (removes_only removed) reqs ->
  let '(a', tasks) := exec schedule (a, relay_router config <$> reqs) in
  (intact (ra_inbox a) ->
   Forall (λ ttl, h_instant (ra_host a') + ttl * 1000000000 < INSTANT_LIMIT) (lifetimes_of reqs) ->
   intact (ra_inbox a')) /\
  (intact (ra_inbox a') ->
   (forall rec s, (rec, slot_id s) ∉ removed -> live a' s ->
      holds (ra_inbox a) rec s -> holds (ra_inbox a') rec s) /\
   (forall i hex payload ttl rec m,
      reqs !! i = Some (RelayDeposit hex payload ttl) -> parse_recipient hex = Ok rec ->
      tasks !! i = Some (Done (Ok (RespDeposit m))) -> (rec, msg_id m) ∉ removed ->
      exists s, slot_for (h_instant (ra_host a)) (unix_ms (h_unix (ra_host a)))
          (default DEFAULT_TTL_SECS ttl) rec m s /\
        (live a' s -> holds (ra_inbox a') rec s))).
Proof.
  intros Hw. set (ttls := lifetimes_of reqs).
  destruct (exec_safe (λ _, True) (keeps removed ttls) (promised removed a <$> reqs) schedule a
    (relay_router config <$> reqs)) as (_ & H2 & H3).
  - apply Forall_fmap, Forall_true. intros req. apply promised_stable.
  - done.
  - apply Forall2_fmap, Forall_Forall2_diag, Forall_forall. rewrite Forall_forall in Hw. intros req Hreq.
    exists a. split; [done|]. apply relay_router_safe; [|done]. specialize (Hw req Hreq).
    destruct req; try done. by apply list_elem_of_omap; eexists.
  - destruct (exec schedule _) as [a' tasks]. cbn [fst snd] in *. split; [|intros Hi; split].
    + intros Hi Ht. destruct H2 as (_ & _ & [_ Hp] & _). destruct (Hp Hi) as [|(ttl & Hin & Hle)]; [done|].
      rewrite Forall_forall in Ht. specialize (Ht ttl Hin). lia.
    + intros rec s Hr Hl. by apply H2.
    + intros i hex payload ttl rec m Hreq Hrec Hi' Hrem.
      destruct (Forall2_lookup_r _ _ _ _ _ H3 Hi') as (Q & HQ & s0 & Hs0 & Hs).
      rewrite list_lookup_fmap, Hreq in HQ. injection HQ as <-.
      pose proof (promised_stable removed ttls a (RelayDeposit hex payload ttl) (Ok (RespDeposit m)) s0 a' Hs0 Hs) as Hp.
      destruct (Hp rec Hrec) as [?|(s & Hs1 & Hs2)]; [done|]. exists s. split; [done|]. intros Hl. by apply Hs2.
Qed.

(** The inbox is not needed for the answer. *)
Definition without_inbox (r : res Z relay_response) : Prop :=
  match r with Ok (RespInfo _) | Ok RespElapse => True | Ok _ => False | _ => True end.

(** A section of a handler on a poisoned inbox. *)
Ltac poisoned_step :=
  match goal with
  | |- context [rng_fill ?n ?r] => destruct (rng_fill n r)
  | |- forall _, _ => intros [? ? ?] Hp _; cbn in Hp; subst; cbn
  | |- _ /\ _ => split
  | |- _ => done
  end.

Lemma poisoned_safe s (req : relay_request) :
  safe (λ a, ra_inbox a = Memory Poisoned) (λ _ _, True) s (λ r _, without_inbox r) (relay_router config req).
Proof.
  destruct req as [| |hex p ttl|hex|hex id| |ns]; cbn [relay_router]; unfold responds, relay_deposit,
    relay_list, relay_remove; try (destruct (parse_recipient hex) as [rec| |]; [|done..]); cbn;
    try (destruct (reject_if _ _); [|done..]); cbn; repeat poisoned_step.
Qed.

(** C38: one request takes the relay down. On the memory backend a deposit
    whose lifetime reaches past the last representable instant (half of the
    64-bit values of [ttl_secs] do), for any recipient with room, panics while
    the inbox is locked; from then on, under every interleaving, no request
    but the one for the static information succeeds: not a list, a deposit, a
    removal or a health probe of anyone (malformed ones are still refused).
    That is so in a build that unwinds; where a panic aborts, as in the release
    profile, the process ends at the first [Panic], with all messages. *)
Theorem huge_ttl_poisons_inbox hex payload ttl rec map a :
  ra_inbox a = Memory (Guarded map) -> parse_recipient hex = Ok rec ->
  Z.of_nat (length (default [] (map !! rec))) < rl_max_per_recipient config ->
  Z.of_nat (length payload) / 2 <= rl_max_payload_bytes config ->
  0 <= h_instant (ra_host a) -> 2 ^ 63 <= ttl < 2 ^ 64 ->
  let '(r, a') := run (relay_router config (RelayDeposit hex payload (Some ttl))) a in
  r = Panic /\ ra_inbox a' = Memory Poisoned /\
  forall reqs schedule, let '(a'', tasks) := exec schedule (a', relay_router config <$> reqs) in
    ra_inbox a'' = Memory Poisoned /\
    forall i answer, tasks !! i = Some (Done answer) -> without_inbox answer.
Proof.
  intros Ha Hrec Hroom Hsize Hnow Httl.
  assert (exists h, run (relay_router config (RelayDeposit hex payload (Some ttl))) a =
    (Panic, {| ra_state := ra_state a; ra_inbox := Memory Poisoned; ra_host := h |})) as [hs ->].
  { destruct a as [c b [d r inst unix]]. cbn in Ha, Hnow. subst b.
    cbn [relay_router]. unfold responds, relay_deposit. rewrite Hrec. unfold store_deposit.
    replace (rl_max_payload_bytes config <? Z.of_nat (length payload) / 2) with false by lia.
    cbn. destruct (rng_fill 16 r) as [id r']. cbn.
    replace (rl_max_per_recipient config <=? _) with false by lia.
    replace (INSTANT_LIMIT <=? _) with true by (unfold INSTANT_LIMIT; lia). cbn. by eexists. }
  split; [done|]. split; [done|]. intros reqs schedule.
  set (a' := {| ra_state := ra_state a; ra_inbox := Memory Poisoned; ra_host := hs |}).
  destruct (exec_safe (λ a, ra_inbox a = Memory Poisoned) (λ _ _, True)
    (replicate (length reqs) (λ r _, without_inbox r)) schedule a' (relay_router config <$> reqs)) as (H1 & _ & H3).
  - apply Forall_replicate. by intros r s s' _.
  - done.
  - apply Forall2_fmap_r, Forall2_same_length_lookup. split; [by rewrite length_replicate|].
    intros i Q req HQ _. apply lookup_replicate in HQ as [-> _]. exists a'. split; [done|]. apply poisoned_safe.
  - destruct (exec schedule _) as [a'' tasks]. cbn [fst snd] in *. split; [done|].
    intros i answer Hi. destruct (Forall2_lookup_r _ _ _ _ _ H3 Hi) as (Q & HQ & s0 & _ & Hs).
    by apply lookup_replicate in HQ as [-> _].
Qed.
End relay_properties.

(** ** Witnesses *)
#[local] Existing Instance toy.
#[local] Existing Instance toy_hex.
Definition toy_rows : RowOrder := {| row_order l := reverse l |}.
Lemma toy_rows_ok : RowOrderOk toy_rows.
Proof. split. intros l. apply reverse_Permutation. Qed.
#[local] Existing Instance toy_rows.

Definition demo_relay : RelayConfig :=
  {| rl_bind_addr := ascii "127.0.0.1:9799"; rl_operator_name := ascii "op"; rl_max_per_recipient := 2;
     rl_max_payload_bytes := 100 |}.
Definition relay_app (b : Backend) : RelayApp :=
  {| ra_state := {| rs_started_at := 0; rs_deposits_total := 0; rs_fetches_total := 0 |}; ra_inbox := b;
     ra_host := {| h_disk := {| d_files := ∅; d_faults := [] |}; h_rng := (5 : @rng toy); h_instant := 0;
                   h_unix := 1700000000000000000 |} |}.
Definition alice : bytes := hex_encode (repeat Byte.x0a 32).
Definition traffic : list relay_request :=
  [RelayDeposit alice (ascii "aa") (Some 60); RelayDeposit alice (ascii "bb") None; RelayElapse 1000000;
   RelayPrune; RelayList alice; RelayHealth].
Definition traffic_schedule : list nat := concat (replicate 8 [1; 0; 2; 3; 4; 5]%nat).
Definition traffic_end := exec traffic_schedule
  (relay_app (Sqlite {| db_rows := []; db_faults := [false; false; true] |}), relay_router demo_relay <$> traffic).

Definition demo_answer : option (prog RelayApp (res Z relay_response)) := traffic_end.2 !! 1%nat.
Definition demo_deposited : bool :=
  match demo_answer, ra_inbox traffic_end.1 with
  | Some (Done (Ok (RespDeposit _))), Sqlite _ => true
  | _, _ => false
  end.

(** The same traffic on the memory backend: it stays intact. *)
Definition memory_end := exec traffic_schedule
  (relay_app (Memory (Guarded ∅)), relay_router demo_relay <$> traffic).

Lemma traffic_wf : Forall (removes_only []) traffic.
Proof. repeat (apply Forall_cons; split; [first [exact I|cbn; lia]|]). constructor. Qed.

Lemma relay_keeps_messages_witness :
  intact (ra_inbox memory_end.1) /\
  exists m s, demo_answer = Some (Done (Ok (RespDeposit m))) /\
    slot_for 0 1700000000000 DEFAULT_TTL_SECS (repeat Byte.x0a 32) m s /\
    (live traffic_end.1 s -> holds (ra_inbox traffic_end.1) (repeat Byte.x0a 32) s).
Proof.
  split.
  { pose proof (relay_keeps_messages demo_relay traffic [] traffic_schedule
      (relay_app (Memory (Guarded ∅))) traffic_wf) as H. fold memory_end in H.
    assert (h_instant (ra_host memory_end.1) = 1000000) as Ht by vm_refl.
    destruct memory_end as [a' tasks]. cbn [fst] in *. apply H; [done|]. rewrite Ht.
    apply (bool_decide_unpack (Forall _ _)). vm_cast_no_check I. }
  pose proof (relay_keeps_messages demo_relay traffic [] traffic_schedule
    (relay_app (Sqlite {| db_rows := []; db_faults := [false; false; true] |})) traffic_wf) as H.
  assert (demo_deposited = true) as Hd by vm_refl.
  unfold demo_deposited, demo_answer in *. fold traffic_end in H.
  destruct traffic_end as [a' tasks]. cbn [fst snd] in *.
  destruct (tasks !! 1%nat) as [[[[| |m| | | |]| |]|]|] eqn:Ht; try discriminate Hd.
  destruct (ra_inbox a') as [|db] eqn:Hi; [discriminate Hd|].
  destruct H as [_ [_ H]]; [done|].
  destruct (H 1%nat alice (ascii "bb") None (repeat Byte.x0a 32) m) as (s & H1 & H2);
    [reflexivity|vm_refl|exact Ht|by intros ?%elem_of_nil|]. by exists m, s.
Defined.

Lemma huge_ttl_poisons_inbox_witness :
  let '(r, a') := run (relay_router demo_relay (RelayDeposit alice (ascii "aa") (Some (2 ^ 63))))
                    (relay_app (Memory (Guarded ∅))) in
  r = Panic /\ ra_inbox a' = Memory Poisoned /\
  forall reqs schedule, let '(a'', tasks) := exec schedule (a', relay_router demo_relay <$> reqs) in
    ra_inbox a'' = Memory Poisoned /\
    forall i answer, tasks !! i = Some (Done answer) -> without_inbox answer.
Proof.
  apply (huge_ttl_poisons_inbox demo_relay alice (ascii "aa") (2 ^ 63) (repeat Byte.x0a 32) ∅
    (relay_app (Memory (Guarded ∅)))); [reflexivity|vm_refl|vm_compute; reflexivity|vm_compute; discriminate|cbn; lia|lia].
Defined.
