(* ===== verification/Daemons.v ===== *)
(** * The two daemons' start-up

    Models [main] of [crates/tardus-validator/src/main.rs] and
    [crates/tardus-relay/src/main.rs] up to the moment they serve: the
    arguments, the configuration checks, the shares restored from the data
    directory, the boot entry of the transparency log and the choice between
    HTTP, HTTPS and mutual TLS.  [rustls], [rustls_pemfile], [axum] and the
    opening of a SQLite file are the classes [Tls], [Network] and
    [SqliteOpen]. *)
From S2P Require Import Prelude Crypto ToyCurve Async Platform ToyPlatform Storage Transparency Sessions Validator ToyValidator ValidatorRun Relay.

(** ** Third-party code *)
Class Tls : Type := {
  pem_cert : Type;
  pem_key : Type;
  root_store : Type;
  client_verifier : Type;
  tls_config : Type;
  pem_certs : bytes -> option (list pem_cert);
  (** [Some None]: well-formed, without a private key. *)
  pem_private_key : bytes -> option (option pem_key);
  root_empty : root_store;
  root_add : root_store -> pem_cert -> option root_store;
  build_verifier : root_store -> option client_verifier;
  server_config : client_verifier -> list pem_cert -> pem_key -> option tls_config;
  (** [RustlsConfig::from_pem_file] of a certificate and a key file. *)
  from_pem_file : bytes -> bytes -> gmap bytes bytes -> option tls_config;
}.
Class Network : Type := { can_bind : bytes -> bool }.
Class SqliteOpen : Type := { sqlite_open : bytes -> option database }.

(** [Option::map(..).transpose()] *)
Definition transpose {E A B} (f : A -> res E B) (o : option A) : res E (option B) :=
  match o with None => Ok None | Some a => b ← f a; Ok (Some b) end.

Inductive server `{Tls} : Type :=
| Http
| Https (config : tls_config).

(** ** tardus-validator *)
Module ValidatorMain.
(** The messages of [anyhow] are reduced to their place in the code. *)
Inductive BootError : Type :=
| CreateDataDir
| SeedHex | SeedLength | PdaHex | PdaLength | PdaMissing
| ReadDataDir | LogOpen (e : io_error)
| ReadCert | ParseCert | NoCert | ReadKey | ParseKey | NoKey
| ReadCa | ParseCa | NoCa | AddCa | BuildVerifier | BuildServerConfig
| LoadTls | MtlsWithoutTls | TlsPair | Bind.

Record Args : Type := {
  bind : bytes;
  data_dir : bytes;
  operator : bytes;
  master_seed_hex : option bytes;
  admin_token : option bytes;
  transparency_log : option bytes;
  tls_cert : option bytes;
  tls_key : option bytes;
  mtls_ca_cert : option bytes;
  solana_rpc_url : option bytes;
  nullifier_tree_pda_hex : option bytes;
}.

(** What [main] has built when it starts to serve. *)
Record Daemon `{Tls} : Type := {
  dm_config : ValidatorConfig;
  dm_state : ValidatorState;
  dm_transparency : option TransparencyLogger;
  dm_server : server;
}.

Section boot.
Context `{C : Curve} `{RP : Rpc} `{A : Aead} `{HX : Hex} `{J : Json} `{DO : DirOrder}
  `{T : Tls} `{N : Network}.
#[local] Abbreviation boots := (io host BootError).

Definition parse_seed (hex_str : bytes) : res BootError bytes :=
  b ← ok_or SeedHex (hex_decode hex_str);
  _ ← reject_if (negb (length b =? 32)%nat) SeedLength;
  Ok b.
Definition parse_pda (hex_str : bytes) : res BootError bytes :=
  b ← ok_or PdaHex (hex_decode hex_str);
  _ ← reject_if (negb (length b =? 32)%nat) PdaLength;
  Ok b.

Definition configure (args : Args) : res BootError ValidatorConfig :=
  master_seed ← transpose parse_seed (master_seed_hex args);
  nullifier_tree_pda ← transpose parse_pda (nullifier_tree_pda_hex args);
  _ ← reject_if (bool_decide (is_Some (solana_rpc_url args)) &&
                 bool_decide (nullifier_tree_pda = None)) PdaMissing;
  Ok {| vc_data_dir := data_dir args; vc_bind_addr := bind args;
        vc_operator_name := operator args; vc_master_seed := master_seed;
        vc_admin_token := admin_token args; vc_solana_rpc_url := solana_rpc_url args;
        vc_nullifier_tree_pda := nullifier_tree_pda |}.

(** [ValidatorState::default] *)
Definition new_shared_state : boots ValidatorState :=
  now ← instant_now;
  mret {| vs_share := None; vs_sign_session_counter := 0; vs_refresh_session_counter := 0;
          vs_health_probes_served := 0; vs_share_reloads := 0; vs_started_at := now |}.

(** The loop over the directory: every share file that opens replaces the
    share, the others are skipped. *)
Fixpoint load_shares (seed : bytes) (paths : list bytes) (s : ValidatorState) : boots ValidatorState :=
  match paths with
  | [] => mret s
  | path :: paths =>
      if is_share_file path then
        rec ← catch (λ r, match r with Ok rec => Ok (Some rec) | Err _ => Ok None | Panic => Panic end)
                (read_share_record path seed);
        load_shares seed paths (match rec with Some rec => with_share s rec | None => s end)
      else load_shares seed paths s
  end.
Definition restore (config : ValidatorConfig) (s : ValidatorState) : boots ValidatorState :=
  match vc_master_seed config with
  | None => mret s
  | Some seed =>
      paths ← on_disk (λ _, ReadDataDir) (disk_read_dir (vc_data_dir config));
      load_shares seed paths s
  end.

Definition boot_event (config : ValidatorConfig) (s : ValidatorState) : TransparencyEvent.t :=
  let keyset_id_hex := (λ r, hex_encode (sr_keyset_id r)) <$> vs_share s in
  TransparencyEvent.Boot (vc_operator_name config) (vc_bind_addr config)
    (bool_decide (is_Some keyset_id_hex)) keyset_id_hex (sr_epoch <$> vs_share s).

(** [let _ = g.append(..)]: a failure leaves the logger as it was. *)
Definition open_log (path : option bytes) (event : TransparencyEvent.t)
    : boots (option TransparencyLogger) :=
  match path with
  | None => mret None
  | Some path =>
      logger ← catch (map_err LogOpen) (TransparencyLogger_open path);
      logger ← catch (λ r, match r with Ok (_, logger) => Ok logger | Err _ => Ok logger | Panic => Panic end)
                 (TransparencyLogger_append logger event);
      mret (Some logger)
  end.

Definition build_mtls_config (cert_path key_path ca_path : bytes) : boots tls_config :=
  server_certs_pem ← on_disk (λ _, ReadCert) (disk_read cert_path);
  server_chain ← lift (ok_or ParseCert (pem_certs server_certs_pem));
  _ ← lift (reject_if (length server_chain =? 0)%nat NoCert);
  server_key_pem ← on_disk (λ _, ReadKey) (disk_read key_path);
  server_key ← lift (ok_or ParseKey (pem_private_key server_key_pem));
  server_key ← lift (ok_or NoKey server_key);
  ca_pem ← on_disk (λ _, ReadCa) (disk_read ca_path);
  ca_certs ← lift (ok_or ParseCa (pem_certs ca_pem));
  _ ← lift (reject_if (length ca_certs =? 0)%nat NoCa);
  roots ← lift (res_fold (λ roots ca, ok_or AddCa (root_add roots ca)) root_empty ca_certs);
  verifier ← lift (ok_or BuildVerifier (build_verifier roots));
  lift (ok_or BuildServerConfig (server_config verifier server_chain server_key)).

Definition choose_server (args : Args) : boots server :=
  match tls_cert args, tls_key args with
  | Some cert_path, Some key_path =>
      tls_config ←
        match mtls_ca_cert args with
        | Some ca_path => build_mtls_config cert_path key_path ca_path
        | None =>
            c ← reads_state (λ h, from_pem_file cert_path key_path (files h));
            lift (ok_or LoadTls c)
        end;
      _ ← lift (reject_if (negb (can_bind (bind args))) Bind);
      mret (Https tls_config)
  | None, None =>
      _ ← lift (reject_if (bool_decide (is_Some (mtls_ca_cert args))) MtlsWithoutTls);
      _ ← lift (reject_if (negb (can_bind (bind args))) Bind);
      mret Http
  | _, _ => lift (Err TlsPair)
  end.

Definition main (args : Args) : boots Daemon :=
  _ ← on_disk (λ _, CreateDataDir) (disk_create_dir_all (data_dir args));
  config ← lift (configure args);
  state ← new_shared_state;
  state ← restore config state;
  transparency ← open_log (transparency_log args) (boot_event config state);
  server ← choose_server args;
  mret {| dm_config := config; dm_state := state; dm_transparency := transparency;
          dm_server := server |}.

(** The state that the handlers share, empty tables of sessions included. *)
Definition serving (d : Daemon) (h : host) (chain : chain_state) : AppState :=
  {| app_state := dm_state d; app_sign_sessions := ∅; app_refresh_sessions := ∅;
     app_dkg_sessions := ∅; app_reshare_sessions := ∅; app_transparency := dm_transparency d;
     app_host := h; app_chain := chain |}.
End boot.
End ValidatorMain.

(** ** tardus-relay *)
Module RelayMain.
Inductive BootError : Type := OpenInbox | LoadTls | TlsPair | Bind.

Record Args : Type := {
  bind : bytes;
  operator : bytes;
  max_per_recipient : Z;
  max_payload_bytes : Z;
  tls_cert : option bytes;
  tls_key : option bytes;
  storage_path : option bytes;
}.

Section boot.
Context `{C : Curve} `{T : Tls} `{N : Network} `{SO : SqliteOpen}.
#[local] Abbreviation boots := (io host BootError).

Definition configure (args : Args) : RelayConfig :=
  {| rl_bind_addr := bind args; rl_operator_name := operator args;
     rl_max_per_recipient := max_per_recipient args;
     rl_max_payload_bytes := max_payload_bytes args |}.

Definition open_inbox (args : Args) : res BootError Backend :=
  match storage_path args with
  | Some path => db ← ok_or OpenInbox (sqlite_open path); Ok (Sqlite db)
  | None => Ok (Memory (Guarded ∅))
  end.

Definition choose_server (args : Args) : boots server :=
  match tls_cert args, tls_key args with
  | Some cert, Some key =>
      c ← reads_state (λ h, from_pem_file cert key (files h));
      tls_config ← lift (ok_or LoadTls c);
      _ ← lift (reject_if (negb (can_bind (bind args))) Bind);
      mret (Https tls_config)
  | None, None => _ ← lift (reject_if (negb (can_bind (bind args))) Bind); mret Http
  | _, _ => lift (Err TlsPair)
  end.

Definition main (args : Args) : boots (RelayConfig * RelayState * Backend * server) :=
  started_at ← instant_now;
  let state := {| rs_started_at := started_at; rs_deposits_total := 0; rs_fetches_total := 0 |} in
  inbox ← lift (open_inbox args);
  server ← choose_server args;
  mret (configure args, state, inbox, server).
End boot.
End RelayMain.

(** ** Lemmas *)
Lemma transpose_ok {E A B} (f : A -> res E B) o r : transpose f o = Ok r ->
  match o with None => r = None | Some a => exists b, f a = Ok b /\ r = Some b end.
Proof. destruct o as [a|]; cbn; [|by intros [= <-]]. destruct (f a) as [b| |]; naive_solver. Qed.

Section validator_boot.
Context `{CO : CurveOk} `{RP : Rpc} {A : Aead} {AOk : AeadOk A} {HX : Hex} {HOk : HexOk HX}
  {J : Json} {JOk : JsonOk J} {DO : DirOrder} {DOk : DirOrderOk DO} `{T : Tls} `{N : Network}.
Import ValidatorMain.

Lemma parse_pda_ok s b : parse_pda s = Ok b <-> hex_decode s = Some b /\ length b = 32%nat.
Proof.
  unfold parse_pda. destruct (hex_decode s) as [b'|]; cbn; [|naive_solver].
  destruct (Nat.eqb_spec (length b') 32); cbn; naive_solver.
Qed.
Lemma parse_seed_ok s b : parse_seed s = Ok b <-> hex_decode s = Some b /\ length b = 32%nat.
Proof.
  unfold parse_seed. destruct (hex_decode s) as [b'|]; cbn; [|naive_solver].
  destruct (Nat.eqb_spec (length b') 32); cbn; naive_solver.
Qed.

Lemma configure_ok args c : configure args = Ok c ->
  vc_solana_rpc_url c = solana_rpc_url args /\ vc_data_dir c = data_dir args /\
  transpose parse_seed (master_seed_hex args) = Ok (vc_master_seed c) /\
  transpose parse_pda (nullifier_tree_pda_hex args) = Ok (vc_nullifier_tree_pda c) /\
  (is_Some (solana_rpc_url args) -> is_Some (vc_nullifier_tree_pda c)).
Proof.
  unfold configure.
  destruct (transpose parse_seed _) as [seed| |]; cbn [mbind res_bind]; [|done..].
  destruct (transpose parse_pda _) as [pda| |]; cbn [mbind res_bind]; [|done..].
  destruct (bool_decide_reflect (is_Some (solana_rpc_url args))) as [Hu|Hu];
    destruct (bool_decide_reflect (pda = None)) as [Hp|Hp]; cbn [andb reject_if mbind res_bind];
    [done|intros [= <-]; cbn..].
  - split; [done|]. split; [done|]. split; [done|]. split; [done|]. intros _.
    destruct pda; [by eexists|done].
  - by split_and!.
  - by split_and!.
Qed.

(** The TLS set-up accepts a client only with a certificate that the
    verifier built from every authority in the file accepts. *)
Definition demands_client_certs (disk : gmap bytes bytes) (ca : bytes) (c : tls_config) : Prop :=
  exists verifier server_chain server_key pem cas roots,
    server_config verifier server_chain server_key = Some c /\
    build_verifier roots = Some verifier /\
    disk !! ca = Some pem /\ pem_certs pem = Some cas /\ cas <> [] /\
    res_fold (λ roots ca, ok_or AddCa (root_add roots ca)) root_empty cas = Ok roots.

(** Reading the PEM files does not change the disk. *)
Lemma build_mtls_config_ok cert key ca (h : host) c h' :
  run (build_mtls_config cert key ca) h = (Ok c, h') -> demands_client_certs (files h') ca c.
Proof.
  unfold build_mtls_config. intros H. inv_run.
  repeat match goal with
  | H : run (on_disk _ _) _ = (Ok _, _) |- _ => apply run_disk_read_ok in H as [? ?]
  | H : ok_or _ _ = Ok _ |- _ => apply ok_or_ok in H
  | H : reject_if _ _ = Ok _ |- _ => apply reject_if_ok in H
  end.
  repeat eexists; [eassumption..| | |eassumption|by intros ->|eassumption]; [by eassumption|congruence].
Qed.

Lemma choose_server_ok args (h : host) sv h' : run (choose_server args) h = (Ok sv, h') ->
  can_bind (bind args) = true /\
  match tls_cert args, tls_key args with
  | Some cert, Some key => exists c, sv = Https c /\
      match mtls_ca_cert args with
      | Some ca => demands_client_certs (files h') ca c
      | None => from_pem_file cert key (files h') = Some c
      end
  | None, None => sv = Http /\ mtls_ca_cert args = None
  | _, _ => False
  end.
Proof.
  unfold choose_server. destruct (tls_cert args) as [cert|], (tls_key args) as [key|];
    intros H; inv_run; [|done..|].
  - destruct (can_bind (bind args)); [|done]. split; [done|]. eexists. split; [done|].
    destruct (mtls_ca_cert args) as [ca|]; [by eapply build_mtls_config_ok|].
    unfold reads_state in *. inv_run. rewrite run_atomically in *. simplify_eq/=.
    match goal with H : ok_or _ _ = Ok _ |- _ => by apply ok_or_ok in H end.
  - destruct (mtls_ca_cert args); [done|]. by destruct (can_bind (bind args)).
Qed.

Lemma main_ok args (h : host) d h' : run (main args) h = (Ok d, h') ->
  configure args = Ok (dm_config d) /\
  exists h0, run (choose_server args) h0 = (Ok (dm_server d), h').
Proof. unfold main. intros H. inv_run. cbn. split; [done|]. by eexists. Qed.

(** The shares that [list] of the file store returns, each replacing the one
    before. *)
Lemma run_load_shares seed paths s (h : host) l h' :
  run (list_files seed paths) h = (Ok l, h') ->
  run (load_shares seed paths s) h = (Ok (foldl with_share s l), h').
Proof.
  revert s h l; induction paths as [|p paths IH]; intros s h l; cbn [list_files load_shares].
  { rewrite !run_mret. by intros [= <- <-]. }
  destruct (is_share_file p); [|apply IH]. intros H. inv_run. rewrite run_bind.
  rewrite (run_catch _ (read_share_record p seed)). rewrite (run_catch _ (read_share_record p seed)) in Hr.
  destruct (run (read_share_record p seed) h) as [[r|e|] h1]; cbn [fst snd] in Hr |- *;
    [injection Hr as <- <-..|done]; [exact (IH (with_share s r) _ _ Hr0)|exact (IH s _ _ Hr0)].
Qed.

Lemma share_foldl s l : vs_share (foldl with_share s l) =
  match last l with Some r => Some r | None => vs_share s end.
Proof.
  induction l as [|r l IH] using rev_ind; [done|]. by rewrite foldl_app, last_snoc.
Qed.
(** The listing of the file store on the directory. *)
Definition lists (dir seed : bytes) (h : host) (l : list ValidatorShareRecord) : Prop :=
  run (list_records (ShareStore := FileShareStore dir seed)) h = (Ok l, h).

Lemma run_restore config seed s (h : host) m :
  vc_master_seed config = Some seed -> sim (vc_data_dir config) seed h m ->
  exists l, l ≡ₚ (map_to_list m).*2 /\ lists (vc_data_dir config) seed h l /\
    run (restore config s) h = (Ok (foldl with_share s l), h).
Proof.
  intros Hs Hsim. destruct (sim_list _ _ h m Hsim) as (l & Hl & Hp). exists l. split; [done|].
  split; [done|]. unfold restore. rewrite Hs, run_bind, run_disk_read_dir by apply Hsim.
  cbn [list_records FileShareStore] in Hl. rewrite run_bind, run_disk_read_dir in Hl by apply Hsim. by apply run_load_shares.
Qed.

(** The boot entry is chained to the log found on disk. *)
Definition log_opens (path : option bytes) (h : host) (es : list LogEntry) : Prop :=
  match path with None => es = [] | Some p => chain p h es /\ h_unix h < 2 ^ 128 end.
Definition log_extended (path : option bytes) (h : host) (es : list LogEntry)
    (event : TransparencyEvent.t) (logger : option TransparencyLogger) : Prop :=
  match path with
  | None => logger = None
  | Some p => exists e, chain p h (es ++ [e]) /\ le_event e = event /\
      logger = Some {| tl_path := p; tl_last_event_id := le_event_id e |}
  end.

Lemma run_open_log path event (h : host) es : no_faults h -> log_opens path h es ->
  exists logger h', run (open_log path event) h = (Ok logger, h') /\
    log_extended path h' es event logger.
Proof.
  destruct path as [p|]; intros Hf Ho; [|by exists None, h]. destruct Ho as [Hc Ht].
  destruct (run_open p h es Hf Hc) as (h1 & Hr1 & Hf1 & Ht1 & _ & E).
  assert (chain p h1 es) as Hc1 by (destruct Hc; split; by rewrite E).
  destruct (run_append {| tl_path := p; tl_last_event_id := last_id es |} event h1 es)
    as (e & h2 & Hr2 & He & _ & _ & _ & Hc2); [done|by rewrite Ht1|done|done|].
  exists (Some {| tl_path := p; tl_last_event_id := le_event_id e |}), h2.
  split; [|by exists e].
  cbn [open_log]. rewrite run_bind, run_catch, Hr1. cbn [fst snd map_err].
  rewrite run_bind, run_catch, Hr2. done.
Qed.

(** From the share and the log to the server. *)
Definition serve_with (args : Args) (config : ValidatorConfig) (s : ValidatorState)
    (logger : option TransparencyLogger) : io host BootError Daemon :=
  server ← choose_server args;
  mret {| dm_config := config; dm_state := s; dm_transparency := logger; dm_server := server |}.

Lemma run_boot args config seed (h : host) m es :
  configure args = Ok config -> vc_master_seed config = Some seed ->
  sim (data_dir args) seed h m -> log_opens (transparency_log args) h es ->
  exists s logger h' l, run (main args) h = run (serve_with args config s logger) h' /\
    l ≡ₚ (map_to_list m).*2 /\ lists (data_dir args) seed h l /\ vs_share s = last l /\
    log_extended (transparency_log args) h' es (boot_event config s) logger.
Proof.
  intros Hc Hs Hsim Ho. assert (no_faults h) as Hf by apply Hsim.
  destruct (configure_ok _ _ Hc) as (_ & Hdir & _). rewrite <- Hdir in Hsim.
  set (s0 := {| vs_share := None; vs_sign_session_counter := 0; vs_refresh_session_counter := 0;
                vs_health_probes_served := 0; vs_share_reloads := 0; vs_started_at := h_instant h |}).
  destruct (run_restore config seed s0 h m Hs Hsim) as (l & Hl & Hlist & Hr).
  destruct (run_open_log (transparency_log args) (boot_event config (foldl with_share s0 l)) h es Hf Ho)
    as (logger & h' & Hlog & Hext).
  exists (foldl with_share s0 l), logger, h', l. rewrite share_foldl, <- Hdir.
  split; [|do 2 (split; [done|]); split; [by destruct (last l)|done]].
  unfold main. rewrite run_bind.
  assert (run (on_disk (λ _, CreateDataDir) (disk_create_dir_all (data_dir args))) h = (Ok tt, h)) as ->.
  { unfold on_disk, disk_create_dir_all, next_fault. unfold no_faults in Hf.
    destruct h as [[f x] r i u]. cbn in *. by subst. }
  rewrite run_bind, run_lift, Hc, run_bind. unfold new_shared_state. rewrite run_bind.
  unfold instant_now, reads_state. rewrite run_atomically. cbn [fst snd]. rewrite run_mret.
  fold s0. by rewrite run_bind, Hr, run_bind, Hlog.
Qed.

(** A start without TLS. *)
Definition plain (args : Args) : Prop :=
  tls_cert args = None /\ tls_key args = None /\ mtls_ca_cert args = None /\
  can_bind (bind args) = true.

Lemma run_plain args config s logger (h : host) : plain args ->
  run (serve_with args config s logger) h =
  (Ok {| dm_config := config; dm_state := s; dm_transparency := logger; dm_server := Http |}, h).
Proof.
  intros (Hp1 & Hp2 & Hp3 & Hp4). unfold serve_with, choose_server. by rewrite Hp1, Hp2, Hp3, Hp4.
Qed.

(** The log is neither the share file nor the file it is written through. *)
Definition log_apart (path : option bytes) (share : bytes) : Prop :=
  forall p, path = Some p -> p <> share /\ p <> path_with_extension share (ascii "tmp").

Lemma run_persist_sim config seed r (a : AppState) m :
  vc_master_seed config = Some seed -> wf_record r -> sim (vc_data_dir config) seed (app_host a) m ->
  exists a', run (persist config r) a = (Ok true, a') /\
    sim (vc_data_dir config) seed (app_host a') (<[sr_keyset_id r := r]> m) /\
    forall path es, log_apart path (share_path (vc_data_dir config) (sr_keyset_id r)) ->
      log_opens path (app_host a) es -> log_opens path (app_host a') es.
Proof.
  intros Hs Hwf Hsim.
  destruct (run_write_share_record (vc_data_dir config) seed r (app_host a) Hwf (sim_faults _ _ _ m Hsim))
    as (sealed & h' & Hr & Hn & Ho & Hfiles & _ & Ht).
  exists (set_host a h'). split; [|split; [by eapply sim_save|]].
  - unfold persist. rewrite Hs, run_bind, run_on_host, run_catch, Hr. done.
  - intros [p|] es Hp; [|done]. cbn [log_opens]. intros [[H1 H2 H3] H4]. change (app_host (set_host a h')) with h'.
    destruct (Hp p eq_refl) as [Hp1 Hp2].
    assert (content_at p h' = content_at p (app_host a)) as E.
    { unfold content_at. rewrite Hfiles, lookup_insert_ne, lookup_delete_ne by done. done. }
    split; [split; by rewrite E|by rewrite Ht].
Qed.
End validator_boot.

(** ** Properties *)
Section daemon_properties.
Context `{CO : CurveOk} `{RP : Rpc} {A : Aead} {AOk : AeadOk A} {HX : Hex} {HOk : HexOk HX}
  {J : Json} {JOk : JsonOk J} {DO : DirOrder} {DOk : DirOrderOk DO} `{T : Tls} `{N : Network}.
Import ValidatorMain.

(** C17: a validator that reaches the point of serving has the protections its
    arguments ask for: with a client authority it serves HTTPS and demands
    certificates verified by every authority of that file, with a certificate
    or a key it never serves plain HTTP, and with an RPC endpoint the guard of
    round 5 answers exactly what the nullifier account at the 32-byte address
    of the arguments says, never an internal error. *)
Theorem boot_keeps_protections args (h : host) d h' : run (main args) h = (Ok d, h') ->
  (forall ca, mtls_ca_cert args = Some ca ->
     exists c, dm_server d = Https c /\ demands_client_certs (files h') ca c) /\
  (tls_cert args <> None \/ tls_key args <> None -> exists c, dm_server d = Https c) /\
  (forall url, solana_rpc_url args = Some url -> exists hex pda,
     nullifier_tree_pda_hex args = Some hex /\ hex_decode hex = Some pda /\ length pda = 32%nat /\
     forall pk a, run (nullifier_guard (dm_config d) pk) a =
       (conflict FORBIDDEN (verify_nullifier_finalized url pda pk (app_chain a)), a)).
Proof.
  intros H. apply main_ok in H as (Hc & h0 & Hs). apply choose_server_ok in Hs as [_ Hs].
  apply configure_ok in Hc as (Hurl & _ & _ & Hpda & Hboth). split; [|split].
  - intros ca Hca. rewrite Hca in Hs. by destruct (tls_cert args), (tls_key args); naive_solver.
  - destruct (tls_cert args), (tls_key args); naive_solver.
  - intros url Hu. destruct Hboth as [pda Hp]; [by rewrite Hu|]. rewrite Hp in Hpda.
    apply transpose_ok in Hpda. destruct (nullifier_tree_pda_hex args) as [hex|]; [|done].
    destruct Hpda as (b & [Hd Hl]%parse_pda_ok & [= <-]). exists hex, pda. split_and!; [done..|].
    intros pk a. unfold nullifier_guard. rewrite Hurl, Hu, Hp. cbn [ok_or].
    rewrite run_bind, run_lift, run_bind. unfold reads_state. by rewrite run_atomically.
Qed.

(** C16: what a key generation or a share rotation saved survives a restart,
    on a disk without faults. After [persist] has written the record, a
    validator started on that data directory, whatever keysets it holds and
    whatever TLS arguments it is given, gets as far as the choice of its server
    with the share that the directory lists last: the record just written, or
    that of another keyset. When the directory holds no other keyset it is the
    record just written. The transparency log has gained one entry, chained to
    the ones before, that announces the share. Without TLS the validator then
    serves; with TLS it serves if its certificates are accepted. *)
Theorem restart_restores_share args config seed r (a : AppState) m es :
  configure args = Ok config -> vc_master_seed config = Some seed -> wf_record r ->
  sim (data_dir args) seed (app_host a) m ->
  log_opens (transparency_log args) (app_host a) es ->
  log_apart (transparency_log args) (share_path (data_dir args) (sr_keyset_id r)) ->
  exists a' s logger h' l r', run (persist config r) a = (Ok true, a') /\
    run (main args) (app_host a') = run (serve_with args config s logger) h' /\
    lists (data_dir args) seed (app_host a') l /\
    l ≡ₚ (map_to_list (<[sr_keyset_id r := r]> m)).*2 /\
    last l = Some r' /\ vs_share s = Some r' /\
    (delete (sr_keyset_id r) m = ∅ -> r' = r) /\
    log_extended (transparency_log args) h' es
      (TransparencyEvent.Boot (operator args) (bind args) true
         (Some (hex_encode (sr_keyset_id r'))) (Some (sr_epoch r'))) logger /\
    (plain args -> exists d, run (main args) (app_host a') = (Ok d, h') /\
       dm_server d = Http /\ dm_state d = s /\ dm_transparency d = logger).
Proof.
  intros Hc Hs Hwf Hsim Ho Hlog. destruct (configure_ok _ _ Hc) as (_ & Hdir & _).
  rewrite <- Hdir in Hsim, Hlog.
  destruct (run_persist_sim config seed r a m Hs Hwf Hsim) as (a' & Hr & Hsim' & Hopens).
  apply (Hopens _ es Hlog) in Ho. rewrite Hdir in Hsim'.
  destruct (run_boot args config seed (app_host a') _ es Hc Hs Hsim' Ho)
    as (s & logger & h' & l & Hrun & Hl & Hlist & Hshare & Hext).
  assert (r ∈ l) as Hin.
  { rewrite Hl. apply list_elem_of_fmap. exists (sr_keyset_id r, r). split; [done|].
    apply elem_of_map_to_list, lookup_insert_eq. }
  destruct (last l) as [r'|] eqn:Hlast; [|by apply last_None in Hlast as ->; apply not_elem_of_nil in Hin].
  exists a', s, logger, h', l, r'. do 6 (split; [done|]). split_and!.
  - intros Hm. rewrite <- insert_delete_eq, Hm, insert_empty, map_to_list_singleton in Hl.
    apply Permutation_singleton_r in Hl as ->. by injection Hlast.
  - unfold boot_event in Hext. rewrite Hshare in Hext. unfold configure in Hc.
    repeat match type of Hc with context [transpose ?f ?o] => destruct (transpose f o); [|done..] end.
    cbn [mbind res_bind] in Hc. destruct (reject_if _ _); [|done..]. by injection Hc as <-.
  - intros Hp. eexists. by rewrite Hrun, run_plain.
Qed.
End daemon_properties.

(** *** Several keysets on disk *)
Section several_keysets.
Context `{CO : CurveOk} `{RP : Rpc} {A : Aead} {AOk : AeadOk A} {HX : Hex} {HOk : HexOk HX}
  {J : Json} {JOk : JsonOk J} `{T : Tls} `{N : Network}.
Import ValidatorMain.

(** A file system that lists one file after all others. *)
Definition order_last (p : bytes) : DirOrder :=
  {| dir_order l := filter (λ q, q <> p) l ++ filter (λ q, q = p) l |}.
Lemma order_last_ok p : DirOrderOk (order_last p).
Proof.
  split. intros l. cbn [dir_order order_last]. rewrite Permutation_app_comm.
  induction l as [|q l IH]; [done|]. rewrite !filter_cons. destruct (decide (q = p)) as [->|Hq].
  - rewrite decide_False by naive_solver. cbn. by rewrite IH.
  - rewrite decide_True by done. rewrite <- Permutation_middle. by rewrite IH.
Qed.

Lemma lists_last dir seed (h : host) m k r l : sim dir seed h m -> m !! k = Some r ->
  lists (DO := order_last (share_path dir k)) dir seed h l -> last l = Some r.
Proof.
  intros Hsim Hk Hl. set (p := share_path dir k) in *. set (ps := dir_files (h_disk h) dir).
  assert (forall q, q ∈ ps -> is_Some (files h !! q) /\ q = path_join dir (path_file_name q)) as Hps.
  { intros q [Hq ([q' b] & -> & Hb%elem_of_map_to_list)%list_elem_of_fmap]%list_elem_of_filter. by split; [exists b|]. }
  assert (p ∈ ps) as Hp.
  { apply list_elem_of_filter. split; [apply share_path_in_dir|].
    destruct (sim_file _ _ h m Hsim k r Hk) as (b & Hb & _). apply list_elem_of_fmap.
    exists (p, b). by rewrite elem_of_map_to_list. }
  set (front := filter (λ q, q <> p) ps). set (back := filter (λ q, q = p) ps).
  assert (exists n, back = replicate n p ++ [p]) as [n Hback].
  { assert (p ∈ back) as Hin by by apply list_elem_of_filter.
    assert (back = replicate (length back) p) as E.
    { symmetry. apply replicate_as_elem_of. split; [done|]. by intros x [? _]%list_elem_of_filter. }
    destruct (length back) as [|n]; [rewrite E in Hin; by apply not_elem_of_nil in Hin|].
    exists n. rewrite E. apply (replicate_S_end n p). }
  unfold lists in Hl. cbn [list_records FileShareStore] in Hl.
  rewrite run_bind, run_disk_read_dir in Hl by apply Hsim. cbn [dir_order order_last] in Hl.
  fold ps front back in Hl.
  assert (forall q, q ∈ front ++ back -> is_Some (files h !! q) /\ q = path_join dir (path_file_name q)) as Hall.
  { intros q [[_ Hq]%list_elem_of_filter|[_ Hq]%list_elem_of_filter]%elem_of_app; by apply Hps. }
  destruct (run_list_files dir seed h m (front ++ back) Hsim) as (ks & Hks & _ & Hrun);
    [apply Forall_forall; intros; by apply Hall..|].
  rewrite Hrun in Hl. injection Hl as <-.
  rewrite Hback, app_assoc, filter_app, filter_cons_True in Hks by apply share_path_is_share.
  cbn in Hks. destruct ks as [|k' ks _] using rev_ind; [by apply app_eq_nil in Hks as [_ ?]|].
  rewrite fmap_app in Hks. apply app_inj_tail in Hks as [_ E%share_path_inj]. subst k'.
  rewrite omap_app. cbn. rewrite Hk. apply last_snoc.
Qed.

(** Which share a restarted validator serves with, when its directory
    holds more than one, is the file system's choice: for every record stored
    there, whatever keyset the operator ran before, some order of the listing
    makes the validator start with that record. *)
Theorem restart_picks_any_keyset args config seed (h : host) m es k r :
  configure args = Ok config -> vc_master_seed config = Some seed ->
  sim (data_dir args) seed h m -> plain args -> log_opens (transparency_log args) h es ->
  m !! k = Some r ->
  exists order, DirOrderOk order /\ exists d h',
    run (main (DO := order) args) h = (Ok d, h') /\ vs_share (dm_state d) = Some r.
Proof.
  intros Hc Hs Hsim Hp Ho Hk. set (p := share_path (data_dir args) k).
  exists (order_last p). split; [apply order_last_ok|].
  destruct (run_boot (DO := order_last p) (DOk := order_last_ok p) args config seed h m es Hc Hs Hsim Ho)
    as (s & logger & h' & l & Hrun & _ & Hl & Hshare & _).
  eexists _, h'. rewrite Hrun, run_plain by done. split; [done|]. cbn [dm_state]. rewrite Hshare.
  by eapply lists_last.
Qed.
End several_keysets.

(** ** Concrete daemons *)
#[local] Existing Instance toy.
#[local] Existing Instance toy_ok.
#[local] Existing Instance toy_rpc.
#[local] Existing Instance toy_aead.
#[local] Existing Instance toy_aead_ok.
#[local] Existing Instance toy_hex.
#[local] Existing Instance toy_hex_ok.
#[local] Existing Instance toy_json.
#[local] Existing Instance toy_json_ok.
#[local] Existing Instance toy_order.
#[local] Existing Instance toy_order_ok.

(** A PEM file is one certificate or one key, its content. *)
Definition toy_tls : Tls := {|
  pem_cert := bytes; pem_key := bytes; root_store := list bytes; client_verifier := list bytes;
  tls_config := option (list bytes) * list bytes * bytes;
  pem_certs b := Some (if decide (b = []) then [] else [b]);
  pem_private_key b := Some (if decide (b = []) then None else Some b);
  root_empty := [];
  root_add roots ca := Some (ca :: roots);
  build_verifier roots := Some roots;
  server_config v chain key := Some (Some v, chain, key);
  from_pem_file cert key disk := c ← disk !! cert; k ← disk !! key; Some (None, [c], k);
|}.
Definition toy_network : Network := {| can_bind _ := true |}.
#[local] Existing Instance toy_tls.
#[local] Existing Instance toy_network.

Definition demo_args (tls guard : bool) : ValidatorMain.Args := {|
  ValidatorMain.bind := ascii "0.0.0.0:1"; ValidatorMain.data_dir := demo_dir;
  ValidatorMain.operator := ascii "op";
  ValidatorMain.master_seed_hex := Some (hex_encode demo_seed);
  ValidatorMain.admin_token := None; ValidatorMain.transparency_log := Some (ascii "t.log");
  ValidatorMain.tls_cert := if tls then Some (ascii "cert") else None;
  ValidatorMain.tls_key := if tls then Some (ascii "key") else None;
  ValidatorMain.mtls_ca_cert := if tls then Some (ascii "ca") else None;
  ValidatorMain.solana_rpc_url := if guard then Some (ascii "rpc") else None;
  ValidatorMain.nullifier_tree_pda_hex := Some (hex_encode demo_pda) |}.
Definition demo_validator_config : ValidatorConfig := {|
  vc_data_dir := demo_dir; vc_bind_addr := ascii "0.0.0.0:1"; vc_operator_name := ascii "op";
  vc_master_seed := Some demo_seed; vc_admin_token := None; vc_solana_rpc_url := None;
  vc_nullifier_tree_pda := Some demo_pda |}.
Lemma demo_configure : ValidatorMain.configure (demo_args false false) = Ok demo_validator_config.
Proof. vm_refl. Qed.

Definition pem_host : host :=
  with_files (ToyValidator.demo_host 7)
    (<[ascii "cert" := ascii "C"]> (<[ascii "key" := ascii "K"]> {[ascii "ca" := ascii "A"]})).
Lemma demo_boot_tls : exists d h', run (ValidatorMain.main (demo_args true true)) pem_host = (Ok d, h').
Proof.
  set (p := run _ _).
  assert (match p.1 with Ok _ => true | _ => false end = true) as H by vm_refl.
  destruct p as [[d|e|] h']; [by exists d, h'|done..].
Qed.

Lemma boot_keeps_protections_witness : exists d h',
  run (ValidatorMain.main (demo_args true true)) pem_host = (Ok d, h') /\
  exists c, ValidatorMain.dm_server d = Https c /\ demands_client_certs (files h') (ascii "ca") c.
Proof.
  destruct demo_boot_tls as (d & h' & H). exists d, h'. split; [exact H|].
  destruct (boot_keeps_protections (demo_args true true) pem_host d h' H) as (Hca & _).
  exact (Hca (ascii "ca") eq_refl).
Defined.

Lemma empty_sim : sim demo_dir demo_seed (app_host (demo_app None 7)) ∅.
Proof. by split. Qed.
Lemma empty_log h : files h = ∅ -> h_unix h < 2 ^ 128 -> log_opens (Some (ascii "t.log")) h [].
Proof.
  intros Hf Ht. split; [|done]. assert (content_at (ascii "t.log") h = []) as E.
  { unfold content_at. by rewrite Hf, lookup_empty. }
  split; rewrite E; [by left|done..].
Qed.
Lemma demo_log_apart b : b = Byte.x02 \/ b = Byte.x03 ->
  log_apart (Some (ascii "t.log")) (share_path demo_dir (replicate 33 b)).
Proof. intros [->| ->] p [= <-]; split; intros H; vm_compute in H; discriminate. Qed.

Lemma restart_restores_share_witness : exists (a' : AppState) d h',
  run (persist demo_validator_config (Storage.demo_record Byte.x02 4)) (demo_app None 7) = (Ok true, a') /\
  run (ValidatorMain.main (demo_args false false)) (app_host a') = (Ok d, h') /\
  vs_share (ValidatorMain.dm_state d) = Some (Storage.demo_record Byte.x02 4).
Proof.
  destruct (restart_restores_share (demo_args false false) demo_validator_config demo_seed
    (Storage.demo_record Byte.x02 4) (demo_app None 7) ∅ [] demo_configure eq_refl
    (demo_record_wf Byte.x02 4 ltac:(done)) empty_sim
    (empty_log (app_host (demo_app None 7)) eq_refl eq_refl) (demo_log_apart _ (or_introl eq_refl)))
    as (a' & s & logger & h' & l & r' & H1 & _ & _ & _ & _ & H2 & H3 & _ & H4).
  destruct (H4 ltac:(repeat split; reflexivity)) as (d & H5 & _ & H6 & _).
  exists a', d, h'. split; [exact H1|]. split; [exact H5|].
  rewrite H6, H2. f_equal. exact (H3 (delete_empty _)).
Defined.

(** Two keysets on disk. *)
Definition two_keysets : mock :=
  <[replicate 33 Byte.x02 := Storage.demo_record Byte.x02 4]>
    {[replicate 33 Byte.x03 := Storage.demo_record Byte.x03 1]}.
Lemma two_sim : exists h, sim demo_dir demo_seed h two_keysets /\ log_opens (Some (ascii "t.log")) h [].
Proof.
  destruct (run_persist_sim demo_validator_config demo_seed (Storage.demo_record Byte.x03 1)
    (demo_app None 7) ∅ eq_refl (demo_record_wf Byte.x03 1 ltac:(done)) empty_sim)
    as (a1 & _ & H1 & Ho1).
  destruct (run_persist_sim demo_validator_config demo_seed (Storage.demo_record Byte.x02 4)
    a1 _ eq_refl (demo_record_wf Byte.x02 4 ltac:(done)) H1) as (a2 & _ & H2 & Ho2).
  exists (app_host a2). split; [exact H2|].
  apply (Ho2 _ _ (demo_log_apart _ (or_introl eq_refl))), (Ho1 _ _ (demo_log_apart _ (or_intror eq_refl))).
  by apply empty_log.
Qed.

Lemma restart_picks_any_keyset_witness : exists (h : host) order1 order2 d1 d2 h1 h2,
  run (ValidatorMain.main (DO := order1) (demo_args false false)) h = (Ok d1, h1) /\
  vs_share (ValidatorMain.dm_state d1) = Some (Storage.demo_record Byte.x02 4) /\
  run (ValidatorMain.main (DO := order2) (demo_args false false)) h = (Ok d2, h2) /\
  vs_share (ValidatorMain.dm_state d2) = Some (Storage.demo_record Byte.x03 1).
Proof.
  destruct two_sim as (h & Hsim & Hlog).
  destruct (restart_picks_any_keyset (demo_args false false) demo_validator_config demo_seed h
    two_keysets [] (replicate 33 Byte.x02) (Storage.demo_record Byte.x02 4) demo_configure eq_refl Hsim
    ltac:(repeat split; reflexivity) Hlog (lookup_insert_eq _ _ _)) as (o1 & _ & d1 & h1 & H1 & H2).
  destruct (restart_picks_any_keyset (demo_args false false) demo_validator_config demo_seed h
    two_keysets [] (replicate 33 Byte.x03) (Storage.demo_record Byte.x03 1) demo_configure eq_refl Hsim
    ltac:(repeat split; reflexivity) Hlog eq_refl) as (o2 & _ & d2 & h2 & H3 & H4).
  exists h, o1, o2, d1, d2, h1, h2. exact (conj H1 (conj H2 (conj H3 H4))).
Defined.
