(* ===== verification/Parallel.v ===== *)
(** * Parallel calls over separate parts of a state

    [try_join_all] runs the calls of a list section by section, in an order
    the runtime chooses, until one fails or all are over.  [touches k p q]
    says that [p] does on the entry [k] of a map in the state what [q] does on
    the entry alone; calls that touch different entries do not disturb each
    other, whatever the order. *)
From S2P Require Import Prelude Async.

(** The answer of a program, converted. *)
Fixpoint pmap {S A B} (f : A -> B) (p : prog S A) : prog S B :=
  match p with
  | Done a => Done (f a)
  | Atomic g k => Atomic g (λ b, pmap f (k b))
  end.
Lemma run_pmap {S A B} (f : A -> B) (p : prog S A) s : run (pmap f p) s = (f (run p s).1, (run p s).2).
Proof. revert s. induction p as [a|X g k IH]; intros s; cbn; [done|]. destruct (g s). apply IH. Qed.

(** ** A program on a component of the state *)
Section zoom.
Context {S T : Type} (get : S -> T) (put : S -> T -> S).
Fixpoint zoom {A} (p : prog T A) : prog S A :=
  match p with
  | Done a => Done a
  | Atomic f k => Atomic (λ s, let '(b, t) := f (get s) in (b, put s t)) (λ b, zoom (k b))
  end.

Lemma run_zoom {A} (p : prog T A) s : (forall s t, get (put s t) = t) ->
  (forall s t t', put (put s t) t' = put s t') -> put s (get s) = s ->
  run (zoom p) s = ((run p (get s)).1, put s (run p (get s)).2).
Proof.
  intros Hgp Hpp. revert s. induction p as [a|B f k IH]; intros s Hs; cbn; [by rewrite Hs|].
  destruct (f (get s)) as [b t]. rewrite IH; [by rewrite Hgp, Hpp|by rewrite Hgp, Hpp].
Qed.
End zoom.

(** ** [futures::future::try_join_all] *)
Section join.
Context {S E A : Type}.
Implicit Types ps : list (io S E A).

(** A call that is over without a value. *)
Definition failure (p : io S E A) : option (res E (list A)) :=
  match p with
  | Done (Err e) => Some (Err e)
  | Done Panic => Some Panic
  | _ => None
  end.

Fixpoint in_sequence ps : io S E (list A) :=
  match ps with
  | [] => mret []
  | p :: ps => a ← p; l ← in_sequence ps; mret (a :: l)
  end.

(** When [order] is used up the calls are completed one by one. *)
Fixpoint try_join_all (order : list nat) ps : io S E (list A) :=
  match head (omap failure ps) with
  | Some r => Done r
  | None =>
      match order with
      | [] => in_sequence ps
      | i :: order =>
          match ps !! i with
          | Some (Atomic f k) => Atomic f (λ b, try_join_all order (<[i := k b]> ps))
          | _ => try_join_all order ps
          end
      end
  end.
End join.

Lemma Forall2_insert_other {A B} (P Q : A -> B -> Prop) l ps i x q : Forall2 P l ps ->
  l !! i = Some x -> Q x q -> (forall j y p, j <> i -> l !! j = Some y -> P y p -> Q y p) ->
  Forall2 Q l (<[i := q]> ps).
Proof.
  intros Hl Hi Hq HQ. apply Forall2_same_length_lookup. split.
  { rewrite length_insert. by apply Forall2_length in Hl. }
  intros j y p Hy Hp. destruct (decide (j = i)) as [->|Hj].
  - apply list_lookup_insert_Some in Hp. naive_solver.
  - rewrite list_lookup_insert_ne in Hp by done. by eapply HQ, Forall2_lookup_lr.
Qed.

(** ** Programs on one entry of a map *)
Section parts.
Context `{Countable K} {S T : Type} (get : S -> gmap K T) (put : gmap K T -> S -> S).

Inductive touches (k : K) {A : Type} : prog S A -> prog T A -> Prop :=
| touches_done a : touches k (Done a) (Done a)
| touches_atomic B (f : S -> B * S) next (g : T -> B * T) next' :
    (forall s t, get s !! k = Some t -> f s = ((g t).1, put (<[k := (g t).2]> (get s)) s)) ->
    (forall b, touches k (next b) (next' b)) ->
    touches k (Atomic f next) (Atomic g next').

Lemma touches_bind {E A B} k (p : io S E A) (q : io T E A) (f : A -> io S E B) (g : A -> io T E B) :
  touches k p q -> (forall a, touches k (f a) (g a)) -> touches k (p ≫= f) (q ≫= g).
Proof.
  intros Hp Hf. unfold mbind, io_bind. induction Hp as [[a|e|]|X f' n g' n' Hs Hn IH]; cbn.
  - apply Hf.
  - apply touches_done.
  - apply touches_done.
  - by apply touches_atomic.
Qed.

Lemma touches_lift {E A} k (r : res E A) : touches k (lift r) (lift r).
Proof. apply touches_done. Qed.

Lemma touches_pmap {A B} k (f : A -> B) (p : prog S A) q : touches k p q -> touches k (pmap f p) (pmap f q).
Proof. induction 1; cbn; [apply touches_done|by apply touches_atomic]. Qed.

Context (get_put : forall m s, get (put m s) = m)
  (put_put : forall m m' s, put m (put m' s) = put m s)
  (put_get : forall s, put (get s) s = s).

Lemma run_touches {A} k (p : prog S A) q s t : touches k p q -> get s !! k = Some t ->
  run p s = ((run q t).1, put (<[k := (run q t).2]> (get s)) s).
Proof using All.
  intros Hp. revert s t. induction Hp as [a|B f n g n' Hs Hn IH]; intros s t Hk; cbn.
  - by rewrite insert_id, put_get by done.
  - rewrite (Hs s t Hk). destruct (g t) as [b t']. cbn [fst snd].
    rewrite (IH b _ t') by (rewrite get_put; apply lookup_insert_eq).
    by rewrite get_put, insert_insert_eq, put_put.
Qed.

(** *** Calls on distinct entries *)
(** The call [p] on the entry [k], whose value is [t] now, will return [a] and
    leave [t']. *)
Record call {A : Type} : Type := Call { c_key : K; c_value : A; c_final : T }.
Arguments call : clear implicits.
Definition pending {E A} (s : S) (c : call A) (p : io S E A) : Prop :=
  exists q t, touches (c_key c) p q /\ get s !! c_key c = Some t /\ run q t = (Ok (c_value c), c_final c).

Lemma pending_not_failed {E A} s (c : call A) (p : io S E A) : pending s c p -> failure p = None.
Proof.
  intros (q & t & Hp & _ & Hr). destruct Hp as [[a|e|]|]; [done| | |done]; discriminate Hr.
Qed.

Lemma pending_elsewhere {E A} s (c : call A) (p : io S E A) k t : k <> c_key c ->
  pending s c p -> pending (put (<[k := t]> (get s)) s) c p.
Proof using get_put.
  intros Hk (q & t0 & H1 & H2 & H3). exists q, t0. split_and!; [done| |done].
  by rewrite get_put, lookup_insert_ne.
Qed.

Lemma pending_step {E A} s (c : call A) (p : io S E A) : pending s c p ->
  match p with
  | Done r => r = Ok (c_value c) /\ get s !! c_key c = Some (c_final c)
  | Atomic f n => exists t, (f s).2 = put (<[c_key c := t]> (get s)) s /\ pending (f s).2 c (n (f s).1)
  end.
Proof using get_put.
  intros (q & t & Hp & Hk & Hr). destruct Hp as [r|B f n g n' Hs Hn].
  - by injection Hr as -> <-.
  - rewrite (Hs s t Hk). cbn [run] in Hr. destruct (g t) as [b t']. cbn [fst snd].
    exists t'. split; [done|]. exists (n' b), t'. split_and!; [done| |done].
    rewrite get_put. apply lookup_insert_eq.
Qed.

Lemma run_in_sequence {E A} (cs : list (call A)) (ps : list (io S E A)) s : NoDup (c_key <$> cs) ->
  Forall2 (pending s) cs ps -> exists s', run (in_sequence ps) s = (Ok (c_value <$> cs), s') /\
    s' = put (get s') s /\ (forall c, c ∈ cs -> get s' !! c_key c = Some (c_final c)) /\
    (forall k, k ∉ c_key <$> cs -> get s' !! k = get s !! k).
Proof using All.
  intros Hnd. revert s ps. induction cs as [|c cs IH]; intros s ps Hall; inversion Hall as [|? p ? ps' Hp Hps]; subst.
  { exists s. split_and!; [done|by rewrite put_get|set_solver|done]. }
  cbn [fmap list_fmap] in Hnd. apply NoDup_cons in Hnd as [Hc Hnd].
  destruct Hp as (q & t & Ht & Hk & Hr). cbn [in_sequence]. rewrite run_bind.
  rewrite (run_touches _ _ _ _ _ Ht Hk), Hr. cbn [fst snd].
  destruct (IH Hnd (put (<[c_key c := c_final c]> (get s)) s) ps') as (s' & H1 & H2 & H3 & H4).
  { apply Forall2_same_length_lookup. split; [by eapply Forall2_length|]. intros j c' p' Hc' Hp'.
    apply pending_elsewhere; [|by eapply Forall2_lookup_lr].
    intros E'. apply Hc. rewrite E'. by eapply list_elem_of_fmap_2, list_elem_of_lookup_2. }
  rewrite run_bind, H1. exists s'. rewrite get_put in H4. split_and!; [done| | |].
  - rewrite H2 at 1. by rewrite put_put.
  - intros c' [->|Hc']%elem_of_cons; [|by apply H3]. rewrite H4 by done. apply lookup_insert_eq.
  - intros k [Hne Hni]%not_elem_of_cons. rewrite H4 by done. by apply lookup_insert_ne.
Qed.

(** Calls on distinct entries return, in their order, what each returns
    alone, whatever the order of their sections. *)
Lemma run_try_join_all {E A} order (cs : list (call A)) (ps : list (io S E A)) s : NoDup (c_key <$> cs) ->
  Forall2 (pending s) cs ps -> exists s', run (try_join_all order ps) s = (Ok (c_value <$> cs), s') /\
    s' = put (get s') s /\ (forall c, c ∈ cs -> get s' !! c_key c = Some (c_final c)) /\
    (forall k, k ∉ c_key <$> cs -> get s' !! k = get s !! k).
Proof using All.
  intros Hnd. revert s ps. induction order as [|i order IH]; intros s ps Hps.
  all: assert (omap failure ps = []) as Hf
    by (clear -Hps; induction Hps as [|c p cs ps Hp Hps IH]; [done|]; cbn;
        rewrite (pending_not_failed _ _ _ Hp); exact IH).
  { cbn [try_join_all]. rewrite Hf. by apply run_in_sequence. }
  cbn [try_join_all]. rewrite Hf. cbn [head].
  destruct (ps !! i) as [[r|B f n]|] eqn:Hi; [by apply IH| |by apply IH].
  destruct (Forall2_lookup_r _ _ _ _ _ Hps Hi) as (c & Hc & Hp).
  destruct (pending_step _ _ _ Hp) as (t & Hs & Hn). cbn [run].
  destruct (f s) as [b s1]. cbn [fst snd] in *. subst s1.
  destruct (IH (put (<[c_key c := t]> (get s)) s) (<[i := n b]> ps)) as (s' & H1 & H2 & H3 & H4).
  - apply (Forall2_insert_other (pending s) _ _ _ _ c); [done|done|done|].
    intros j c' p' Hj Hc' Hp'. apply pending_elsewhere; [|done]. intros E'. apply Hj.
    apply (NoDup_lookup _ _ _ (c_key c) Hnd); rewrite list_lookup_fmap; [by rewrite Hc', E'|by rewrite Hc].
  - rewrite get_put in H4. exists s'. split_and!; [done| |done|].
    + rewrite H2 at 1. by rewrite put_put.
    + intros k Hk. rewrite H4 by done. apply lookup_insert_ne. intros <-. apply Hk.
      apply list_elem_of_fmap_2. by eapply list_elem_of_lookup_2.
Qed.
End parts.
Arguments call K T A : clear implicits.
Arguments Call {K T A} _ _ _.
Arguments c_key {K T A} _. Arguments c_value {K T A} _. Arguments c_final {K T A} _.

(** ** Tasks one after the other *)
Section alone.
Context {S : Type}.

(** A task [K m], scheduled alone, runs [m] and goes on with its value. *)
Lemma exec_within {A B} (K : prog S A -> prog S B) (m : prog S A) i s ps :
  (forall Y (g : S -> Y * S) k, K (Atomic g k) = Atomic g (λ b, K (k b))) -> ps !! i = Some (K m) ->
  exists n, exec (replicate n i) (s, ps) = ((run m s).2, <[i := K (Done (run m s).1)]> ps).
Proof.
  intros HK. revert s ps. induction m as [a|Y g k IH]; intros s ps Hi.
  - exists 0%nat. cbn. by rewrite list_insert_id.
  - rewrite HK in Hi. destruct (IH (g s).1 (g s).2 (<[i := K (k (g s).1)]> ps)) as [n Hn].
    { apply list_lookup_insert_eq. by eapply lookup_lt_Some. }
    exists (Datatypes.S n). change (exec (replicate (Datatypes.S n) i) (s, ps)) with (exec (replicate n i) (step_task (s, ps) i)).
    rewrite (step_task_atomic _ _ _ _ g _ Hi), Hn, list_insert_insert_eq. cbn [run]. by destruct (g s).
Qed.
End alone.

(** ** What every section of a program does *)
Section steps.
Context {S : Type} (phi : relation S).

Fixpoint steps {A} (p : prog S A) : Prop :=
  match p with
  | Done _ => True
  | Atomic f k => (forall s, phi s (f s).2) /\ forall b, steps (k b)
  end.

Lemma steps_bind {E A B} (m : io S E A) (f : A -> io S E B) : steps m -> (forall a, steps (f a)) -> steps (m ≫= f).
Proof.
  intros Hm Hf. unfold mbind, io_bind. induction m as [[a|e|]|X g k IH]; cbn in *; [apply Hf|done..|].
  destruct Hm as [Hg Hk]. split; [done|]. intros b. by apply IH.
Qed.
Lemma steps_lift {E A} (r : res E A) : steps (lift (S := S) r).
Proof. done. Qed.
Lemma steps_mret {E A} (a : A) : steps (mret a : io S E A).
Proof. done. Qed.
Lemma steps_updates {E} (f : S -> S) : (forall s, phi s (f s)) -> steps (updates (E := E) f).
Proof. by split. Qed.
Lemma steps_pmap {A B} (f : A -> B) (p : prog S A) : steps p -> steps (pmap f p).
Proof. induction p as [a|X g k IH]; [done|]. intros [Hg Hk]. split; [done|]. intros b. by apply IH. Qed.
Lemma steps_zoom {T A} (get : S -> T) (put : S -> T -> S) (p : prog T A) :
  (forall s t, phi s (put s t)) -> steps (zoom get put p).
Proof.
  intros H. induction p as [a|X g k IH]; [done|]. split; [|intros b; apply IH]. intros s. destruct (g (get s)). apply H.
Qed.
Lemma steps_in_sequence {E A} (ps : list (io S E A)) : Forall steps ps -> steps (in_sequence ps).
Proof.
  induction 1 as [|p ps Hp _ IH]; [done|]. apply steps_bind; [done|]. intros a.
  apply steps_bind; [exact IH|done].
Qed.
Lemma steps_try_join_all {E A} order (ps : list (io S E A)) : Forall steps ps -> steps (try_join_all order ps).
Proof.
  revert ps; induction order as [|i order IH]; intros ps Hps; cbn; destruct (head (omap failure ps)); try done.
  - by apply steps_in_sequence.
  - destruct (ps !! i) as [[a|X f k]|] eqn:Hi; [by apply IH| |by apply IH].
    destruct (Forall_lookup_1 _ _ _ _ Hps Hi) as [Hf Hk]. split; [done|]. intros b. apply IH, Forall_insert; [done|apply Hk].
Qed.

Lemma exec_steps {A} `{!PreOrder phi} schedule s (ps : list (prog S A)) : Forall steps ps ->
  phi s (exec schedule (s, ps)).1.
Proof.
  revert s ps; induction schedule as [|i schedule IH]; intros s ps Hps; [done|].
  cbn [exec foldl]. fold (exec schedule (step_task (s, ps) i)).
  destruct (ps !! i) as [[a|X f k]|] eqn:Hi.
  - rewrite (step_task_done _ _ a) by done. by apply IH.
  - rewrite (step_task_atomic _ _ _ _ f k) by done. destruct (Forall_lookup_1 _ _ _ _ Hps Hi) as [Hf Hk].
    etrans; [apply Hf|]. apply IH, Forall_insert; [done|apply Hk].
  - replace (step_task (s, ps) i) with (s, ps) by (cbn; by rewrite Hi). by apply IH.
Qed.
End steps.

(** ** The values a program may return, whatever its sections read *)
Section returns.
Context {S : Type}.

Fixpoint returns {A} (P : A -> Prop) (p : prog S A) : Prop :=
  match p with
  | Done a => P a
  | Atomic f k => forall b, returns P (k b)
  end.
Lemma returns_mono {A} (P Q : A -> Prop) (p : prog S A) : (forall a, P a -> Q a) -> returns P p -> returns Q p.
Proof. intros HP. induction p as [a|X f k IH]; cbn; [by auto|]. intros H b. apply IH, H. Qed.
Lemma returns_bind {E A B} (P : res E B -> Prop) (m : io S E A) (f : A -> io S E B) :
  (forall e, P (Err e)) -> P Panic -> (forall a, returns P (f a)) -> returns P (m ≫= f).
Proof.
  intros He Hp Hf. unfold mbind, io_bind. induction m as [[a|e|]|X g k IH]; cbn; [apply Hf|apply He|done|].
  intros b. apply IH.
Qed.
End returns.
