(* ===== verification/Pkcs11.v ===== *)
(** * tardus-validator: the share store on a hardware token

    Models [crates/tardus-validator/src/pkcs11_store.rs].  The crate [cryptoki]
    with the module and the token behind it is the class [Cryptoki]; the mutex
    over the session makes every method one section of the token.  The
    messages of [Error::Config] are left out. *)
From S2P Require Import Prelude Crypto ToyCurve Async Parallel Platform ToyPlatform Wire Storage Transparency.

(** ** The token *)
Inductive Attribute : Type :=
| AClass_SecretKey
| AKeyType_GenericSecret
| AKeyType_Aes
| ALabel (label : bytes)
| AToken (b : bool)
| APrivate (b : bool)
| ASensitive (b : bool)
| AExtractable (b : bool)
| AWrap (b : bool)
| AValue (value : bytes).
#[export] Instance attribute_eq_dec : EqDecision Attribute.
Proof. solve_decision. Defined.
Inductive AttributeType : Type := TValue | TExtractable | TSensitive.

(** Each call returns [None] when it fails; [login] gives the text of its
    error.  The wrapping mechanism is [AesKeyWrapPad], the cipher AES-GCM with
    a tag of 128 bits. *)
Class Cryptoki : Type := {
  token : Type;
  Slot : Type;
  PSession : Type;
  ObjectHandle : Type;
  load_module : bytes -> token -> option unit * token;
  initialize : token -> option unit * token;
  get_all_slots : token -> option (list Slot) * token;
  get_token_label : Slot -> token -> option bytes * token;
  open_rw_session : Slot -> token -> option PSession * token;
  close_session : PSession -> token -> token;
  login : PSession -> bytes -> token -> res bytes unit * token;
  find_objects : PSession -> list Attribute -> token -> option (list ObjectHandle) * token;
  create_object : PSession -> list Attribute -> token -> option ObjectHandle * token;
  destroy_object : PSession -> ObjectHandle -> token -> option unit * token;
  wrap_key_with : PSession -> ObjectHandle -> ObjectHandle -> token -> option bytes * token;
  unwrap_key_with : PSession -> ObjectHandle -> bytes -> list Attribute -> token -> option ObjectHandle * token;
  get_attributes : PSession -> ObjectHandle -> list AttributeType -> token -> option (list Attribute) * token;
  gcm_encrypt : PSession -> bytes -> ObjectHandle -> bytes -> token -> option bytes * token;
  gcm_decrypt : PSession -> bytes -> ObjectHandle -> bytes -> token -> option bytes * token;
}.

Definition IV_LEN : nat := 12.

(** [s.contains(needle)] *)
Definition text_contains (needle s : bytes) : bool :=
  existsb (λ k, bool_decide (needle `prefix_of` drop k s)) (seq 0 (S (length s))).

Section store.
Context `{C : Curve} `{HX : Hex} `{DO : DirOrder} `{K : Cryptoki}.

Record Pkcs11Inner : Type := { session : PSession; wrap_key : ObjectHandle }.
Record ReopenInputs : Type := { slot_label : bytes; user_pin : bytes; wrap_key_label : bytes }.
(** What the mutex guards, with the token; and the machine of the daemon. *)
Record vault : Type := { v_inner : Pkcs11Inner; v_token : token }.
Record machine : Type := { m_host : host; m_vault : vault }.
#[local] Abbreviation on_vault := (io vault ValidatorError.t).
#[local] Abbreviation store_io := (io machine ValidatorError.t).

Definition put_token (v : vault) (t : token) : vault := {| v_inner := v_inner v; v_token := t |}.
Definition put_host (m : machine) (h : host) : machine := {| m_host := h; m_vault := m_vault m |}.

(** A call on the token; a call on the session. *)
Definition token_call {A} (f : token -> option A * token) : io token ValidatorError.t A :=
  r ← atomically f; lift (ok_or ValidatorError.Config r).
Definition session_call {A} (e : ValidatorError.t) (f : Pkcs11Inner -> token -> option A * token) : on_vault A :=
  r ← atomically (λ v, let '(r, t) := f (v_inner v) (v_token v) in (r, put_token v t));
  lift (ok_or e r).
(** [let _ = ..] *)
Definition session_try {A} (f : Pkcs11Inner -> token -> option A * token) : on_vault unit :=
  atomically (λ v, (tt, put_token v (f (v_inner v) (v_token v)).2)).
(** [self.inner.lock()], held to the end of the method. *)
Definition locked {A} (p : on_vault A) : store_io A :=
  r ← atomically (λ m, let '(r, v) := run p (m_vault m) in (r, {| m_host := m_host m; m_vault := v |}));
  lift r.
Definition on_host {A} (p : io host ValidatorError.t A) : store_io A := zoom m_host put_host p.

(** A session is closed when it is dropped: here by an error after it was opened. *)
Definition or_close {A} (s : PSession) (p : io token ValidatorError.t A) : io token ValidatorError.t A :=
  r ← (catch Ok p : io token ValidatorError.t (res ValidatorError.t A));
  match r with
  | Ok a => mret a
  | r => _ ← atomically (λ t, (tt, close_session s t)); lift r
  end.

(** ** Opening *)
Fixpoint first_slot (label : bytes) (slots : list Slot) : io token ValidatorError.t Slot :=
  match slots with
  | [] => lift (Err ValidatorError.Config)
  | slot :: slots =>
      info ← atomically (get_token_label slot);
      match info with
      | Some l => if decide (trim l = trim label) then mret slot else first_slot label slots
      | None => first_slot label slots
      end
  end.
Definition find_slot_by_label (label : bytes) : io token ValidatorError.t Slot :=
  slots ← token_call get_all_slots; first_slot label slots.

Definition find_wrap_key (s : PSession) (label : bytes) : io token ValidatorError.t ObjectHandle :=
  handles ← token_call (find_objects s [AClass_SecretKey; AKeyType_Aes; ALabel label]);
  lift (ok_or ValidatorError.Config (head handles)).

Definition Pkcs11ShareStore_open (module_path : bytes) (inputs : ReopenInputs)
    : io token ValidatorError.t Pkcs11Inner :=
  _ ← token_call (load_module module_path);
  _ ← token_call initialize;
  slot ← find_slot_by_label (slot_label inputs);
  s ← token_call (open_rw_session slot);
  or_close s (
    logged ← atomically (login s (user_pin inputs));
    _ ← lift (map_err (λ _ : bytes, ValidatorError.Config) logged);
    k ← find_wrap_key s (wrap_key_label inputs);
    mret {| session := s; wrap_key := k |}).

(** A session that is already logged in is kept. *)
Definition benign_login (e : bytes) : bool :=
  text_contains (ascii "USER_ALREADY_LOGGED_IN") e ||
  text_contains (ascii "already logged into the session") e.
Definition login_session (inputs : ReopenInputs) : io token ValidatorError.t Pkcs11Inner :=
  slot ← find_slot_by_label (slot_label inputs);
  s ← token_call (open_rw_session slot);
  or_close s (
    logged ← atomically (login s (user_pin inputs));
    _ ← lift (match logged with
              | Err e => reject_if (negb (benign_login e)) ValidatorError.Config
              | r => map_err (λ _ : bytes, ValidatorError.Config) r
              end);
    k ← find_wrap_key s (wrap_key_label inputs);
    mret {| session := s; wrap_key := k |}).
Definition reopen_session (inputs : ReopenInputs) : store_io unit :=
  inner ← zoom (λ m, v_token (m_vault m))
            (λ m t, {| m_host := m_host m; m_vault := put_token (m_vault m) t |}) (login_session inputs);
  updates (λ m, {| m_host := m_host m; m_vault := {| v_inner := inner;
    v_token := close_session (session (v_inner (m_vault m))) (v_token (m_vault m)) |} |}).

(** ** Shares on the token *)
Definition find_share_handle_inner (share_label : bytes) : on_vault (option ObjectHandle) :=
  handles ← session_call ValidatorError.Config (λ i, find_objects (session i)
              [AClass_SecretKey; AKeyType_GenericSecret; ALabel share_label]);
  mret (head handles).

Definition share_template (sensitive extractable : bool) (scalar share_label : bytes) : list Attribute :=
  [AClass_SecretKey; AKeyType_GenericSecret; ALabel share_label; AToken true; APrivate true;
   ASensitive sensitive; AExtractable extractable; AWrap true; AValue scalar].

Definition install (template : list Attribute) (share_label : bytes) : on_vault unit :=
  existing ← find_share_handle_inner share_label;
  _ ← match existing with
      | Some h => session_call ValidatorError.Config (λ i, destroy_object (session i) h)
      | None => mret tt
      end;
  _ ← session_call ValidatorError.Config (λ i, create_object (session i) template);
  mret tt.
Definition install_share (scalar share_label : bytes) : store_io unit :=
  locked (install (share_template true false scalar share_label) share_label).
Definition install_share_extractable (scalar share_label : bytes) : store_io unit :=
  locked (install (share_template false true scalar share_label) share_label).

Definition find_share_handle (share_label : bytes) : store_io (option ObjectHandle) :=
  locked (find_share_handle_inner share_label).

Definition erase (share_label : bytes) : on_vault bool :=
  handle ← find_share_handle_inner share_label;
  match handle with
  | None => mret false
  | Some h => _ ← session_call ValidatorError.Config (λ i, destroy_object (session i) h); mret true
  end.
Definition delete_share (share_label : bytes) : store_io bool := locked (erase share_label).

Definition transient_template (share_label : bytes) : list Attribute :=
  [AClass_SecretKey; AKeyType_GenericSecret; AToken false; ASensitive false; AExtractable true;
   ALabel (share_label ++ ascii "-transient")].
(** The first [Attribute::Value]. *)
Definition first_value (attrs : list Attribute) : option bytes :=
  head (omap (λ a, match a with AValue b => Some b | _ => None end) attrs).

Definition read_wrapped (share_label : bytes) : on_vault bytes :=
  share_handle ← find_share_handle_inner share_label;
  share_handle ← lift (ok_or ValidatorError.Config share_handle);
  wrapped ← session_call ValidatorError.Config (λ i, wrap_key_with (session i) (wrap_key i) share_handle);
  transient ← session_call ValidatorError.Config (λ i,
                unwrap_key_with (session i) (wrap_key i) wrapped (transient_template share_label));
  attrs ← session_call ValidatorError.Config (λ i, get_attributes (session i) transient [TValue]);
  _ ← session_try (λ i, destroy_object (session i) transient);
  scalar ← lift (ok_or ValidatorError.Config (first_value attrs));
  _ ← lift (reject_if (negb (length scalar =? 32)%nat) ValidatorError.Config);
  mret scalar.
Definition read_share_via_wrap (share_label : bytes) : store_io bytes := locked (read_wrapped share_label).

Definition check_posture (u : unit) (attr : Attribute) : res ValidatorError.t unit :=
  match attr with
  | AExtractable true => Err ValidatorError.Config
  | ASensitive false => Err ValidatorError.Config
  | _ => Ok u
  end.
Definition audit (share_label : bytes) : on_vault unit :=
  handle ← find_share_handle_inner share_label;
  handle ← lift (ok_or ValidatorError.Config handle);
  attrs ← session_call ValidatorError.Config (λ i, get_attributes (session i) handle [TExtractable; TSensitive]);
  lift (res_fold check_posture tt attrs).
Definition audit_share_posture (share_label : bytes) : store_io unit := locked (audit share_label).

(** ** Records in files *)
Definition aes_encrypt (plaintext : bytes) : store_io bytes :=
  iv ← on_host (draw (rng_fill IV_LEN));
  ct ← locked (session_call ValidatorError.Config (λ i, gcm_encrypt (session i) iv (wrap_key i) plaintext));
  mret (iv ++ ct).
Definition aes_decrypt (sealed : bytes) : store_io bytes :=
  _ ← lift (reject_if (length sealed <? IV_LEN + 16)%nat ValidatorError.StorageCorruption);
  locked (session_call ValidatorError.AeadFailure (λ i,
    gcm_decrypt (session i) (take IV_LEN sealed) (wrap_key i) (drop IV_LEN sealed))).

Definition decode_record (plaintext : bytes) : res ValidatorError.t ValidatorShareRecord :=
  ok_or ValidatorError.ShareDecode (try_from_slice ValidatorShareRecord_read plaintext).
Definition hsm_load (data_dir keyset_id : bytes) : store_io (option ValidatorShareRecord) :=
  sealed ← on_host (catch (λ r : res ValidatorError.t bytes, match r with
      | Ok b => Ok (Some b)
      | Err (ValidatorError.Io NotFound) => Ok None
      | Err e => Err e
      | Panic => Panic
      end) (on_disk ValidatorError.Io (disk_read (share_path data_dir keyset_id))));
  match sealed with
  | None => mret None
  | Some sealed => plaintext ← aes_decrypt sealed; record ← lift (decode_record plaintext); mret (Some record)
  end.
Definition hsm_save (data_dir : bytes) (record : ValidatorShareRecord) : store_io unit :=
  sealed ← aes_encrypt (ValidatorShareRecord_to_vec record);
  let path := share_path data_dir (sr_keyset_id record) in
  let tmp := path_with_extension path (ascii "tmp") in
  _ ← on_host (on_disk ValidatorError.Io (disk_write tmp sealed));
  on_host (on_disk ValidatorError.Io (disk_rename tmp path)).

(** A file that does not open is skipped. *)
Definition hsm_open_file (path : bytes) : store_io ValidatorShareRecord :=
  sealed ← on_host (on_disk ValidatorError.Io (disk_read path));
  plaintext ← aes_decrypt sealed;
  lift (decode_record plaintext).
Fixpoint hsm_list_files (paths : list bytes) : store_io (list ValidatorShareRecord) :=
  match paths with
  | [] => mret []
  | path :: paths =>
      if is_share_file path then
        rec ← catch (λ r, match r with Ok rec => Ok (Some rec) | Err _ => Ok None | Panic => Panic end)
                (hsm_open_file path);
        rest ← hsm_list_files paths;
        mret (option_list rec ++ rest)
      else hsm_list_files paths
  end.

Definition Pkcs11ShareStore (data_dir : bytes) : ShareStore machine := {|
  load := hsm_load data_dir;
  save := hsm_save data_dir;
  list_records :=
    paths ← on_host (on_disk ValidatorError.Io (disk_read_dir data_dir)); hsm_list_files paths;
  backend_name := ascii "pkcs11";
|}.
End store.

(** ** Lemmas *)
Section store_lemmas.
Context `{CO : CurveOk} {HX : Hex} {HOk : HexOk HX} {DO : DirOrder} {DOk : DirOrderOk DO} `{K : Cryptoki}.
Implicit Types (m : machine) (v : vault).

Lemma run_locked {A} (p : io vault ValidatorError.t A) m :
  run (locked p) m = ((run p (m_vault m)).1, {| m_host := m_host m; m_vault := (run p (m_vault m)).2 |}).
Proof. unfold locked. rewrite run_bind, run_atomically. by destruct (run p (m_vault m)). Qed.

Lemma run_session_call {A} e (f : Pkcs11Inner -> token -> option A * token) v :
  run (session_call e f) v =
    (ok_or e (f (v_inner v) (v_token v)).1, put_token v (f (v_inner v) (v_token v)).2).
Proof. unfold session_call. rewrite run_bind, run_atomically. by destruct (f _ _). Qed.

Lemma run_hsm_host {A} (p : io host ValidatorError.t A) m :
  run (on_host p) m = ((run p (m_host m)).1, put_host m (run p (m_host m)).2).
Proof. apply (run_zoom m_host put_host); [by intros [] ?..|by destruct m]. Qed.

(** A session that lives, with its wrap key: AES-GCM with a tag of 16 bytes. *)
Record seals (i : Pkcs11Inner) (aes : bytes -> bytes -> bytes) (unaes : bytes -> bytes -> option bytes) : Prop := {
  seals_encrypt iv pt t : gcm_encrypt (session i) iv (wrap_key i) pt t = (Some (aes iv pt), t);
  seals_decrypt iv ct t : gcm_decrypt (session i) iv (wrap_key i) ct t = (unaes iv ct, t);
  seals_inverse iv pt : unaes iv (aes iv pt) = Some pt;
  seals_length iv pt : length (aes iv pt) = (length pt + 16)%nat;
}.

Section sealed.
Context (i : Pkcs11Inner) (aes : bytes -> bytes -> bytes) (unaes : bytes -> bytes -> option bytes)
  (Hi : seals i aes unaes).

Definition hsm_opens (sealed : bytes) : res ValidatorError.t ValidatorShareRecord :=
  _ ← reject_if (length sealed <? IV_LEN + 16)%nat ValidatorError.StorageCorruption;
  plaintext ← ok_or ValidatorError.AeadFailure (unaes (take IV_LEN sealed) (drop IV_LEN sealed));
  decode_record plaintext.

Lemma run_aes_decrypt sealed m : v_inner (m_vault m) = i ->
  run (aes_decrypt sealed) m =
    (_ ← reject_if (length sealed <? IV_LEN + 16)%nat ValidatorError.StorageCorruption;
     ok_or ValidatorError.AeadFailure (unaes (take IV_LEN sealed) (drop IV_LEN sealed)), m).
Proof.
  intros Hm. unfold aes_decrypt. rewrite run_bind, run_lift. destruct (_ <? _)%nat; [done|].
  cbn [reject_if mbind res_bind]. rewrite run_locked, run_session_call, Hm, (seals_decrypt i aes unaes Hi). by destruct m as [h [j t]].
Qed.

Lemma run_hsm_open_file path m : v_inner (m_vault m) = i -> no_faults (m_host m) ->
  run (hsm_open_file path) m =
    (sealed ← map_err ValidatorError.Io (ok_or NotFound (files (m_host m) !! path)); hsm_opens sealed, m).
Proof.
  intros Hm Hf. unfold hsm_open_file. rewrite run_bind, run_hsm_host, run_disk_read by done.
  cbn [fst snd]. replace (put_host m (m_host m)) with m by by destruct m.
  destruct (files (m_host m) !! path) as [sealed|]; [|done]. cbn [ok_or map_err mbind res_bind].
  rewrite run_bind, run_aes_decrypt by done. unfold hsm_opens.
  destruct (reject_if _ _); cbn [mbind res_bind]; [|done..]. by destruct (unaes _ _).
Qed.

Lemma hsm_seal_open iv r : wf_record r -> length iv = IV_LEN ->
  hsm_opens (iv ++ aes iv (ValidatorShareRecord_to_vec r)) = Ok r.
Proof.
  intros Hr Hiv. unfold hsm_opens. rewrite length_app, (seals_length i aes unaes Hi), Hiv.
  rewrite (proj2 (Nat.ltb_ge _ _)) by lia. cbn [reject_if mbind res_bind].
  rewrite take_app_length', drop_app_length' by done. rewrite (seals_inverse i aes unaes Hi). cbn.
  unfold decode_record. by rewrite (try_from_slice_reads _ _ r) by by apply reads_ValidatorShareRecord.
Qed.

Lemma run_hsm_save dir r m : v_inner (m_vault m) = i -> no_faults (m_host m) -> wf_record r ->
  exists iv m', run (hsm_save dir r) m = (Ok tt, m') /\ v_inner (m_vault m') = i /\
    no_faults (m_host m') /\ length iv = IV_LEN /\
    files (m_host m') =
      <[share_path dir (sr_keyset_id r) := iv ++ aes iv (ValidatorShareRecord_to_vec r)]>
        (delete (path_with_extension (share_path dir (sr_keyset_id r)) (ascii "tmp")) (files (m_host m))).
Proof.
  intros Hm Hf Hr. unfold hsm_save, aes_encrypt. rewrite !run_bind, run_hsm_host.
  unfold draw. rewrite run_atomically. destruct (rng_fill IV_LEN (h_rng (m_host m))) as [iv rg] eqn:Hn.
  cbn [fst snd]. rewrite run_bind, run_locked, run_session_call.
  cbn [m_vault put_host]. rewrite Hm, (seals_encrypt i aes unaes Hi). cbn [fst snd ok_or]. rewrite run_mret.
  assert (length iv = IV_LEN) as Hl.
  { pose proof (rng_fill_length IV_LEN (h_rng (m_host m))) as H. by rewrite Hn in H. }
  rewrite run_bind, run_hsm_host, run_disk_write by done. cbn [fst snd].
  rewrite run_hsm_host, run_disk_rename with (b := iv ++ aes iv (ValidatorShareRecord_to_vec r));
    [|done|apply lookup_insert_eq].
  exists iv. eexists. split; [done|]. split; [done|]. split; [done|]. split; [done|].
  unfold with_files, files, set_files, set_disk. cbn. by rewrite delete_insert_eq.
Qed.

Lemma run_hsm_load dir k m : v_inner (m_vault m) = i -> no_faults (m_host m) ->
  run (hsm_load dir k) m =
    (found (sealed ← map_err ValidatorError.Io (ok_or NotFound (files (m_host m) !! share_path dir k));
            hsm_opens sealed), m).
Proof.
  intros Hm Hf. unfold hsm_load. rewrite run_bind, run_hsm_host, run_catch, run_disk_read by done.
  cbn [fst snd]. replace (put_host m (m_host m)) with m by by destruct m.
  destruct (files (m_host m) !! _) as [sealed|]; [|done]. cbn [ok_or map_err mbind res_bind].
  rewrite run_bind, run_aes_decrypt by done. unfold hsm_opens.
  destruct (_ <? _)%nat; [done|]. cbn [reject_if mbind res_bind]. destruct (unaes _ _); [|done].
  cbn [ok_or mbind res_bind]. rewrite run_bind, run_lift. unfold decode_record. by destruct (try_from_slice _ _).
Qed.

Definition hsm_sim (dir : bytes) m (mk : mock) : Prop :=
  v_inner (m_vault m) = i /\ simulates dir hsm_opens (m_host m) mk.

Lemma hsm_answer_sim (dir : bytes) c m mk : hsm_sim dir m mk -> wf_call c ->
  let '(a, m') := answer (SS := Pkcs11ShareStore dir) c m in
  let '(a', mk') := answer (SS := MockShareStore) c mk in
  same_answer a a' /\ hsm_sim dir m' mk'.
Proof.
  intros [Hm Hsim] Hwf. assert (no_faults (m_host m)) as Hf by apply Hsim.
  destruct c as [k|r|]; cbn [answer load save list_records Pkcs11ShareStore MockShareStore].
  - rewrite run_hsm_load, (sim_lookup dir _ (m_host m) mk) by done.
    cbn. destruct (mk !! k); cbn; by split; [constructor|].
  - destruct (run_hsm_save dir r m Hm Hf Hwf) as (iv & m' & -> & Hm' & Hf' & Hl & Hfiles). cbn.
    split; [constructor|]. split; [done|]. eapply sim_save; [exact Hsim|done|by apply hsm_seal_open|done].
  - rewrite run_bind, run_hsm_host, run_disk_read_dir by done. cbn [fst snd].
    replace (put_host m (m_host m)) with m by by destruct m.
    destruct (run_share_files dir hsm_opens hsm_list_files (λ path,
      catch (λ r, match r with Ok rec => Ok (Some rec) | Err _ => Ok None | Panic => Panic end)
        (hsm_open_file path)) m (m_host m) mk (listing dir (m_host m)))
      as (ks & Hks & Hall & Hrun); [done|done| |done|apply listing_own|].
    { intros k r Hk. rewrite run_catch, run_hsm_open_file, (sim_lookup dir _ (m_host m) mk) by done. by rewrite Hk. }
    unfold listing in Hrun. rewrite Hrun. cbn. split; [|done]. constructor. by eapply sim_listing.
Qed.
End sealed.
End store_lemmas.

(** ** What a token promises

    [objects] are the objects the session sees, by handle: PKCS#11 for secret
    keys, when the token has room for
    the two templates of the store.  A value that is sensitive or not
    extractable is not revealed, and a key that is not extractable is not
    wrapped. *)
Definition matches (template attrs : list Attribute) : Prop := Forall (.∈ attrs) template.
Definition reveals (attrs : list Attribute) (types : list AttributeType) (a : Attribute) : bool :=
  let asked ty := existsb (λ ty', match ty, ty' with
    | TValue, TValue | TExtractable, TExtractable | TSensitive, TSensitive => true
    | _, _ => false end) types in
  match a with
  | AValue _ => asked TValue && bool_decide (ASensitive false ∈ attrs) && bool_decide (AExtractable true ∈ attrs)
  | AExtractable _ => asked TExtractable
  | ASensitive _ => asked TSensitive
  | _ => false
  end.

Record token_laws `{K : Cryptoki} `{!EqDecision ObjectHandle, !Countable ObjectHandle} (i : Pkcs11Inner)
    (objects : token -> gmap ObjectHandle (list Attribute)) (wrapped : bytes -> bytes) : Prop := {
  law_find template t : exists hs, find_objects (session i) template t = (Some hs, t) /\
    forall h, h ∈ hs <-> exists attrs, objects t !! h = Some attrs /\ matches template attrs;
  law_create sensitive extractable value label t : exists h t',
    let template := share_template sensitive extractable value label in create_object (session i) template t = (Some h, t') /\
    objects t !! h = None /\ objects t' = <[h := template]> (objects t);
  law_destroy h t : is_Some (objects t !! h) -> exists t',
    destroy_object (session i) h t = (Some tt, t') /\ objects t' = delete h (objects t);
  law_wrap h attrs value t : objects t !! h = Some attrs -> AExtractable false ∉ attrs -> first_value attrs = Some value ->
    wrap_key_with (session i) (wrap_key i) h t = (Some (wrapped value), t);
  law_no_wrap h attrs t : objects t !! h = Some attrs -> AExtractable false ∈ attrs ->
    wrap_key_with (session i) (wrap_key i) h t = (None, t);
  law_unwrap label value t : exists h t', let template := transient_template label in
    unwrap_key_with (session i) (wrap_key i) (wrapped value) template t = (Some h, t') /\
    objects t !! h = None /\ objects t' = <[h := template ++ [AValue value]]> (objects t);
  law_attributes h attrs types t : objects t !! h = Some attrs -> exists l,
    get_attributes (session i) h types t = (Some l, t) /\
    l ≡ₚ filter (λ a, reveals attrs types a = true) attrs;
}.

Section token_lemmas.
Context `{K : Cryptoki} `{!EqDecision ObjectHandle, !Countable ObjectHandle}.
Context (i : Pkcs11Inner) (objects : token -> gmap ObjectHandle (list Attribute)) (wrapped : bytes -> bytes)
  (L : token_laws i objects wrapped).
Implicit Types (v : vault).

Definition stored v : gmap ObjectHandle (list Attribute) := objects (v_token v).
Definition labelled (label : bytes) v (h : ObjectHandle) : Prop :=
  exists attrs, stored v !! h = Some attrs /\
    matches [AClass_SecretKey; AKeyType_GenericSecret; ALabel label] attrs.
Definition only_share label v (h : ObjectHandle) (attrs : list Attribute) : Prop :=
  v_inner v = i /\ stored v !! h = Some attrs /\ labelled label v h /\ forall h', labelled label v h' -> h' = h.

Lemma find_inner label v : v_inner v = i -> exists hs,
  run (find_share_handle_inner label) v = (Ok (head hs), v) /\ forall h, h ∈ hs <-> labelled label v h.
Proof.
  intros Hi. destruct (law_find _ _ _ L [AClass_SecretKey; AKeyType_GenericSecret; ALabel label] (v_token v))
    as (hs & Hf & Hhs).
  exists hs. split; [|done]. unfold find_share_handle_inner.
  rewrite run_bind, run_session_call, Hi, Hf. by destruct v.
Qed.
Lemma find_none label v : v_inner v = i -> (forall h, ~ labelled label v h) ->
  run (find_share_handle_inner label) v = (Ok None, v).
Proof.
  intros Hi Hno. destruct (find_inner label v Hi) as ([|h hs] & -> & Hhs); [done|].
  exfalso. apply (Hno h), Hhs. by left.
Qed.
Lemma find_only label v h attrs : only_share label v h attrs ->
  run (find_share_handle_inner label) v = (Ok (Some h), v).
Proof.
  intros (Hi & _ & Hh & Hu). destruct (find_inner label v Hi) as ([|h' hs] & -> & Hhs).
  - by apply Hhs, elem_of_nil in Hh.
  - rewrite (Hu h'); [done|]. apply Hhs. by left.
Qed.

Lemma run_destroy e h v : v_inner v = i -> is_Some (stored v !! h) -> exists v',
  run (session_call e (λ i, destroy_object (session i) h)) v = (Ok tt, v') /\ v_inner v' = i /\
  stored v' = delete h (stored v).
Proof.
  intros Hi Hh. destruct (law_destroy _ _ _ L h (v_token v) Hh) as (t' & Hd & Ho).
  rewrite run_session_call, Hi, Hd. by eexists.
Qed.

Lemma run_erase label v h attrs : only_share label v h attrs -> exists v',
  run (erase label) v = (Ok true, v') /\ v_inner v' = i /\ stored v' = delete h (stored v).
Proof.
  intros Ho. unfold erase. rewrite run_bind, (find_only _ _ _ _ Ho). destruct Ho as (Hi & Hs & _).
  destruct (run_destroy ValidatorError.Config h v Hi) as (v' & Hd & Hv); [by eexists|].
  rewrite run_bind, Hd. by exists v'.
Qed.

(** No share of the label, and the entry made for it. *)
Lemma labelled_delete label v v' h : (forall h', labelled label v h' -> h' = h) ->
  stored v' = delete h (stored v) -> forall h', ~ labelled label v' h'.
Proof.
  intros Hu Hv h' (attrs & Hs & Hm). rewrite Hv in Hs. apply lookup_delete_Some in Hs as [Hne Hs].
  apply Hne. symmetry. apply Hu. by exists attrs.
Qed.

Lemma share_template_matches sensitive extractable scalar label :
  matches [AClass_SecretKey; AKeyType_GenericSecret; ALabel label] (share_template sensitive extractable scalar label).
Proof. unfold share_template, matches. repeat constructor; set_solver. Qed.

Lemma install_fresh label sensitive extractable scalar v : v_inner v = i -> (forall h, ~ labelled label v h) ->
  let template := share_template sensitive extractable scalar label in exists h v',
  run (session_call ValidatorError.Config (λ i, create_object (session i) template)) v = (Ok h, v') /\
  only_share label v' h template.
Proof.
  intros Hi Hno. cbn zeta. destruct (law_create _ _ _ L sensitive extractable scalar label (v_token v)) as (h & t' & Hc & Hf & Ho).
  rewrite run_session_call, Hi, Hc. exists h. eexists. split; [done|].
  unfold only_share, labelled, stored. cbn [v_token v_inner put_token fst snd]. rewrite Ho.
  split_and!; [done|by rewrite lookup_insert_eq|eexists; rewrite lookup_insert_eq; split; [done|apply share_template_matches]|].
  intros h' (attrs & Hs & Ha). destruct (decide (h' = h)) as [|Hne]; [done|].
  rewrite lookup_insert_ne in Hs by done. destruct (Hno h'). by exists attrs.
Qed.

Lemma run_install label sensitive extractable scalar v : v_inner v = i ->
  (forall h1 h2, labelled label v h1 -> labelled label v h2 -> h1 = h2) ->
  let template := share_template sensitive extractable scalar label in exists h v',
  run (install template label) v = (Ok tt, v') /\ only_share label v' h template.
Proof.
  intros Hi Hu. cbn zeta. unfold install. rewrite run_bind.
  destruct (find_inner label v Hi) as ([|h hs] & -> & Hhs); cbn [head hd_error].
  - destruct (install_fresh label sensitive extractable scalar v) as (h & v' & Hc & Ho); [done| |].
    { intros h Hh. by apply Hhs, elem_of_nil in Hh. }
    exists h, v'. rewrite run_bind, run_mret, run_bind, Hc. done.
  - assert (labelled label v h) as Hh by (apply Hhs; by left).
    destruct (run_destroy ValidatorError.Config h v Hi) as (v1 & Hd & Hi1 & Hs1).
    { destruct Hh as (attrs & Hs & _). by exists attrs. }
    destruct (install_fresh label sensitive extractable scalar v1) as (h' & v' & Hc & Ho); [done| |].
    { eapply labelled_delete; [|done]. intros h' Hh'. by apply Hu. }
    exists h', v'. rewrite run_bind, Hd, run_bind, Hc. done.
Qed.

Lemma run_attributes v h attrs types l : v_inner v = i -> stored v !! h = Some attrs ->
  filter (λ a, reveals attrs types a = true) attrs = l -> exists l',
  run (session_call ValidatorError.Config (λ i, get_attributes (session i) h types)) v = (Ok l', v) /\ l' ≡ₚ l.
Proof.
  intros Hi Hs <-. destruct (law_attributes _ _ _ L h attrs types (v_token v) Hs) as (l' & Hg & Hl).
  exists l'. rewrite run_session_call, Hi, Hg. split; [by destruct v|done].
Qed.

Lemma audit_installed label v h sensitive extractable scalar :
  only_share label v h (share_template sensitive extractable scalar label) ->
  run (audit label) v =
    (if sensitive && negb extractable then Ok tt else Err ValidatorError.Config, v).
Proof.
  intros Ho. unfold audit. rewrite run_bind, (find_only _ _ _ _ Ho). cbn [ok_or]. rewrite run_bind, run_lift.
  destruct Ho as (Hi & Hs & _).
  destruct (run_attributes v h _ [TExtractable; TSensitive] [ASensitive sensitive; AExtractable extractable] Hi Hs)
    as (l & Hr & Hl); [done|].
  rewrite run_bind, Hr, run_lift. symmetry in Hl.
  apply Permutation_length_2_inv in Hl as [-> | ->]; by destruct sensitive, extractable.
Qed.

(** A share that is not extractable is not read. *)
Lemma read_refused label v h sensitive scalar :
  only_share label v h (share_template sensitive false scalar label) ->
  run (read_wrapped label) v = (Err ValidatorError.Config, v).
Proof.
  intros Ho. unfold read_wrapped. rewrite run_bind, (find_only _ _ _ _ Ho). cbn [ok_or].
  rewrite run_bind, run_lift. destruct Ho as (Hi & Hs & _).
  rewrite run_bind, run_session_call, Hi, (law_no_wrap _ _ _ L h _ _ Hs); [by destruct v|].
  unfold share_template. set_solver.
Qed.

(** One that is extractable is, and nothing is left behind. *)
Lemma read_extractable label v h sensitive scalar : length scalar = 32%nat ->
  only_share label v h (share_template sensitive true scalar label) -> exists v',
  run (read_wrapped label) v = (Ok scalar, v') /\ v_inner v' = i /\ stored v' = stored v.
Proof.
  intros Hl Ho. unfold read_wrapped. rewrite run_bind, (find_only _ _ _ _ Ho). cbn [ok_or].
  rewrite run_bind, run_lift. destruct Ho as (Hi & Hs & _).
  rewrite run_bind, run_session_call, Hi, (law_wrap _ _ _ L h _ scalar _ Hs)
    by (done || unfold share_template; set_solver). cbn [fst snd ok_or].
  destruct (law_unwrap _ _ _ L label scalar (v_token v)) as (h' & t1 & Hu & Hf & Ho1).
  rewrite run_bind, run_session_call. cbn [v_inner v_token put_token]. rewrite Hi, Hu. cbn [fst snd ok_or].
  set (v1 := put_token _ t1).
  assert (stored v1 = <[h' := transient_template label ++ [AValue scalar]]> (stored v)) as Hs1 by done.
  destruct (run_attributes v1 h' (transient_template label ++ [AValue scalar]) [TValue] [AValue scalar])
    as (l & Hr & ->%Permutation_singleton_r); [done|by rewrite Hs1, lookup_insert_eq|done|].
  rewrite run_bind, Hr, run_bind. unfold session_try. rewrite run_atomically.
  destruct (law_destroy _ _ _ L h' t1) as (t2 & Hd & Ho2); [by rewrite Ho1, lookup_insert_eq|].
  cbn [v_inner v_token put_token v1]. rewrite Hi, Hd. cbn [fst snd].
  eexists. cbn. rewrite Hl. split; [done|]. split; [done|]. unfold stored. cbn.
  rewrite Ho2, Ho1. by apply delete_insert_id.
Qed.

Lemma only_share_same label v v' h attrs : only_share label v h attrs -> v_inner v' = i ->
  stored v' = stored v -> only_share label v' h attrs.
Proof. unfold only_share, labelled. intros (_ & ? & ? & ?) ? ->. done. Qed.

(** What the two kinds of share give their reader. *)
Lemma read_installed label v h extractable scalar : length scalar = 32%nat ->
  only_share label v h (share_template (negb extractable) extractable scalar label) -> exists v',
  run (read_wrapped label) v = (if extractable then Ok scalar else Err ValidatorError.Config, v') /\
  v_inner v' = i /\ stored v' = stored v.
Proof.
  intros Hl Ho. destruct extractable; [by eapply read_extractable|].
  exists v. split; [by eapply read_refused|]. split; [apply Ho|done].
Qed.
End token_lemmas.

(** ** Properties *)
Section properties.
Context `{CO : CurveOk} {HX : Hex} {HOk : HexOk HX} {DO : DirOrder} {DOk : DirOrderOk DO} `{K : Cryptoki}
  `{!EqDecision ObjectHandle, !Countable ObjectHandle}.
Implicit Types (m : machine).

(** C27: a share on the token is either hidden or readable, as the two install
    functions promise: installed over whatever had its label, a share passes
    the audit and cannot be read back when it is not extractable, and fails
    the audit and is read back exactly, with no object left behind, when it is;
    deleting it leaves no share of that label. *)
Theorem installed_share_lifecycle i objects wrapped (L : token_laws i objects wrapped) (extractable : bool)
    scalar label m :
  v_inner (m_vault m) = i -> length scalar = 32%nat ->
  (forall h1 h2, labelled objects label (m_vault m) h1 -> labelled objects label (m_vault m) h2 -> h1 = h2) ->
  exists m1 m2 m3,
    run (if extractable then install_share_extractable scalar label else install_share scalar label) m =
      (Ok tt, m1) /\
    run (audit_share_posture label) m1 = (if extractable then Err ValidatorError.Config else Ok tt, m1) /\
    run (read_share_via_wrap label) m1 = (if extractable then Ok scalar else Err ValidatorError.Config, m2) /\
    stored objects (m_vault m2) = stored objects (m_vault m1) /\
    run (delete_share label) m2 = (Ok true, m3) /\
    run (find_share_handle label) m3 = (Ok None, m3).
Proof.
  intros Hi Hl Hu. set (tmpl := share_template (negb extractable) extractable scalar label).
  destruct (run_install i objects wrapped L label (negb extractable) extractable scalar (m_vault m) Hi Hu)
    as (h & v1 & Hinst & Ho1).
  destruct (read_installed i objects wrapped L label v1 h extractable scalar Hl Ho1) as (v2 & Hread & Hi2 & Hs2).
  pose proof (only_share_same i objects label v1 v2 h tmpl Ho1 Hi2 Hs2) as Ho2.
  destruct (run_erase i objects wrapped L label v2 h tmpl Ho2) as (v3 & Herase & Hi3 & Hs3).
  pose proof (find_none i objects wrapped L label v3 Hi3
    (labelled_delete objects label v2 v3 h ltac:(apply Ho2) Hs3)) as Hfind.
  pose proof (audit_installed i objects wrapped L label v1 h _ _ scalar Ho1) as Haudit.
  set (at_vault v := {| m_host := m_host m; m_vault := v |}).
  exists (at_vault v1), (at_vault v2), (at_vault v3).
  assert (run (if extractable then install_share_extractable scalar label else install_share scalar label) m =
    (Ok tt, at_vault v1)) as Hrun.
  { transitivity (run (locked (install tmpl label)) m); [by destruct extractable|]. unfold tmpl. by rewrite run_locked, Hinst. }
  unfold audit_share_posture, read_share_via_wrap, delete_share, find_share_handle.
  split_and!; [done| | |done|..]; rewrite run_locked; cbn [m_vault m_host at_vault].
  - rewrite Haudit. by destruct extractable.
  - by rewrite Hread.
  - by rewrite Herase.
  - by rewrite Hfind.
Qed.

(** The token store answers every sequence of calls of the [ShareStore]
    trait as the in-memory store does, lists up to their order, when its
    session lives, its AES-GCM opens what it seals, the disk does not fail and
    the directory starts without share files. *)
Theorem hsm_store_equals_mock i aes unaes dir calls m :
  seals i aes unaes -> v_inner (m_vault m) = i -> no_faults (m_host m) ->
  (forall p b, files (m_host m) !! p = Some b -> is_share_file p = true ->
     p <> path_join dir (path_file_name p)) ->
  Forall wf_call calls ->
  Forall2 same_answer (answers (SS := Pkcs11ShareStore dir) calls m) (answers (SS := MockShareStore) calls ∅).
Proof.
  intros Hi Hm Hn Hempty Hwf.
  assert (hsm_sim i unaes dir m ∅) as Hsim.
  { split; [done|]. split; [done|done|]. intros p b Hp Hs E. by edestruct Hempty. }
  clear Hm Hn Hempty. revert m Hsim. generalize (∅ : mock).
  induction Hwf as [|c calls Hc _ IH]; intros mk m Hsim; cbn; [constructor|].
  pose proof (hsm_answer_sim i aes unaes Hi dir c m mk Hsim Hc) as H.
  destruct (answer (SS := Pkcs11ShareStore dir) c m) as [a m'].
  destruct (answer (SS := MockShareStore) c mk) as [a' mk'].
  destruct H as [Ha Hs]. constructor; [done|]. by apply IH.
Qed.
End properties.

(** ** A token in memory *)
Record toy_token_state : Type := { toy_objects : gmap positive (list Attribute); toy_logged : bool }.
Definition toy_tag (iv : bytes) : bytes := take 16 (iv ++ replicate 16 Byte.x00).
Definition toy_seal (iv pt : bytes) : bytes := rev pt ++ toy_tag iv.
Definition toy_open (iv ct : bytes) : option bytes :=
  let n := (length ct - 16)%nat in
  if decide (drop n ct = toy_tag iv) then Some (rev (take n ct)) else None.
Definition toy_add (template : list Attribute) (t : toy_token_state) : option positive * toy_token_state :=
  let h := fresh (dom (toy_objects t)) in
  (Some h, {| toy_objects := <[h := template]> (toy_objects t); toy_logged := toy_logged t |}).

Definition toy_hsm : Cryptoki := {|
  token := toy_token_state;
  Slot := unit;
  PSession := unit;
  ObjectHandle := positive;
  load_module path t := (Some tt, t);
  initialize t := (Some tt, t);
  get_all_slots t := (Some [tt], t);
  get_token_label _ t := (Some (ascii "tardus"), t);
  open_rw_session _ t := (Some tt, t);
  close_session _ t := t;
  login _ pin t :=
    if toy_logged t then (Err (ascii "CKR_USER_ALREADY_LOGGED_IN"), t)
    else if decide (pin = ascii "1234") then (Ok tt, {| toy_objects := toy_objects t; toy_logged := true |})
    else (Err (ascii "CKR_PIN_INCORRECT"), t);
  find_objects _ template t :=
    (Some (map_to_list (filter (λ o, Forall (.∈ o.2) template) (toy_objects t))).*1, t);
  create_object _ template t := toy_add template t;
  destroy_object _ h t :=
    match toy_objects t !! h with
    | Some _ => (Some tt, {| toy_objects := delete h (toy_objects t); toy_logged := toy_logged t |})
    | None => (None, t)
    end;
  wrap_key_with _ _ h t :=
    (attrs ← toy_objects t !! h; if decide (AExtractable false ∈ attrs) then None else @rev byte <$> first_value attrs, t);
  unwrap_key_with _ _ w template t := toy_add (template ++ [AValue (rev w)]) t;
  get_attributes _ h types t :=
    (filter (λ a, reveals (default [] (toy_objects t !! h)) types a = true) <$> toy_objects t !! h, t);
  gcm_encrypt _ iv _ pt t := (Some (toy_seal iv pt), t);
  gcm_decrypt _ iv _ ct t := (toy_open iv ct, t);
|}.
#[local] Existing Instance toy_hsm.
#[local] Instance toy_handle_eq : EqDecision (ObjectHandle (Cryptoki := toy_hsm)) := Pos.eq_dec.
#[local] Instance toy_handle_countable : Countable (ObjectHandle (Cryptoki := toy_hsm)) := pos_countable.

Definition toy_inner : Pkcs11Inner (K := toy_hsm) := {| session := tt : PSession; wrap_key := 1%positive : ObjectHandle |}.

Lemma toy_seals : seals toy_inner toy_seal toy_open.
Proof.
  split; [done|done|..]; intros iv pt; unfold toy_open, toy_seal, toy_tag.
  - rewrite length_app, length_rev, length_take, length_app, length_replicate.
    replace (length pt + _ - 16)%nat with (length (rev pt)) by (rewrite length_rev; lia).
    rewrite drop_app_length, take_app_length, rev_involutive. by rewrite decide_True.
  - rewrite length_app, length_rev, length_take, length_app, length_replicate. lia.
Qed.

(** A lookup, by the handles' own order. *)
Ltac at_toy H :=
  let T := type of H in
  match T with ?m !! ?h = ?r => change ((m : gmap positive (list Attribute)) !! (h : positive) = r) in H end; cbn.
Lemma toy_laws : token_laws (K := toy_hsm) toy_inner toy_objects (@rev byte).
Proof.
  split.
  - intros template t. eexists. split; [done|]. intros h. rewrite list_elem_of_fmap. split.
    + intros ([h' attrs] & -> & H%elem_of_map_to_list). apply map_lookup_filter_Some in H. by exists attrs.
    + intros (attrs & Ha & Hm). exists (h, attrs). split; [done|].
      by apply elem_of_map_to_list, map_lookup_filter_Some.
  - intros sensitive extractable value label t. eexists _, _. split; [done|]. split; [|done].
    apply not_elem_of_dom, is_fresh.
  - intros h t [attrs Ha]. at_toy Ha. rewrite Ha. by eexists.
  - intros h attrs value t Ha He Hv. at_toy Ha. rewrite Ha. cbn. rewrite decide_False by done. by rewrite Hv.
  - intros h attrs t Ha He. at_toy Ha. rewrite Ha. cbn. by rewrite decide_True.
  - intros label value t. eexists _, _. split; [done|]. split; [apply not_elem_of_dom, is_fresh|].
    cbn. by rewrite rev_involutive.
  - intros h attrs types t Ha. at_toy Ha. rewrite Ha. by eexists.
Qed.

#[local] Existing Instance toy.
#[local] Existing Instance toy_ok.
#[local] Existing Instance toy_hex.
#[local] Existing Instance toy_hex_ok.
#[local] Existing Instance toy_order.
#[local] Existing Instance toy_order_ok.

(** The wrap key, and a share from before. *)
Definition demo_label : bytes := ascii "share-3".
Definition demo_machine : machine (K := toy_hsm) := {|
  m_host := demo_host;
  m_vault := {|
    v_inner := toy_inner;
    v_token := {|
      toy_objects := <[1%positive := [AClass_SecretKey; AKeyType_Aes; ALabel (ascii "wrap")]]>
        {[2%positive := share_template true false (replicate 32 Byte.x05) demo_label]};
      toy_logged := true |} : token |} |}.

Lemma demo_labelled (h : ObjectHandle) :
  labelled (toy_objects : token -> _) demo_label (m_vault demo_machine) h -> h = 2%positive.
Proof.
  intros (attrs & H & M). unfold stored, demo_machine in H. cbn [m_vault v_token toy_objects] in H. at_toy H.
  apply lookup_insert_Some in H as [[<- <-]|[_ H]].
  - apply (bool_decide_pack _) in M. by vm_compute in M.
  - by apply lookup_singleton_Some in H as [<- _].
Qed.

Lemma installed_share_lifecycle_witness :
  exists m1 m2 m3,
    run (install_share_extractable (replicate 32 Byte.x07) demo_label) demo_machine = (Ok tt, m1) /\
    run (audit_share_posture demo_label) m1 = (Err ValidatorError.Config, m1) /\
    run (read_share_via_wrap demo_label) m1 = (Ok (replicate 32 Byte.x07), m2) /\
    stored (toy_objects : token -> _) (m_vault m2) = stored (toy_objects : token -> _) (m_vault m1) /\
    run (delete_share demo_label) m2 = (Ok true, m3) /\
    run (find_share_handle demo_label) m3 = (Ok None, m3).
Proof.
  apply (installed_share_lifecycle toy_inner toy_objects (@rev byte) toy_laws true).
  - reflexivity.
  - reflexivity.
  - intros h1 h2 H1%demo_labelled H2%demo_labelled. by rewrite H1, H2.
Defined.

Lemma hsm_store_equals_mock_witness :
  Forall2 same_answer (answers (SS := Pkcs11ShareStore demo_dir) demo_calls demo_machine)
    (answers (SS := MockShareStore) demo_calls ∅).
Proof.
  apply (hsm_store_equals_mock toy_inner toy_seal toy_open demo_dir demo_calls demo_machine toy_seals).
  - reflexivity.
  - reflexivity.
  - intros p b Hp. exfalso. revert Hp. unfold files, demo_machine. cbn. by rewrite lookup_empty.
  - repeat (apply Forall_cons; split; [first [exact I|apply demo_record_wf; done]|]). constructor.
Defined.

(** Opening logs in; reopening accepts that the token already is logged in. *)
Definition demo_inputs (pin : bytes) : ReopenInputs :=
  {| slot_label := ascii " tardus "; user_pin := pin; wrap_key_label := ascii "wrap" |}.
Definition demo_token (logged : bool) : token (Cryptoki := toy_hsm) :=
  {| toy_objects := toy_objects (v_token (m_vault demo_machine)); toy_logged := logged |}.
Definition opened_key (r : res ValidatorError.t (Pkcs11Inner (K := toy_hsm))) : option positive :=
  match r with Ok i => Some (wrap_key i : positive) | _ => None end.
Example demo_open :
  (λ '(pin, logged), opened_key (run (Pkcs11ShareStore_open [] (demo_inputs pin)) (demo_token logged)).1) <$>
    [(ascii "1234", false); (ascii "0000", false); (ascii "1234", true)] = [Some 1%positive; None; None].
Proof. by vm_compute. Qed.
Example demo_reopen :
  opened_key (run (login_session (demo_inputs (ascii "1234"))) (demo_token true)).1 = Some 1%positive.
Proof. by vm_compute. Qed.
