(* ===== verification/Keys.v ===== *)
(** * tardus-wallet: errors, keys from a mnemonic, sealed boxes

    Models [crates/tardus-wallet/src/{error,mnemonic,sealed_box}.rs].  The
    crate [bip39] and the Montgomery form of the curve (x25519) are classes
    with their laws. *)
From S2P Require Import Prelude Crypto ToyCurve Async Platform ToyPlatform Core MintBase Refresh ClientBase.

(** ** Third-party code *)
Class Bip39 : Type := {
  mnemonic : Type;
  mnemonic_from_entropy : bytes -> option mnemonic;
  mnemonic_parse : bytes -> option mnemonic;
  mnemonic_to_string : mnemonic -> bytes;
  mnemonic_to_seed : mnemonic -> bytes -> bytes;
}.
Class Bip39Ok (B : Bip39) : Prop := {
  mnemonic_to_seed_length m pass : length (mnemonic_to_seed m pass) = 64%nat;
  mnemonic_parse_to_string m : mnemonic_parse (mnemonic_to_string m) = Some m;
  mnemonic_from_entropy_total e : length e = 16%nat \/ length e = 32%nat -> is_Some (mnemonic_from_entropy e);
}.

(** [MontgomeryPoint] is its 32 bytes. *)
Class X25519 `{C : Curve} : Type := {
  mont_of_point : point -> bytes;
  mont_mul : scalar -> bytes -> bytes;
  X25519_BASEPOINT : bytes;
  sc_from_bytes_mod_order : bytes -> scalar;
  hkdf_sha256 : bytes -> bytes -> bytes -> nat -> bytes;
}.
Arguments X25519 C : clear implicits.
Class X25519Ok {C : Curve} (X : X25519 C) : Prop := {
  mont_of_point_length P : length (mont_of_point P) = 32%nat;
  mont_mul_of_point a P : mont_mul a (mont_of_point P) = mont_of_point (pt_mul a P);
  mont_base : X25519_BASEPOINT = mont_of_point pt_base;
}.

(** ** error.rs: of a rejection, the status only; 0 stands for failures that
    are not answers of a validator. *)
Module WalletError.
Inductive t : Type :=
| Http
| Json
| ValidatorRejected (status : Z)
| Hex
| BadLength (expected got : Z)
| UnexpectedIndex (expected got : Z)
| Core (e : CoreError.t)
| Mint (e : MintError.t)
| Refresh (e : RefreshError.t)
| Client (e : ClientError.t).
End WalletError.

(** ** mnemonic.rs *)
Module WordCount.
Inductive t : Type := Twelve | TwentyFour.
Definition entropy_bytes (w : t) : nat := match w with Twelve => 16 | TwentyFour => 32 end.
End WordCount.

Section keys.
Context `{C : Curve} `{B : Bip39}.

Definition generate_mnemonic (word_count : WordCount.t) (r : rng) : res WalletError.t (mnemonic * rng) :=
  let '(entropy, r) := rng_fill (WordCount.entropy_bytes word_count) r in
  m ← ok_or (WalletError.ValidatorRejected 0) (mnemonic_from_entropy entropy);
  Ok (m, r).

Definition derive_receiving_keypair (master_seed : bytes) : bytes * bytes :=
  let wide := hkdf_sha512 (ascii "TARDUS-recv-id-v1") master_seed (ascii "ed25519-keypair") 64 in
  let sk := sc_from_wide wide in
  (sc_to_bytes sk, pt_compress (sk ⋅ pt_base)%pt).

Definition derive_master_seed (m : mnemonic) (passphrase : bytes) : bytes :=
  take 32 (mnemonic_to_seed m passphrase).

Definition parse_mnemonic (phrase : bytes) : res WalletError.t mnemonic :=
  ok_or (WalletError.ValidatorRejected 0) (mnemonic_parse phrase).
End keys.

(** ** sealed_box.rs *)
Module SealedBoxError.
Inductive t : Type := BadRecipient | BadSecret | SealedTooShort (got least : Z) | AeadFailure.
End SealedBoxError.

Definition HKDF_SALT : bytes := ascii "TARDUS-sealed-box-v1".
Definition NONCE_INFO : bytes := ascii "chacha20poly1305-nonce".
Definition KEY_INFO : bytes := ascii "chacha20poly1305-key".
Definition EPHEMERAL_KEY_LEN : nat := 32.

(** [b[i] = f b[i]] *)
Definition set_byte (i : nat) (f : Z -> Z) (b : bytes) : bytes :=
  alter (λ x, byte_of_Z (f (Z_of_byte x))) i b.
Definition clamp (b : bytes) : bytes :=
  set_byte 31 (λ x, Z.lor x 64) (set_byte 31 (λ x, Z.land x 127) (set_byte 0 (λ x, Z.land x 248) b)).

Section sealed_box.
Context `{C : Curve} {X : X25519 C} `{A : Aead}.

Definition ed25519_pub_to_x25519 (pk : bytes) : res SealedBoxError.t bytes :=
  edwards ← ok_or SealedBoxError.BadRecipient (pt_decompress pk);
  Ok (mont_of_point edwards).

Definition ed25519_secret_to_x25519 (sk : bytes) : res SealedBoxError.t scalar :=
  ok_or SealedBoxError.BadSecret (sc_from_canonical sk).

Definition derive_key_and_nonce (shared info1 info2 : bytes) : bytes * bytes :=
  (hkdf_sha256 HKDF_SALT shared (KEY_INFO ++ info1 ++ info2) 32,
   hkdf_sha256 HKDF_SALT shared (NONCE_INFO ++ info1 ++ info2) 12).

Definition seal (plaintext recipient_ed25519_pk : bytes) (r : rng) : res SealedBoxError.t (bytes * rng) :=
  recipient_x ← ed25519_pub_to_x25519 recipient_ed25519_pk;
  let '(esk_bytes, r) := rng_fill 32 r in
  let esk := sc_from_bytes_mod_order (clamp esk_bytes) in
  let epk := mont_mul esk X25519_BASEPOINT in
  let shared := mont_mul esk recipient_x in
  let '(key, nonce_bytes) := derive_key_and_nonce shared epk recipient_x in
  ct ← ok_or SealedBoxError.AeadFailure (aead_encrypt key nonce_bytes plaintext);
  Ok (epk ++ ct, r).

Definition open (sealed recipient_ed25519_sk : bytes) : res SealedBoxError.t bytes :=
  let MIN_LEN := (EPHEMERAL_KEY_LEN + 16)%nat in
  _ ← reject_if (length sealed <? MIN_LEN)%nat
        (SealedBoxError.SealedTooShort (Z.of_nat (length sealed)) (Z.of_nat MIN_LEN));
  let epk := take EPHEMERAL_KEY_LEN sealed in
  let ct := drop EPHEMERAL_KEY_LEN sealed in
  sk_scalar ← ed25519_secret_to_x25519 recipient_ed25519_sk;
  let shared := mont_mul sk_scalar epk in
  let recipient_pub_x := mont_mul sk_scalar X25519_BASEPOINT in
  let '(key, nonce_bytes) := derive_key_and_nonce shared epk recipient_pub_x in
  ok_or SealedBoxError.AeadFailure (aead_decrypt key nonce_bytes ct).
End sealed_box.

(** ** Lemmas *)
Section key_lemmas.
Context `{CO : CurveOk} {X : X25519 C} {XO : X25519Ok X} `{A : Aead} {AOk : AeadOk A}.
Add Field keys_field : sc_field.

(** Both sides of a sealed box compute one shared secret. *)
Lemma shared_secret a b :
  mont_mul a (mont_of_point (b ⋅ pt_base)%pt) = mont_mul b (mont_of_point (a ⋅ pt_base)%pt).
Proof using All.
  rewrite !mont_mul_of_point, <- !pt_mul_mul by auto with tardus.
  by replace (a * b)%sc with (b * a)%sc by ring.
Qed.

Lemma seal_ok plaintext sk r : Z.of_nat (length plaintext) < 2 ^ 36 -> exists ct r',
  seal plaintext (pt_compress (sk ⋅ pt_base)%pt) r = Ok (ct, r') /\
  length ct = (length plaintext + 48)%nat /\ open ct (sc_to_bytes sk) = Ok plaintext.
Proof using All.
  intros Hlen. unfold seal, ed25519_pub_to_x25519. rewrite pt_decompress_compress. step.
  destruct (rng_fill 32 r) as [e r']. set (esk := sc_from_bytes_mod_order (clamp e)).
  unfold derive_key_and_nonce. rewrite mont_base, (mont_mul_of_point esk pt_base).
  set (epk := mont_of_point (esk ⋅ pt_base)%pt).
  destruct (aead_total (hkdf_sha256 HKDF_SALT (mont_mul esk (mont_of_point (sk ⋅ pt_base)%pt))
      (KEY_INFO ++ epk ++ mont_of_point (sk ⋅ pt_base)%pt) 32)
    (hkdf_sha256 HKDF_SALT (mont_mul esk (mont_of_point (sk ⋅ pt_base)%pt))
      (NONCE_INFO ++ epk ++ mont_of_point (sk ⋅ pt_base)%pt) 12) plaintext Hlen) as [ct Hct].
  rewrite Hct. step. exists (epk ++ ct), r'. pose proof (aead_length _ _ _ _ Hct) as Hl.
  assert (length epk = 32%nat) as He by apply mont_of_point_length.
  split_and!; [done|rewrite length_app; lia|].
  unfold open. rewrite length_app, He.
  replace (32 + length ct <? EPHEMERAL_KEY_LEN + 16)%nat with false
    by (symmetry; apply Nat.ltb_ge; unfold EPHEMERAL_KEY_LEN; lia).
  step. unfold ed25519_secret_to_x25519. rewrite sc_canonical_to_bytes. step.
  rewrite take_app_length', drop_app_length' by done. rewrite mont_base, (mont_mul_of_point sk pt_base).
  unfold derive_key_and_nonce, epk. rewrite (shared_secret sk esk). fold epk.
  by rewrite (aead_decrypt_encrypt _ _ _ _ Hct).
Qed.
End key_lemmas.

(** ** Properties *)
Section key_properties.
Context `{CO : CurveOk} {X : X25519 C} {XO : X25519Ok X} `{A : Aead} {AOk : AeadOk A}.

(** What is sealed to the receiving identity of a master seed opens, under
    the secret derived from the same seed, to the plaintext, 48 bytes longer
    on the wire; a box cut below that length and a secret that is not a
    canonical scalar are refused with their errors. *)
Theorem sealed_box_roundtrip master_seed plaintext r : Z.of_nat (length plaintext) < 2 ^ 36 ->
  let '(sk, pk) := derive_receiving_keypair master_seed in
  exists sealed r', seal plaintext pk r = Ok (sealed, r') /\
    length sealed = (length plaintext + 48)%nat /\ open sealed sk = Ok plaintext /\
    (forall n, (n < 48)%nat -> open (take n sealed) sk = Err (SealedBoxError.SealedTooShort (Z.of_nat n) 48)) /\
    (forall sk', sc_from_canonical sk' = None -> open sealed sk' = Err SealedBoxError.BadSecret).
Proof using All.
  intros Hlen. unfold derive_receiving_keypair.
  destruct (seal_ok plaintext (sc_from_wide (hkdf_sha512 (ascii "TARDUS-recv-id-v1") master_seed
    (ascii "ed25519-keypair") 64)) r Hlen) as (sealed & r' & Hs & Hl & Ho).
  exists sealed, r'. split_and!; [done..| |].
  - intros n Hn. unfold open. rewrite length_take, Nat.min_l by lia.
    by replace (n <? EPHEMERAL_KEY_LEN + 16)%nat with true by (symmetry; apply Nat.ltb_lt; done).
  - intros sk' Hsk. unfold open, ed25519_secret_to_x25519. rewrite Hl, Hsk.
    by replace (length plaintext + 48 <? EPHEMERAL_KEY_LEN + 16)%nat with false
      by (symmetry; apply Nat.ltb_ge; unfold EPHEMERAL_KEY_LEN; lia).
Qed.
End key_properties.

(** ** Concrete instances *)
Definition toy_bip39 : Bip39 := {|
  mnemonic := bytes;
  mnemonic_from_entropy e := Some e;
  mnemonic_parse s := match s with [] => None | _ :: m => Some m end;
  mnemonic_to_string m := dot :: m;
  mnemonic_to_seed m pass := toy_digest 64 (m ++ pass);
|}.
Lemma toy_bip39_ok : Bip39Ok toy_bip39.
Proof. split; [intros; apply length_le_bytes|done|by eexists]. Qed.

Definition toy_x25519 : X25519 toy := {|
  mont_of_point P := pt_compress (Curve := toy) P;
  mont_mul a b := match pt_decompress (Curve := toy) b with
                  | Some P => pt_compress (Curve := toy) (pt_mul (Curve := toy) a P)
                  | None => repeat Byte.x00 32
                  end;
  X25519_BASEPOINT := pt_compress (Curve := toy) (pt_base (Curve := toy));
  sc_from_bytes_mod_order b := sc_from_wide (Curve := toy) b;
  hkdf_sha256 salt ikm info n := toy_digest n (salt ++ ikm ++ info);
|}.
Lemma toy_x25519_ok : X25519Ok toy_x25519.
Proof.
  pose proof toy_ok. split; [intros P|intros a P|done]; cbn [toy_x25519 mont_of_point mont_mul].
  - apply pt_compress_length.
  - by rewrite pt_decompress_compress.
Qed.

#[local] Existing Instance toy.
#[local] Existing Instance toy_ok.
#[local] Existing Instance toy_x25519.
#[local] Existing Instance toy_x25519_ok.
#[local] Existing Instance toy_aead.
#[local] Existing Instance toy_aead_ok.

Lemma sealed_box_roundtrip_witness :
  let '(sk, pk) := derive_receiving_keypair (repeat Byte.x05 32) in
  exists sealed r', seal (ascii "a coin") pk (3 : rng) = Ok (sealed, r') /\
    length sealed = (6 + 48)%nat /\ open sealed sk = Ok (ascii "a coin") /\
    (forall n, (n < 48)%nat -> open (take n sealed) sk = Err (SealedBoxError.SealedTooShort (Z.of_nat n) 48)) /\
    (forall sk', sc_from_canonical sk' = None -> open sealed sk' = Err SealedBoxError.BadSecret).
Proof. apply (sealed_box_roundtrip (C := toy) (repeat Byte.x05 32) (ascii "a coin") 3). reflexivity. Defined.
