(* ===== verification/WalletStore.v ===== *)
(** * tardus-wallet: the wallet file and the keysets file

    Models [crates/tardus-wallet/src/{wallet_db,keysets}.rs].  Both files hold
    a Borsh value sealed under the master seed and are written through a
    temporary file; the source repeats that code, here it is one section. *)
From S2P Require Import Prelude Crypto ToyCurve Async Platform ToyPlatform Wire Core MintBase Refresh ClientBase Client.
From S2P Require Import Storage Keys.

(** [Path::exists]: false also when the file cannot be inspected. *)
Definition disk_exists (path : bytes) (d : disk) : bool * disk :=
  let '(fault, d) := next_fault d in
  match fault with
  | Some _ => (false, d)
  | None => (bool_decide (is_Some (d_files d !! path)), d)
  end.

(** ** Sealed files *)
Section sealed_file.
Context `{C : Curve} `{A : Aead} {X : Type} (fresh : X) (to_vec : X -> bytes) (read : reader X).

(** The error of every I/O and decoding failure. *)
Definition file_error : WalletError.t := WalletError.ValidatorRejected 0.

Definition sealed_open (path master_seed : bytes) : io host WalletError.t X :=
  present ← atomically (λ h, let '(b, d) := disk_exists path (h_disk h) in (b, set_disk h d));
  if negb present then mret fresh
  else
    sealed ← on_disk (λ _, file_error) (disk_read path);
    plaintext ← lift (map_err WalletError.Client (open_backup master_seed sealed));
    lift (ok_or file_error (try_from_slice read plaintext)).

Definition sealed_save (path master_seed : bytes) (store : X) : io host WalletError.t unit :=
  sealed ← draw (λ r, match seal_backup master_seed (to_vec store) r with
                      | Ok (sealed, r') => (Ok sealed, r')
                      | Err e => (Err e, r)
                      | Panic => (Panic, r)
                      end);
  sealed ← lift (map_err WalletError.Client sealed);
  let tmp := path_with_extension path (ascii "tmp") in
  _ ← on_disk (λ _, file_error) (disk_write tmp sealed);
  on_disk (λ _, file_error) (disk_rename tmp path).
End sealed_file.

(** ** wallet_db.rs *)
Record WalletDb : Type := { wdb_path : bytes; wdb_store : CoinStore }.

Section wallet_db.
Context `{C : Curve} `{A : Aead}.

Definition WalletDb_open (path master_seed : bytes) : io host WalletError.t WalletDb :=
  store ← sealed_open CoinStore_new CoinStore_read path master_seed;
  mret {| wdb_path := path; wdb_store := store |}.
Definition WalletDb_save (db : WalletDb) (master_seed : bytes) : io host WalletError.t unit :=
  sealed_save CoinStore_to_vec (wdb_path db) master_seed (wdb_store db).
End wallet_db.

(** ** keysets.rs *)
Record KeysetInfo : Type := {
  ki_joint_pk_hex : bytes;
  ki_denom : Z;
  ki_validators : list bytes;
  ki_ca_cert_path : option bytes;
  ki_client_cert_path : option bytes;
}.
Record KeysetStore : Type := { ks_entries : gmap bytes KeysetInfo }.

Definition KeysetStore_new : KeysetStore := {| ks_entries := ∅ |}.
Definition KeysetStore_upsert (s : KeysetStore) (name : bytes) (info : KeysetInfo) : KeysetStore :=
  {| ks_entries := <[name := info]> (ks_entries s) |}.
Definition KeysetStore_remove (s : KeysetStore) (name : bytes) : option KeysetInfo * KeysetStore :=
  (ks_entries s !! name, {| ks_entries := delete name (ks_entries s) |}).
Definition KeysetStore_get (s : KeysetStore) (name : bytes) : option KeysetInfo := ks_entries s !! name.
Definition KeysetStore_len (s : KeysetStore) : Z := Z.of_nat (size (ks_entries s)).
Definition KeysetStore_is_empty (s : KeysetStore) : bool := KeysetStore_len s =? 0.

Definition KeysetInfo_to_vec (i : KeysetInfo) : bytes :=
  borsh_bytes (ki_joint_pk_hex i) ++ le_bytes 8 (ki_denom i) ++ borsh_vec borsh_bytes (ki_validators i) ++
  borsh_option borsh_bytes (ki_ca_cert_path i) ++ borsh_option borsh_bytes (ki_client_cert_path i).
Definition KeysetInfo_read : reader KeysetInfo :=
  joint_pk_hex ← read_string;
  denom ← read_u64;
  validators ← read_vec read_string;
  ca_cert_path ← read_option read_string;
  client_cert_path ← read_option read_string;
  mret {| ki_joint_pk_hex := joint_pk_hex; ki_denom := denom; ki_validators := validators;
          ki_ca_cert_path := ca_cert_path; ki_client_cert_path := client_cert_path |}.

(** A [BTreeMap] is written in the order of its keys, strings by their bytes,
    and read back as a sequence of insertions. *)
Definition by_name (a b : bytes * KeysetInfo) : Prop := bytes_leb a.1 b.1 = true.
#[global] Instance by_name_dec a b : Decision (by_name a b).
Proof. unfold by_name. apply _. Defined.

Definition sorted_entries (m : gmap bytes KeysetInfo) : list (bytes * KeysetInfo) :=
  merge_sort by_name (map_to_list m).
Definition entry_to_vec (e : bytes * KeysetInfo) : bytes := borsh_bytes e.1 ++ KeysetInfo_to_vec e.2.
Definition entry_read : reader (bytes * KeysetInfo) :=
  name ← read_string; info ← KeysetInfo_read; mret (name, info).
Definition KeysetStore_to_vec (s : KeysetStore) : bytes :=
  borsh_vec entry_to_vec (sorted_entries (ks_entries s)).
Definition KeysetStore_read : reader KeysetStore :=
  entries ← read_vec entry_read;
  mret {| ks_entries := foldl (λ m e, <[e.1 := e.2]> m) ∅ entries |}.

Record KeysetDb : Type := { kdb_path : bytes; kdb_store : KeysetStore }.

Section keyset_db.
Context `{C : Curve} `{A : Aead}.

Definition KeysetDb_open (path master_seed : bytes) : io host WalletError.t KeysetDb :=
  store ← sealed_open KeysetStore_new KeysetStore_read path master_seed;
  mret {| kdb_path := path; kdb_store := store |}.
Definition KeysetDb_save (db : KeysetDb) (master_seed : bytes) : io host WalletError.t unit :=
  sealed_save KeysetStore_to_vec (kdb_path db) master_seed (kdb_store db).
End keyset_db.

(** ** Lemmas *)
Section keyset_lemmas.
Lemma bytes_leb_total a b : bytes_leb a b = true \/ bytes_leb b a = true.
Proof.
  revert b; induction a as [|x a IH]; intros [|y b]; cbn; [by left..|by right|].
  rewrite !orb_true_iff, !andb_true_iff, !Z.ltb_lt, !Z.eqb_eq. destruct (IH b); lia || (destruct (Z.lt_total (Z_of_byte x) (Z_of_byte y)) as [?|[?|?]]; auto).
Qed.

Definition wf_string (s : bytes) : Prop := utf8_valid s = true /\ Z.of_nat (length s) < 2 ^ 32.
Definition wf_keyset (i : KeysetInfo) : Prop :=
  wf_string (ki_joint_pk_hex i) /\ u64 (ki_denom i) /\ Z.of_nat (length (ki_validators i)) < 2 ^ 32 /\
  Forall wf_string (ki_validators i) /\ (forall s, ki_ca_cert_path i = Some s -> wf_string s) /\
  (forall s, ki_client_cert_path i = Some s -> wf_string s).
Definition wf_keysets (s : KeysetStore) : Prop :=
  Z.of_nat (size (ks_entries s)) < 2 ^ 32 /\
  map_Forall (λ name i, wf_string name /\ wf_keyset i) (ks_entries s).

Lemma reads_wf_string s : wf_string s -> reads read_string (borsh_bytes s) s.
Proof. intros [? ?]. by apply reads_string. Qed.
#[local] Hint Resolve reads_wf_string : wire.

Lemma reads_KeysetInfo i : wf_keyset i -> reads KeysetInfo_read (KeysetInfo_to_vec i) i.
Proof.
  intros (H1 & H2 & H3 & H4 & H5 & H6). unfold KeysetInfo_read, KeysetInfo_to_vec.
  destruct i as [pk d vs ca cc]. cbn [ki_joint_pk_hex ki_denom ki_validators ki_ca_cert_path ki_client_cert_path] in *.
  rewrite Forall_forall in H4. solve_reads.
Qed.

Lemma foldl_insert_list_to_map (l : list (bytes * KeysetInfo)) (m : gmap bytes KeysetInfo) : NoDup l.*1 -> (forall k, k ∈ l.*1 -> m !! k = None) ->
  foldl (λ m e, <[e.1 := e.2]> m) m l = list_to_map l ∪ m.
Proof.
  revert m; induction l as [|[k v] l IH]; intros m Hnd Hm; cbn; [by rewrite map_empty_union|].
  cbn in Hnd. apply NoDup_cons in Hnd as [Hk Hnd]. rewrite IH; [|done|].
  - rewrite <- insert_union_r by (by apply not_elem_of_list_to_map_1). by rewrite insert_union_l.
  - intros k' Hk'. rewrite lookup_insert_ne by (intros ->; done). apply Hm. by right.
Qed.

Lemma reads_KeysetStore s : wf_keysets s -> reads KeysetStore_read (KeysetStore_to_vec s) s.
Proof.
  intros [Hsz Hall]. unfold KeysetStore_read, KeysetStore_to_vec.
  assert (sorted_entries (ks_entries s) ≡ₚ map_to_list (ks_entries s)) as Hp by apply merge_sort_Permutation.
  assert (foldl (λ m e, <[e.1 := e.2]> m) ∅ (sorted_entries (ks_entries s)) = ks_entries s) as Hm.
  { rewrite foldl_insert_list_to_map, map_union_empty; [|by rewrite Hp; apply NoDup_fst_map_to_list|done].
    rewrite (list_to_map_proper _ (map_to_list (ks_entries s))), list_to_map_to_list; [done| |done].
    rewrite Hp. apply NoDup_fst_map_to_list. }
  destruct s as [m]. cbn [ks_entries] in *. rewrite <- Hm at 2.
  apply (reads_bind_last _ (λ l, {| ks_entries := foldl (λ m e, <[e.1 := e.2]> m) ∅ l |})), reads_vec.
  - by rewrite Hp, length_map_to_list.
  - intros [k i]. rewrite Hp. intros [Hk Hi]%elem_of_map_to_list%Hall.
    unfold entry_read, entry_to_vec. cbn [fst snd]. eapply reads_bind; [by apply reads_wf_string|].
    apply (reads_bind_last _ (λ i, (k, i))). by apply reads_KeysetInfo.
Qed.
End keyset_lemmas.

Section sealed_lemmas.
Context `{CO : CurveOk} `{A : Aead} {AOk : AeadOk A}.
Context {X : Type} (fresh : X) (to_vec : X -> bytes) (read : reader X).
Implicit Types h : host.

(** The files hold [x] at [path], sealed under [seed]. *)
Definition stored (m : gmap bytes bytes) (path seed : bytes) (x : X) : Prop :=
  match m !! path with
  | None => x = fresh
  | Some sealed => exists p, open_backup seed sealed = Ok p /\ try_from_slice read p = Some x
  end.
(** What opening the file gives when nothing fails. *)
Definition opens_to (m : gmap bytes bytes) (path seed : bytes) (x : X) : Prop :=
  forall h, files h = m -> no_faults h -> run (sealed_open fresh read path seed) h = (Ok x, h).

Lemma run_exists path h : no_faults h ->
  run (atomically (E := WalletError.t) (λ h, let '(b, d) := disk_exists path (h_disk h) in (b, set_disk h d))) h =
    (Ok (bool_decide (is_Some (files h !! path))), h).
Proof using.
  unfold no_faults, disk_exists, next_fault, files. destruct h as [[m l] r i u]. cbn. by intros ->.
Qed.

Lemma run_sealed_open path seed h : no_faults h ->
  run (sealed_open fresh read path seed) h =
    (match files h !! path with
     | None => Ok fresh
     | Some sealed => plaintext ← map_err WalletError.Client (open_backup seed sealed);
                      ok_or file_error (try_from_slice read plaintext)
     end, h).
Proof using.
  intros Hf. unfold sealed_open. rewrite run_bind, run_exists by done.
  destruct (files h !! path) as [sealed|] eqn:Hp; cbn [negb].
  - rewrite bool_decide_eq_true_2 by done. cbn [negb]. rewrite run_bind, run_disk_read, Hp by done.
    cbn [ok_or map_err]. rewrite run_bind, run_lift. by destruct (open_backup seed sealed).
  - rewrite bool_decide_eq_false_2 by (by intros [? [=]]). done.
Qed.

Lemma stored_opens m path seed x : stored m path seed x -> opens_to m path seed x.
Proof using.
  unfold stored. intros Hs h <- Hf. rewrite run_sealed_open by done.
  destruct (files h !! path); [|by rewrite Hs]. destruct Hs as (p & -> & Hx). cbn. by rewrite Hx.
Qed.
Lemma opens_stored h m path seed x : opens_to m path seed x -> stored m path seed x.
Proof using.
  intros Ho. specialize (Ho (set_disk h {| d_files := m; d_faults := [] |}) eq_refl eq_refl).
  rewrite run_sealed_open in Ho by done. injection Ho as Ho. unfold stored. cbn in Ho.
  destruct (m !! path) as [sealed|]; [|by injection Ho].
  destruct (open_backup seed sealed) as [p| |]; [|done..]. cbn in Ho. exists p. split; [done|].
  by destruct (try_from_slice read p); inversion Ho.
Qed.

(** A disk operation under any faults. *)
Lemma run_write_cases {E} (f : io_error -> E) p b h : exists r h', run (on_disk f (disk_write p b)) h = (r, h') /\
  (no_faults h -> no_faults h') /\ (forall k, k <> p -> files h' !! k = files h !! k) /\
  (r = Ok tt /\ files h' = <[p := b]> (files h) \/ (exists e, r = Err e) /\ ~ no_faults h).
Proof using.
  unfold on_disk, disk_write, next_fault, no_faults, files. destruct h as [[m l] g i u]. cbn.
  destruct l as [|[kept|] l]; cbn; do 2 eexists; (split; [reflexivity|]); cbn;
    (split; [done|]); (split; [intros; by apply lookup_insert_ne|]); eauto.
Qed.
Lemma run_rename_cases {E} (f : io_error -> E) p q b h : files h !! p = Some b ->
  exists r h', run (on_disk f (disk_rename p q)) h = (r, h') /\ (no_faults h -> no_faults h') /\
  (r = Ok tt /\ files h' = <[q := b]> (delete p (files h)) \/
   (exists e, r = Err e) /\ ~ no_faults h /\ files h' = files h).
Proof using.
  unfold on_disk, disk_rename, next_fault, no_faults, files. destruct h as [[m l] g i u]. cbn. intros Hp.
  destruct l as [|[kept|] l]; cbn; rewrite ?Hp; do 2 eexists; (split; [reflexivity|]); cbn; (split; [done|]); eauto.
Qed.

(** A save touches the file and its temporary file only. *)
Definition other_files (path : bytes) (h h' : host) : Prop :=
  forall k, k <> path -> k <> path_with_extension path (ascii "tmp") -> files h' !! k = files h !! k.

(** Whatever fails during a save, the file holds the old value or the new
    one, and the result tells which. *)
Lemma sealed_save_atomic path seed x y h : path_extension path <> Some (ascii "tmp") ->
  reads read (to_vec y) y -> stored (files h) path seed x ->
  exists r h', run (sealed_save to_vec path seed y) h = (r, h') /\ (no_faults h -> no_faults h') /\
    other_files path h h' /\ (r = Ok tt /\ stored (files h') path seed y \/ (exists e, r = Err e) /\ stored (files h') path seed x) /\
    (Z.of_nat (length (to_vec y)) < 2 ^ 36 -> no_faults h -> r = Ok tt).
Proof.
  intros Hext Hy Hx. pose proof (path_with_extension_ne _ _ Hext) as Hne. unfold sealed_save.
  set (tmp := path_with_extension path (ascii "tmp")) in *.
  unfold draw. rewrite run_bind, run_atomically.
  destruct (seal_backup seed (to_vec y) (h_rng h)) as [[sealed g]|e|] eqn:Hs; cbn [fst snd].
  3:{ exfalso. revert Hs. unfold seal_backup. destruct (rng_fill _ _). by destruct (aead_encrypt _ _ _). }
  2:{ rewrite run_bind, run_lift. cbn [map_err]. do 2 eexists. split; [done|]. split; [done|]. split; [done|]. split.
      - right. split; [eauto|done].
      - intros Hl _. destruct (seal_backup_total seed (to_vec y) (h_rng h) Hl) as (? & ? & ?). congruence. }
  destruct (seal_backup_ok _ _ _ _ _ Hs) as [_ Ho]. rewrite run_bind, run_lift. cbn [map_err].
  rewrite run_bind.
  match goal with |- context [run (on_disk ?f (disk_write tmp sealed)) ?h1] =>
    destruct (run_write_cases f tmp sealed h1) as (r1 & h1' & -> & Hn1 & Hk1 & Hc1) end.
  assert (files h1' !! path = files h !! path) as Hpath by (by rewrite Hk1 by done).
  destruct Hc1 as [[-> Hf1]|[[e ->] Hnf]].
  2:{ do 2 eexists. split; [done|]. split; [done|]. split; [by intros k _ Ht; apply Hk1|]. split; [|by intros _ ?].
      right. split; [eauto|]. unfold stored in *. by rewrite Hpath. }
  match goal with |- context [run (on_disk ?f (disk_rename tmp path)) ?h1] =>
    destruct (run_rename_cases f tmp path sealed h1) as (r2 & h2 & -> & Hn2 & Hc2) end;
    [by rewrite Hf1, lookup_insert_eq|].
  do 2 eexists. split; [done|]. split; [by auto|]. split.
  { intros k Hp Ht. destruct Hc2 as [[_ Hf2]|(_ & _ & Hf2)]; rewrite Hf2, ?lookup_insert_ne, ?lookup_delete_ne by done; by apply Hk1. }
  destruct Hc2 as [[-> Hf2]|([e ->] & Hnf & Hf2)].
  - split; [left; split; [done|]|done]. unfold stored. rewrite Hf2, lookup_insert_eq. exists (to_vec y).
    split; [done|]. by apply try_from_slice_reads.
  - split; [right; split; [eauto|]|by intros _ ?%Hn1]. unfold stored in *. by rewrite Hf2, Hpath.
Qed.
End sealed_lemmas.

(** ** Properties *)
Section store_properties.
Context `{CO : CurveOk} `{A : Aead} {AOk : AeadOk A}.

(** What opening the wallet file gives when nothing fails. *)
Definition wallet_opens_to (m : gmap bytes bytes) (path seed : bytes) (s : CoinStore) : Prop :=
  forall h, files h = m -> no_faults h ->
    run (WalletDb_open path seed) h = (Ok {| wdb_path := path; wdb_store := s |}, h).

Lemma wallet_opens_iff (h : host) m path seed s :
  wallet_opens_to m path seed s <-> stored CoinStore_new CoinStore_read m path seed s.
Proof using.
  split.
  - intros Ho. apply (opens_stored _ _ h). intros h' Hm Hf. specialize (Ho h' Hm Hf).
    unfold WalletDb_open in Ho. rewrite run_bind in Ho. destruct (run (sealed_open _ _ _ _) h') as [[s'|e|] h''];
      cbn in Ho; by simplify_eq.
  - intros Hs h' Hm Hf. unfold WalletDb_open. rewrite run_bind, (stored_opens _ _ _ _ _ _ Hs) by done. done.
Qed.

(** The cases of a save, for any faults of the disk. *)
Lemma wallet_save_cases db seed s0 h : path_extension (wdb_path db) <> Some (ascii "tmp") ->
  wf_store (wdb_store db) -> wallet_opens_to (files h) (wdb_path db) seed s0 ->
  exists r h', run (WalletDb_save db seed) h = (r, h') /\
    (r = Ok tt /\ wallet_opens_to (files h') (wdb_path db) seed (wdb_store db) \/
     (exists e, r = Err e) /\ wallet_opens_to (files h') (wdb_path db) seed s0) /\
    (Z.of_nat (length (CoinStore_to_vec (wdb_store db))) < 2 ^ 36 -> no_faults h -> r = Ok tt) /\
    (no_faults h -> no_faults h') /\ other_files (wdb_path db) h h'.
Proof.
  intros Hext Hwf Ho%(wallet_opens_iff h).
  destruct (sealed_save_atomic CoinStore_new CoinStore_to_vec CoinStore_read (wdb_path db) seed s0 (wdb_store db) h)
    as (r & h' & Hr & Hn & Hk & Hc & Hok); [done|by apply reads_CoinStore|done|].
  exists r, h'. split; [exact Hr|]. by rewrite !(wallet_opens_iff h).
Qed.

(** C30: a save of the wallet is atomic: whatever disk operations fail, and
    whatever a failed write leaves behind, the file opens afterwards to the
    new coins when the save returned [Ok] and to the old ones when it returned
    an error; without failures it returns [Ok].  The file must not itself have
    the extension of the temporary file. *)
Theorem wallet_save_atomic db seed s0 h : path_extension (wdb_path db) <> Some (ascii "tmp") ->
  wf_store (wdb_store db) -> wallet_opens_to (files h) (wdb_path db) seed s0 ->
  let '(r, h') := run (WalletDb_save db seed) h in
  ((r = Ok tt /\ wallet_opens_to (files h') (wdb_path db) seed (wdb_store db)) \/
   ((exists e, r = Err e) /\ wallet_opens_to (files h') (wdb_path db) seed s0)) /\
  (Z.of_nat (length (CoinStore_to_vec (wdb_store db))) < 2 ^ 36 -> no_faults h -> r = Ok tt).
Proof.
  intros Hext Hwf Ho. by destruct (wallet_save_cases db seed s0 h Hext Hwf Ho) as (r & h' & -> & Hc & Hok & _).
Qed.

(** A keysets file is opened to the keysets saved in it, whatever their
    order of insertion, and a failed save leaves the old ones. *)
Theorem keysets_saved_and_opened db seed s0 h : path_extension (kdb_path db) <> Some (ascii "tmp") ->
  wf_keysets (kdb_store db) ->
  (forall h0, files h0 = files h -> no_faults h0 ->
     run (KeysetDb_open (kdb_path db) seed) h0 = (Ok {| kdb_path := kdb_path db; kdb_store := s0 |}, h0)) ->
  let '(r, h') := run (KeysetDb_save db seed) h in
  exists s, (r = Ok tt /\ s = kdb_store db \/ (exists e, r = Err e) /\ s = s0) /\
    forall h0, files h0 = files h' -> no_faults h0 ->
      run (KeysetDb_open (kdb_path db) seed) h0 = (Ok {| kdb_path := kdb_path db; kdb_store := s |}, h0).
Proof.
  intros Hext Hwf Ho.
  destruct (sealed_save_atomic KeysetStore_new KeysetStore_to_vec KeysetStore_read (kdb_path db) seed s0
    (kdb_store db) h) as (r & h' & Hr & _ & _ & Hc & _); [done|by apply reads_KeysetStore| |].
  { apply (opens_stored _ _ h). intros h0 Hm Hf. specialize (Ho h0 Hm Hf). unfold KeysetDb_open in Ho.
    rewrite run_bind in Ho. destruct (run (sealed_open _ _ _ _) h0) as [[s'|e|] h1]; cbn in Ho; by simplify_eq. }
  unfold KeysetDb_save. rewrite Hr.
  destruct Hc as [[-> Hs]|[He Hs]]; [exists (kdb_store db)|exists s0]; (split; [by auto|]);
    intros h0 Hm Hf; unfold KeysetDb_open; by rewrite run_bind, (stored_opens _ _ _ _ _ _ Hs).
Qed.

(** A wallet file that cannot be inspected is taken for a missing one: it
    opens to an empty wallet, and the next save replaces all coins in it by
    the ones added since. *)
Theorem unreadable_wallet_is_replaced path seed s0 coin kept h : path_extension path <> Some (ascii "tmp") ->
  wallet_opens_to (files h) path seed s0 -> d_faults (h_disk h) = [Some kept] -> wf_stored_coin coin ->
  exists db h1 store h2, run (WalletDb_open path seed) h = (Ok db, h1) /\
    wdb_store db = CoinStore_new /\ CoinStore_add (wdb_store db) coin = Ok store /\
    run (WalletDb_save {| wdb_path := path; wdb_store := store |} seed) h1 = (Ok tt, h2) /\
    cst_coins store = [coin] /\ wallet_opens_to (files h2) path seed store.
Proof.
  intros Hext Ho Hf Hwf. set (h1 := set_disk h {| d_files := files h; d_faults := [] |}).
  assert (run (WalletDb_open path seed) h = (Ok {| wdb_path := path; wdb_store := CoinStore_new |}, h1)) as Hr.
  { unfold WalletDb_open, sealed_open, disk_exists, next_fault, h1, files. destruct h as [[m l] r i u].
    cbn in Hf. subst l. done. }
  set (store := {| cst_version := 1; cst_coins := [coin] |}).
  assert (wf_store store) as Hst.
  { split_and!; [done|done|]. by intros c ->%list_elem_of_singleton. }
  destruct (sealed_save_atomic CoinStore_new CoinStore_to_vec CoinStore_read path seed s0 store h1)
    as (r & h2 & Hs & _ & _ & Hc & Hok); [done|by apply reads_CoinStore|by apply (wallet_opens_iff h)|].
  assert (Z.of_nat (length (CoinStore_to_vec store)) < 2 ^ 36) as Hl.
  { destruct Hwf as (H1 & H2 & H3 & _ & H5). unfold CoinStore_to_vec, borsh_vec, store. cbn [cst_version cst_coins fmap list_fmap].
    rewrite !length_app, !length_le_bytes. cbn [mjoin list_join]. rewrite length_app. cbn [length].
    unfold StoredCoin_to_vec. rewrite !length_app, H1, H2, H3, length_le_bytes.
    unfold CoinStatus_to_vec. rewrite length_le_bytes. unfold borsh_option.
    destruct (stc_label coin) as [l|] eqn:El; [|rewrite length_le_bytes; lia].
    destruct (H5 l eq_refl) as [_ ?]. unfold borsh_bytes. rewrite !length_app, !length_le_bytes. lia. }
  rewrite (Hok Hl eq_refl) in Hc. destruct Hc as [[_ Hc]|[[e [=]] _]].
  exists {| wdb_path := path; wdb_store := CoinStore_new |}, h1, store, h2. split_and!; [done..| | |].
  - unfold WalletDb_save. cbn [wdb_path wdb_store]. by rewrite Hs, (Hok Hl eq_refl).
  - done.
  - by apply (wallet_opens_iff h).
Qed.
End store_properties.

(** ** Witnesses *)
#[local] Existing Instance toy.
#[local] Existing Instance toy_ok.
#[local] Existing Instance toy_aead.
#[local] Existing Instance toy_aead_ok.

Definition demo_seed : bytes := repeat Byte.x09 32.
Definition demo_path : bytes := ascii "data/wallet.bin".
Definition store_host (faults : list (option bytes)) (files : gmap bytes bytes) : host :=
  {| h_disk := {| d_files := files; d_faults := faults |}; h_rng := (5 : rng); h_instant := 0; h_unix := 0 |}.
Definition demo_sealed : bytes :=
  match seal_backup demo_seed (CoinStore_to_vec demo_store) (7 : rng) with Ok (b, _) => b | _ => [] end.
Definition demo_files : gmap bytes bytes := {[demo_path := demo_sealed]}.
Definition demo_stored_coin (b : byte) : StoredCoin :=
  {| stc_secret_bytes := repeat b 32; stc_pubkey_bytes := repeat b 32; stc_signature_bytes := repeat b 64;
     stc_denom := 1000; stc_status := CoinStatus.Active; stc_label := None |}.
Definition demo_db : WalletDb :=
  {| wdb_path := demo_path; wdb_store := {| cst_version := 1; cst_coins := [demo_stored_coin Byte.x44] |} |}.

Lemma demo_coin_wf b : wf_stored_coin (demo_stored_coin b).
Proof. split_and!; try reflexivity; [split; [discriminate|reflexivity]|discriminate]. Qed.
Lemma demo_db_wf : wf_store (wdb_store demo_db).
Proof. split_and!; [split; [discriminate|reflexivity]|reflexivity|]. intros c ->%list_elem_of_singleton. apply demo_coin_wf. Qed.
Lemma demo_files_open : wallet_opens_to demo_files demo_path demo_seed demo_store.
Proof.
  apply (wallet_opens_iff (store_host [] ∅)). unfold stored, demo_files. rewrite lookup_singleton_eq.
  exists (CoinStore_to_vec demo_store). split; vm_refl.
Qed.

(** The write of the temporary file fails half-way. *)
Lemma wallet_save_atomic_witness :
  let '(r, h') := run (WalletDb_save demo_db demo_seed) (store_host [Some (ascii "half")] demo_files) in
  ((r = Ok tt /\ wallet_opens_to (files h') demo_path demo_seed (wdb_store demo_db)) \/
   ((exists e, r = Err e) /\ wallet_opens_to (files h') demo_path demo_seed demo_store)) /\
  (Z.of_nat (length (CoinStore_to_vec (wdb_store demo_db))) < 2 ^ 36 ->
   no_faults (store_host [Some (ascii "half")] demo_files) -> r = Ok tt).
Proof.
  apply (wallet_save_atomic demo_db demo_seed demo_store (store_host [Some (ascii "half")] demo_files)).
  - vm_compute. discriminate.
  - exact demo_db_wf.
  - exact demo_files_open.
Defined.

Lemma unreadable_wallet_is_replaced_witness :
  exists db h1 store h2, run (WalletDb_open demo_path demo_seed) (store_host [Some []] demo_files) = (Ok db, h1) /\
    wdb_store db = CoinStore_new /\ CoinStore_add (wdb_store db) (demo_stored_coin Byte.x44) = Ok store /\
    run (WalletDb_save {| wdb_path := demo_path; wdb_store := store |} demo_seed) h1 = (Ok tt, h2) /\
    cst_coins store = [demo_stored_coin Byte.x44] /\ wallet_opens_to (files h2) demo_path demo_seed store.
Proof.
  apply (unreadable_wallet_is_replaced demo_path demo_seed demo_store (demo_stored_coin Byte.x44) []
    (store_host [Some []] demo_files)).
  - vm_compute. discriminate.
  - exact demo_files_open.
  - reflexivity.
  - apply demo_coin_wf.
Defined.

Definition demo_keysets : KeysetStore :=
  {| ks_entries := {[ascii "main" := {| ki_joint_pk_hex := ascii "aa"; ki_denom := 5; ki_validators := [ascii "v1"];
       ki_ca_cert_path := None; ki_client_cert_path := Some (ascii "c") |};
     ascii "dev" := {| ki_joint_pk_hex := ascii "bb"; ki_denom := 7; ki_validators := [];
       ki_ca_cert_path := Some (ascii "ca"); ki_client_cert_path := None |}]} |}.
Lemma keysets_saved_and_opened_witness :
  let db := {| kdb_path := ascii "keysets.bin"; kdb_store := demo_keysets |} in
  let '(r, h') := run (KeysetDb_save db demo_seed) (store_host [] ∅) in
  exists s, (r = Ok tt /\ s = demo_keysets \/ (exists e, r = Err e) /\ s = KeysetStore_new) /\
    forall h0, files h0 = files h' -> no_faults h0 ->
      run (KeysetDb_open (ascii "keysets.bin") demo_seed) h0 =
        (Ok {| kdb_path := ascii "keysets.bin"; kdb_store := s |}, h0).
Proof.
  apply (keysets_saved_and_opened {| kdb_path := ascii "keysets.bin"; kdb_store := demo_keysets |} demo_seed
    KeysetStore_new (store_host [] ∅)).
  - vm_compute. discriminate.
  - split; [reflexivity|]. cbn [kdb_store]. unfold demo_keysets. cbn [ks_entries].
    intros k i [[<- <-]|[_ [<- <-]%lookup_singleton_Some]]%lookup_insert_Some; (split; [by split|]);
      split_and!; cbn [ki_joint_pk_hex ki_denom ki_validators ki_ca_cert_path ki_client_cert_path];
      try done; try (by intros ? [= <-]); try (constructor; [by split|constructor]); by constructor.
  - intros h0 Hf Hn. unfold KeysetDb_open. rewrite run_bind, run_sealed_open by done. by rewrite Hf.
Defined.
