(* ===== verification/Wallet.v ===== *)
(** * tardus-wallet: issuing and refreshing coins over HTTP

    Models [crates/tardus-wallet/src/{client_pool,issue,refresh}.rs].  The
    wallet is an [io] program over [world]: its host, the network and what it
    has shown its user, of a type [Out] of the front end.  What answers at the
    other end of a connection is the class [Transport].  The bodies of requests
    and answers are the JSON objects of [Validator] and [Relay]. *)
From S2P Require Import Prelude Crypto Async Parallel Platform Core MintBase Sign Refresh ClientBase Client.
From S2P Require Import Validator Keys.

(** ** HTTP *)
Inductive http_request : Type :=
| PostSignRound1 (session_id_hex : bytes)
| PostSignRound3 (body : SignRound3Req)
| PostRefreshRound1 (session_id_hex : bytes) (kappa : Z)
| PostRefreshRound5 (body : RefreshRound5Req)
| GetInbox (recipient : bytes)
| PostInbox (recipient payload_hex : bytes) (ttl_secs : Z)
| DeleteInbox (recipient message_id : bytes).

(** The JSON value of an answer.  The relay's are taken apart field by field,
    a field may be missing or of another type. *)
Inductive http_body : Type :=
| NotJsonBody
| BodySign1 (r : SignRound1Resp)
| BodySign3 (r : SignRound3Resp)
| BodyRefresh1 (r : RefreshRound1Resp)
| BodyRefresh5 (r : RefreshRound5Resp)
| BodyMessages (messages : option (list (option bytes * option bytes)))
| BodyDeposit (id : option bytes) (expires_at_unix_ms : option Z)
| OtherJson.
Inductive http_reply : Type := SendFailed | Reply (status : Z) (body : http_body).

(** The peers behind the URLs. *)
Class Transport : Type := {
  net : Type;
  exchange : bytes -> http_request -> prog net http_reply;
}.

Section world.
Context `{C : Curve} `{T : Transport} {Out : Type}.
(** [w_out] is what the program has shown its user. *)
Record world : Type := { w_host : host; w_net : net; w_out : list Out }.

Definition put_host (w : world) (h : host) : world := {| w_host := h; w_net := w_net w; w_out := w_out w |}.
Definition put_net (w : world) (n : net) : world := {| w_host := w_host w; w_net := n; w_out := w_out w |}.
Definition locally {A} : prog host A -> prog world A := zoom w_host put_host.
Definition remotely {A} : prog net A -> prog world A := zoom w_net put_net.
Definition prints {E} (o : Out) : io world E unit :=
  updates (λ w, {| w_host := w_host w; w_net := w_net w; w_out := w_out w ++ [o] |}).

(** [OsRng]; a call that may fail after its draw. *)
Definition os_draw {E A} (f : rng -> A * rng) : io world E A := locally (draw f).
Definition os_draw_res {E A} (f : rng -> res E (A * rng)) : io world E A :=
  r ← os_draw (λ r, match f r with
                    | Ok (a, r') => (Ok a, r')
                    | Err e => (Err e, r)
                    | Panic => (Panic, r)
                    end);
  lift r.
End world.
Arguments world {C T} Out.

(** ** client_pool.rs *)
Record ValidatorEndpoint : Type := { ep_my_index : Z; ep_base_url : bytes }.
Record WalletClientPool : Type := { pool_endpoints : list ValidatorEndpoint }.

Definition WalletClientPool_new (endpoints : list ValidatorEndpoint) : res WalletError.t WalletClientPool :=
  _ ← reject_if (bool_decide (endpoints = [])) (WalletError.BadLength 1 0);
  Ok {| pool_endpoints := endpoints |}.
Definition signing_set (pool : WalletClientPool) : list Z := ep_my_index <$> pool_endpoints pool.
Definition pool_len (pool : WalletClientPool) : Z := Z.of_nat (length (pool_endpoints pool)).

Section calls.
Context `{C : Curve} `{T : Transport} {Out : Type} `{HX : Hex}.

(** What [resp.json()] makes of an answer is chosen by [decode]. *)
Definition read_reply {R} (decode : http_body -> option R) (reply : http_reply) : res WalletError.t R :=
  match reply with
  | SendFailed => Err WalletError.Http
  | Reply status body =>
      _ ← reject_if (negb ((200 <=? status) && (status <? 300))) (WalletError.ValidatorRejected status);
      ok_or WalletError.Http (decode body)
  end.
Definition post {R} (ep : ValidatorEndpoint) (decode : http_body -> option R) (body : http_request)
    : io (world Out) WalletError.t R :=
  resp ← (pmap Ok (remotely (exchange (ep_base_url ep) body)) : io (world Out) WalletError.t http_reply);
  lift (read_reply decode resp).

Definition wallet_decode_hex32 (hex_str : bytes) : res WalletError.t bytes :=
  b ← ok_or WalletError.Hex (hex_decode hex_str);
  _ ← reject_if (negb (length b =? 32)%nat) (WalletError.BadLength 32 (Z.of_nat (length b)));
  Ok b.

Definition expect_index (ep : ValidatorEndpoint) (from_index : Z) : res WalletError.t unit :=
  reject_if (negb (from_index =? ep_my_index ep)) (WalletError.UnexpectedIndex (ep_my_index ep) from_index).

(** ** issue.rs *)
Definition as_sign1 (b : http_body) : option SignRound1Resp :=
  match b with BodySign1 r => Some r | _ => None end.
Definition as_sign3 (b : http_body) : option SignRound3Resp :=
  match b with BodySign3 r => Some r | _ => None end.

Definition issue_round1_call (session_id : SessionId) (ep : ValidatorEndpoint)
    : io (world Out) WalletError.t ValidatorR1Output :=
  resp ← post ep as_sign1 (PostSignRound1 (hex_encode (sid session_id)));
  _ ← lift (expect_index ep (s1_from_index resp));
  r_i ← lift (wallet_decode_hex32 (s1_r_i_hex resp));
  mret {| v1o_from_index := ep_my_index ep; v1o_session_id := session_id; v1o_r_i := r_i |}.

Definition issue_round3_call (session_id : SessionId) (signers : list Z) (challenge : BlindChallenge)
    (ep : ValidatorEndpoint) : io (world Out) WalletError.t ValidatorR3Output :=
  resp ← post ep as_sign3 (PostSignRound3 {| s3_session_id_hex := hex_encode (sid session_id);
                                             s3_signing_set := signers;
                                             s3_challenge_hex := hex_encode (bch_c challenge) |});
  _ ← lift (expect_index ep (s3_from_index resp));
  s_i ← lift (wallet_decode_hex32 (s3_s_i_hex resp));
  mret {| v3o_from_index := ep_my_index ep; v3o_session_id := session_id; v3o_s_i := s_i |}.

(** [order1] and [order2] are the orders in which the runtime polls the calls
    of the two rounds. *)
Definition issue_coin (order1 order2 : list nat) (pool : WalletClientPool) (joint_pk : PublicKey)
    (session_id : SessionId) : io (world Out) WalletError.t Coin :=
  let signers := signing_set pool in
  r1_outputs ← try_join_all order1 (issue_round1_call session_id <$> pool_endpoints pool);
  blind_commit ← lift (map_err WalletError.Mint (aggregate_commitments session_id signers r1_outputs));
  coin_secret ← os_draw SecretKey_random;
  let coin_pk_bytes := PublicKey_to_bytes (PublicKey_from_secret coin_secret) in
  request ← os_draw_res (λ r, map_err WalletError.Core (blind_request blind_commit joint_pk coin_pk_bytes r));
  let '(challenge, user_state) := request in
  r3_outputs ← try_join_all order2 (issue_round3_call session_id signers challenge <$> pool_endpoints pool);
  blind_response ← lift (map_err WalletError.Mint (aggregate_responses session_id signers r3_outputs));
  signature ← lift (map_err WalletError.Core (unblind user_state blind_response));
  lift (map_err WalletError.Refresh (Coin_new coin_secret coin_pk_bytes signature)).

(** ** refresh.rs *)
Definition as_refresh1 (b : http_body) : option RefreshRound1Resp :=
  match b with BodyRefresh1 r => Some r | _ => None end.
Definition as_refresh5 (b : http_body) : option RefreshRound5Resp :=
  match b with BodyRefresh5 r => Some r | _ => None end.

Definition refresh_round1_call (session_id : SessionId) (kappa : Z) (ep : ValidatorEndpoint)
    : io (world Out) WalletError.t ValidatorRefreshR1Output :=
  resp ← post ep as_refresh1 (PostRefreshRound1 (hex_encode (sid session_id)) kappa);
  _ ← lift (expect_index ep (f1_from_index resp));
  r_per_candidate ← lift (res_fold (λ l hx, r ← wallet_decode_hex32 hx; Ok (l ++ [r])) []
                            (f1_r_per_candidate_hex resp));
  mret {| vr1_session_id := session_id; vr1_from_index := ep_my_index ep;
          vr1_r_per_candidate := r_per_candidate |}.

Definition refresh_round5_call (session_id : SessionId) (signers : list Z) (gamma_star : Z)
    (user_r2 : UserRefreshR2Output) (ep : ValidatorEndpoint)
    : io (world Out) WalletError.t ValidatorRefreshR5Output :=
  resp ← post ep as_refresh5 (PostRefreshRound5
           {| f5_session_id_hex := hex_encode (sid session_id); f5_signing_set := signers;
              f5_gamma_star := gamma_star;
              f5_user_challenges_hex := hex_encode <$> ur2_challenges user_r2;
              f5_melted_coin_pubkey_hex := hex_encode (ur2_melted_coin_pubkey user_r2);
              f5_melted_coin_signature_hex :=
                hex_encode (Signature_to_bytes (ur2_melted_coin_signature user_r2)) |});
  _ ← lift (expect_index ep (f5_from_index resp));
  s_partial ← lift (wallet_decode_hex32 (f5_s_partial_hex resp));
  mret {| vr5_session_id := session_id; vr5_from_index := ep_my_index ep; vr5_s_partial := s_partial |}.

Definition refresh_coin (order1 order2 : list nat) (pool : WalletClientPool) (melted_coin : Coin)
    (joint_pk : PublicKey) (session_id : SessionId) : io (world Out) WalletError.t Coin :=
  let kappa := DEFAULT_KAPPA in
  let signers := signing_set pool in
  r1_outputs ← try_join_all order1 (refresh_round1_call session_id kappa <$> pool_endpoints pool);
  mint_r1 ← lift (map_err WalletError.Refresh (aggregate_refresh_round1 session_id kappa signers r1_outputs));
  round2 ← os_draw_res (λ r, map_err WalletError.Refresh
                               (user_refresh_round2 session_id mint_r1 joint_pk melted_coin r));
  let '(user_r2, user_state) := round2 in
  challenge ← lift (map_err WalletError.Refresh (mint_refresh_round3 session_id user_r2 joint_pk));
  reveal ← lift (map_err WalletError.Refresh (user_refresh_round4 user_state challenge));
  _ ← lift (map_err WalletError.Refresh
              (mint_refresh_verify_reveal user_r2 mint_r1 challenge reveal joint_pk));
  r5_outputs ← try_join_all order2
                 (refresh_round5_call session_id signers (mr3_gamma_star challenge) user_r2 <$> pool_endpoints pool);
  mint_r5 ← lift (map_err WalletError.Refresh (aggregate_refresh_round5 session_id signers r5_outputs));
  lift (map_err WalletError.Refresh (user_refresh_round6 user_state challenge mint_r5 joint_pk)).
End calls.

(** ** Draws *)
Section draws.
Context `{C : Curve} `{T : Transport} {Out : Type}.
Lemma run_os_draw {E X} (f : rng -> X * rng) (w : world Out) :
  run (os_draw (E := E) f) w = (Ok (f (h_rng (w_host w))).1, put_host w (set_rng (w_host w) (f (h_rng (w_host w))).2)).
Proof.
  unfold os_draw, locally, draw. rewrite run_zoom by (done || by destruct w). rewrite run_atomically. cbn.
  by destruct (f _).
Qed.
Lemma run_os_draw_res {E X} (f : rng -> res E (X * rng)) (w : world Out) x r : f (h_rng (w_host w)) = Ok (x, r) ->
  run (os_draw_res f) w = (Ok x, put_host w (set_rng (w_host w) r)).
Proof. intros Hf. unfold os_draw_res. by rewrite run_bind, run_os_draw, Hf. Qed.
End draws.
