(* ===== verification/Services.v ===== *)
(** * The services a wallet talks to

    An instance of [Transport]: validator daemons ([Validator]) and relays
    ([Relay]) behind base URLs, each request served by the handler of its
    route.  A validator may answer a wrong partial signature: its scalar is
    off by [offset]. *)
From S2P Require Import Prelude Crypto Async Parallel Platform Core MintBase Sign Refresh ClientBase Client.
From S2P Require Import Storage Transparency Sessions Validator ValidatorRun Relay Keys Wallet.

Section services.
Context `{C : Curve} `{RP : Rpc} `{A : Aead} `{HX : Hex} `{J : Json} `{DO : DirOrder} `{RO : RowOrder}.

Record services : Type := { sv_daemons : gmap bytes AppState; sv_relays : gmap bytes RelayApp }.
Definition put_daemons (m : gmap bytes AppState) (s : services) : services :=
  {| sv_daemons := m; sv_relays := sv_relays s |}.
Definition put_relays (m : gmap bytes RelayApp) (s : services) : services :=
  {| sv_daemons := sv_daemons s; sv_relays := m |}.

Variables (config : bytes -> ValidatorConfig) (relay_config : bytes -> RelayConfig) (fuel : nat)
  (offset : bytes -> scalar).

(** The route of a request. *)
Definition daemon_route (req : http_request) : option request :=
  match req with
  | PostSignRound1 s => Some (SignRound1 s)
  | PostSignRound3 r => Some (SignRound3 r)
  | PostRefreshRound1 s k => Some (RefreshRound1 s k)
  | PostRefreshRound5 r => Some (RefreshRound5 r)
  | _ => None
  end.
Definition relay_route (req : http_request) : option relay_request :=
  match req with
  | GetInbox r => Some (RelayList r)
  | PostInbox r p ttl => Some (RelayDeposit r p (Some ttl))
  | DeleteInbox r i => Some (RelayRemove r i)
  | _ => None
  end.

(** A handler that panics closes the connection. *)
Definition reply_of {X} (body : X -> http_body) (r : res Z X) : http_reply :=
  match r with
  | Ok x => Reply 200 (body x)
  | Err status => Reply status OtherJson
  | Panic => SendFailed
  end.

Definition shifted (url s_hex : bytes) : bytes :=
  match hex_decode s_hex ≫= sc_from_canonical with
  | Some s => hex_encode (sc_to_bytes (s + offset url)%sc)
  | None => s_hex
  end.
Definition daemon_body (url : bytes) (r : response) : http_body :=
  match r with
  | RSign1 r => BodySign1 r
  | RSign3 r => BodySign3 {| s3_from_index := s3_from_index r; s3_session_hex := s3_session_hex r;
                             s3_s_i_hex := shifted url (s3_s_i_hex r) |}
  | RRefresh1 r => BodyRefresh1 r
  | RRefresh5 r => BodyRefresh5 {| f5_from_index := f5_from_index r; f5_session_hex := f5_session_hex r;
                                   f5_s_partial_hex := shifted url (f5_s_partial_hex r) |}
  | _ => OtherJson
  end.
Definition listed (m : Message) : option bytes * option bytes := (Some (msg_id m), Some (msg_payload_hex m)).
Definition relay_body (r : relay_response) : http_body :=
  match r with
  | RespDeposit m => BodyDeposit (Some (msg_id m)) (Some (msg_expires_at_unix_ms m))
  | RespList l => BodyMessages (Some (listed <$> l))
  | _ => OtherJson
  end.

(** The peer of a URL runs its handler on its own state, section by section. *)
Definition served {S T} (get : S -> gmap bytes T) (put : gmap bytes T -> S -> S) (url : bytes)
    (handler : prog T http_reply) : prog S http_reply :=
  Atomic (λ s, (get s !! url, s)) (λ peer,
    match peer with
    | None => Done SendFailed
    | Some t => zoom (λ s, default t (get s !! url)) (λ s t', put (<[url := t']> (get s)) s) handler
    end).

Definition daemon_handler (url : bytes) (req : request) : prog AppState http_reply :=
  pmap (A := res ApiError response) (reply_of (daemon_body url)) (router (config url) fuel req).
Definition relay_handler (url : bytes) (req : relay_request) : prog RelayApp http_reply :=
  pmap (reply_of relay_body) (relay_router (relay_config url) req).

Definition services_transport : Transport := {|
  net := services;
  exchange url req :=
    match daemon_route req, relay_route req with
    | Some r, _ => served sv_daemons put_daemons url (daemon_handler url r)
    | None, Some r => served sv_relays put_relays url (relay_handler url r)
    | None, None => Done (Reply 404 NotJsonBody)
    end;
|}.

(** ** What a call does at its peer *)
Section touching.
Context {S T : Type} (get : S -> gmap bytes T) (put : gmap bytes T -> S -> S).

Lemma touches_zoom {X} url t0 (p : prog T X) :
  touches get put url (zoom (λ s, default t0 (get s !! url)) (λ s t', put (<[url := t']> (get s)) s) p) p.
Proof.
  induction p as [a|B f k IH]; cbn; [apply touches_done|]. apply touches_atomic; [|exact IH].
  intros s t Ht. rewrite Ht. cbn. by destruct (f t).
Qed.

(** The same call, seen from the peer. *)
Definition served_here (handler : prog T http_reply) : prog T http_reply :=
  Atomic (λ t, (Some t, t)) (λ peer, match peer with None => Done SendFailed | Some _ => handler end).

Lemma touches_served (put_get : forall s, put (get s) s = s) url handler :
  touches get put url (served get put url handler) (served_here handler).
Proof.
  apply touches_atomic.
  - intros s t Ht. cbn [fst snd]. rewrite Ht. by rewrite insert_id, put_get.
  - intros [t|]; [apply touches_zoom|apply touches_done].
Qed.

Lemma run_served_here handler t : run (served_here handler) t = run handler t.
Proof. done. Qed.
End touching.
End services.
