(* ===== verification/WalletMint.v ===== *)
(** * The wallet and the mint: issuance and refresh over HTTP

    [issue_coin] and [refresh_coin] of [Wallet] run against daemons of
    [Validator] through [Services], the calls of a round interleaved in any
    way. *)
From S2P Require Import Prelude Crypto ToyCurve Async Parallel Platform ToyPlatform Core Poly Wire MintBase Vss Sign.
From S2P Require Import Dkg Rotation Refresh RefreshProps ClientBase Client Storage Transparency Sessions Validator ToyValidator ValidatorRun ValidatorDkg.
From S2P Require Import Relay RelayProps Keys Wallet Services.

(** A loop that decodes what [enc] encoded. *)
Lemma push_decoded {E A B} (f : A -> res E B) (enc : B -> A) l acc : (forall b, b ∈ l -> f (enc b) = Ok b) ->
  res_fold (λ acc x, v ← f x; Ok (acc ++ [v])) acc (enc <$> l) = Ok (acc ++ l).
Proof.
  revert acc; induction l as [|b l IH]; intros acc Hf; [by rewrite app_nil_r|]. rewrite fmap_cons. cbn [res_fold].
  rewrite Hf by (by left). cbn [mbind res_bind].
  rewrite IH by (intros; apply Hf; by right). by rewrite <- app_assoc.
Qed.

(** ** The handlers of the two rounds, run alone *)
Section handlers.
Context `{CO : CurveOk} `{RP : Rpc} `{HX : Hex} {HOk : HexOk HX} `{J : Json}.
Implicit Types a : AppState.

(** The daemon holds the share of index [i] of the polynomial [F]. *)
Definition holds_share (F : list scalar) (i : Z) a : Prop :=
  exists rec, vs_share (app_state a) = Some rec /\ sr_my_index rec = i /\
    sr_my_share_bytes rec = SecretKey_to_bytes {| sk_scalar := peval F (sc_of_u64 i) |}.

Lemma decode_session_hex session : length (sid session) = 16%nat ->
  decode_session_id (hex_encode (sid session)) = Ok session.
Proof.
  intros Hl. unfold decode_session_id, decode_hex_array. rewrite hex_decode_encode. step.
  rewrite Hl. step. by destruct session.
Qed.
Lemma decode_hex32_encode b : length b = 32%nat -> Validator.decode_hex32 (hex_encode b) = Ok b.
Proof. intros Hl. unfold decode_hex32, decode_hex_array. rewrite hex_decode_encode. step. by rewrite Hl. Qed.
Lemma wallet_decode_encode b : length b = 32%nat -> wallet_decode_hex32 (hex_encode b) = Ok b.
Proof. intros Hl. unfold wallet_decode_hex32. rewrite hex_decode_encode. step. by rewrite Hl. Qed.

Lemma run_sign_round1 F i session a : length (sid session) = 16%nat ->
  holds_share F i a -> app_sign_sessions a !! session = None ->
  let round1 := round1_of session (λ _, h_rng (app_host a)) i in
  exists a' created, run (sign_round1 (hex_encode (sid session))) a =
      (Ok {| s1_from_index := i; s1_session_id_hex := hex_encode (sid session);
             s1_r_i_hex := hex_encode (v1o_r_i round1.1) |}, a') /\
    vs_share (app_state a') = vs_share (app_state a) /\
    app_sign_sessions a' !! session = Some {| se_state := round1.2; se_created_at := created |}.
Proof.
  intros Hl (rec & Hrec & Hi & _) Hnew round1. unfold sign_round1. rewrite (decode_session_hex _ Hl). run_step.
  rewrite Hrec. cbn [ok_or]. run_step. rewrite Hi.
  destruct (run_draw (validator_round1 session i) a) as (hs & -> & _).
  unfold round1, round1_of. destruct (validator_round1 session i (h_rng (app_host a))) as [[out st] r] eqn:Hr.
  cbn [fst snd]. run_step. rewrite run_app_now. run_step. unfold SignSessions_insert.
  unfold validator_round1 in Hr. destruct (sc_random _) as [k rk]. injection Hr as <- <- <-. cbn [se_state v1s_session_id].
  rewrite table_insert_fresh by exact Hnew. cbn [fst snd conflict map_err]. run_step.
  match goal with |- context [run (tlog ?e) ?a] => destruct (run_tlog e a) as (lg & h2 & ->) end.
  do 2 eexists. split; [reflexivity|]. split; [done|]. exact (lookup_insert_eq _ _ _).
Qed.

Lemma run_sign_round3 F i session a S challenge c st created : length (sid session) = 16%nat ->
  holds_share F i a -> app_sign_sessions a !! session = Some {| se_state := st; se_created_at := created |} ->
  length (bch_c challenge) = 32%nat -> v1s_session_id st = session -> v1s_my_index st = i ->
  sc_from_canonical (bch_c challenge) = Some c -> Forall u16 S -> i ∈ S -> 0 ∉ S ->
  exists a', run (sign_round3 {| s3_session_id_hex := hex_encode (sid session); s3_signing_set := S;
                                 s3_challenge_hex := hex_encode (bch_c challenge) |}) a =
      (Ok {| s3_from_index := i; s3_session_hex := hex_encode (sid session);
             s3_s_i_hex := hex_encode (sc_to_bytes (v1s_k_i st +
               c * lagrange_basis (sc_of_u64 <$> S) (sc_of_u64 i) 0 * peval F (sc_of_u64 i))%sc) |}, a') /\
    app_state a' = app_state a /\ app_sign_sessions a' !! session = None.
Proof.
  intros Hl (rec & Hrec & Hi & Hs) Hst Hc <- Hidx Hcan HS HiS H0. unfold sign_round3.
  cbn [s3_session_id_hex s3_signing_set s3_challenge_hex].
  rewrite (decode_session_hex _ Hl). run_step. rewrite (decode_hex32_encode _ Hc). run_step.
  rewrite Hrec. cbn [ok_or]. run_step. rewrite Hs, SecretKey_roundtrip. cbn [map_err]. run_step.
  assert (SignSessions_take (v1s_session_id st) (app_sign_sessions a) =
    (Some {| se_state := st; se_created_at := created |}, delete (v1s_session_id st) (app_sign_sessions a))) as ->
    by (unfold SignSessions_take, table_take; f_equal; exact Hst).
  cbn [fst snd ok_or]. run_step.
  unfold partial_sign. cbn [se_state bch_c]. rewrite Hcan. cbn [ok_or mbind res_bind]. rewrite Hidx.
  rewrite lagrange_ok by done. cbn [mbind res_bind]. unfold SecretKey_to_bytes. rewrite sc_canonical_to_bytes.
  cbn [expect mbind res_bind map_err sk_scalar]. run_step. eexists. split; [reflexivity|]. split; [done|].
  exact (lookup_delete_eq _ _).
Qed.
(** The refresh handlers; [KAPPA] candidates. *)
Lemma run_refresh_round1 F i session kappa a : length (sid session) = 16%nat -> 1 <= kappa ->
  holds_share F i a -> app_refresh_sessions a !! session = None ->
  exists a' created, run (refresh_round1 (hex_encode (sid session)) kappa) a =
      (Ok {| f1_from_index := i; f1_session_id_hex := hex_encode (sid session); f1_kappa := kappa;
             f1_r_per_candidate_hex :=
               hex_encode <$> vr1_r_per_candidate (r1_msg session kappa (λ _, h_rng (app_host a)) i) |}, a') /\
    vs_share (app_state a') = vs_share (app_state a) /\ app_chain a' = app_chain a /\
    app_refresh_sessions a' !! session =
      Some {| re_state := r1_state session kappa (λ _, h_rng (app_host a)) i; re_created_at := created |}.
Proof.
  intros Hl Hk (rec & Hrec & Hi & _) Hnew. unfold refresh_round1. rewrite (decode_session_hex _ Hl). run_step.
  replace (kappa =? 0) with false by lia. cbn [reject_if]. run_step. rewrite Hrec. cbn [ok_or]. run_step. rewrite Hi.
  destruct (run_app_draw_res (λ r, validator_refresh_round1 session i kappa r) a) as (hs & -> & _).
  rewrite validator_refresh_round1_eq by lia. cbn [map_err]. run_step. rewrite run_app_now. run_step.
  unfold RefreshSessions_insert. cbn [re_state vrs_session_id].
  rewrite table_insert_fresh by exact Hnew. cbn [fst snd conflict map_err]. run_step.
  match goal with |- context [run (tlog ?e) ?a] => destruct (run_tlog e a) as (lg & h2 & ->) end.
  do 2 eexists. split; [reflexivity|]. split; [done|]. split; [done|]. exact (lookup_insert_eq _ _ _).
Qed.

(** The chain shows the nullifier of [pk], where the daemon looks. *)
Definition nullifier_shown (config : ValidatorConfig) (pk : bytes) a : Prop :=
  match vc_solana_rpc_url config with
  | None => True
  | Some url => exists pda, vc_nullifier_tree_pda config = Some pda /\
      verify_nullifier_finalized url pda pk (app_chain a) = Ok tt
  end.
Lemma run_guard config pk a : nullifier_shown config pk a -> run (nullifier_guard config pk) a = (Ok tt, a).
Proof.
  unfold nullifier_shown, nullifier_guard. destruct (vc_solana_rpc_url config) as [url|]; [|done].
  intros (pda & -> & Hv). cbn [ok_or]. run_step. by rewrite Hv.
Qed.

Lemma decode_challenges_encode l : Forall (λ b, length b = 32%nat) l ->
  decode_challenges (hex_encode <$> l) = Ok l.
Proof.
  intros Hl. apply (push_decoded _ hex_encode l []). intros b Hb. apply decode_hex32_encode.
  by rewrite Forall_forall in Hl; apply Hl.
Qed.

(** The request of round 5 that a wallet with these candidates sends. *)
Definition round5_request (session : SessionId) (S : list Z) (g : Z) (melted : Coin) (cands : list candidate)
    : RefreshRound5Req :=
  {| f5_session_id_hex := hex_encode (sid session); f5_signing_set := S; f5_gamma_star := g;
     f5_user_challenges_hex := hex_encode <$> (cd_challenge <$> cands);
     f5_melted_coin_pubkey_hex := hex_encode (coin_pubkey_bytes melted);
     f5_melted_coin_signature_hex := hex_encode (Signature_to_bytes (coin_signature melted)) |}.

Lemma run_refresh_round5 F config i session kappa rngs S cands melted g c a created :
  length (sid session) = 16%nat -> 1 <= kappa < 256 -> cands_ok kappa rngs S F cands ->
  Forall (λ b, length b = 32%nat) (cd_challenge <$> cands) ->
  length (coin_pubkey_bytes melted) = 32%nat -> length (Signature_to_bytes (coin_signature melted)) = 64%nat ->
  nullifier_shown config (coin_pubkey_bytes melted) a -> holds_share F i a ->
  app_refresh_sessions a !! session = Some {| re_state := r1_state session kappa rngs i; re_created_at := created |} ->
  1 <= g <= kappa -> sc_from_canonical (cd_challenge (cand_of cands g)) = Some c ->
  Forall u16 S -> i ∈ S -> 0 ∉ S ->
  exists a', run (refresh_round5 config (round5_request session S g melted cands)) a =
      (Ok {| f5_from_index := i; f5_session_hex := hex_encode (sid session);
             f5_s_partial_hex := hex_encode (sc_to_bytes (refresh_partial kappa rngs S F g c i)) |}, a') /\
    app_state a' = app_state a /\ app_refresh_sessions a' !! session = None.
Proof.
  intros Hl Hk Hcs Hcl Hpk Hsig Hnull (rec & Hrec & Hi & Hs) Hst Hg Hc HS HiS H0.
  unfold refresh_round5, round5_request. cbn [f5_session_id_hex f5_signing_set f5_gamma_star f5_user_challenges_hex
    f5_melted_coin_pubkey_hex f5_melted_coin_signature_hex].
  rewrite (decode_session_hex _ Hl). run_step. rewrite !length_fmap, (proj1 Hcs).
  replace (255 <? kappa) with false by lia. replace (kappa =? 0) with false by lia.
  replace (g =? 0) with false by lia. replace (kappa <? g) with false by lia. cbn [orb reject_if]. run_step.
  rewrite (decode_challenges_encode _ Hcl). run_step. rewrite (decode_hex32_encode _ Hpk). run_step.
  unfold decode_hex64, decode_hex_array. rewrite hex_decode_encode. cbn [ok_or mbind res_bind]. rewrite Hsig.
  cbn [Z.of_nat Nat.eqb negb reject_if mbind res_bind]. run_step.
  rewrite (run_guard _ _ _ Hnull). run_step.
  rewrite Hrec. cbn [ok_or]. run_step. rewrite Hs, SecretKey_roundtrip. cbn [map_err]. run_step.
  assert (RefreshSessions_take session (app_refresh_sessions a) =
    (Some {| re_state := r1_state session kappa rngs i; re_created_at := created |},
     delete session (app_refresh_sessions a))) as ->
    by (unfold RefreshSessions_take, table_take; f_equal; exact Hst).
  cbn [fst snd ok_or re_state]. run_step.
  match goal with |- context [validator_refresh_round5 _ ?u ?ch _ _] =>
    rewrite (round5_eq session kappa rngs S (λ i, {| sk_scalar := peval F (sc_of_u64 i) |}) F Hk u cands ch c i) by done end.
  cbn [map_err]. run_step. eexists. split; [reflexivity|]. split; [done|]. exact (lookup_delete_eq _ _).
Qed.
End handlers.

(** ** Calls of the wallet *)
Section calls.
Context `{CO : CurveOk} `{RP : Rpc} `{A : Aead} `{HX : Hex} {HOk : HexOk HX} `{J : Json} `{DO : DirOrder} `{RO : RowOrder} {Out : Type}.
Variables (config : bytes -> ValidatorConfig) (relay_config : bytes -> RelayConfig) (fuel : nat)
  (offset : bytes -> scalar).
#[local] Instance the_services : Transport := services_transport config relay_config fuel offset.

Definition daemons (w : world Out) : gmap bytes AppState := sv_daemons (w_net w).
Definition set_daemons (m : gmap bytes AppState) (w : world Out) : world Out := put_net w (put_daemons m (w_net w)).

Lemma daemons_set m w : daemons (set_daemons m w) = m.
Proof. done. Qed.
Lemma set_daemons_set m m' w : set_daemons m (set_daemons m' w) = set_daemons m w.
Proof. done. Qed.
Lemma set_daemons_id w : set_daemons (daemons w) w = w.
Proof. unfold set_daemons, daemons, put_net, put_daemons. by destruct w as [h [d r] o]. Qed.

Lemma touches_remotely {X} url (p : prog services X) q :
  touches sv_daemons put_daemons url p q -> touches daemons set_daemons url (remotely p) q.
Proof.
  induction 1 as [a|B f n g n' Hs Hn IH]; cbn; [apply touches_done|]. apply touches_atomic; [|exact IH].
  intros w t Ht. by rewrite (Hs _ t Ht).
Qed.

(** A call to a daemon, whose answer is then taken apart without effects. *)
Lemma call_pending {R X} w ep req r (decode : http_body -> option R) (k : R -> io (world Out) WalletError.t X)
    (g : R -> res WalletError.t X) a a' resp x v :
  (forall y, k y = Done (g y)) -> daemon_route req = Some r -> daemons w !! ep_base_url ep = Some a ->
  run (router (config (ep_base_url ep)) fuel r) a = (Ok resp, a') ->
  decode (daemon_body offset (ep_base_url ep) resp) = Some x -> g x = Ok v ->
  pending daemons set_daemons w (Call (ep_base_url ep) v a') (post ep decode req ≫= k).
Proof.
  intros Hk Hr Ha Hrun Hdec Hg. set (url := ep_base_url ep) in *.
  exists ((reply ← pmap Ok (served_here (daemon_handler config fuel offset url r));
           lift (read_reply decode reply)) ≫= λ y, Done (g y)), a. split_and!; [|done|].
  - apply touches_bind; [|intros y; rewrite Hk; apply touches_done]. unfold post.
    apply touches_bind; [|intros y; apply touches_done]. apply touches_pmap, touches_remotely.
    cbn [exchange the_services services_transport]. rewrite Hr. apply touches_served.
    intros [d rl]. done.
  - rewrite !run_bind, run_pmap, run_served_here. unfold daemon_handler. rewrite run_pmap.
    rewrite Hrun.
    cbn [fst snd reply_of]. rewrite run_lift. unfold read_reply. cbn [Z.leb Z.ltb andb negb reject_if mbind res_bind].
    rewrite Hdec. cbn. by rewrite Hg.
Qed.

(** One round: a call to each validator of the pool. *)
Lemma run_round {X} order eps (calls : ValidatorEndpoint -> io (world Out) WalletError.t X) value final w :
  NoDup (ep_base_url <$> eps) ->
  (forall ep, ep ∈ eps -> pending daemons set_daemons w (Call (ep_base_url ep) (value ep) (final ep)) (calls ep)) ->
  exists w', run (try_join_all order (calls <$> eps)) w = (Ok (value <$> eps), w') /\
    w' = set_daemons (daemons w') w /\
    (forall ep, ep ∈ eps -> daemons w' !! ep_base_url ep = Some (final ep)).
Proof.
  intros Hnd Hp. set (cs := (λ ep, Call (ep_base_url ep) (value ep) (final ep)) <$> eps).
  destruct (run_try_join_all daemons set_daemons daemons_set set_daemons_set set_daemons_id order cs
    (calls <$> eps) w) as (w' & H1 & H2 & H3 & _).
  - unfold cs. by rewrite <- list_fmap_compose.
  - unfold cs. apply Forall2_fmap, Forall_Forall2_diag, Forall_forall. exact Hp.
  - exists w'. unfold cs in H1. rewrite <- list_fmap_compose in H1. split_and!; [done..|].
    intros ep Hep. apply (H3 (Call (ep_base_url ep) (value ep) (final ep))).
    by apply (list_elem_of_fmap_2 (λ ep, Call (ep_base_url ep) (value ep) (final ep))).
Qed.

(** A pool of daemons that hold the shares of [F], each behind its URL;
    [apps i] is the daemon of index [i]. *)
Record deployed (F : list scalar) (eps : list ValidatorEndpoint) (apps : Z -> AppState) (w : world Out) : Prop := {
  dp_urls : NoDup (ep_base_url <$> eps);
  dp_indices : NoDup (ep_my_index <$> eps);
  dp_range : forall ep, ep ∈ eps -> 1 <= ep_my_index ep < 2 ^ 16;
  dp_enough : (length F <= length eps)%nat;
  dp_app ep : ep ∈ eps -> daemons w !! ep_base_url ep = Some (apps (ep_my_index ep));
  dp_share ep : ep ∈ eps -> holds_share F (ep_my_index ep) (apps (ep_my_index ep));
}.

Lemma deployed_signers F eps apps w : deployed F eps apps w ->
  Forall u16 (ep_my_index <$> eps) /\ 0 ∉ ep_my_index <$> eps.
Proof.
  intros Hd. split.
  - apply Forall_fmap, Forall_forall. intros ep Hep. pose proof (dp_range _ _ _ _ Hd ep Hep). unfold u16, in_width. cbn. lia.
  - intros (ep & Hz & Hep)%list_elem_of_fmap. pose proof (dp_range _ _ _ _ Hd ep Hep). lia.
Qed.
Lemma run_answered {X} (f : X -> response) (p : handler X) a x a' :
  run p a = (Ok x, a') -> run (answered f p) a = (Ok (f x), a').
Proof. intros Hp. unfold answered. by rewrite run_bind, Hp. Qed.

Lemma sign1_pending F w ep a session : length (sid session) = 16%nat ->
  daemons w !! ep_base_url ep = Some a -> holds_share F (ep_my_index ep) a ->
  app_sign_sessions a !! session = None ->
  let final := (run (sign_round1 (hex_encode (sid session))) a).2 in
  let round1 := round1_of session (λ _, h_rng (app_host a)) (ep_my_index ep) in
  pending daemons set_daemons w (Call (ep_base_url ep) round1.1 final) (issue_round1_call session ep) /\
  holds_share F (ep_my_index ep) final /\
  exists created, app_sign_sessions final !! session = Some {| se_state := round1.2; se_created_at := created |}.
Proof.
  intros Hl Ha Hs Hn final round1.
  destruct (run_sign_round1 F _ session a Hl Hs Hn) as (a' & created & Hr & Hsh & Ht). fold round1 in Hr, Ht.
  unfold final. rewrite Hr. cbn [snd]. split_and!; [| |by exists created].
  - eapply (call_pending _ _ _ _ _ _ (λ resp, _ ← expect_index ep (s1_from_index resp);
      r_i ← wallet_decode_hex32 (s1_r_i_hex resp);
      Ok {| v1o_from_index := ep_my_index ep; v1o_session_id := session; v1o_r_i := r_i |}));
      [|reflexivity|exact Ha|apply run_answered, Hr|reflexivity|].
    + intros y. unfold expect_index. destruct (reject_if _ _); [|done..]. cbn. by destruct (wallet_decode_hex32 _).
    + unfold round1. rewrite round1_of_eq. cbn [fst s1_from_index s1_r_i_hex v1o_r_i]. unfold expect_index.
      rewrite Z.eqb_refl. step. by rewrite wallet_decode_encode by auto with tardus.
  - destruct Hs as (rec & ? & ? & ?). exists rec. by rewrite Hsh.
Qed.
Lemma shifted_encode url x : shifted offset url (hex_encode (sc_to_bytes x)) =
  hex_encode (sc_to_bytes (x + offset url)%sc).
Proof. unfold shifted. rewrite hex_decode_encode. cbn. by rewrite sc_canonical_to_bytes. Qed.

Lemma sign3_pending F w ep a session S challenge c st created : length (sid session) = 16%nat ->
  daemons w !! ep_base_url ep = Some a -> holds_share F (ep_my_index ep) a ->
  app_sign_sessions a !! session = Some {| se_state := st; se_created_at := created |} ->
  v1s_session_id st = session -> v1s_my_index st = ep_my_index ep ->
  sc_from_canonical (bch_c challenge) = Some c -> Forall u16 S -> ep_my_index ep ∈ S -> 0 ∉ S ->
  let s_i := (v1s_k_i st + c * lagrange_basis (sc_of_u64 <$> S) (sc_of_u64 (ep_my_index ep)) 0 *
    peval F (sc_of_u64 (ep_my_index ep)))%sc in
  let final := (run (sign_round3 {| s3_session_id_hex := hex_encode (sid session); s3_signing_set := S;
                                    s3_challenge_hex := hex_encode (bch_c challenge) |}) a).2 in
  pending daemons set_daemons w (Call (ep_base_url ep)
    {| v3o_from_index := ep_my_index ep; v3o_session_id := session;
       v3o_s_i := sc_to_bytes (s_i + offset (ep_base_url ep))%sc |} final)
    (issue_round3_call session S challenge ep) /\
  holds_share F (ep_my_index ep) final /\ app_sign_sessions final !! session = None.
Proof.
  intros Hl Ha Hs Hst Hsid Hidx Hc HS Hi H0 s_i final.
  assert (length (bch_c challenge) = 32%nat) as Hlc
    by (rewrite (sc_canonical_unique _ _ Hc); auto with tardus).
  destruct (run_sign_round3 F _ session a S challenge c st created Hl Hs Hst Hlc Hsid Hidx Hc HS Hi H0)
    as (a' & Hr & Hstate & Ht). unfold final. rewrite Hr. cbn [snd]. split_and!; [| |done].
  - eapply (call_pending _ _ _ _ _ _ (λ resp, _ ← expect_index ep (s3_from_index resp);
      s ← wallet_decode_hex32 (s3_s_i_hex resp);
      Ok {| v3o_from_index := ep_my_index ep; v3o_session_id := session; v3o_s_i := s |}));
      [|reflexivity|exact Ha|apply run_answered, Hr|reflexivity|].
    + intros y. unfold expect_index. destruct (reject_if _ _); [|done..]. cbn. by destruct (wallet_decode_hex32 _).
    + cbn [s3_from_index s3_s_i_hex]. unfold expect_index. rewrite Z.eqb_refl. step.
      rewrite shifted_encode. by rewrite wallet_decode_encode by auto with tardus.
  - destruct Hs as (rec & ? & ? & ?). exists rec. by rewrite Hstate.
Qed.

(** A value for each index, from one for each validator. *)
Definition by_validator {X} (eps : list ValidatorEndpoint) (f : ValidatorEndpoint -> X) (d : Z -> X) (i : Z) : X :=
  match filter (λ ep, ep_my_index ep = i) eps with ep :: _ => f ep | [] => d i end.
Lemma by_validator_eq {X} eps (f : ValidatorEndpoint -> X) d ep : NoDup (ep_my_index <$> eps) -> ep ∈ eps ->
  by_validator eps f d (ep_my_index ep) = f ep.
Proof.
  intros Hnd Hep. unfold by_validator.
  destruct (filter (λ ep', ep_my_index ep' = ep_my_index ep) eps) as [|ep' l] eqn:Hl.
  - exfalso. assert (ep ∈ filter (λ ep', ep_my_index ep' = ep_my_index ep) eps) as Hin
      by (by apply list_elem_of_filter). rewrite Hl in Hin. by apply not_elem_of_nil in Hin.
  - assert (ep' ∈ filter (λ ep', ep_my_index ep' = ep_my_index ep) eps) as [Hi He]%list_elem_of_filter
      by (rewrite Hl; by left).
    apply list_elem_of_lookup in Hep as [j Hj], He as [k Hk].
    assert (j = k) as <-; [|by simplify_eq].
    apply (NoDup_lookup _ _ _ (ep_my_index ep) Hnd); rewrite list_lookup_fmap; [by rewrite Hj|rewrite Hk; cbn; by rewrite Hi].
Qed.

Lemma deployed_after F eps apps apps' w w' : deployed F eps apps w ->
  (forall ep, ep ∈ eps -> daemons w' !! ep_base_url ep = Some (apps' ep) /\ holds_share F (ep_my_index ep) (apps' ep)) ->
  deployed F eps (by_validator eps apps' apps) w'.
Proof.
  intros [H1 H2 H3 H4 H5 H6] Ha. split; [done..| |];
    intros ep Hep; rewrite by_validator_eq by done; by apply Ha.
Qed.
(** What a protocol with the daemons leaves alone: the relays, what was shown,
    and of the host all but the state of the generator. *)
Definition undisturbed (w w' : world Out) : Prop :=
  w_out w' = w_out w /\ sv_relays (w_net w') = sv_relays (w_net w) /\ exists r, w_host w' = set_rng (w_host w) r.
#[global] Instance undisturbed_preorder : PreOrder undisturbed.
Proof.
  split.
  - intros w. split; [done|]. split; [done|]. exists (h_rng (w_host w)). by destruct (w_host w).
  - intros w1 w2 w3 (H1 & H2 & r & H3) (H4 & H5 & r' & H6). split; [by rewrite H4|]. split; [by rewrite H5|].
    exists r'. by rewrite H6, H3.
Qed.
Lemma undisturbed_daemons w w' : w' = set_daemons (daemons w') w -> undisturbed w w'.
Proof.
  intros ->. split; [done|]. split; [done|]. exists (h_rng (w_host w)). by destruct w as [[] [] ?].
Qed.
Lemma undisturbed_rng w r : undisturbed w (put_host w (set_rng (w_host w) r)).
Proof. split; [done|]. split; [done|]. by exists r. Qed.

(** *** Issuance *)
Definition signers (eps : list ValidatorEndpoint) : list Z := ep_my_index <$> eps.
Definition rngs_of (apps : Z -> AppState) (i : Z) : rng := h_rng (app_host (apps i)).

Lemma issue_first_round order F eps apps session w : deployed F eps apps w -> length (sid session) = 16%nat ->
  (forall ep, ep ∈ eps -> app_sign_sessions (apps (ep_my_index ep)) !! session = None) ->
  exists w' apps', run (try_join_all order (issue_round1_call session <$> eps)) w =
      (Ok (round1_msgs session (signers eps) (rngs_of apps)), w') /\
    w' = set_daemons (daemons w') w /\ deployed F eps apps' w' /\
    (forall ep, ep ∈ eps -> exists created, app_sign_sessions (apps' (ep_my_index ep)) !! session =
      Some {| se_state := (round1_of session (rngs_of apps) (ep_my_index ep)).2; se_created_at := created |}).
Proof.
  intros Hd Hl Hnew.
  set (final := λ ep, (run (sign_round1 (hex_encode (sid session))) (apps (ep_my_index ep))).2).
  pose proof (λ ep Hep, sign1_pending F w ep _ session Hl (dp_app _ _ _ _ Hd ep Hep)
    (dp_share _ _ _ _ Hd ep Hep) (Hnew ep Hep)) as H1.
  destruct (run_round order eps (issue_round1_call session)
    (λ ep, (round1_of session (rngs_of apps) (ep_my_index ep)).1) final w (dp_urls _ _ _ _ Hd))
    as (w' & Hr & Hw & Hf); [intros ep Hep; apply (H1 ep Hep)|].
  exists w', (by_validator eps final apps). split_and!.
  - rewrite Hr. unfold round1_msgs, signers. by rewrite <- list_fmap_compose.
  - exact Hw.
  - apply (deployed_after F eps apps final w w' Hd). intros ep Hep. split; [by apply Hf|apply (H1 ep Hep)].
  - intros ep Hep. rewrite by_validator_eq by (apply (dp_indices _ _ _ _ Hd) || done). apply (H1 ep Hep).
Qed.

Lemma issue_second_round order F eps apps session ch c rngs w : deployed F eps apps w ->
  length (sid session) = 16%nat -> sc_from_canonical (bch_c ch) = Some c ->
  (forall ep, ep ∈ eps -> exists created, app_sign_sessions (apps (ep_my_index ep)) !! session =
    Some {| se_state := (round1_of session rngs (ep_my_index ep)).2; se_created_at := created |}) ->
  exists w' apps', run (try_join_all order (issue_round3_call session (signers eps) ch <$> eps)) w =
      (Ok ((λ ep, {| v3o_from_index := ep_my_index ep; v3o_session_id := session;
              v3o_s_i := sc_to_bytes (partial_of (signers eps) rngs F c (ep_my_index ep) +
                offset (ep_base_url ep))%sc |}) <$> eps), w') /\
    w' = set_daemons (daemons w') w /\ deployed F eps apps' w' /\
    (forall ep, ep ∈ eps -> app_sign_sessions (apps' (ep_my_index ep)) !! session = None).
Proof.
  intros Hd Hl Hc Hst. destruct (deployed_signers _ _ _ _ Hd) as [HS H0].
  set (final := λ ep, (run (sign_round3 {| s3_session_id_hex := hex_encode (sid session);
    s3_signing_set := signers eps; s3_challenge_hex := hex_encode (bch_c ch) |}) (apps (ep_my_index ep))).2).
  assert (forall ep, ep ∈ eps -> pending daemons set_daemons w (Call (ep_base_url ep)
      {| v3o_from_index := ep_my_index ep; v3o_session_id := session;
         v3o_s_i := sc_to_bytes (partial_of (signers eps) rngs F c (ep_my_index ep) + offset (ep_base_url ep))%sc |}
      (final ep)) (issue_round3_call session (signers eps) ch ep) /\
    holds_share F (ep_my_index ep) (final ep) /\ app_sign_sessions (final ep) !! session = None) as H3.
  { intros ep Hep. destruct (Hst ep Hep) as [created Hs].
    pose proof (sign3_pending F w ep _ session (signers eps) ch c _ created Hl (dp_app _ _ _ _ Hd ep Hep)
      (dp_share _ _ _ _ Hd ep Hep) Hs) as H. rewrite round1_of_eq in H. cbn [snd v1s_session_id v1s_my_index v1s_k_i] in H.
    apply H; try done. by apply list_elem_of_fmap_2. }
  match type of H3 with forall ep, _ -> pending _ _ _ (Call _ (@?v ep) _) _ /\ _ =>
    destruct (run_round order eps (issue_round3_call session (signers eps) ch) v final w (dp_urls _ _ _ _ Hd))
      as (w' & Hr & Hw & Hf); [intros ep Hep; apply (H3 ep Hep)|] end.
  exists w', (by_validator eps final apps). split_and!.
  - exact Hr.
  - exact Hw.
  - apply (deployed_after F eps apps final w w' Hd). intros ep Hep. split; [by apply Hf|apply (H3 ep Hep)].
  - intros ep Hep. rewrite by_validator_eq by (apply (dp_indices _ _ _ _ Hd) || done). apply (H3 ep Hep).
Qed.
(** *** Refresh *)
Lemma refresh1_pending F w ep a session kappa : length (sid session) = 16%nat -> 1 <= kappa ->
  daemons w !! ep_base_url ep = Some a -> holds_share F (ep_my_index ep) a ->
  app_refresh_sessions a !! session = None ->
  let final := (run (refresh_round1 (hex_encode (sid session)) kappa) a).2 in
  let rngs := λ _, h_rng (app_host a) in
  pending daemons set_daemons w (Call (ep_base_url ep) (r1_msg session kappa rngs (ep_my_index ep)) final)
    (refresh_round1_call session kappa ep) /\
  holds_share F (ep_my_index ep) final /\ app_chain final = app_chain a /\
  exists created, app_refresh_sessions final !! session =
    Some {| re_state := r1_state session kappa rngs (ep_my_index ep); re_created_at := created |}.
Proof.
  intros Hl Hk Ha Hs Hn final rngs.
  destruct (run_refresh_round1 F _ session kappa a Hl Hk Hs Hn) as (a' & created & Hr & Hsh & Hch & Ht).
  unfold final. rewrite Hr. cbn [snd]. split_and!; [| |done|by exists created].
  - eapply (call_pending _ _ _ _ _ _ (λ resp, _ ← expect_index ep (f1_from_index resp);
      l ← res_fold (λ l hx, r ← wallet_decode_hex32 hx; Ok (l ++ [r])) [] (f1_r_per_candidate_hex resp);
      Ok {| vr1_session_id := session; vr1_from_index := ep_my_index ep; vr1_r_per_candidate := l |}));
      [|reflexivity|exact Ha|apply run_answered, Hr|reflexivity|].
    + intros y. unfold expect_index. destruct (reject_if _ _); [|done..]. cbn. by destruct (res_fold _ _ _).
    + cbn [f1_from_index f1_r_per_candidate_hex]. unfold expect_index. rewrite Z.eqb_refl. step.
      rewrite push_decoded; [done|]. cbn [r1_msg vr1_r_per_candidate].
      intros b (k & -> & _)%list_elem_of_fmap. apply wallet_decode_encode. auto with tardus.
  - destruct Hs as (rec & ? & ? & ?). exists rec. by rewrite Hsh.
Qed.

Lemma refresh5_pending F w ep a session kappa rngs S cands melted g c created :
  length (sid session) = 16%nat -> 1 <= kappa < 256 -> cands_ok kappa rngs S F cands ->
  Forall (λ b, length b = 32%nat) (cd_challenge <$> cands) ->
  length (coin_pubkey_bytes melted) = 32%nat -> length (Signature_to_bytes (coin_signature melted)) = 64%nat ->
  daemons w !! ep_base_url ep = Some a ->
  nullifier_shown (config (ep_base_url ep)) (coin_pubkey_bytes melted) a -> holds_share F (ep_my_index ep) a ->
  app_refresh_sessions a !! session =
    Some {| re_state := r1_state session kappa rngs (ep_my_index ep); re_created_at := created |} ->
  1 <= g <= kappa -> sc_from_canonical (cd_challenge (cand_of cands g)) = Some c ->
  Forall u16 S -> ep_my_index ep ∈ S -> 0 ∉ S ->
  let final := (run (refresh_round5 (config (ep_base_url ep)) (round5_request session S g melted cands)) a).2 in
  pending daemons set_daemons w (Call (ep_base_url ep)
    {| vr5_session_id := session; vr5_from_index := ep_my_index ep;
       vr5_s_partial := sc_to_bytes (refresh_partial kappa rngs S F g c (ep_my_index ep) + offset (ep_base_url ep))%sc |}
    final)
    (refresh_round5_call session S g (ur2_of session kappa melted cands) ep) /\
  holds_share F (ep_my_index ep) final /\ app_refresh_sessions final !! session = None.
Proof.
  intros Hl Hk Hcs Hcl Hpk Hsig Ha Hnull Hs Hst Hg Hc HS Hi H0 final.
  destruct (run_refresh_round5 F _ _ session kappa rngs S cands melted g c a created Hl Hk Hcs Hcl Hpk Hsig Hnull
    Hs Hst Hg Hc HS Hi H0) as (a' & Hr & Hstate & Ht). unfold final. rewrite Hr. cbn [snd]. split_and!; [| |done].
  - eapply (call_pending _ _ _ _ _ _ (λ resp, _ ← expect_index ep (f5_from_index resp);
      s ← wallet_decode_hex32 (f5_s_partial_hex resp);
      Ok {| vr5_session_id := session; vr5_from_index := ep_my_index ep; vr5_s_partial := s |}));
      [|reflexivity|exact Ha|apply run_answered, Hr|reflexivity|].
    + intros y. unfold expect_index. destruct (reject_if _ _); [|done..]. cbn. by destruct (wallet_decode_hex32 _).
    + cbn [f5_from_index f5_s_partial_hex]. unfold expect_index. rewrite Z.eqb_refl. step.
      rewrite shifted_encode. by rewrite wallet_decode_encode by auto with tardus.
  - destruct Hs as (rec & ? & ? & ?). exists rec. by rewrite Hstate.
Qed.

Lemma refresh_first_round order F eps apps session kappa pk w : deployed F eps apps w ->
  length (sid session) = 16%nat -> 1 <= kappa ->
  (forall ep, ep ∈ eps -> app_refresh_sessions (apps (ep_my_index ep)) !! session = None) ->
  (forall ep, ep ∈ eps -> nullifier_shown (config (ep_base_url ep)) pk (apps (ep_my_index ep))) ->
  exists w' apps', run (try_join_all order (refresh_round1_call session kappa <$> eps)) w =
      (Ok (r1_msg session kappa (rngs_of apps) <$> signers eps), w') /\
    w' = set_daemons (daemons w') w /\ deployed F eps apps' w' /\
    (forall ep, ep ∈ eps -> nullifier_shown (config (ep_base_url ep)) pk (apps' (ep_my_index ep))) /\
    (forall ep, ep ∈ eps -> exists created, app_refresh_sessions (apps' (ep_my_index ep)) !! session =
      Some {| re_state := r1_state session kappa (rngs_of apps) (ep_my_index ep); re_created_at := created |}).
Proof.
  intros Hd Hl Hk Hnew Hnull.
  set (final := λ ep, (run (refresh_round1 (hex_encode (sid session)) kappa) (apps (ep_my_index ep))).2).
  pose proof (λ ep Hep, refresh1_pending F w ep _ session kappa Hl Hk (dp_app _ _ _ _ Hd ep Hep)
    (dp_share _ _ _ _ Hd ep Hep) (Hnew ep Hep)) as H1.
  destruct (run_round order eps (refresh_round1_call session kappa)
    (λ ep, r1_msg session kappa (rngs_of apps) (ep_my_index ep)) final w (dp_urls _ _ _ _ Hd))
    as (w' & Hr & Hw & Hf); [intros ep Hep; apply (H1 ep Hep)|].
  exists w', (by_validator eps final apps). split_and!.
  - rewrite Hr. unfold signers. by rewrite <- list_fmap_compose.
  - exact Hw.
  - apply (deployed_after F eps apps final w w' Hd). intros ep Hep. split; [by apply Hf|apply (H1 ep Hep)].
  - intros ep Hep. rewrite by_validator_eq by (apply (dp_indices _ _ _ _ Hd) || done).
    unfold nullifier_shown, final. rewrite (proj1 (proj2 (proj2 (H1 ep Hep)))). by apply Hnull.
  - intros ep Hep. rewrite by_validator_eq by (apply (dp_indices _ _ _ _ Hd) || done). apply (H1 ep Hep).
Qed.

Lemma refresh_second_round order F eps apps session kappa rngs cands melted g c w : deployed F eps apps w ->
  length (sid session) = 16%nat -> 1 <= kappa < 256 -> cands_ok kappa rngs (signers eps) F cands ->
  Forall (λ b, length b = 32%nat) (cd_challenge <$> cands) ->
  length (coin_pubkey_bytes melted) = 32%nat -> length (Signature_to_bytes (coin_signature melted)) = 64%nat ->
  1 <= g <= kappa -> sc_from_canonical (cd_challenge (cand_of cands g)) = Some c ->
  (forall ep, ep ∈ eps ->
    nullifier_shown (config (ep_base_url ep)) (coin_pubkey_bytes melted) (apps (ep_my_index ep))) ->
  (forall ep, ep ∈ eps -> exists created, app_refresh_sessions (apps (ep_my_index ep)) !! session =
    Some {| re_state := r1_state session kappa rngs (ep_my_index ep); re_created_at := created |}) ->
  exists w' apps',
    run (try_join_all order (refresh_round5_call session (signers eps) g (ur2_of session kappa melted cands) <$> eps)) w =
      (Ok ((λ ep, {| vr5_session_id := session; vr5_from_index := ep_my_index ep;
              vr5_s_partial := sc_to_bytes (refresh_partial kappa rngs (signers eps) F g c (ep_my_index ep) +
                offset (ep_base_url ep))%sc |}) <$> eps), w') /\
    w' = set_daemons (daemons w') w /\ deployed F eps apps' w' /\
    (forall ep, ep ∈ eps -> app_refresh_sessions (apps' (ep_my_index ep)) !! session = None).
Proof.
  intros Hd Hl Hk Hcs Hcl Hpk Hsig Hg Hc Hnull Hst. destruct (deployed_signers _ _ _ _ Hd) as [HS H0].
  set (final := λ ep, (run (refresh_round5 (config (ep_base_url ep)) (round5_request session (signers eps) g melted cands))
    (apps (ep_my_index ep))).2).
  match goal with |- exists w' apps', run _ w = (Ok (?v0 <$> _), _) /\ _ => set (v := v0) end.
  assert (forall ep, ep ∈ eps -> pending daemons set_daemons w (Call (ep_base_url ep) (v ep) (final ep))
      (refresh_round5_call session (signers eps) g (ur2_of session kappa melted cands) ep) /\
    holds_share F (ep_my_index ep) (final ep) /\ app_refresh_sessions (final ep) !! session = None) as H3.
  { intros ep Hep. destruct (Hst ep Hep) as [created Hs].
    apply (refresh5_pending F w ep _ session kappa rngs (signers eps) cands melted g c created); try done;
      [apply (dp_app _ _ _ _ Hd ep Hep)|by apply Hnull|apply (dp_share _ _ _ _ Hd ep Hep)|by apply list_elem_of_fmap_2]. }
  destruct (run_round order eps (refresh_round5_call session (signers eps) g (ur2_of session kappa melted cands))
    v final w (dp_urls _ _ _ _ Hd)) as (w' & Hr & Hw & Hf); [intros ep Hep; apply (H3 ep Hep)|].
  exists w', (by_validator eps final apps). split_and!.
  - exact Hr.
  - exact Hw.
  - apply (deployed_after F eps apps final w w' Hd). intros ep Hep. split; [by apply Hf|apply (H3 ep Hep)].
  - intros ep Hep. rewrite by_validator_eq by (apply (dp_indices _ _ _ _ Hd) || done). apply (H3 ep Hep).
Qed.
End calls.

Section issue_property.
Context `{CO : CurveOk} `{RP : Rpc} `{A : Aead} `{HX : Hex} {HOk : HexOk HX} `{J : Json} `{DO : DirOrder} `{RO : RowOrder} {Out : Type}.
Context (config : bytes -> ValidatorConfig) (relay_config : bytes -> RelayConfig) (fuel : nat) (offset : bytes -> scalar).
#[local] Existing Instance the_services.
Add Field mint_field : sc_field.

Lemma deployed_host F eps apps (w : world Out) h : deployed config relay_config fuel offset F eps apps w ->
  deployed config relay_config fuel offset F eps apps (put_host w h).
Proof. by intros [? ? ? ? ? ?]. Qed.

(** The aggregated response answers the challenge up to the daemons' errors. *)
Lemma response_offset k c x d :
  ((k + c * x + d)%sc ⋅ pt_base = k ⋅ pt_base + c ⋅ (x ⋅ pt_base))%pt <-> d = 0%sc.
Proof.
  rewrite <- response_equation. split.
  - intros H. assert (k + c * x + d = k + c * x)%sc as H1 by (by apply pt_mul_inj).
    replace d with ((k + c * x + d) - (k + c * x))%sc by ring. rewrite H1. ring.
  - intros ->. f_equal. ring.
Qed.

Lemma issue_runs order1 order2 F eps apps session (w : world Out) :
  deployed config relay_config fuel offset F eps apps w -> length (sid session) = 16%nat ->
  (forall ep, ep ∈ eps -> app_sign_sessions (apps (ep_my_index ep)) !! session = None) ->
  let pk := PublicKey_from_secret {| sk_scalar := peval F 0 |} in
  exists coin w', run (issue_coin order1 order2 {| pool_endpoints := eps |} pk session) w = (Ok coin, w') /\
    own_coin coin /\
    (Coin_verify coin pk = Ok true <-> sc_sum (offset ∘ ep_base_url <$> eps) = 0%sc) /\
    undisturbed config relay_config fuel offset w w' /\
    exists apps', deployed config relay_config fuel offset F eps apps' w' /\
      forall ep, ep ∈ eps -> app_sign_sessions (apps' (ep_my_index ep)) !! session = None.
Proof.
  intros Hd Hl Hnew pk. pose proof (PublicKey_from_secret_valid {| sk_scalar := peval F 0 |}) as Hpk. fold pk in Hpk.
  destruct (deployed_signers _ _ _ _ _ _ _ _ Hd) as [HS H0].
  pose proof (dp_indices _ _ _ _ _ _ _ _ Hd) as Hnd.
  assert (length F <= length (signers eps))%nat as Hlen
    by (unfold signers; rewrite length_fmap; apply (dp_enough _ _ _ _ _ _ _ _ Hd)).
  destruct (issue_first_round config relay_config fuel offset order1 F eps apps session w Hd Hl Hnew)
    as (w1 & apps1 & Hr1 & Ho1 & Hd1 & Hs1).
  unfold issue_coin, signing_set. cbn [pool_endpoints]. change (ep_my_index <$> eps) with (signers eps).
  rewrite run_bind, Hr1, (aggregate_round1 session (signers eps) (rngs_of apps)) by done.
  set (K := sc_sum ((λ i, (sc_random (rngs_of apps i)).1) <$> signers eps)).
  cbn [map_err]. rewrite run_bind, run_lift, run_bind.
  rewrite (run_os_draw (E := WalletError.t) SecretKey_random w1). set (h2 := set_rng (w_host w1) _).
  set (sk := (SecretKey_random (h_rng (w_host w1))).1). cbn zeta. rewrite run_bind.
  set (commit := {| bc_r := _ |}). set (pkb := PublicKey_to_bytes (PublicKey_from_secret sk)).
  pose proof (pt_decompress_compress (K ⋅ pt_base)%pt) as HR.
  destruct (blind_request_ok commit pk _ _ pkb (h_rng h2) (proj1 Hpk) HR) as (ch & us & r' & c & Hb & Hc).
  rewrite (run_os_draw_res (E := WalletError.t)
    (λ r, map_err WalletError.Core (blind_request commit pk pkb r)) (put_host w1 h2) (ch, us) r')
    by (cbn [w_host put_host]; by rewrite Hb). set (h3 := set_rng _ r').
  destruct (issue_second_round config relay_config fuel offset order2 F eps apps1 session ch c (rngs_of apps)
    (put_host (put_host w1 h2) h3) ltac:(by repeat apply deployed_host) Hl Hc Hs1)
    as (w' & apps' & Hr2 & Ho2 & Hd2 & Hs2).
  rewrite run_bind, Hr2. unfold signers at 2.
  rewrite (aggregate_responses_sum session eps ep_my_index
    (λ ep, partial_of (signers eps) (rngs_of apps) F c (ep_my_index ep) + offset (ep_base_url ep))%sc) by done.
  rewrite sc_sum_add. change (λ x, partial_of (signers eps) (rngs_of apps) F c (ep_my_index x))
    with (partial_of (signers eps) (rngs_of apps) F c ∘ ep_my_index).
  rewrite list_fmap_compose. change (ep_my_index <$> eps) with (signers eps).
  rewrite sum_partials by done. fold K. cbn [map_err]. rewrite run_bind, run_lift.
  set (d := sc_sum ((λ x, offset (ep_base_url x)) <$> eps)).
  destruct (unblind_exact commit pk _ _ pkb (h_rng h2) ch us r' {| br_s := sc_to_bytes (K + c * peval F 0 + d)%sc |}
    _ Hpk HR Hb (sc_canonical_to_bytes _)) as (sig & c' & Hc' & -> & Hv & Hwfs).
  assert (c' = c) as -> by congruence. cbn [map_err]. rewrite run_bind, run_lift, Coin_new_derived by done.
  cbn [map_err]. rewrite run_lift. eexists _, w'. split_and!; [done|by split| | |by exists apps'].
  2:{ etrans; [apply undisturbed_daemons, Ho1|]. etrans; [apply undisturbed_rng|].
      etrans; [apply undisturbed_rng|]. apply undisturbed_daemons, Ho2. }
  unfold Coin_verify. rewrite map_err_Ok_iff. cbn [coin_pubkey_bytes coin_signature]. rewrite Hv.
  cbn [sk_scalar]. apply response_offset.
Qed.

(** Issuance against any [t] or more daemons of one key, over HTTP: in
    whatever order the calls of a round interleave, the wallet gets a coin for
    its own secret, and the daemons forget the session.  The wallet does not
    check the signature: with daemons that answer wrong scalars it returns a
    coin all the same, which verifies under the joint key exactly when the
    errors of the daemons cancel; so with honest daemons it verifies. *)
Theorem issue_over_http order1 order2 F eps apps session (w : world Out) :
  deployed config relay_config fuel offset F eps apps w -> length (sid session) = 16%nat ->
  (forall ep, ep ∈ eps -> app_sign_sessions (apps (ep_my_index ep)) !! session = None) ->
  let pk := PublicKey_from_secret {| sk_scalar := peval F 0 |} in
  exists coin w', run (issue_coin order1 order2 {| pool_endpoints := eps |} pk session) w = (Ok coin, w') /\
    own_coin coin /\
    (Coin_verify coin pk = Ok true <-> sc_sum (offset ∘ ep_base_url <$> eps) = 0%sc) /\
    undisturbed config relay_config fuel offset w w' /\
    exists apps', deployed config relay_config fuel offset F eps apps' w' /\
      forall ep, ep ∈ eps -> app_sign_sessions (apps' (ep_my_index ep)) !! session = None.
Proof. apply issue_runs. Qed.
End issue_property.

Section refresh_property.
Context `{CO : CurveOk} `{RP : Rpc} `{A : Aead} `{HX : Hex} {HOk : HexOk HX} `{J : Json} `{DO : DirOrder} `{RO : RowOrder} {Out : Type}.
Context (config : bytes -> ValidatorConfig) (relay_config : bytes -> RelayConfig) (fuel : nat) (offset : bytes -> scalar).
#[local] Existing Instance the_services.

Lemma challenges_length kappa rngs S F cands : 1 <= kappa < 256 -> cands_ok kappa rngs S F cands ->
  Forall (λ b, length b = 32%nat) (cd_challenge <$> cands).
Proof.
  intros Hk Hcs. apply Forall_fmap, Forall_lookup. intros i c Hi. cbn. pose proof (lookup_lt_Some _ _ _ Hi) as Hlt.
  destruct (challenge_canonical kappa rngs S F Hk cands (Z.of_nat i + 1) Hcs) as [x Hx];
    [destruct Hcs; lia|].
  unfold cand_of in Hx. replace (Z.to_nat (Z.of_nat i + 1 - 1)) with i in Hx by lia. rewrite Hi in Hx.
  cbn in Hx. rewrite (sc_canonical_unique _ _ Hx). auto with tardus.
Qed.

(** The aggregate of partial signatures that are off by the daemons' errors. *)
Lemma aggregate_shifted session kappa rngs F eps g c : NoDup (signers eps) -> Forall u16 (signers eps) ->
  (length F <= length (signers eps))%nat ->
  aggregate_refresh_round5 session (signers eps)
    ((λ ep, {| vr5_session_id := session; vr5_from_index := ep_my_index ep;
               vr5_s_partial := sc_to_bytes (refresh_partial kappa rngs (signers eps) F g c (ep_my_index ep) +
                 offset (ep_base_url ep))%sc |}) <$> eps) =
  Ok {| mr5_session_id := session; mr5_s_aggregated := sc_to_bytes
          (nonce_sum kappa rngs (signers eps) (g - 1) + c * peval F 0 + sc_sum (offset ∘ ep_base_url <$> eps))%sc |}.
Proof.
  intros Hnd HS Hlen.
  rewrite (aggregate_refresh_round5_ok _ _ _ (λ o, default 0%sc (sc_from_canonical (vr5_s_partial o))));
    [|by rewrite <- list_fmap_compose|by rewrite <- list_fmap_compose|].
  2:{ intros o (ep & -> & _)%list_elem_of_fmap. cbn. by rewrite sc_canonical_to_bytes. }
  do 3 f_equal. rewrite <- list_fmap_compose, <- sum_refresh_partials by done.
  unfold signers at 3. rewrite <- list_fmap_compose, <- sc_sum_add. f_equal.
  apply list_fmap_ext. intros i ep _. cbn. by rewrite sc_canonical_to_bytes.
Qed.

Lemma last_round kappa rngs S F session cands ch c d : 1 <= kappa < 256 -> cands_ok kappa rngs S F cands ->
  mr3_session_id ch = session -> 1 <= mr3_gamma_star ch <= kappa ->
  sc_from_canonical (cd_challenge (cand_of cands (mr3_gamma_star ch))) = Some c ->
  let pk := PublicKey_from_secret {| sk_scalar := peval F 0 |} in
  let out := user_refresh_round6 (urs_of session kappa F cands) ch {| mr5_session_id := session; mr5_s_aggregated :=
    sc_to_bytes (nonce_sum kappa rngs S (mr3_gamma_star ch - 1) + c * peval F 0 + d)%sc |} pk in
  if decide (d = 0%sc) then exists coin, out = Ok coin /\ Coin_verify coin pk = Ok true /\ own_coin coin
  else out = Err RefreshError.CoinSignatureInvalid.
Proof.
  intros Hk Hcs Hs Hg Hc pk out.
  pose proof (round6_exact session kappa rngs S F Hk cands ch c
    (nonce_sum kappa rngs S (mr3_gamma_star ch - 1) + c * peval F 0 + d)%sc Hcs Hs Hg Hc) as H.
  cbn zeta in H. fold pk in H. fold out in H.
  pose proof (response_offset (nonce_sum kappa rngs S (mr3_gamma_star ch - 1)) c (peval F 0) d) as Hd.
  destruct (decide (d = 0%sc)) as [E|E]; [rewrite decide_True in H by (by apply Hd)|
    rewrite decide_False in H by (by intros ?%Hd)]; exact H.
Qed.

Lemma refresh_runs order1 order2 F eps apps melted session (w : world Out) :
  deployed config relay_config fuel offset F eps apps w -> length (sid session) = 16%nat ->
  (forall ep, ep ∈ eps -> app_refresh_sessions (apps (ep_my_index ep)) !! session = None) ->
  let pk := PublicKey_from_secret {| sk_scalar := peval F 0 |} in
  Coin_verify melted pk = Ok true ->
  length (coin_pubkey_bytes melted) = 32%nat -> wf_signature (coin_signature melted) ->
  (forall ep, ep ∈ eps ->
    nullifier_shown (config (ep_base_url ep)) (coin_pubkey_bytes melted) (apps (ep_my_index ep))) ->
  exists result w', run (refresh_coin order1 order2 {| pool_endpoints := eps |} melted pk session) w = (result, w') /\
    (if decide (sc_sum (offset ∘ ep_base_url <$> eps) = 0%sc)
     then exists coin, result = Ok coin /\ Coin_verify coin pk = Ok true /\ own_coin coin
     else result = Err (WalletError.Refresh RefreshError.CoinSignatureInvalid)) /\
    undisturbed config relay_config fuel offset w w' /\
    exists apps', deployed config relay_config fuel offset F eps apps' w' /\
      forall ep, ep ∈ eps -> app_refresh_sessions (apps' (ep_my_index ep)) !! session = None.
Proof.
  intros Hd Hl Hnew pk Hmelt Hpk [Hsr Hss] Hnull.
  assert (length (Signature_to_bytes (coin_signature melted)) = 64%nat) as Hsig
    by (unfold Signature_to_bytes; rewrite length_app; lia).
  destruct (deployed_signers _ _ _ _ _ _ _ _ Hd) as [HS H0].
  pose proof (dp_indices _ _ _ _ _ _ _ _ Hd) as Hnd.
  assert (length F <= length (signers eps))%nat as Hlen
    by (unfold signers; rewrite length_fmap; apply (dp_enough _ _ _ _ _ _ _ _ Hd)).
  assert (1 <= DEFAULT_KAPPA < 256) as Hk by (unfold DEFAULT_KAPPA; lia).
  destruct (refresh_first_round config relay_config fuel offset order1 F eps apps session DEFAULT_KAPPA
    (coin_pubkey_bytes melted) w Hd Hl (proj1 Hk) Hnew Hnull) as (w1 & apps1 & Hr1 & Ho1 & Hd1 & Hnull1 & Hs1).
  unfold refresh_coin, signing_set. cbn [pool_endpoints]. change (ep_my_index <$> eps) with (signers eps).
  rewrite run_bind, Hr1, run_bind.
  rewrite (aggregate_refresh_round1_ok session DEFAULT_KAPPA (rngs_of apps) (signers eps)) by (done || lia).
  cbn [map_err]. rewrite run_lift, run_bind. fold (mr1_of session DEFAULT_KAPPA (rngs_of apps) (signers eps)).
  destruct (round2_ok session DEFAULT_KAPPA (rngs_of apps) (signers eps) F Hk melted (h_rng (w_host w1)))
    as (cands & r' & Hcs & H2). fold pk in H2.
  match goal with |- context [run (os_draw_res ?f0) w1] =>
    rewrite (run_os_draw_res (E := WalletError.t) f0 w1 _ r' (f_equal (map_err WalletError.Refresh) H2)) end.
  set (h2 := set_rng (w_host w1) r').
  destruct (compute_gamma_star_ok (E := RefreshError.t) session DEFAULT_KAPPA Hk) as (g & Hg & Hgr).
  set (ch := {| mr3_session_id := session; mr3_gamma_star := g |}).
  pose proof (mint_round3_ok session DEFAULT_KAPPA F melted cands g Hmelt Hg) as H3. fold pk ch in H3. rewrite H3.
  destruct (challenge_canonical DEFAULT_KAPPA (rngs_of apps) (signers eps) F Hk cands g Hcs Hgr) as [c Hcc].
  cbn [map_err]. rewrite run_bind, run_lift, run_bind.
  rewrite (round4_ok session DEFAULT_KAPPA (rngs_of apps) (signers eps) F Hk cands ch) by done.
  cbn [map_err]. rewrite run_lift, run_bind.
  pose proof (reveal_ok session DEFAULT_KAPPA (rngs_of apps) (signers eps) F Hk melted cands ch Hcs eq_refl Hgr) as Hrv.
  fold pk in Hrv. rewrite Hrv. cbn [map_err]. rewrite run_lift, run_bind.
  destruct (refresh_second_round config relay_config fuel offset order2 F eps apps1 session DEFAULT_KAPPA (rngs_of apps)
    cands melted g c (put_host w1 h2) ltac:(by apply deployed_host) Hl Hk Hcs
    (challenges_length _ _ _ _ _ Hk Hcs) Hpk Hsig Hgr Hcc Hnull1 Hs1) as (w' & apps' & Hr2 & Ho2 & Hd2 & Hs2).
  cbn [ch mr3_gamma_star]. rewrite Hr2, run_bind.
  rewrite aggregate_shifted by done. cbn [map_err]. rewrite run_lift, run_lift.
  eexists _, w'. split_and!; [done| | |by exists apps'].
  2:{ etrans; [apply undisturbed_daemons, Ho1|]. etrans; [apply undisturbed_rng|]. apply undisturbed_daemons, Ho2. }
  pose proof (last_round DEFAULT_KAPPA (rngs_of apps) (signers eps) F session cands ch c
    (sc_sum (offset ∘ ep_base_url <$> eps)) Hk Hcs eq_refl Hgr Hcc) as Hlast. fold pk in Hlast. cbn [ch mr3_gamma_star] in Hlast.
  case_decide; [destruct Hlast as (coin & Hr & Hv); exists coin; by rewrite Hr|by rewrite Hlast].
Qed.

(** C8: refreshing a coin against [t] or more daemons of its key, over HTTP,
    where the chain shows the nullifier of the melted coin: in whatever order
    the calls of a round interleave, the wallet gets a fresh coin that
    verifies, when the daemons' errors cancel (with honest daemons), and
    [CoinSignatureInvalid] when they do not.  Either way the daemons keep
    their shares and have used up the session. *)
Theorem refresh_over_http order1 order2 F eps apps melted session (w : world Out) :
  deployed config relay_config fuel offset F eps apps w -> length (sid session) = 16%nat ->
  (forall ep, ep ∈ eps -> app_refresh_sessions (apps (ep_my_index ep)) !! session = None) ->
  let pk := PublicKey_from_secret {| sk_scalar := peval F 0 |} in
  Coin_verify melted pk = Ok true ->
  length (coin_pubkey_bytes melted) = 32%nat -> wf_signature (coin_signature melted) ->
  (forall ep, ep ∈ eps ->
    nullifier_shown (config (ep_base_url ep)) (coin_pubkey_bytes melted) (apps (ep_my_index ep))) ->
  exists result w', run (refresh_coin order1 order2 {| pool_endpoints := eps |} melted pk session) w = (result, w') /\
    (if decide (sc_sum (offset ∘ ep_base_url <$> eps) = 0%sc)
     then exists coin, result = Ok coin /\ Coin_verify coin pk = Ok true /\ own_coin coin
     else result = Err (WalletError.Refresh RefreshError.CoinSignatureInvalid)) /\
    undisturbed config relay_config fuel offset w w' /\
    exists apps', deployed config relay_config fuel offset F eps apps' w' /\
      forall ep, ep ∈ eps -> app_refresh_sessions (apps' (ep_my_index ep)) !! session = None.
Proof. apply refresh_runs. Qed.
End refresh_property.

(** ** Witnesses: two daemons of a key *)
#[local] Existing Instance toy.
#[local] Existing Instance toy_ok.
#[local] Existing Instance toy_rpc.
#[local] Existing Instance toy_aead.
#[local] Existing Instance toy_hex.
#[local] Existing Instance toy_hex_ok.
#[local] Existing Instance toy_order.
#[local] Existing Instance toy_json.
#[local] Existing Instance toy_rows.

Definition mint_record (j : Z) : ValidatorShareRecord :=
  {| sr_keyset_id := byte_of_Z 2 :: PublicKey_to_bytes demo_joint; sr_my_index := j;
     sr_n := 3; sr_t := 2; sr_epoch := 1; sr_joint_pk_bytes := PublicKey_to_bytes demo_joint;
     sr_my_share_bytes := SecretKey_to_bytes (demo_sh j); sr_qual := [1; 2; 3] |}.
Definition mint_app (j : Z) : AppState := demo_app (Some (mint_record j)) j.
Definition mint_pool : list ValidatorEndpoint :=
  [{| ep_my_index := 3; ep_base_url := ascii "c" |}; {| ep_my_index := 1; ep_base_url := ascii "a" |}].
Definition mint_config (url : bytes) : ValidatorConfig := demo_config false.
Definition mint_relay_config (url : bytes) : RelayConfig := demo_relay.
Definition mint_offset (wrong : Z) (url : bytes) : scalar :=
  if decide (url = ascii "a") then sc_of_u64 wrong else sc_of_u64 0.
Definition mint_services : services :=
  {| sv_daemons := list_to_map ((λ ep, (ep_base_url ep, mint_app (ep_my_index ep))) <$> mint_pool); sv_relays := ∅ |}.
Definition mint_world (wrong : Z) :=
  {| w_host := demo_host 9; w_net := (mint_services : @net (services_transport mint_config mint_relay_config 64 (mint_offset wrong)));
     w_out := ([] : list unit) |}.

Lemma mint_deployed wrong :
  deployed mint_config mint_relay_config 64 (mint_offset wrong) demo_cs mint_pool mint_app (mint_world wrong).
Proof.
  assert (forall ep, ep ∈ mint_pool -> ep = {| ep_my_index := 3; ep_base_url := ascii "c" |} \/
    ep = {| ep_my_index := 1; ep_base_url := ascii "a" |}) as Hep.
  { intros ep Hep. unfold mint_pool in Hep. rewrite !elem_of_cons in Hep.
    destruct Hep as [->|[->|?%elem_of_nil]]; [by left|by right|done]. }
  split.
  - apply (bool_decide_unpack (NoDup (ep_base_url <$> mint_pool))). by vm_compute.
  - apply (bool_decide_unpack (NoDup (ep_my_index <$> mint_pool))). by vm_compute.
  - intros ep [-> | ->]%Hep; cbn; lia.
  - cbn. lia.
  - intros ep [-> | ->]%Hep; [|reflexivity]. reflexivity.
  - intros ep [-> | ->]%Hep; eexists; (split; [reflexivity|]); split; reflexivity.
Qed.

(** With an honest daemon and one that answers a scalar off by one. *)
Lemma issue_over_http_witness :
  exists coin w', run (issue_coin [] [1]%nat {| pool_endpoints := mint_pool |} demo_joint demo_session) (mint_world 1) =
      (Ok coin, w') /\
    Coin_verify coin demo_joint <> Ok true.
Proof.
  destruct (issue_over_http mint_config mint_relay_config 64 (mint_offset 1) [] [1]%nat demo_cs mint_pool mint_app
    demo_session (mint_world 1)) as (coin & w' & H1 & _ & H3 & _).
  - apply mint_deployed.
  - reflexivity.
  - intros ep _. reflexivity.
  - exists coin, w'. split; [exact H1|]. intros Hv. apply H3 in Hv. revert Hv.
    apply (bool_decide_unpack (sc_sum (mint_offset 1 ∘ ep_base_url <$> mint_pool) <> 0%sc)). by vm_compute.
Defined.

Lemma refresh_over_http_witness :
  exists coin w', run (refresh_coin [1; 0]%nat [] {| pool_endpoints := mint_pool |} demo_coin demo_joint demo_session)
      (mint_world 0) = (Ok coin, w') /\
    Coin_verify coin demo_joint = Ok true.
Proof.
  destruct (refresh_over_http mint_config mint_relay_config 64 (mint_offset 0) [1; 0]%nat [] demo_cs mint_pool mint_app
    demo_coin demo_session (mint_world 0)) as (result & w' & H1 & H2 & _).
  - apply mint_deployed.
  - reflexivity.
  - intros ep _. reflexivity.
  - vm_refl.
  - vm_refl.
  - split; vm_refl.
  - intros ep _. exact I.
  - rewrite decide_True in H2; [|vm_refl]. destruct H2 as (coin & -> & Hv & _). exists coin, w'. split; [exact H1|exact Hv].
Defined.
