(* ===== verification/WalletFront.v ===== *)
(** * What the two front ends of the wallet share

    [crates/tardus-wallet/src/bin/wallet.rs] and
    [crates/tardus-wallet-gui/src/runtime.rs] repeat the code around the
    wallet library: parsing of hexadecimal arguments, the payload of a
    payment, the calls to a relay, the count of coins by denomination.  The
    JSON of the payload (serde_json) is the class [PayloadJson]. *)
From S2P Require Import Prelude Crypto Async Parallel Platform Core Wire MintBase Refresh ClientBase Invoice Client.
From S2P Require Import Transparency Validator Keys WalletStore Wallet.

(** ** Errors: the call that failed, without the text of its message *)
Module FrontError.
Inductive t : Type :=
| Hex
| BadLength (expected got : Z)
| MissingArgument
| BadWordCount
| NoValidators
| TooManyValidators
| UnknownKeyset
| NoKeysetsFile
| NoActiveCoin
| DenomMismatch (keyset other : Z)
| EmptyName
| BadKeyset
| NoRelay
| RelayRequest
| RelayJson
| Encoding
| BadAddress
| KeypairFile
| ClusterCall
| BadAccount
| NoActiveKeyset
| DoubleSpend
| VaultUnderfunded (have need : Z)
| LowBalance
| NoSponsorPaths
| NoKeysets
| Wallet (e : WalletError.t)
| SealedBox (e : SealedBoxError.t)
| Client (e : ClientError.t)
| Core (e : CoreError.t)
| Refresh (e : RefreshError.t).
End FrontError.

(** ** The payload of a payment *)
Record Payload : Type := {
  pl_coin_secret : bytes;
  pl_coin_pubkey : bytes;
  pl_coin_signature : bytes;
  pl_denom : Z;
  pl_memo : option bytes;
}.
(** What the look-ups [json\["coin_secret"\].as_str()] and the like find. *)
Record Fields : Type := {
  fd_coin_secret : option bytes;
  fd_coin_pubkey : option bytes;
  fd_coin_signature : option bytes;
  fd_denom : option Z;
}.
Class PayloadJson : Type := {
  payload_to_vec : Payload -> option bytes;
  value_from_slice : bytes -> option Fields;
}.
Definition payload_fields (p : Payload) : Fields :=
  {| fd_coin_secret := Some (pl_coin_secret p); fd_coin_pubkey := Some (pl_coin_pubkey p);
     fd_coin_signature := Some (pl_coin_signature p); fd_denom := Some (pl_denom p) |}.
(** serde_json prints any value and reads back what it printed; [as_u64]. *)
Class PayloadJsonOk (J : PayloadJson) : Prop := {
  payload_to_vec_total p : is_Some (payload_to_vec p);
  payload_read p b : payload_to_vec p = Some b -> u64 (pl_denom p) ->
    utf8_valid (pl_coin_secret p) = true -> utf8_valid (pl_coin_pubkey p) = true ->
    utf8_valid (pl_coin_signature p) = true ->
    value_from_slice b = Some (payload_fields p);
  value_denom b f d : value_from_slice b = Some f -> fd_denom f = Some d -> u64 d;
}.

(** [Result::ok]. *)
Definition ok_value {E R} (r : res E R) : option R := match r with Ok a => Some a | _ => None end.

(** [str::trim_end_matches('/')]. *)
Fixpoint drop_slashes (s : bytes) : bytes :=
  match s with
  | c :: s' => if Byte.eqb c "/" then drop_slashes s' else s
  | [] => []
  end.
Definition trim_end_slashes (s : bytes) : bytes := rev (drop_slashes (rev s)).

Definition parse_hex (n : nat) (s : bytes) `{Hex} : res FrontError.t bytes :=
  b ← ok_or FrontError.Hex (hex_decode s);
  _ ← reject_if (negb (length b =? n)%nat) (FrontError.BadLength (Z.of_nat n) (Z.of_nat (length b)));
  Ok b.
Definition parse_hex32 `{Hex} (s : bytes) : res FrontError.t bytes := parse_hex 32 s.
Definition parse_hex64 `{Hex} (s : bytes) : res FrontError.t bytes := parse_hex 64 s.

(** ** Coins by denomination *)
Record DenomBucket : Type := { db_denom : Z; db_active : Z; db_in_flight : Z; db_spent : Z }.

(** [BTreeMap::entry(denom).or_insert(..)], then the counter of the status;
    the map is the list of its entries by increasing key. *)
Definition count_status (b : DenomBucket) (s : CoinStatus.t) : DenomBucket :=
  match s with
  | CoinStatus.Active => {| db_denom := db_denom b; db_active := wrap 64 (db_active b + 1);
                            db_in_flight := db_in_flight b; db_spent := db_spent b |}
  | CoinStatus.InFlight => {| db_denom := db_denom b; db_active := db_active b;
                              db_in_flight := wrap 64 (db_in_flight b + 1); db_spent := db_spent b |}
  | CoinStatus.Spent => {| db_denom := db_denom b; db_active := db_active b;
                           db_in_flight := db_in_flight b; db_spent := wrap 64 (db_spent b + 1) |}
  end.
Definition empty_bucket (denom : Z) : DenomBucket :=
  {| db_denom := denom; db_active := 0; db_in_flight := 0; db_spent := 0 |}.
Fixpoint count_coin (c : StoredCoin) (buckets : list DenomBucket) : list DenomBucket :=
  match buckets with
  | [] => [count_status (empty_bucket (stc_denom c)) (stc_status c)]
  | b :: rest =>
      if stc_denom c <? db_denom b
      then count_status (empty_bucket (stc_denom c)) (stc_status c) :: buckets
      else if stc_denom c =? db_denom b then count_status b (stc_status c) :: rest
      else b :: count_coin c rest
  end.
Definition by_denom (coins : list StoredCoin) : list DenomBucket :=
  foldl (λ buckets c, count_coin c buckets) [] coins.

(** ** Coins in the store *)
Section coins.
Context `{C : Curve}.
Definition stored_coin (coin : Coin) (denom : Z) (status : CoinStatus.t) (label : option bytes) : StoredCoin :=
  {| stc_secret_bytes := SecretKey_to_bytes (coin_secret coin); stc_pubkey_bytes := coin_pubkey_bytes coin;
     stc_signature_bytes := Signature_to_bytes (coin_signature coin); stc_denom := denom;
     stc_status := status; stc_label := label |}.

(** The first active coin with a label. *)
Definition find_labelled (label : bytes) (s : CoinStore) : option StoredCoin :=
  snd <$> list_find (λ c, stc_label c = Some label /\ stc_status c = CoinStatus.Active) (cst_coins s).
End coins.

(** ** Programs of the front ends *)
Section front.
Context `{C : Curve} `{T : Transport} {Out : Type} `{HX : Hex} `{A : Aead} {X : X25519 C} `{PJ : PayloadJson} `{B : Bip39}.

#[local] Abbreviation front := (io (world Out) FrontError.t).

Definition in_wallet {R} (p : io (world Out) WalletError.t R) : front R := pmap (map_err FrontError.Wallet) p.
Definition in_host {R} (p : io host WalletError.t R) : front R := in_wallet (locally p).

Definition open_seed (phrase passphrase : bytes) : res FrontError.t bytes :=
  m ← map_err FrontError.Wallet (parse_mnemonic phrase);
  Ok (derive_master_seed m passphrase).

Definition joint_key (joint_pk_hex : bytes) : res FrontError.t PublicKey :=
  joint_pk_bytes ← parse_hex32 joint_pk_hex;
  map_err FrontError.Core (PublicKey_from_bytes joint_pk_bytes).

(** *** A relay *)
Definition answer_json (reply : http_reply) : res FrontError.t http_body :=
  match reply with
  | SendFailed => Err FrontError.RelayRequest
  | Reply _ NotJsonBody => Err FrontError.RelayJson
  | Reply _ body => Ok body
  end.
Definition call_relay (relay : bytes) (req : http_request) : front http_body :=
  reply ← (pmap Ok (remotely (exchange relay req)) : front http_reply);
  lift (answer_json reply).
Definition listed_messages (body : http_body) : list (option bytes * option bytes) :=
  match body with BodyMessages (Some messages) => messages | _ => [] end.
Definition deposit_receipt (body : http_body) : bytes * Z :=
  match body with BodyDeposit id expires => (default [] id, default 0 expires) | _ => ([], 0) end.

(** *** Paying *)
Definition payment_payload (coin : Coin) (invoice : Invoice) : Payload :=
  {| pl_coin_secret := hex_encode (SecretKey_to_bytes (coin_secret coin));
     pl_coin_pubkey := hex_encode (coin_pubkey_bytes coin);
     pl_coin_signature := hex_encode (Signature_to_bytes (coin_signature coin));
     pl_denom := inv_denom invoice;
     pl_memo := m ← inv_memo invoice; if utf8_valid m then Some m else None |}.
Definition encode_payment (coin : Coin) (invoice : Invoice) (encrypt : bool) : front bytes :=
  plaintext ← lift (ok_or FrontError.Encoding (payload_to_vec (payment_payload coin invoice)));
  if encrypt : bool then
    sealed ← os_draw_res (λ r, map_err FrontError.SealedBox (seal plaintext (inv_recipient_pubkey invoice) r));
    mret (hex_encode sealed)
  else mret (hex_encode plaintext).
Definition deliver (relay_url payload_hex : bytes) (invoice : Invoice) (ttl_secs : Z) : front (bytes * Z) :=
  deposit ← call_relay (trim_end_slashes relay_url)
              (PostInbox (hex_encode (inv_recipient_pubkey invoice)) payload_hex ttl_secs);
  mret (deposit_receipt deposit).

(** *** Receiving *)
Definition decode_message (master_seed label_prefix id payload_hex : bytes) : option StoredCoin :=
  payload_bytes ← hex_decode payload_hex;
  let '(recv_sk, _) := derive_receiving_keypair master_seed in
  let decoded := match open payload_bytes recv_sk with Ok plaintext => plaintext | _ => payload_bytes end in
  json ← value_from_slice decoded;
  cs ← fd_coin_secret json;
  cp ← fd_coin_pubkey json;
  sig ← fd_coin_signature json;
  denom ← fd_denom json;
  secret_bytes ← ok_value (parse_hex32 cs);
  pubkey_bytes ← ok_value (parse_hex32 cp);
  sig_bytes ← ok_value (parse_hex64 sig);
  Some {| stc_secret_bytes := secret_bytes; stc_pubkey_bytes := pubkey_bytes;
          stc_signature_bytes := sig_bytes; stc_denom := denom; stc_status := CoinStatus.Active;
          stc_label := Some (label_prefix ++ ascii "-" ++ id) |}.

Record Received : Type := { rc_store : CoinStore; rc_added : Z; rc_deleted : Z; rc_skipped : Z }.
Definition skip_message (t : Received) : Received :=
  {| rc_store := rc_store t; rc_added := rc_added t; rc_deleted := rc_deleted t; rc_skipped := rc_skipped t + 1 |}.
Definition keep_coin (t : Received) (store : CoinStore) (deleted : bool) : Received :=
  {| rc_store := store; rc_added := rc_added t + 1;
     rc_deleted := if deleted then rc_deleted t + 1 else rc_deleted t; rc_skipped := rc_skipped t |}.

(** Any answer to the deletion counts, whatever its status. *)
Definition delete_message (relay recipient id : bytes) : front bool :=
  reply ← (pmap Ok (remotely (exchange relay (DeleteInbox recipient id))) : front http_reply);
  mret (match reply with SendFailed => false | Reply _ _ => true end).

Definition receive_message (master_seed relay recipient label_prefix : bytes) (keep_on_relay : bool)
    (t : Received) (msg : option bytes * option bytes) : front Received :=
  let id := default [] msg.1 in
  let payload_hex := default [] msg.2 in
  match decode_message master_seed label_prefix id payload_hex with
  | None => mret (skip_message t)
  | Some stored =>
      match CoinStore_add (rc_store t) stored with
      | Ok store =>
          if keep_on_relay then mret (keep_coin t store false)
          else deleted ← delete_message relay recipient id; mret (keep_coin t store deleted)
      | _ => mret (skip_message t)
      end
  end.
Fixpoint receive_messages (master_seed relay recipient label_prefix : bytes) (keep_on_relay : bool)
    (t : Received) (messages : list (option bytes * option bytes)) : front Received :=
  match messages with
  | [] => mret t
  | msg :: messages =>
      t ← receive_message master_seed relay recipient label_prefix keep_on_relay t msg;
      receive_messages master_seed relay recipient label_prefix keep_on_relay t messages
  end.

(** The command up to its report, which is empty when there are no messages:
    the wallet file, the inbox, the coins, the wallet file again. *)
Definition receive_from (wallet_file master_seed relay_url recipient label_prefix : bytes) (keep_on_relay : bool)
    : front (option Received) :=
  w ← in_host (WalletDb_open wallet_file master_seed);
  let relay := trim_end_slashes relay_url in
  let recipient := trim recipient in
  listed ← call_relay relay (GetInbox recipient);
  match listed_messages listed with
  | [] => mret None
  | messages =>
      t ← receive_messages master_seed relay recipient label_prefix keep_on_relay
            {| rc_store := wdb_store w; rc_added := 0; rc_deleted := 0; rc_skipped := 0 |} messages;
      _ ← (if 0 <? rc_added t
           then in_host (WalletDb_save {| wdb_path := wdb_path w; wdb_store := rc_store t |} master_seed)
           else mret tt);
      mret (Some t)
  end.
End front.
