(* ===== verification/WalletCli.v ===== *)
(** * The wallet on the command line

    Models [crates/tardus-wallet/src/bin/wallet.rs], one definition for each
    arm of [main].  A printed JSON object is a constructor of [shown] with the
    values in it; parsing of the command line (clap) is outside the model. *)
From S2P Require Import Prelude Crypto Async Parallel Platform Core Wire MintBase Refresh ClientBase Invoice Client.
From S2P Require Import Transparency Validator Keys WalletStore Wallet WalletFront.

Inductive shown_memo : Type := MemoText (s : bytes) | MemoHex (s : bytes) | MemoNull.
Inductive shown : Type :=
| ShowMnemonic (word_count : Z) (phrase : bytes)
| ShowSeed (master_seed_hex : bytes)
| ShowIdentity (identity_pubkey_hex : bytes)
| ShowStatus (file : bytes) (total_coins : Z) (buckets : list DenomBucket)
| ShowCoinAdded (file : bytes)
| ShowCoins (coins : list (bytes * Z * CoinStatus.t * option bytes))
| ShowCoin (coin_secret coin_pubkey coin_signature : bytes)
| ShowReceivedNone
| ShowReceived (received deleted_from_relay skipped : Z)
| ShowPaid (recipient : bytes) (denom : Z) (relay message_id : bytes) (expires_at_unix_ms : Z)
| ShowInvoice (uri : bytes)
| ShowInvoiceFields (recipient_pubkey : bytes) (denom : Z) (relays : list bytes) (memo : shown_memo)
| ShowKeysetAdded (name file : bytes)
| ShowKeysets (keysets : list (bytes * Z * bytes * list bytes))
| ShowKeysetRemoved (removed : bool) (name file : bytes)
| NoteSaved (file : bytes)
| NoteRefreshed (label : bytes).

(** ** Arguments *)
Record IssueArgs : Type := {
  ia_validators : list bytes; ia_joint_pk : option bytes; ia_keyset : option bytes; ia_keysets_file : bytes;
  ia_session_id : option bytes; ia_wallet_file : option bytes; ia_wallet_phrase : option bytes;
  ia_wallet_passphrase : bytes; ia_denom : option Z; ia_label : option bytes;
}.
Record RefreshArgs : Type := {
  fa_validators : list bytes; fa_joint_pk : option bytes; fa_keyset : option bytes; fa_keysets_file : bytes;
  fa_coin_secret : option bytes; fa_coin_pubkey : option bytes; fa_coin_signature : option bytes;
  fa_session_id : option bytes; fa_wallet_file : option bytes; fa_wallet_phrase : option bytes;
  fa_wallet_passphrase : bytes; fa_coin_label : option bytes;
}.
Record PayArgs : Type := {
  pa_invoice : bytes; pa_keyset : bytes; pa_keysets_file : bytes; pa_wallet_phrase : bytes;
  pa_wallet_passphrase : bytes; pa_relay : option bytes; pa_ttl_secs : Z; pa_wallet_file : option bytes;
  pa_label : option bytes; pa_encrypt : bool;
}.
Record ReceiveArgs : Type := {
  ra_relay : bytes; ra_recipient_pubkey : bytes; ra_wallet_file : bytes; ra_wallet_phrase : bytes;
  ra_wallet_passphrase : bytes; ra_label_prefix : bytes; ra_keep_on_relay : bool;
}.
Inductive command : Type :=
| MnemonicGenerate (words : Z)
| MnemonicSeed (phrase passphrase : bytes)
| MnemonicIdentity (phrase passphrase : bytes)
| WalletStatus (phrase passphrase file : bytes)
| WalletAddCoin (phrase passphrase file coin_secret coin_pubkey coin_signature : bytes) (denom : Z)
    (label : option bytes)
| WalletList (phrase passphrase file : bytes)
| Receive (args : ReceiveArgs)
| Pay (args : PayArgs)
| InvoiceMake (pubkey : bytes) (denom : Z) (relay : list bytes) (memo : option bytes)
| InvoiceParse (uri : bytes)
| KeysetAdd (phrase passphrase file name : bytes) (info : KeysetInfo)
| KeysetList (phrase passphrase file : bytes)
| KeysetRemove (phrase passphrase file name : bytes)
| Issue (args : IssueArgs)
| RefreshCoin (args : RefreshArgs).

Section cli.
Context `{C : Curve} `{T : Transport} `{HX : Hex} `{A : Aead} {X : X25519 C} `{PJ : PayloadJson} `{B : Bip39}.

#[local] Abbreviation cli := (io (world shown) FrontError.t).

(** [ok_or_else]. *)
Definition required {R} (arg : option R) : cli R := lift (ok_or FrontError.MissingArgument arg).

Definition parse_session_id (opt : option bytes) : cli SessionId :=
  match opt with
  | Some s =>
      b ← lift (ok_or FrontError.Hex (hex_decode s));
      _ ← lift (reject_if (negb (length b =? 16)%nat) (FrontError.BadLength 16 (Z.of_nat (length b))));
      mret {| sid := b |}
  | None => a ← os_draw (rng_fill 16); mret {| sid := a |}
  end.

(** The validators, the key and the denomination: of a keyset, or of the
    arguments. *)
Definition resolve_inputs (keyset wallet_phrase : option bytes) (wallet_passphrase keysets_file : bytes)
    (joint_pk : option bytes) (validators : list bytes) : cli (list bytes * bytes * option Z) :=
  match keyset with
  | Some name =>
      phrase ← required wallet_phrase;
      seed ← lift (open_seed phrase wallet_passphrase);
      db ← in_host (KeysetDb_open keysets_file seed);
      info ← lift (ok_or FrontError.UnknownKeyset (KeysetStore_get (kdb_store db) name));
      mret (ki_validators info, ki_joint_pk_hex info, Some (ki_denom info))
  | None =>
      joint_pk ← required joint_pk;
      _ ← lift (reject_if (bool_decide (validators = [])) FrontError.NoValidators);
      mret (validators, joint_pk, None)
  end.
Definition resolve_issue_inputs (args : IssueArgs) : cli (list bytes * bytes * option Z) :=
  resolve_inputs (ia_keyset args) (ia_wallet_phrase args) (ia_wallet_passphrase args) (ia_keysets_file args)
    (ia_joint_pk args) (ia_validators args).
Definition resolve_refresh_inputs (args : RefreshArgs) : cli (list bytes * bytes * option Z) :=
  resolve_inputs (fa_keyset args) (fa_wallet_phrase args) (fa_wallet_passphrase args) (fa_keysets_file args)
    (fa_joint_pk args) (fa_validators args).

(** [u16::try_from(i + 1)] of the position in the list. *)
Definition endpoint_at (i : nat) (url : bytes) : res FrontError.t ValidatorEndpoint :=
  let idx := Z.of_nat i + 1 in
  if idx <? 2 ^ 16 then Ok {| ep_my_index := idx; ep_base_url := url |} else Err FrontError.TooManyValidators.
Fixpoint endpoints_from (i : nat) (urls : list bytes) : res FrontError.t (list ValidatorEndpoint) :=
  match urls with
  | [] => Ok []
  | url :: urls => ep ← endpoint_at i url; eps ← endpoints_from (S i) urls; Ok (ep :: eps)
  end.
Definition build_pool (urls : list bytes) : res FrontError.t WalletClientPool :=
  endpoints ← endpoints_from 0 urls;
  map_err FrontError.Wallet (WalletClientPool_new endpoints).

Definition print_coin_json (coin : Coin) : cli unit :=
  prints (ShowCoin (hex_encode (SecretKey_to_bytes (coin_secret coin))) (hex_encode (coin_pubkey_bytes coin))
            (hex_encode (Signature_to_bytes (coin_signature coin)))).

(** ** mnemonic *)
Definition mnemonic_generate (words : Z) : cli unit :=
  wc ← lift (if words =? 12 then Ok WordCount.Twelve
             else if words =? 24 then Ok WordCount.TwentyFour else Err FrontError.BadWordCount);
  m ← os_draw_res (λ r, map_err FrontError.Wallet (generate_mnemonic wc r));
  prints (ShowMnemonic words (mnemonic_to_string m)).
Definition mnemonic_seed (phrase passphrase : bytes) : cli unit :=
  seed ← lift (open_seed phrase passphrase);
  prints (ShowSeed (hex_encode seed)).
Definition mnemonic_identity (phrase passphrase : bytes) : cli unit :=
  seed ← lift (open_seed phrase passphrase);
  let '(_, pk) := derive_receiving_keypair seed in
  prints (ShowIdentity (hex_encode pk)).

(** ** wallet *)
Definition wallet_status (phrase passphrase file : bytes) : cli unit :=
  seed ← lift (open_seed phrase passphrase);
  w ← in_host (WalletDb_open file seed);
  let coins := cst_coins (wdb_store w) in
  prints (ShowStatus file (Z.of_nat (length coins)) (by_denom coins)).

(** [store_mut().add(..)] and [save]. *)
Definition add_and_save (w : WalletDb) (coin : StoredCoin) (seed : bytes) : cli unit :=
  store ← lift (map_err FrontError.Client (CoinStore_add (wdb_store w) coin));
  in_host (WalletDb_save {| wdb_path := wdb_path w; wdb_store := store |} seed).

Definition wallet_add_coin (phrase passphrase file coin_secret coin_pubkey coin_signature : bytes) (denom : Z)
    (label : option bytes) : cli unit :=
  seed ← lift (open_seed phrase passphrase);
  w ← in_host (WalletDb_open file seed);
  secret_bytes ← lift (parse_hex32 coin_secret);
  pubkey_bytes ← lift (parse_hex32 coin_pubkey);
  sig_bytes ← lift (parse_hex64 coin_signature);
  _ ← add_and_save w {| stc_secret_bytes := secret_bytes; stc_pubkey_bytes := pubkey_bytes;
                        stc_signature_bytes := sig_bytes; stc_denom := denom;
                        stc_status := CoinStatus.Active; stc_label := label |} seed;
  prints (ShowCoinAdded file).
Definition wallet_list (phrase passphrase file : bytes) : cli unit :=
  seed ← lift (open_seed phrase passphrase);
  w ← in_host (WalletDb_open file seed);
  prints (ShowCoins ((λ c, (hex_encode (stc_pubkey_bytes c), stc_denom c, stc_status c, stc_label c))
                       <$> cst_coins (wdb_store w))).

(** ** receive *)
Definition receive (args : ReceiveArgs) : cli unit :=
  seed ← lift (open_seed (ra_wallet_phrase args) (ra_wallet_passphrase args));
  t ← receive_from (ra_wallet_file args) seed (ra_relay args) (ra_recipient_pubkey args) (ra_label_prefix args)
        (ra_keep_on_relay args);
  prints (match t with
          | None => ShowReceivedNone
          | Some t => ShowReceived (rc_added t) (rc_deleted t) (rc_skipped t)
          end).

(** ** pay *)
Definition pay (order1 order2 : list nat) (args : PayArgs) : cli unit :=
  invoice ← lift (map_err FrontError.Client (Invoice_parse (pa_invoice args)));
  seed ← lift (open_seed (pa_wallet_phrase args) (pa_wallet_passphrase args));
  ks_db ← in_host (KeysetDb_open (pa_keysets_file args) seed);
  info ← lift (ok_or FrontError.UnknownKeyset (KeysetStore_get (kdb_store ks_db) (pa_keyset args)));
  _ ← lift (reject_if (negb (ki_denom info =? inv_denom invoice))
              (FrontError.DenomMismatch (ki_denom info) (inv_denom invoice)));
  joint_pk ← lift (joint_key (ki_joint_pk_hex info));
  pool ← lift (build_pool (ki_validators info));
  session_id ← parse_session_id None;
  coin ← in_wallet (issue_coin order1 order2 pool joint_pk session_id);
  payload_hex ← encode_payment coin invoice (pa_encrypt args);
  relay_url ← lift (ok_or FrontError.NoRelay
                      (match pa_relay args with Some url => Some url | None => head (inv_relays invoice) end));
  let recipient_hex := hex_encode (inv_recipient_pubkey invoice) in
  deposit ← deliver relay_url payload_hex invoice (pa_ttl_secs args);
  let '(msg_id, expires) := deposit in
  _ ← (match pa_wallet_file args with
       | Some file =>
           w ← in_host (WalletDb_open file seed);
           let label := match pa_label args with
                        | Some label => label
                        | None => ascii "pay-to-" ++ take 12 recipient_hex
                        end in
           add_and_save w (stored_coin coin (inv_denom invoice) CoinStatus.Spent (Some label)) seed
       | None => mret tt
       end);
  prints (ShowPaid recipient_hex (inv_denom invoice) relay_url msg_id expires).

(** ** invoice *)
Definition invoice_make (pubkey : bytes) (denom : Z) (relay : list bytes) (memo : option bytes) : cli unit :=
  pk ← lift (parse_hex32 pubkey);
  prints (ShowInvoice (Invoice_to_uri {| inv_recipient_pubkey := pk; inv_denom := denom; inv_relays := relay;
                                         inv_memo := memo |})).
Definition invoice_parse (uri : bytes) : cli unit :=
  inv ← lift (map_err FrontError.Client (Invoice_parse uri));
  prints (ShowInvoiceFields (hex_encode (inv_recipient_pubkey inv)) (inv_denom inv) (inv_relays inv)
            (match inv_memo inv with
             | Some m => if utf8_valid m then MemoText m else MemoHex (hex_encode m)
             | None => MemoNull
             end)).

(** ** keyset *)
Definition keyset_add (phrase passphrase file name : bytes) (info : KeysetInfo) : cli unit :=
  seed ← lift (open_seed phrase passphrase);
  db ← in_host (KeysetDb_open file seed);
  _ ← in_host (KeysetDb_save {| kdb_path := kdb_path db; kdb_store := KeysetStore_upsert (kdb_store db) name info |} seed);
  prints (ShowKeysetAdded name file).
Definition keyset_list (phrase passphrase file : bytes) : cli unit :=
  seed ← lift (open_seed phrase passphrase);
  db ← in_host (KeysetDb_open file seed);
  prints (ShowKeysets ((λ e : bytes * KeysetInfo, (e.1, ki_denom e.2, ki_joint_pk_hex e.2, ki_validators e.2))
                         <$> sorted_entries (ks_entries (kdb_store db)))).
Definition keyset_remove (phrase passphrase file name : bytes) : cli unit :=
  seed ← lift (open_seed phrase passphrase);
  db ← in_host (KeysetDb_open file seed);
  let '(removed, store) := KeysetStore_remove (kdb_store db) name in
  _ ← in_host (KeysetDb_save {| kdb_path := kdb_path db; kdb_store := store |} seed);
  prints (ShowKeysetRemoved (bool_decide (is_Some removed)) name file).

(** ** issue *)
Definition issue (order1 order2 : list nat) (args : IssueArgs) : cli unit :=
  inputs ← resolve_issue_inputs args;
  let '(validators, joint_pk_hex, default_denom) := inputs in
  joint_pk ← lift (joint_key joint_pk_hex);
  session_id ← parse_session_id (ia_session_id args);
  pool ← lift (build_pool validators);
  coin ← in_wallet (issue_coin order1 order2 pool joint_pk session_id);
  _ ← print_coin_json coin;
  match ia_wallet_file args with
  | Some file =>
      phrase ← required (ia_wallet_phrase args);
      denom ← required (match ia_denom args with Some d => Some d | None => default_denom end);
      seed ← lift (open_seed phrase (ia_wallet_passphrase args));
      w ← in_host (WalletDb_open file seed);
      _ ← add_and_save w (stored_coin coin denom CoinStatus.Active (ia_label args)) seed;
      prints (NoteSaved file)
  | None => mret tt
  end.

(** ** refresh *)
(** The coin to melt, and its label when it is one of the wallet. *)
Definition coin_material (args : RefreshArgs) : cli (bytes * bytes * bytes * option bytes) :=
  match fa_coin_label args with
  | Some label =>
      file ← required (fa_wallet_file args);
      phrase ← required (fa_wallet_phrase args);
      seed ← lift (open_seed phrase (fa_wallet_passphrase args));
      w ← in_host (WalletDb_open file seed);
      found ← lift (ok_or FrontError.NoActiveCoin (find_labelled label (wdb_store w)));
      mret (stc_secret_bytes found, stc_pubkey_bytes found, stc_signature_bytes found, Some label)
  | None =>
      cs ← required (fa_coin_secret args);
      cp ← required (fa_coin_pubkey args);
      csig ← required (fa_coin_signature args);
      secret_bytes ← lift (parse_hex32 cs);
      pubkey ← lift (parse_hex32 cp);
      sig_bytes ← lift (parse_hex64 csig);
      mret (secret_bytes, pubkey, sig_bytes, None)
  end.
(** [Option::unwrap]. *)
Definition unwrapped {R} (arg : option R) : cli R := lift (expect arg).

(** The wallet after the refresh: the old coin is spent, and the new one has
    the denomination of the first coin with the label. *)
Definition replace_coin (s : CoinStore) (melted new_coin : Coin) (label : bytes) : res FrontError.t CoinStore :=
  let old_nullifier := StoredCoin_nullifier (stored_coin melted 0 CoinStatus.Active None) in
  s ← map_err FrontError.Client (CoinStore_mark_spent s old_nullifier);
  let denom := match list_find (λ c, stc_label c = Some label) (cst_coins s) with
               | Some (_, c) => stc_denom c
               | None => 0
               end in
  map_err FrontError.Client (CoinStore_add s (stored_coin new_coin denom CoinStatus.Active (Some label))).

Definition refresh (order1 order2 : list nat) (args : RefreshArgs) : cli unit :=
  inputs ← resolve_refresh_inputs args;
  let '(validators, joint_pk_hex, _) := inputs in
  joint_pk ← lift (joint_key joint_pk_hex);
  material ← coin_material args;
  let '(secret_bytes, pubkey, sig_bytes, from_wallet_label) := material in
  coin_secret ← lift (map_err FrontError.Core (SecretKey_from_bytes secret_bytes));
  melted ← lift (map_err FrontError.Refresh (Coin_new coin_secret pubkey (Signature_from_bytes sig_bytes)));
  session_id ← parse_session_id (fa_session_id args);
  pool ← lift (build_pool validators);
  new_coin ← in_wallet (refresh_coin order1 order2 pool melted joint_pk session_id);
  _ ← print_coin_json new_coin;
  match fa_wallet_file args, from_wallet_label with
  | Some file, Some label =>
      phrase ← unwrapped (fa_wallet_phrase args);
      seed ← lift (open_seed phrase (fa_wallet_passphrase args));
      w ← in_host (WalletDb_open file seed);
      store ← lift (replace_coin (wdb_store w) melted new_coin label);
      _ ← in_host (WalletDb_save {| wdb_path := wdb_path w; wdb_store := store |} seed);
      prints (NoteRefreshed label)
  | _, _ => mret tt
  end.

Definition main (order1 order2 : list nat) (cmd : command) : cli unit :=
  match cmd with
  | MnemonicGenerate words => mnemonic_generate words
  | MnemonicSeed phrase passphrase => mnemonic_seed phrase passphrase
  | MnemonicIdentity phrase passphrase => mnemonic_identity phrase passphrase
  | WalletStatus phrase passphrase file => wallet_status phrase passphrase file
  | WalletAddCoin phrase passphrase file cs cp sig denom label =>
      wallet_add_coin phrase passphrase file cs cp sig denom label
  | WalletList phrase passphrase file => wallet_list phrase passphrase file
  | Receive args => receive args
  | Pay args => pay order1 order2 args
  | InvoiceMake pubkey denom relay memo => invoice_make pubkey denom relay memo
  | InvoiceParse uri => invoice_parse uri
  | KeysetAdd phrase passphrase file name info => keyset_add phrase passphrase file name info
  | KeysetList phrase passphrase file => keyset_list phrase passphrase file
  | KeysetRemove phrase passphrase file name => keyset_remove phrase passphrase file name
  | Issue args => issue order1 order2 args
  | RefreshCoin args => refresh order1 order2 args
  end.
End cli.
