(* ===== verification/WalletRun.v ===== *)
(** * The front ends, run alone

    What the calls to the host, to a relay and to the daemons do to the world
    when nothing else runs: the equations with which the commands of
    [WalletCli] and [WalletGui] are evaluated. *)
From S2P Require Import Prelude Crypto ToyCurve Async Rely Parallel Platform ToyPlatform Core Poly Wire MintBase Vss Sign.
From S2P Require Import Dkg Rotation Refresh RefreshProps ClientBase Invoice Client Storage Transparency Sessions Validator ToyValidator.
From S2P Require Import ValidatorRun Relay RelayProps Keys WalletStore Wallet Services WalletMint WalletFront.

(** ** A relay alone *)
Section relay_runs.
Context `{CO : CurveOk} `{HX : Hex} {HOk : HexOk HX} `{RO : RowOrder}.
Variable config : RelayConfig.
Implicit Types a : RelayApp.

Lemma run_on_world {E X} (f : host -> X * host) a :
  run (on_world (E := E) f) a = (Ok (f (ra_host a)).1, set_world a (f (ra_host a)).2).
Proof using. unfold on_world. rewrite run_atomically. by destruct (f _). Qed.
Lemma run_on_inbox {E X} (f : Z -> Backend -> res E X * Backend) a :
  run (on_inbox f) a = ((f (h_instant (ra_host a)) (ra_inbox a)).1,
    set_inbox a (f (h_instant (ra_host a)) (ra_inbox a)).2).
Proof using. unfold on_inbox. rewrite run_bind, run_atomically. cbn [fst snd]. by destruct (f _ _). Qed.
Lemma run_on_counters {E X} (f : RelayState -> X * RelayState) a :
  run (on_counters (E := E) f) a = (Ok (f (ra_state a)).1, set_counters a (f (ra_state a)).2).
Proof using. unfold on_counters. rewrite run_atomically. by destruct (f _). Qed.
Lemma run_map_error {S E E' X} (f : E -> E') (p : io S E X) s :
  run (map_error f p) s = (map_err f (run p s).1, (run p s).2).
Proof using. revert s. induction p as [r|Y g k IH]; intros s; cbn; [done|]. destruct (g s). apply IH. Qed.

#[local] Hint Rewrite @run_bind @run_lift @run_mret @run_on_world @run_on_inbox @run_on_counters : relay.
Ltac run_relay := autorewrite with relay; cbn [fst snd].

Lemma parse_recipient_encode rec : length rec = 32%nat -> parse_recipient (hex_encode rec) = Ok rec.
Proof. intros Hl. unfold parse_recipient. rewrite hex_decode_encode. cbn. by rewrite Hl. Qed.

(** The inbox of [rec] in the memory backend, as a reader sees it. *)
Definition inbox_of (a : RelayApp) (rec : bytes) (bucket : list StoredMessage) : Prop :=
  exists m, ra_inbox a = Memory (Guarded m) /\ default [] (m !! rec) = bucket.

Lemma run_relay_deposit rec payload ttl a bucket : length rec = 32%nat -> inbox_of a rec bucket ->
  Z.of_nat (length payload) / 2 <= rl_max_payload_bytes config ->
  Z.of_nat (length bucket) < rl_max_per_recipient config ->
  h_instant (ra_host a) + ttl * 1000000000 < INSTANT_LIMIT ->
  exists msg a', run (relay_deposit config (hex_encode rec) payload (Some ttl)) a = (Ok msg, a') /\
    msg_payload_hex msg = payload /\ h_instant (ra_host a') = h_instant (ra_host a) /\
    (exists id, length id = 16%nat /\ msg_id msg = hex_encode id) /\
    inbox_of a' rec (bucket ++ [{| sm_msg := msg;
      sm_expires_at_inst := h_instant (ra_host a) + ttl * 1000000000 |}]).
Proof.
  intros Hl (m & Hm & Hb) Hp Hn Ht. unfold relay_deposit, store_deposit, wall_clock, monotonic, random_id.
  rewrite run_bind, run_lift, parse_recipient_encode by done. rewrite run_bind, run_map_error. cbn [from_option].
  unfold Datatypes.id. replace (rl_max_payload_bytes config <? Z.of_nat (length payload) / 2) with false by lia.
  cbn [reject_if]. run_relay. destruct (rng_fill 16 _) as [id r] eqn:Hr. run_relay.
  cbn [ra_inbox set_world ra_host h_instant set_rng]. rewrite Hm. cbn [InboxStore_deposit]. rewrite Hb.
  replace (rl_max_per_recipient config <=? Z.of_nat (length bucket)) with false by lia.
  replace (INSTANT_LIMIT <=? h_instant (ra_host a) + ttl * 1000000000) with false by lia. run_relay. cbn [map_err].
  run_relay.
  do 2 eexists. split; [reflexivity|]. split; [done|]. split; [done|]. split.
  - exists id. split; [|done]. apply (f_equal fst) in Hr. cbn [fst] in Hr. rewrite <- Hr. apply rng_fill_length.
  - eexists. split; [reflexivity|]. by rewrite lookup_insert_eq.
Qed.

Lemma run_relay_list rec a bucket : length rec = 32%nat -> inbox_of a rec bucket ->
  exists a', run (relay_list (hex_encode rec)) a =
      (Ok (sm_msg <$> filter (λ m, h_instant (ra_host a) < sm_expires_at_inst m) bucket), a') /\
    ra_inbox a' = ra_inbox a /\ h_instant (ra_host a') = h_instant (ra_host a).
Proof.
  intros Hl (m & Hm & Hb). unfold relay_list, store_list, wall_clock.
  rewrite run_bind, run_lift, parse_recipient_encode, run_bind, run_bind, run_on_world, run_on_inbox by done.
  cbn [fst snd set_world ra_inbox ra_host]. rewrite Hm. cbn [InboxStore_list fst snd]. run_relay. eexists. split.
  { f_equal. f_equal. rewrite <- Hb. by destruct (m !! rec). }
  done.
Qed.

Lemma run_relay_remove rec id a bucket : length rec = 32%nat -> inbox_of a rec bucket ->
  exists b a', run (relay_remove (hex_encode rec) id) a = (Ok b, a') /\
    inbox_of a' rec (filter (λ m, msg_id (sm_msg m) <> id) bucket).
Proof.
  intros Hl (m & Hm & Hb). unfold relay_remove, store_remove.
  rewrite run_bind, run_lift, parse_recipient_encode, run_on_inbox by done. rewrite Hm. cbn [InboxStore_remove].
  destruct (m !! rec) as [bucket0|] eqn:Hr; cbn [fst snd]; cbn in Hb; subst; do 2 eexists; (split; [reflexivity|]); eexists.
  - split; [reflexivity|]. by rewrite lookup_insert_eq.
  - split; [reflexivity|]. by rewrite Hr.
Qed.
End relay_runs.

(** ** Hexadecimal arguments *)
Section hex_arguments.
Context `{CO : CurveOk} `{HX : Hex} {HOk : HexOk HX}.

Lemma hex_utf8 b : utf8_valid (hex_encode b) = true.
Proof using HOk.
  apply utf8_valid_ascii. intros c Hc%hex_alphabet. revert c Hc.
  by apply Forall_forall, (bool_decide_unpack (Forall (λ c, between 0 127 c = true) (ascii "0123456789abcdef"))).
Qed.
Lemma parse_hex_encode n b : length b = n -> parse_hex n (hex_encode b) = Ok b.
Proof using HOk.
  intros <-. unfold parse_hex. rewrite hex_decode_encode. cbn [ok_or mbind res_bind].
  by rewrite Nat.eqb_refl.
Qed.

Lemma joint_key_encode x :
  joint_key (hex_encode (PublicKey_to_bytes (PublicKey_from_secret {| sk_scalar := x |}))) =
  Ok (PublicKey_from_secret {| sk_scalar := x |}).
Proof.
  unfold joint_key, parse_hex32. rewrite parse_hex_encode by apply pt_compress_length. cbn [mbind res_bind].
  unfold PublicKey_from_secret, PublicKey_to_bytes. cbn [pk_bytes sk_scalar].
  rewrite PublicKey_from_bytes_compress; [done|].
  destruct (PublicKey_from_secret_valid {| sk_scalar := x |}) as [_ Ht]. exact Ht.
Qed.

End hex_arguments.

(** ** The world *)
Section world_runs.
Context `{CO : CurveOk} `{RP : Rpc} `{A : Aead} `{HX : Hex} {HOk : HexOk HX} `{J : Json} `{DO : DirOrder} `{RO : RowOrder}
  {Out : Type}.
Variables (config : bytes -> ValidatorConfig) (relay_config : bytes -> RelayConfig) (fuel : nat)
  (offset : bytes -> scalar).
#[local] Hint Extern 0 Transport => exact (the_services config relay_config fuel offset) : typeclass_instances.
Implicit Types w : world Out.

Lemma run_in_wallet {R} (p : io (world Out) WalletError.t R) w :
  run (in_wallet p) w = (map_err FrontError.Wallet (run p w).1, (run p w).2).
Proof using. apply run_pmap. Qed.
Lemma run_in_host {R} (p : io host WalletError.t R) w :
  run (in_host p) w = (map_err FrontError.Wallet (run p (w_host w)).1, put_host w (run p (w_host w)).2).
Proof using. unfold in_host, locally. rewrite run_in_wallet, run_zoom by (done || by destruct w). done. Qed.
Lemma run_prints {E} (o : Out) w : run (prints (E := E) o) w =
  (Ok tt, {| w_host := w_host w; w_net := w_net w; w_out := w_out w ++ [o] |}).
Proof using. done. Qed.

Lemma run_keysets_open path seed ks w : no_faults (w_host w) ->
  stored KeysetStore_new KeysetStore_read (files (w_host w)) path seed ks ->
  run (in_host (KeysetDb_open path seed)) w = (Ok {| kdb_path := path; kdb_store := ks |}, w).
Proof using.
  intros Hf Hs. rewrite run_in_host. unfold KeysetDb_open.
  rewrite run_bind, (stored_opens _ _ _ _ _ _ Hs) by done. by destruct w.
Qed.

Definition relays w : gmap bytes RelayApp := sv_relays (w_net w).
Definition set_relays (m : gmap bytes RelayApp) w : world Out := put_net w (put_relays m (w_net w)).

Lemma set_relays_id w : set_relays (relays w) w = w.
Proof using. unfold set_relays, relays, put_net, put_relays. by destruct w as [h [d r] o]. Qed.

Lemma touches_relay {X} url (p : prog services X) q :
  touches sv_relays put_relays url p q -> touches relays set_relays url (remotely p) q.
Proof using.
  induction 1 as [a|Y f n g n' Hs Hn IH]; cbn; [apply touches_done|]. apply touches_atomic; [|exact IH].
  intros w t Ht. by rewrite (Hs _ t Ht).
Qed.

(** A request to a relay is its handler, run on the relay's own state. *)
Lemma run_exchange url req r a w : daemon_route req = None -> relay_route req = Some r -> relays w !! url = Some a ->
  run (remotely (exchange url req)) w =
    (reply_of relay_body (run (relay_router (relay_config url) r) a).1,
     set_relays (<[url := (run (relay_router (relay_config url) r) a).2]> (relays w)) w).
Proof using.
  intros Hd Hr Ha. cbn [exchange the_services services_transport]. rewrite Hd, Hr.
  rewrite (run_touches relays set_relays ltac:(done) ltac:(done) set_relays_id url _ (served_here (relay_handler relay_config url r)) w a).
  - rewrite run_served_here. unfold relay_handler. by rewrite run_pmap.
  - apply touches_relay, touches_served. by intros [].
  - exact Ha.
Qed.

Lemma run_call_relay url req r a w x a' : daemon_route req = None -> relay_route req = Some r ->
  relays w !! url = Some a -> run (relay_router (relay_config url) r) a = (Ok x, a') ->
  run (call_relay url req) w = (Ok (relay_body x), set_relays (<[url := a']> (relays w)) w).
Proof using.
  intros Hd Hr Ha Hrun. unfold call_relay. rewrite run_bind, run_pmap, (run_exchange _ _ _ _ _ Hd Hr Ha), Hrun.
  cbn [fst snd reply_of]. rewrite run_lift. by destruct x.
Qed.
End world_runs.
