(* ===== verification/WalletInbox.v ===== *)
(** * Receiving coins from a relay

    [receive_from], the body of the receive command of both front ends,
    against a relay of [Relay]: what of an inbox ends in the wallet, what is
    left on the relay, and what a failing disk does to it. *)
From S2P Require Import Prelude Crypto ToyCurve Async Rely Parallel Platform ToyPlatform Core Poly Wire MintBase Vss Sign.
From S2P Require Import Dkg Rotation Refresh RefreshProps ClientBase Invoice Client Storage Transparency Sessions Validator ToyValidator.
From S2P Require Import ValidatorRun Relay RelayProps Keys WalletStore Wallet Services WalletMint WalletFront WalletRun.

(** ** The coins of an inbox *)
Section accepting.
Context `{CO : CurveOk} `{A : Aead} `{HX : Hex} {X : X25519 C} `{PJ : PayloadJson}.
Variables (master_seed label_prefix : bytes).

Definition accept (s : CoinStore) (m : Message) : option CoinStore :=
  stored ← decode_message master_seed label_prefix (msg_id m) (msg_payload_hex m);
  ok_value (CoinStore_add s stored).
(** The store after a list of messages, and the identifiers of those whose
    coin went into it. *)
Fixpoint accepted (s : CoinStore) (ms : list Message) : CoinStore * list bytes :=
  match ms with
  | [] => (s, [])
  | m :: ms =>
      match accept s m with
      | Some s => let '(s', ids) := accepted s ms in (s', msg_id m :: ids)
      | None => accepted s ms
      end
  end.
Lemma accepted_none s ms store : accepted s ms = (store, []) -> store = s.
Proof.
  revert s; induction ms as [|m ms IH]; intros s; cbn; [congruence|]. destruct (accept s m) as [s1|]; [|apply IH].
  by destruct (accepted s1 ms).
Qed.
Lemma accepted_snoc s ms m c : decode_message master_seed label_prefix (msg_id m) (msg_payload_hex m) = Some c ->
  let '(store, ids) := accepted s ms in
  accepted s (ms ++ [m]) =
    if bool_decide (StoredCoin_nullifier c ∈ nullifiers_of store) then (store, ids)
    else ({| cst_version := cst_version store; cst_coins := cst_coins store ++ [c] |}, ids ++ [msg_id m]).
Proof.
  intros Hc. revert s; induction ms as [|m' ms IH]; intros s; cbn.
  - unfold accept. rewrite Hc. cbn. case_bool_decide as Hn.
    + destruct (CoinStore_add s c) as [s'| |] eqn:Ha; [|done..]. by apply CoinStore_add_ok in Ha as [? _].
    + by rewrite (proj2 (CoinStore_add_ok s c _) (conj Hn eq_refl)).
  - destruct (accept s m') as [s1|]; [|apply IH]. specialize (IH s1). destruct (accepted s1 ms) as [store ids].
    rewrite IH. by case_bool_decide.
Qed.
(** The messages a reader sees. *)
Definition visible (now : Z) (bucket : list StoredMessage) : list Message :=
  sm_msg <$> filter (λ m, now < sm_expires_at_inst m) bucket.

Lemma accepted_count s ms : (length (accepted s ms).2 <= length ms)%nat.
Proof.
  revert s; induction ms as [|m ms IH]; intros s; cbn; [lia|]. destruct (accept s m) as [s1|].
  - specialize (IH s1). destruct (accepted s1 ms). cbn in *. lia.
  - specialize (IH s). lia.
Qed.
End accepting.

Section receiving.
Context `{CO : CurveOk} `{RP : Rpc} `{A : Aead} {AOk : AeadOk A} `{HX : Hex} {HOk : HexOk HX} `{J : Json} `{DO : DirOrder}
  `{RO : RowOrder} {X : X25519 C} `{PJ : PayloadJson} {Out : Type}.
Variables (config : bytes -> ValidatorConfig) (relay_config : bytes -> RelayConfig) (fuel : nat)
  (offset : bytes -> scalar).
#[local] Hint Extern 0 Transport => exact (the_services config relay_config fuel offset) : typeclass_instances.
Implicit Types w : world Out.
#[local] Abbreviation relays := (relays config relay_config fuel offset).

(** Another part of the world, left alone. *)
Definition beside w w' : Prop := w_out w' = w_out w /\ sv_daemons (w_net w') = sv_daemons (w_net w).

Lemma run_delete_message url rec id a w bucket : length rec = 32%nat -> relays w !! url = Some a ->
  inbox_of a rec bucket ->
  exists w' a', run (delete_message url (hex_encode rec) id) w = (Ok true, w') /\ w_host w' = w_host w /\
    beside w w' /\ relays w' !! url = Some a' /\
    inbox_of a' rec (filter (λ m, msg_id (sm_msg m) <> id) bucket).
Proof.
  intros Hl Ha Hb. destruct (run_relay_remove rec id a bucket Hl Hb) as (b & a' & Hr & Hb').
  unfold delete_message.
  rewrite run_bind, run_pmap, (run_exchange config relay_config fuel offset url _ (RelayRemove (hex_encode rec) id) a w) by done.
  cbn [relay_router]. unfold responds. rewrite run_bind, Hr. cbn [fst snd].
  rewrite !run_mret. cbn [fst snd reply_of]. do 2 eexists. split; [reflexivity|]. split; [done|]. split; [done|].
  split; [apply lookup_insert_eq|exact Hb'].
Qed.

(** The loop over the messages. *)
Definition taken (keep : bool) (ids : list bytes) : list bytes := if keep then [] else ids.
Definition tally (t : Received) (keep : bool) (store : CoinStore) (ids : list bytes) (ms : list Message) : Received :=
  {| rc_store := store; rc_added := rc_added t + Z.of_nat (length ids);
     rc_deleted := rc_deleted t + Z.of_nat (length (taken keep ids));
     rc_skipped := rc_skipped t + (Z.of_nat (length ms) - Z.of_nat (length ids)) |}.

Lemma run_receive_message seed url rec prefix keep m t a w bucket : length rec = 32%nat ->
  relays w !! url = Some a -> inbox_of a rec bucket ->
  let '(store, ids) := accepted seed prefix (rc_store t) [m] in
  exists w' a', run (receive_message seed url (hex_encode rec) prefix keep t (listed m)) w =
      (Ok (tally t keep store ids [m]), w') /\
    w_host w' = w_host w /\ beside w w' /\ relays w' !! url = Some a' /\
    inbox_of a' rec (filter (λ m, msg_id (sm_msg m) ∉ taken keep ids) bucket).
Proof.
  intros Hl Ha Hb. cbn [accepted]. unfold accept, receive_message. cbn [listed fst snd from_option].
  unfold Datatypes.id.
  assert (forall t', t' = tally t keep (rc_store t) [] [m] -> exists w' a',
    run (mret t' : io (world Out) FrontError.t Received) w = (Ok (tally t keep (rc_store t) [] [m]), w') /\
    w_host w' = w_host w /\ beside w w' /\ relays w' !! url = Some a' /\
    inbox_of a' rec (filter (λ m, msg_id (sm_msg m) ∉ taken keep []) bucket)) as Hskip.
  { intros t' ->. exists w, a. rewrite filter_id_list by (destruct keep; set_solver). done. }
  assert (skip_message t = tally t keep (rc_store t) [] [m]) as Hs
    by (unfold skip_message, tally; destruct keep; cbn; by rewrite !Z.add_0_r).
  destruct (decode_message _ _ _ _) as [stored|]; cbn [mbind option_bind]; [|by apply Hskip].
  destruct (CoinStore_add (rc_store t) stored) as [store|e|]; cbn [ok_value]; [|by apply Hskip..].
  destruct keep; cbn [taken].
  - exists w, a. rewrite filter_id_list by set_solver. unfold keep_coin, tally. cbn. by rewrite !Z.add_0_r.
  - destruct (run_delete_message url rec (msg_id m) a w bucket Hl Ha Hb) as (w' & a' & Hr & H1 & H2 & H3 & H4).
    exists w', a'. rewrite run_bind, Hr, run_mret. unfold keep_coin, tally. cbn. rewrite !Z.add_0_r.
    split_and!; [done..|]. by rewrite (list_filter_iff _ (λ m0, msg_id (sm_msg m0) <> msg_id m)) by set_solver.
Qed.

Lemma run_receive_messages seed url rec prefix keep ms t a w bucket : length rec = 32%nat ->
  relays w !! url = Some a -> inbox_of a rec bucket ->
  let '(store, ids) := accepted seed prefix (rc_store t) ms in
  exists w' a', run (receive_messages seed url (hex_encode rec) prefix keep t (listed <$> ms)) w =
      (Ok (tally t keep store ids ms), w') /\
    w_host w' = w_host w /\ beside w w' /\ relays w' !! url = Some a' /\
    inbox_of a' rec (filter (λ m, msg_id (sm_msg m) ∉ taken keep ids) bucket).
Proof.
  intros Hl. revert t a w bucket. induction ms as [|m ms IH]; intros t a w bucket Ha Hb.
  { cbn [accepted]. exists w, a. rewrite filter_id_list by (destruct keep; set_solver). cbn. unfold tally.
    destruct t, keep; cbn; by rewrite ?Z.add_0_r. }
  rewrite fmap_cons. cbn [receive_messages].
  pose proof (run_receive_message seed url rec prefix keep m t a w bucket Hl Ha Hb) as H1.
  cbn [accepted] in *. destruct (accept seed prefix (rc_store t) m) as [s1|] eqn:Hm;
    destruct H1 as (w1 & a1 & Hr & Hh1 & Ho1 & Ha1 & Hb1).
  - specialize (IH (tally t keep s1 [msg_id m] [m]) a1 w1 _ Ha1 Hb1). cbn [tally rc_store] in IH.
    destruct (accepted seed prefix s1 ms) as [store ids]. destruct IH as (w2 & a2 & Hr2 & Hh2 & Ho2 & Ha2 & Hb2).
    exists w2, a2. rewrite run_bind, Hr, Hr2, Hh2, Hh1. destruct Ho1 as [Ho1 Hd1], Ho2 as [Ho2 Hd2].
    split; [|split; [done|split; [by split; [rewrite Ho2|rewrite Hd2]|split; [done|]]]].
    + f_equal. f_equal. unfold tally. destruct keep; cbn [rc_added rc_deleted rc_skipped length taken]; f_equal; lia.
    + rewrite list_filter_filter in Hb2.
      erewrite (list_filter_iff (λ m0, msg_id (sm_msg m0) ∉ taken keep (msg_id m :: ids))); [exact Hb2|].
      intros m'. destruct keep; cbn [taken]; rewrite ?not_elem_of_cons, ?elem_of_nil; intuition.
  - specialize (IH (tally t keep (rc_store t) [] [m]) a1 w1 _ Ha1 Hb1). cbn [tally rc_store] in IH.
    destruct (accepted seed prefix (rc_store t) ms) as [store ids]. destruct IH as (w2 & a2 & Hr2 & Hh2 & Ho2 & Ha2 & Hb2).
    exists w2, a2. rewrite run_bind, Hr, Hr2, Hh2, Hh1. destruct Ho1 as [Ho1 Hd1], Ho2 as [Ho2 Hd2].
    split; [|split; [done|split; [by split; [rewrite Ho2|rewrite Hd2]|split; [done|]]]].
    + f_equal. f_equal. unfold tally. destruct keep; cbn [rc_added rc_deleted rc_skipped length taken]; f_equal; lia.
    + rewrite list_filter_filter in Hb2.
      erewrite (list_filter_iff (λ m0, msg_id (sm_msg m0) ∉ taken keep ids)); [exact Hb2|].
      intros m'. destruct keep; cbn [taken]; rewrite ?elem_of_nil; intuition.
Qed.

(** A label that the wallet file can hold. *)
Definition label_ok (prefix id : bytes) : Prop := wf_string (prefix ++ ascii "-" ++ id).

Lemma parse_hex_ok n s b : parse_hex n s = Ok b -> length b = n.
Proof.
  unfold parse_hex. intros H. inv_res. by subst.
Qed.
Lemma ok_value_Some {E R} (r : res E R) x : ok_value r = Some x <-> r = Ok x.
Proof. destruct r; cbn; split; congruence. Qed.

Lemma decode_message_wf {PJOk : PayloadJsonOk PJ} seed prefix id payload c : label_ok prefix id ->
  decode_message seed prefix id payload = Some c -> wf_stored_coin c.
Proof.
  intros Hid H. unfold decode_message in H. apply bind_Some in H as (b & _ & H).
  destruct (derive_receiving_keypair seed) as [sk pk].
  apply bind_Some in H as (f & Hf & H). apply bind_Some in H as (cs & _ & H). apply bind_Some in H as (cp & _ & H).
  apply bind_Some in H as (sg & _ & H). apply bind_Some in H as (d & Hd & H).
  apply bind_Some in H as (s1 & H1%ok_value_Some%parse_hex_ok & H). apply bind_Some in H as (s2 & H2%ok_value_Some%parse_hex_ok & H).
  apply bind_Some in H as (s3 & H3%ok_value_Some%parse_hex_ok & H). injection H as <-.
  split_and!; [done|done|done|by eapply value_denom|]. intros l [= <-]. exact Hid.
Qed.

Lemma accepted_wf {PJOk : PayloadJsonOk PJ} seed prefix ms s : wf_store s ->
  (forall m, m ∈ ms -> label_ok prefix (msg_id m)) -> Z.of_nat (length (cst_coins s) + length ms) < 2 ^ 32 ->
  wf_store (accepted seed prefix s ms).1.
Proof.
  revert s; induction ms as [|m ms IH]; intros s Hs Hid Hn; [done|]. cbn [accepted length] in *.
  destruct (accept seed prefix s m) as [s1|] eqn:Ha; [|apply IH; [done|intros; apply Hid; by right|lia]].
  assert (wf_store (accepted seed prefix s1 ms).1) as Hw.
  { unfold accept in Ha. apply bind_Some in Ha as (c & Hc & Ha%ok_value_Some%CoinStore_add_ok). destruct Ha as [_ ->].
    apply decode_message_wf in Hc; [|apply Hid; by left]. destruct Hs as (H1 & H2 & H3).
    apply IH; [|intros; apply Hid; by right|cbn; rewrite length_app; cbn; lia].
    split_and!; [done|cbn; rewrite length_app; cbn; lia|]. cbn. intros c'. rewrite elem_of_app, list_elem_of_singleton.
    intros [?| ->]; [by apply H3|done]. }
  by destruct (accepted seed prefix s1 ms).
Qed.

Lemma empty_store_wf : wf_store CoinStore_new.
Proof. split; [by vm_compute|]. split; [done|]. by intros c ?%elem_of_nil. Qed.

(** What the command answers. *)
Definition receipt (store : CoinStore) (ids : list bytes) (keep : bool) (ms : list Message) : option Received :=
  match ms with
  | [] => None
  | _ => Some (tally {| rc_store := store; rc_added := 0; rc_deleted := 0; rc_skipped := 0 |} keep store ids ms)
  end.

Lemma run_receive_from {PJOk : PayloadJsonOk PJ} file seed url rec recipient prefix keep w a bucket s0 h1 :
  path_extension file <> Some (ascii "tmp") ->
  run (WalletDb_open file seed) (w_host w) = (Ok {| wdb_path := file; wdb_store := s0 |}, h1) ->
  wallet_opens_to (files h1) file seed s0 -> wf_store s0 ->
  Z.of_nat (length (cst_coins s0) + length bucket) < 2 ^ 32 ->
  trim recipient = hex_encode rec -> length rec = 32%nat ->
  relays w !! trim_end_slashes url = Some a -> inbox_of a rec bucket ->
  (forall m, m ∈ bucket -> label_ok prefix (msg_id (sm_msg m))) ->
  let ms := visible (h_instant (ra_host a)) bucket in
  let '(store, ids) := accepted seed prefix s0 ms in
  exists r w' a', run (receive_from file seed url recipient prefix keep) w = (r, w') /\
    relays w' !! trim_end_slashes url = Some a' /\
    inbox_of a' rec (filter (λ m, msg_id (sm_msg m) ∉ taken keep ids) bucket) /\
    (beside w w' /\ (no_faults h1 -> no_faults (w_host w')) /\ other_files file h1 (w_host w')) /\
    (r = Ok (receipt store ids keep ms) /\ wallet_opens_to (files (w_host w')) file seed store \/
     (exists e, r = Err e) /\ ids <> [] /\ wallet_opens_to (files (w_host w')) file seed s0) /\
    (Z.of_nat (length (CoinStore_to_vec store)) < 2 ^ 36 -> no_faults h1 -> r = Ok (receipt store ids keep ms)).
Proof.
  intros Hext Hopen Hfile Hwf Hn Htr Hrec Ha Hb Hids ms.
  pose proof (accepted_wf seed prefix ms s0 Hwf) as Hwf'.
  unfold receive_from. rewrite run_bind, run_in_host, Hopen. cbn [fst snd map_err wdb_store wdb_path]. rewrite Htr.
  destruct (run_relay_list rec a bucket Hrec Hb) as (a1 & Hlist & Hb1 & Hi1).
  assert (inbox_of a1 rec bucket) as Hbox by (destruct Hb as (m & ? & ?); exists m; by rewrite Hb1).
  rewrite run_bind.
  rewrite (run_call_relay config relay_config fuel offset _ _ (RelayList (hex_encode rec)) a _ (RespList ms) a1)
    by (done || cbn [relay_router]; unfold responds; by rewrite run_bind, Hlist).
  cbn [relay_body listed_messages]. set (w1 := set_relays _ _ _ _ _ _).
  assert (relays w1 !! trim_end_slashes url = Some a1) as Ha1 by apply lookup_insert_eq.
  pose proof (run_receive_messages seed (trim_end_slashes url) rec prefix keep ms
    {| rc_store := s0; rc_added := 0; rc_deleted := 0; rc_skipped := 0 |} a1 w1 bucket Hrec Ha1 Hbox) as Hloop.
  cbn [rc_store] in Hloop. destruct (accepted seed prefix s0 ms) as [store ids] eqn:Hacc.
  assert (forall m, m ∈ ms -> label_ok prefix (msg_id m)) as Hids'
    by (intros m (sm & -> & [_ Hsm]%list_elem_of_filter)%list_elem_of_fmap; by apply Hids).
  assert (length ms <= length bucket)%nat as Hlen by (unfold ms, visible; rewrite length_fmap; apply length_filter).
  specialize (Hwf' Hids' ltac:(lia)). clearbody ms. destruct ms as [|m ms].
  { cbn [accepted] in Hacc. injection Hacc as <- <-. cbn [fmap list_fmap receipt].
    rewrite run_mret. do 3 eexists. split; [reflexivity|]. split; [exact Ha1|].
    rewrite filter_id_list by (destruct keep; set_solver).
    split; [exact Hbox|]. split; [done|]. split; [by left|done]. }
  destruct Hloop as (w2 & a2 & Hr & Hh2 & Ho2 & Ha2 & Hb2). rewrite fmap_cons in *. rewrite run_bind, Hr.
  cbn [receipt]. set (t := tally _ keep store ids (m :: ms)) in *.
  assert (w_host w2 = h1) as Hh by (by rewrite Hh2). rewrite run_bind. cbn [wdb_path].
  assert (rc_added t = Z.of_nat (length ids)) as -> by done. destruct ids as [|id ids].
  - apply accepted_none in Hacc as ->. change (0 <? Z.of_nat (@length bytes [])) with false. cbv iota. rewrite !run_mret.
    do 3 eexists. split; [reflexivity|]. split; [exact Ha2|]. split; [exact Hb2|]. split; [by rewrite Hh; split; [exact Ho2|]|].
    rewrite Hh. by split; [left|].
  - replace (0 <? Z.of_nat (length (id :: ids))) with true by (symmetry; apply Z.ltb_lt; cbn [length]; lia).
    change (rc_store t) with store. rewrite run_in_host, Hh.
    destruct (wallet_save_cases {| wdb_path := file; wdb_store := store |} seed s0 h1 Hext Hwf' Hfile)
      as (r & h2 & -> & Hc & Hok & Hnf & Hk). cbn [fst snd].
    exists (match r with Ok _ => Ok (Some t) | Err e => Err (FrontError.Wallet e) | Panic => Panic end), (put_host w2 h2), a2.
    split; [by destruct r|]. split; [exact Ha2|]. split; [exact Hb2|]. split; [split; [exact Ho2|by split]|]. split.
    + destruct Hc as [[-> Hs]|[[e ->] Hs]]; [by left|right]. by split; [eauto|].
    + intros Hsz Hf. by rewrite Hok.
Qed.
End receiving.

(** ** Properties *)
Section inbox_property.
Context `{CO : CurveOk} `{RP : Rpc} `{A : Aead} {AOk : AeadOk A} `{HX : Hex} {HOk : HexOk HX} `{J : Json} `{DO : DirOrder}
  `{RO : RowOrder} {X : X25519 C} `{PJ : PayloadJson} {PJOk : PayloadJsonOk PJ} {Out : Type}.
Variables (config : bytes -> ValidatorConfig) (relay_config : bytes -> RelayConfig) (fuel : nat)
  (offset : bytes -> scalar).
#[local] Hint Extern 0 Transport => exact (the_services config relay_config fuel offset) : typeclass_instances.
#[local] Abbreviation relays := (relays config relay_config fuel offset).

(** C21: receiving.  From any inbox of a relay, whatever its messages, the
    coins of the live messages that decode and whose key is new end in the
    wallet in the order of the messages, every other message is skipped and
    stays, and the taken ones are deleted from the relay unless they are to be
    kept.  The deletions come before the wallet is saved: when the disk fails,
    the command fails, the wallet file holds none of these coins, and their
    messages are gone from the relay all the same. *)
Theorem receive_exact file seed url rec recipient prefix keep (w : world Out) a bucket s0 h1 :
  path_extension file <> Some (ascii "tmp") ->
  run (WalletDb_open file seed) (w_host w) = (Ok {| wdb_path := file; wdb_store := s0 |}, h1) ->
  wallet_opens_to (files h1) file seed s0 -> wf_store s0 ->
  Z.of_nat (length (cst_coins s0) + length bucket) < 2 ^ 32 ->
  trim recipient = hex_encode rec -> length rec = 32%nat ->
  relays w !! trim_end_slashes url = Some a -> inbox_of a rec bucket ->
  (forall m, m ∈ bucket -> label_ok prefix (msg_id (sm_msg m))) ->
  let ms := visible (h_instant (ra_host a)) bucket in
  let '(store, ids) := accepted seed prefix s0 ms in
  exists r w' a', run (receive_from file seed url recipient prefix keep) w = (r, w') /\
    relays w' !! trim_end_slashes url = Some a' /\
    inbox_of a' rec (filter (λ m, msg_id (sm_msg m) ∉ taken keep ids) bucket) /\
    (beside config relay_config fuel offset w w' /\ (no_faults h1 -> no_faults (w_host w')) /\
     other_files file h1 (w_host w')) /\
    (r = Ok (receipt store ids keep ms) /\ wallet_opens_to (files (w_host w')) file seed store \/
     (exists e, r = Err e) /\ ids <> [] /\ wallet_opens_to (files (w_host w')) file seed s0) /\
    (Z.of_nat (length (CoinStore_to_vec store)) < 2 ^ 36 -> no_faults h1 -> r = Ok (receipt store ids keep ms)).
Proof. exact (run_receive_from config relay_config fuel offset file seed url rec recipient prefix keep w a bucket s0 h1). Qed.
End inbox_property.

(** ** Witness: an inbox with a coin, a message that is none, and an expired
    one, and a disk that fails on the save *)
#[local] Existing Instance toy.
#[local] Existing Instance toy_ok.
#[local] Existing Instance toy_rpc.
#[local] Existing Instance toy_aead.
#[local] Existing Instance toy_aead_ok.
#[local] Existing Instance toy_hex.
#[local] Existing Instance toy_hex_ok.
#[local] Existing Instance toy_order.
#[local] Existing Instance toy_json.
#[local] Existing Instance toy_rows.
#[local] Existing Instance toy_x25519.

(** A printer of payloads: the fields in hexadecimal, separated by commas. *)
Definition payload_parts (p : Payload) : list bytes :=
  hex_encode <$> [pl_coin_secret p; pl_coin_pubkey p; pl_coin_signature p; le_bytes 8 (pl_denom p)].
Definition toy_payload_json : PayloadJson := {|
  payload_to_vec p := Some (join "," (payload_parts p));
  value_from_slice b :=
    match split "," b with
    | [cs; cp; sig; d] =>
        d ← hex_decode d;
        Some {| fd_coin_secret := hex_decode cs; fd_coin_pubkey := hex_decode cp; fd_coin_signature := hex_decode sig;
                fd_denom := if (length d =? 8)%nat then Some (le_Z d) else None |}
    | _ => None
    end;
|}.
Lemma toy_payload_json_ok : PayloadJsonOk toy_payload_json.
Proof.
  split.
  - intros p. by eexists.
  - intros p b <-%(inj Some) Hd _ _ _. cbn [toy_payload_json value_from_slice].
    rewrite split_join; [|done|].
    2:{ intros a (x & -> & _)%list_elem_of_fmap Hc%hex_alphabet. revert Hc.
        by apply (bool_decide_unpack (Byte.x2c ∉ ascii "0123456789abcdef")). }
    cbn [payload_parts fmap list_fmap]. rewrite !hex_decode_encode. cbn [mbind option_bind].
    rewrite length_le_bytes. cbn [Nat.eqb]. by rewrite le_Z_le_bytes_small.
  - intros b f d. cbn [toy_payload_json value_from_slice]. intros H ?.
    destruct (split "," b) as [|cs [|cp [|sig [|x [|? ?]]]]]; try done.
    apply bind_Some in H as (y & _ & [= <-]). cbn [fd_denom] in *. destruct (Nat.eqb_spec (length y) 8); [|done].
    simplify_eq. pose proof (le_Z_range y) as Hr. by rewrite e in Hr.
Qed.
#[local] Existing Instance toy_payload_json.
#[local] Existing Instance toy_payload_json_ok.

Definition inbox_message (id : bytes) (payload_hex : bytes) (expires : Z) : StoredMessage :=
  {| sm_msg := {| msg_id := id; msg_payload_hex := payload_hex; msg_received_at_unix_ms := 0;
                  msg_expires_at_unix_ms := expires |}; sm_expires_at_inst := expires |}.
Definition inbox_payload : bytes := default [] (payload_to_vec
  {| pl_coin_secret := hex_encode (repeat Byte.x01 32); pl_coin_pubkey := hex_encode (repeat Byte.x02 32);
     pl_coin_signature := hex_encode (repeat Byte.x03 64); pl_denom := 1000; pl_memo := None |}).
Definition inbox_bucket : list StoredMessage :=
  [inbox_message (ascii "m1") (ascii "zz") 10; inbox_message (ascii "m2") (hex_encode inbox_payload) 10;
   inbox_message (ascii "m3") (hex_encode inbox_payload) 0].
Definition inbox_owner : bytes := repeat Byte.x0a 32.
Definition inbox_relay : RelayApp := relay_app (Memory (Guarded {[inbox_owner := inbox_bucket]})).
#[local] Abbreviation inbox_transport := (services_transport mint_config mint_relay_config 64 (mint_offset 0)).
Definition inbox_world : @world toy inbox_transport unit :=
  {| w_host := store_host [None; Some (ascii "half")] ∅;
     w_net := ({| sv_daemons := ∅; sv_relays := {[ascii "r" := inbox_relay]} |} : @net inbox_transport); w_out := [] |}.
Definition inbox_host : host := (run (WalletDb_open demo_path demo_seed) (w_host inbox_world)).2.
Definition inbox_coins : CoinStore * list bytes :=
  accepted demo_seed (ascii "in") CoinStore_new (visible (h_instant (ra_host inbox_relay)) inbox_bucket).

Lemma inbox_labels m : m ∈ inbox_bucket -> label_ok (ascii "in") (msg_id (sm_msg m)).
Proof.
  revert m. apply Forall_forall. by repeat (apply Forall_cons; split; [split; reflexivity|]).
Qed.

Lemma receive_exact_witness :
  inbox_coins.2 = [ascii "m2"] /\
  exists r w' a', run (receive_from demo_path demo_seed (ascii "r/") (hex_encode inbox_owner) (ascii "in") false) inbox_world =
      (r, w') /\
    relays mint_config mint_relay_config 64 (mint_offset 0) w' !! ascii "r" = Some a' /\
    inbox_of a' inbox_owner [inbox_message (ascii "m1") (ascii "zz") 10;
                             inbox_message (ascii "m3") (hex_encode inbox_payload) 0] /\
    (r = Ok (receipt inbox_coins.1 [ascii "m2"] false (visible (h_instant (ra_host inbox_relay)) inbox_bucket)) /\
       wallet_opens_to (files (w_host w')) demo_path demo_seed inbox_coins.1 \/
     (exists e, r = Err e) /\ wallet_opens_to (files (w_host w')) demo_path demo_seed CoinStore_new).
Proof.
  split; [vm_refl|].
  pose proof (receive_exact mint_config mint_relay_config 64 (mint_offset 0) demo_path demo_seed (ascii "r/") inbox_owner
    (hex_encode inbox_owner) (ascii "in") false inbox_world inbox_relay inbox_bucket CoinStore_new inbox_host) as H.
  cbn zeta in H.
  assert (accepted demo_seed (ascii "in") CoinStore_new (visible (h_instant (ra_host inbox_relay)) inbox_bucket) =
    (inbox_coins.1, [ascii "m2"])) as E by vm_refl. rewrite E in H. cbn [fst].
  destruct H as (r & w' & a' & Hr & Ha & Hb & _ & Hc & _).
  - by vm_compute.
  - vm_refl.
  - apply (wallet_opens_iff (store_host [] ∅)). reflexivity.
  - exact empty_store_wf.
  - reflexivity.
  - vm_refl.
  - reflexivity.
  - vm_refl.
  - exists {[inbox_owner := inbox_bucket]}. split; vm_refl.
  - apply inbox_labels.
  - exists r, w', a'. split; [exact Hr|]. split; [exact Ha|]. split; [exact Hb|].
    destruct Hc as [Hc|(He & _ & Hw)]; [by left|right; by split].
Defined.
