(* ===== verification/WalletPay.v ===== *)
(** * Paying an invoice

    The pay command of the command line against the daemons of a keyset and
    the relay of the invoice, and the receive command of the recipient after
    it: the coin that is minted arrives in the recipient's wallet. *)
From S2P Require Import Prelude Crypto ToyCurve Async Rely Parallel Platform ToyPlatform Core Poly Wire MintBase Vss Sign.
From S2P Require Import Dkg Rotation Refresh RefreshProps ClientBase Invoice Client Storage Transparency Sessions Validator ToyValidator.
From S2P Require Import ValidatorRun Relay RelayProps Keys WalletStore Wallet Services WalletMint WalletFront WalletCli WalletRun WalletInbox.

(** ** The payload *)
Section payload.
Context `{CO : CurveOk} `{T : Transport} {Out : Type} `{A : Aead} {AOk : AeadOk A} `{HX : Hex} {HOk : HexOk HX} {X : X25519 C} {XO : X25519Ok X}
  `{PJ : PayloadJson} {PJOk : PayloadJsonOk PJ}.

(** A sealed payload opens, at the recipient, to the coin. *)
Lemma run_encode_payment coin inv master_seed (w : world Out) : own_coin coin -> u64 (inv_denom inv) ->
  inv_recipient_pubkey inv = (derive_receiving_keypair master_seed).2 ->
  (forall b, payload_to_vec (payment_payload coin inv) = Some b -> Z.of_nat (length b) < 2 ^ 36) ->
  exists b payload r, payload_to_vec (payment_payload coin inv) = Some b /\
    run (encode_payment coin inv true) w = (Ok payload, put_host w (set_rng (w_host w) r)) /\
    length payload = (2 * (length b + 48))%nat /\
    forall prefix id, decode_message master_seed prefix id payload =
      Some (stored_coin coin (inv_denom inv) CoinStatus.Active (Some (prefix ++ ascii "-" ++ id))).
Proof using All.
  intros [Hpk [Hr Hs]] Hd Hrec Hlen. destruct (payload_to_vec_total (payment_payload coin inv)) as [b Hb].
  specialize (Hlen b Hb). unfold encode_payment. rewrite Hb. cbn [ok_or]. rewrite run_bind, run_lift.
  unfold derive_receiving_keypair in Hrec. cbn [snd] in Hrec. rewrite Hrec.
  match type of Hrec with _ = pt_compress (?k ⋅ pt_base)%pt => set (sk := k) in * end.
  destruct (seal_ok b sk (h_rng (w_host w)) Hlen) as (ct & r & Hseal & Hl & Hopen).
  rewrite run_bind, (run_os_draw_res (E := FrontError.t) (λ r, map_err FrontError.SealedBox (seal b _ r)) w ct r)
    by (by rewrite Hseal).
  exists b, (hex_encode ct), r. split; [done|]. split; [done|]. split; [rewrite hex_encode_length; lia|].
  intros prefix id. unfold decode_message, derive_receiving_keypair. rewrite hex_decode_encode. cbn [mbind option_bind].
  change (sc_from_wide _) with sk. rewrite Hopen, (payload_read _ _ Hb Hd) by apply hex_utf8. cbn [mbind option_bind].
  cbn [payload_fields fd_coin_secret fd_coin_pubkey fd_coin_signature fd_denom payment_payload pl_coin_secret pl_coin_pubkey
    pl_coin_signature pl_denom mbind option_bind].
  unfold parse_hex32, parse_hex64.
  rewrite !parse_hex_encode; [done|apply sc_to_bytes_length|by rewrite Hpk; apply pt_compress_length|
    unfold Signature_to_bytes; rewrite length_app; lia].
Qed.
End payload.

(** ** Delivery *)
Section delivery.
Context `{CO : CurveOk} `{RP : Rpc} `{A : Aead} `{HX : Hex} {HOk : HexOk HX} `{J : Json} `{DO : DirOrder} `{RO : RowOrder}
  {Out : Type}.
Variables (config : bytes -> ValidatorConfig) (relay_config : bytes -> RelayConfig) (fuel : nat)
  (offset : bytes -> scalar).
#[local] Hint Extern 0 Transport => exact (the_services config relay_config fuel offset) : typeclass_instances.
Implicit Types w : world Out.
#[local] Abbreviation relays := (relays config relay_config fuel offset).

(** The room a relay has for a payload of [n] bytes that lives [ttl] seconds. *)
Record has_room (cfg : RelayConfig) (a : RelayApp) (bucket : list StoredMessage) (n ttl : Z) : Prop := {
  hr_size : n <= rl_max_payload_bytes cfg;
  hr_count : Z.of_nat (length bucket) < rl_max_per_recipient cfg;
  hr_time : h_instant (ra_host a) + ttl * 1000000000 < INSTANT_LIMIT;
}.

Lemma run_deliver url payload inv ttl a w bucket : length (inv_recipient_pubkey inv) = 32%nat ->
  relays w !! trim_end_slashes url = Some a -> inbox_of a (inv_recipient_pubkey inv) bucket ->
  has_room (relay_config (trim_end_slashes url)) a bucket (Z.of_nat (length payload) / 2) ttl ->
  exists m w' a', run (deliver url payload inv ttl) w = (Ok (msg_id m, msg_expires_at_unix_ms m), w') /\
    msg_payload_hex m = payload /\ (exists id, length id = 16%nat /\ msg_id m = hex_encode id) /\
    w_host w' = w_host w /\ w_out w' = w_out w /\ relays w' !! trim_end_slashes url = Some a' /\
    h_instant (ra_host a') = h_instant (ra_host a) /\
    inbox_of a' (inv_recipient_pubkey inv) (bucket ++ [{| sm_msg := m;
      sm_expires_at_inst := h_instant (ra_host a) + ttl * 1000000000 |}]).
Proof.
  intros Hl Ha Hb [Hsz Hn Ht].
  destruct (run_relay_deposit _ _ payload ttl a bucket Hl Hb Hsz Hn Ht) as (m & a' & Hr & Hp & Hi & Hid & Hb').
  unfold deliver. rewrite run_bind.
  erewrite (run_call_relay config relay_config fuel offset _ _ (RelayDeposit (hex_encode (inv_recipient_pubkey inv)) payload (Some ttl)) a _
    (RespDeposit m) a'); [|done|done|exact Ha|cbn [relay_router]; unfold responds; by rewrite run_bind, Hr].
  cbn [relay_body deposit_receipt]. rewrite run_mret. do 3 eexists. split; [reflexivity|]. split_and!; [done..| |done|done].
  apply lookup_insert_eq.
Qed.
End delivery.

(** ** The command *)
Section paying.
Context `{CO : CurveOk} `{RP : Rpc} `{A : Aead} {AOk : AeadOk A} `{HX : Hex} {HOk : HexOk HX} `{J : Json} `{DO : DirOrder}
  `{RO : RowOrder} {X : X25519 C} {XO : X25519Ok X} `{PJ : PayloadJson} {PJOk : PayloadJsonOk PJ} `{B : Bip39}.
Variables (config : bytes -> ValidatorConfig) (relay_config : bytes -> RelayConfig) (fuel : nat)
  (offset : bytes -> scalar).
#[local] Hint Extern 0 Transport => exact (the_services config relay_config fuel offset) : typeclass_instances.
#[local] Abbreviation relays := (relays config relay_config fuel offset).
Implicit Types w : world shown.

(** What the arguments of a payment name: an invoice, a keyset of the payer
    for its denomination, and a relay. *)
Record payment (args : PayArgs) (w : world shown) (F : list scalar) (eps : list ValidatorEndpoint)
    (inv : Invoice) (url : bytes) : Prop := {
  pm_invoice : Invoice_parse (pa_invoice args) = Ok inv;
  pm_keyset : exists seed ks info, open_seed (pa_wallet_phrase args) (pa_wallet_passphrase args) = Ok seed /\
    no_faults (w_host w) /\
    stored KeysetStore_new KeysetStore_read (files (w_host w)) (pa_keysets_file args) seed ks /\
    KeysetStore_get ks (pa_keyset args) = Some info /\ ki_denom info = inv_denom inv /\
    ki_joint_pk_hex info = hex_encode (PublicKey_to_bytes (PublicKey_from_secret {| sk_scalar := peval F 0 |})) /\
    build_pool (ki_validators info) = Ok {| pool_endpoints := eps |};
  pm_relay : match pa_relay args with Some url => Some url | None => head (inv_relays inv) end = Some url;
  pm_encrypted : pa_encrypt args = true;
  pm_unrecorded : pa_wallet_file args = None;
}.
(** The relay holds [bucket] for the recipient and has room for the payment. *)
Record relay_ready (w : world shown) (inv : Invoice) (url : bytes) (ttl : Z) (a : RelayApp)
    (bucket : list StoredMessage) : Prop := {
  rr_relay : relays w !! trim_end_slashes url = Some a;
  rr_inbox : inbox_of a (inv_recipient_pubkey inv) bucket;
  rr_room coin b : own_coin coin -> payload_to_vec (payment_payload coin inv) = Some b ->
    Z.of_nat (length b) < 2 ^ 36 /\ has_room (relay_config (trim_end_slashes url)) a bucket (Z.of_nat (length b) + 48) ttl;
}.
Definition drawn_session {Out} (w : world Out) : SessionId := {| sid := (rng_fill 16 (h_rng (w_host w))).1 |}.

Lemma run_pay order1 order2 args F eps apps inv url master_seed a bucket w :
  payment args w F eps inv url -> deployed config relay_config fuel offset F eps apps w ->
  (forall ep, ep ∈ eps -> app_sign_sessions (apps (ep_my_index ep)) !! drawn_session w = None) ->
  relay_ready w inv url (pa_ttl_secs args) a bucket ->
  inv_recipient_pubkey inv = (derive_receiving_keypair master_seed).2 ->
  let pk := PublicKey_from_secret {| sk_scalar := peval F 0 |} in
  exists coin m w' a', run (pay order1 order2 args) w = (Ok tt, w') /\
    own_coin coin /\ (Coin_verify coin pk = Ok true <-> sc_sum (offset ∘ ep_base_url <$> eps) = 0%sc) /\
    relays w' !! trim_end_slashes url = Some a' /\ h_instant (ra_host a') = h_instant (ra_host a) /\
    inbox_of a' (inv_recipient_pubkey inv) (bucket ++ [{| sm_msg := m;
      sm_expires_at_inst := h_instant (ra_host a) + pa_ttl_secs args * 1000000000 |}]) /\
    (exists id, length id = 16%nat /\ msg_id m = hex_encode id) /\
    (forall prefix, decode_message master_seed prefix (msg_id m) (msg_payload_hex m) =
      Some (stored_coin coin (inv_denom inv) CoinStatus.Active (Some (prefix ++ ascii "-" ++ msg_id m)))) /\
    w_out w' = w_out w ++ [ShowPaid (hex_encode (inv_recipient_pubkey inv)) (inv_denom inv) url (msg_id m)
                             (msg_expires_at_unix_ms m)].
Proof.
  intros [Hinv (seed & ks & info & Hseed & Hnf & Hks & Hget & Hden & Hkey & Hpool) Hurl Henc Hfile] Hd Hnew
    [Ha Hb Hroom] Hrec pk.
  destruct (parse_carried _ _ Hinv) as [[Hl32 Hu64] _].
  unfold pay. rewrite Hinv. cbn [map_err]. rewrite run_bind, run_lift, run_bind, Hseed, run_lift.
  rewrite run_bind, (run_keysets_open config relay_config fuel offset _ _ ks) by done. cbn [kdb_store]. rewrite run_bind, Hget. cbn [ok_or].
  rewrite run_lift, run_bind, Hden, Z.eqb_refl. cbn [negb reject_if]. rewrite run_lift, run_bind, Hkey, joint_key_encode, run_lift.
  rewrite run_bind, Hpool, run_lift, run_bind. unfold parse_session_id. rewrite run_bind, run_os_draw, run_mret.
  change {| sid := (rng_fill 16 (h_rng (w_host w))).1 |} with (drawn_session w). set (w1 := put_host w _).
  destruct (issue_runs config relay_config fuel offset order1 order2 F eps apps (drawn_session w) w1)
    as (coin & w2 & Hissue & Hown & Hver & (Ho2 & Hr2 & r2 & Hh2) & _);
    [by apply deployed_host|apply rng_fill_length|done|].
  rewrite run_bind, run_in_wallet, Hissue. cbn [fst snd map_err]. rewrite run_bind, Henc.
  destruct (run_encode_payment coin inv master_seed w2 Hown Hu64 Hrec) as (b & payload & r3 & Hvec & Henco & Hplen & Hdec).
  { intros b Hvec. by destruct (Hroom coin b Hown Hvec). }
  rewrite Henco, run_bind, Hurl. cbn [ok_or]. rewrite run_lift, run_bind. set (w3 := put_host w2 _).
  destruct (Hroom coin b Hown Hvec) as [_ Hr].
  destruct (run_deliver config relay_config fuel offset url payload inv (pa_ttl_secs args) a w3 bucket)
    as (m & w4 & a4 & Hdel & Hp & Hid & Hh4 & Ho4 & Ha4 & Hi4 & Hb4); [done| |done| |].
  { transitivity (relays w !! trim_end_slashes url); [|done]. unfold WalletRun.relays. cbn. by rewrite Hr2. }
  { rewrite Hplen, Nat2Z.inj_mul, Z.mul_comm, Z.div_mul, Nat2Z.inj_add by done. exact Hr. }
  rewrite Hdel, Hfile. rewrite run_bind, run_mret, run_prints. subst payload.
  exists coin, m. do 2 eexists. split; [reflexivity|]. split; [done|]. split; [exact Hver|]. split; [exact Ha4|].
  split; [exact Hi4|]. split; [exact Hb4|]. split; [exact Hid|]. split; [intros prefix; apply Hdec|].
  cbn [w_out]. rewrite Ho4. unfold w3. cbn [put_host w_out]. by rewrite Ho2.
Qed.

(** ** What the recipient gets *)
(** The arguments of a receive command for the inbox of an invoice. *)
Record reception (args : ReceiveArgs) (w : world shown) (master_seed : bytes) (s0 : CoinStore)
    (inv : Invoice) (url : bytes) (bucket : list StoredMessage) : Prop := {
  rp_seed : open_seed (ra_wallet_phrase args) (ra_wallet_passphrase args) = Ok master_seed;
  rp_relay : trim_end_slashes (ra_relay args) = trim_end_slashes url;
  rp_recipient : trim (ra_recipient_pubkey args) = hex_encode (inv_recipient_pubkey inv);
  rp_file : path_extension (ra_wallet_file args) <> Some (ascii "tmp");
  rp_disk : no_faults (w_host w);
  rp_wallet : wallet_opens_to (files (w_host w)) (ra_wallet_file args) master_seed s0;
  rp_store : wf_store s0;
  rp_room : Z.of_nat (length (cst_coins s0) + length bucket) + 1 < 2 ^ 32;
  rp_labels m : m ∈ bucket -> label_ok (ra_label_prefix args) (msg_id (sm_msg m));
  rp_label id : length id = 16%nat -> label_ok (ra_label_prefix args) (hex_encode id);
}.

Lemma run_receive args master_seed s0 inv url bucket m c a w :
  reception args w master_seed s0 inv url bucket -> length (inv_recipient_pubkey inv) = 32%nat ->
  (exists id, length id = 16%nat /\ msg_id (sm_msg m) = hex_encode id) ->
  decode_message master_seed (ra_label_prefix args) (msg_id (sm_msg m)) (msg_payload_hex (sm_msg m)) = Some c ->
  relays w !! trim_end_slashes url = Some a -> inbox_of a (inv_recipient_pubkey inv) (bucket ++ [m]) ->
  h_instant (ra_host a) < sm_expires_at_inst m ->
  let before := (accepted master_seed (ra_label_prefix args) s0 (visible (h_instant (ra_host a)) bucket)).1 in
  exists r w' store, run (receive args) w = (r, w') /\
    (c ∈ cst_coins store \/ StoredCoin_nullifier c ∈ nullifiers_of before) /\
    (Z.of_nat (length (CoinStore_to_vec store)) < 2 ^ 36 ->
     r = Ok tt /\ wallet_opens_to (files (w_host w')) (ra_wallet_file args) master_seed store).
Proof.
  intros [Hseed Hurl Hrec Hext Hnf Hw Hs Hroom Hlab Hlab'] Hl (id & Hid & Hmid) Hc Ha Hb Hlive before.
  unfold receive. rewrite run_bind, Hseed, run_lift.
  pose proof (run_receive_from config relay_config fuel offset (ra_wallet_file args) master_seed (ra_relay args)
    (inv_recipient_pubkey inv) (ra_recipient_pubkey args) (ra_label_prefix args) (ra_keep_on_relay args) w a
    (bucket ++ [m]) s0 (w_host w) Hext (Hw _ eq_refl Hnf) Hw Hs) as H.
  rewrite length_app in H. cbn [length] in H. specialize (H ltac:(lia) Hrec Hl).
  rewrite Hurl in H. specialize (H Ha Hb). cbn zeta in H.
  assert (visible (h_instant (ra_host a)) (bucket ++ [m]) = visible (h_instant (ra_host a)) bucket ++ [sm_msg m]) as Hvis.
  { unfold visible. rewrite filter_app, fmap_app. by rewrite (filter_cons_True _ m) by done. }
  rewrite Hvis in H. pose proof (accepted_snoc master_seed (ra_label_prefix args) s0
    (visible (h_instant (ra_host a)) bucket) (sm_msg m) c Hc) as Hacc.
  subst before. destruct (accepted _ _ s0 (visible _ bucket)) as [store1 ids1]. cbn [fst].
  rewrite Hacc in H.
  assert (forall m', m' ∈ bucket ++ [m] -> label_ok (ra_label_prefix args) (msg_id (sm_msg m'))) as Hlabs.
  { intros m'. rewrite elem_of_app, list_elem_of_singleton. intros [?| ->]; [by apply Hlab|]. rewrite Hmid. by apply Hlab'. }
  specialize (H Hlabs).
  assert (exists store ids, (if bool_decide (StoredCoin_nullifier c ∈ nullifiers_of store1) then (store1, ids1)
     else ({| cst_version := cst_version store1; cst_coins := cst_coins store1 ++ [c] |}, ids1 ++ [msg_id (sm_msg m)]))
     = (store, ids) /\ (c ∈ cst_coins store \/ StoredCoin_nullifier c ∈ nullifiers_of store1)) as (store & ids & E & Hin).
  { case_bool_decide; do 2 eexists; (split; [reflexivity|]); [by right|left]. cbn. set_solver. }
  rewrite E in H. destruct H as (r & w' & a' & Hr & _ & _ & _ & Hcase & Hok).
  rewrite run_bind, Hr.
  destruct r as [t|e|]; [|destruct Hcase as [[? _]|[(e' & He) _]]; [done|]..].
  - exists (Ok tt). do 2 eexists. split; [by rewrite run_prints|]. split; [exact Hin|]. intros Hsz. split; [done|].
    destruct Hcase as [[_ ?]|[[? ?] _]]; done.
  - exists (Err e). do 2 eexists. split; [done|]. split; [exact Hin|]. intros Hsz. by specialize (Hok Hsz Hnf).
  - done.
Qed.
End paying.

Section payment_property.
Context `{CO : CurveOk} `{RP : Rpc} `{A : Aead} {AOk : AeadOk A} `{HX : Hex} {HOk : HexOk HX} `{J : Json} `{DO : DirOrder}
  `{RO : RowOrder} {X : X25519 C} {XO : X25519Ok X} `{PJ : PayloadJson} {PJOk : PayloadJsonOk PJ} `{B : Bip39}.
Variables (config : bytes -> ValidatorConfig) (relay_config : bytes -> RelayConfig) (fuel : nat)
  (offset : bytes -> scalar).
#[local] Hint Extern 0 Transport => exact (the_services config relay_config fuel offset) : typeclass_instances.

(** C7: a payment arrives.  The pay command, run against the daemons of a key
    and a relay with room for one more message, mints a coin and leaves it,
    sealed, in the inbox of the invoice.  Whatever other messages the inbox
    holds, the receive command of the recipient then ends with that coin,
    active and of the denomination of the invoice, in the wallet file, unless
    an earlier message already brought a coin of the same key.  The coin
    verifies when the daemons are honest. *)
Theorem pay_then_receive order1 order2 args F eps apps inv url master_seed a bucket (w : world shown) :
  payment config relay_config fuel offset args w F eps inv url ->
  deployed config relay_config fuel offset F eps apps w ->
  (forall ep, ep ∈ eps -> app_sign_sessions (apps (ep_my_index ep)) !! drawn_session config relay_config fuel offset w = None) ->
  relay_ready config relay_config fuel offset w inv url (pa_ttl_secs args) a bucket -> 0 < pa_ttl_secs args ->
  inv_recipient_pubkey inv = (derive_receiving_keypair master_seed).2 ->
  let pk := PublicKey_from_secret {| sk_scalar := peval F 0 |} in
  exists coin id w', run (pay order1 order2 args) w = (Ok tt, w') /\
    (Coin_verify coin pk = Ok true <-> sc_sum (offset ∘ ep_base_url <$> eps) = 0%sc) /\
    forall rargs s0 (wr : world shown), w_net wr = w_net w' ->
      reception config relay_config fuel offset rargs wr master_seed s0 inv url bucket ->
      let prefix := ra_label_prefix rargs in
      let c := stored_coin coin (inv_denom inv) CoinStatus.Active (Some (prefix ++ ascii "-" ++ id)) in
      exists r wr' store, run (receive rargs) wr = (r, wr') /\
        (c ∈ cst_coins store \/ StoredCoin_nullifier c ∈
           nullifiers_of (accepted master_seed prefix s0 (visible (h_instant (ra_host a)) bucket)).1) /\
        (Z.of_nat (length (CoinStore_to_vec store)) < 2 ^ 36 ->
         r = Ok tt /\ wallet_opens_to (files (w_host wr')) (ra_wallet_file rargs) master_seed store).
Proof.
  intros Hp Hd Hnew Hr Httl Hrec pk.
  destruct (run_pay config relay_config fuel offset order1 order2 args F eps apps inv url master_seed a bucket w Hp Hd Hnew Hr Hrec)
    as (coin & m & w' & a' & Hrun & _ & Hver & Ha & Hi & Hb & Hid & Hdec & _).
  exists coin, (msg_id m), w'. split; [exact Hrun|]. split; [exact Hver|]. intros rargs s0 wr Hnet Hrc prefix c.
  assert (length (inv_recipient_pubkey inv) = 32%nat) as Hl by (rewrite Hrec; apply pt_compress_length).
  rewrite <- Hi.
  apply (run_receive config relay_config fuel offset rargs master_seed s0 inv url bucket
    {| sm_msg := m; sm_expires_at_inst := h_instant (ra_host a) + pa_ttl_secs args * 1000000000 |} c a' wr); [exact Hrc|exact Hl|exact Hid|apply Hdec| |exact Hb|].
  - transitivity (relays config relay_config fuel offset w' !! trim_end_slashes url); [|exact Ha].
    unfold relays. by rewrite Hnet.
  - rewrite Hi. cbn [sm_expires_at_inst]. lia.
Qed.
End payment_property.

(** ** Witness: two daemons, a relay, a payer and a recipient *)
#[local] Existing Instance toy.
#[local] Existing Instance toy_ok.
#[local] Existing Instance toy_rpc.
#[local] Existing Instance toy_aead.
#[local] Existing Instance toy_aead_ok.
#[local] Existing Instance toy_hex.
#[local] Existing Instance toy_hex_ok.
#[local] Existing Instance toy_order.
#[local] Existing Instance toy_json.
#[local] Existing Instance toy_rows.
#[local] Existing Instance toy_x25519.
#[local] Existing Instance toy_x25519_ok.
#[local] Existing Instance toy_bip39.

#[local] Existing Instance toy_payload_json.
#[local] Existing Instance toy_payload_json_ok.

Definition pay_pool : list ValidatorEndpoint :=
  [{| ep_my_index := 1; ep_base_url := ascii "a" |}; {| ep_my_index := 2; ep_base_url := ascii "c" |}].
Definition pay_relay_config (url : bytes) : RelayConfig :=
  {| rl_bind_addr := ascii "127.0.0.1:9799"; rl_operator_name := ascii "op"; rl_max_per_recipient := 2;
     rl_max_payload_bytes := 1000 |}.
Definition pay_relay : RelayApp := relay_app (Memory (Guarded ∅)).
Definition seed_of (phrase : bytes) : bytes := match open_seed phrase [] with Ok seed => seed | _ => [] end.
Definition pay_seed : bytes := seed_of (ascii ".alice").
Definition recipient_seed : bytes := seed_of (ascii ".bob").
Definition pay_invoice : Invoice :=
  {| inv_recipient_pubkey := (derive_receiving_keypair recipient_seed).2; inv_denom := 1000;
     inv_relays := [ascii "r/"]; inv_memo := Some (ascii "tea") |}.
Definition pay_keysets : KeysetStore :=
  {| ks_entries := {[ascii "main" := {| ki_joint_pk_hex := hex_encode (PublicKey_to_bytes demo_joint); ki_denom := 1000;
       ki_validators := [ascii "a"; ascii "c"]; ki_ca_cert_path := None; ki_client_cert_path := None |}]} |}.
Definition pay_host : host :=
  (run (KeysetDb_save {| kdb_path := ascii "k.bin"; kdb_store := pay_keysets |} pay_seed) (store_host [] ∅)).2.
Definition pay_args : PayArgs :=
  {| pa_invoice := Invoice_to_uri pay_invoice; pa_keyset := ascii "main"; pa_keysets_file := ascii "k.bin";
     pa_wallet_phrase := ascii ".alice"; pa_wallet_passphrase := []; pa_relay := None; pa_ttl_secs := 3600;
     pa_wallet_file := None; pa_label := None; pa_encrypt := true |}.
Definition receive_args : ReceiveArgs :=
  {| ra_relay := ascii "r"; ra_recipient_pubkey := hex_encode (inv_recipient_pubkey pay_invoice);
     ra_wallet_file := ascii "w.bin"; ra_wallet_phrase := ascii ".bob"; ra_wallet_passphrase := [];
     ra_label_prefix := ascii "in"; ra_keep_on_relay := false |}.
Definition pay_services : services :=
  {| sv_daemons := list_to_map ((λ ep, (ep_base_url ep, mint_app (ep_my_index ep))) <$> pay_pool);
     sv_relays := {[ascii "r" := pay_relay]} |}.
#[local] Abbreviation pay_transport := (services_transport mint_config pay_relay_config 64 (mint_offset 0)).
Definition pay_world : @world toy pay_transport shown :=
  {| w_host := pay_host; w_net := (pay_services : @net pay_transport); w_out := [] |}.

Lemma pay_payment : payment mint_config pay_relay_config 64 (mint_offset 0) pay_args pay_world demo_cs pay_pool pay_invoice (ascii "r/").
Proof.
  split; [vm_refl| |done..].
  exists pay_seed, pay_keysets. eexists. split_and!; [vm_refl|unfold no_faults; vm_refl| |reflexivity|reflexivity|vm_refl|vm_refl].
  unfold stored. match goal with |- match ?x with _ => _ end =>
    assert (x = Some (default [] (files pay_host !! ascii "k.bin"))) as -> by vm_refl end.
  exists (KeysetStore_to_vec pay_keysets). split; vm_refl.
Qed.

Lemma pay_deployed : deployed mint_config pay_relay_config 64 (mint_offset 0) demo_cs pay_pool mint_app pay_world.
Proof.
  assert (forall ep, ep ∈ pay_pool -> ep = {| ep_my_index := 1; ep_base_url := ascii "a" |} \/
    ep = {| ep_my_index := 2; ep_base_url := ascii "c" |}) as Hep.
  { intros ep Hep. unfold pay_pool in Hep. rewrite !elem_of_cons in Hep.
    destruct Hep as [->|[->|?%elem_of_nil]]; [by left|by right|done]. }
  split.
  - apply (bool_decide_unpack (NoDup (ep_base_url <$> pay_pool))). by vm_compute.
  - apply (bool_decide_unpack (NoDup (ep_my_index <$> pay_pool))). by vm_compute.
  - intros ep [-> | ->]%Hep; cbn; lia.
  - cbn. lia.
  - intros ep [-> | ->]%Hep; reflexivity.
  - intros ep [-> | ->]%Hep; eexists; (split; [reflexivity|]); split; reflexivity.
Qed.

Lemma pay_ready : relay_ready mint_config pay_relay_config 64 (mint_offset 0) pay_world pay_invoice (ascii "r/")
  (pa_ttl_secs pay_args) pay_relay [].
Proof.
  split; [vm_refl|by exists ∅|]. intros coin b [Hpk [Hr Hs]] <-%(inj Some).
  assert (length (join "," (payload_parts (payment_payload coin pay_invoice))) = 531%nat) as ->; [|by split; [|split; vm_compute]].
  unfold payload_parts, payment_payload. cbn [pl_coin_secret pl_coin_pubkey pl_coin_signature pl_denom fmap list_fmap join].
  rewrite ?length_app; cbn [length]; rewrite ?length_app; cbn [length]; rewrite ?length_app; cbn [length]; rewrite !hex_encode_length, Hpk, length_le_bytes. unfold Signature_to_bytes.
  rewrite length_app, Hr, Hs. unfold SecretKey_to_bytes, PublicKey_to_bytes, PublicKey_from_secret. cbn [pk_bytes].
  by rewrite sc_to_bytes_length, pt_compress_length.
Qed.

Definition recipient_world (n : @net pay_transport) : @world toy pay_transport shown :=
  {| w_host := store_host [] ∅; w_net := n; w_out := [] |}.
Lemma pay_reception n : reception mint_config pay_relay_config 64 (mint_offset 0) receive_args (recipient_world n)
  recipient_seed CoinStore_new pay_invoice (ascii "r/") [].
Proof.
  split; [vm_refl|vm_refl|vm_refl|by vm_compute|reflexivity| | |cbn; lia|by intros m ?%elem_of_nil|].
  - apply (wallet_opens_iff (store_host [] ∅)). reflexivity.
  - exact empty_store_wf.
  - intros i Hi. split; [|rewrite !length_app, hex_encode_length, Hi; done].
    apply utf8_valid_app; [vm_refl|]. apply (utf8_valid_app (ascii "-")); [vm_refl|apply hex_utf8].
Qed.

Lemma pay_then_receive_witness :
  exists coin id w', run (pay [] [1]%nat pay_args) pay_world = (Ok tt, w') /\ Coin_verify coin demo_joint = Ok true /\
    exists r wr' store, run (receive receive_args)
        (recipient_world (w_net w')) = (r, wr') /\
      stored_coin coin 1000 CoinStatus.Active (Some (ascii "in-" ++ id)) ∈ cst_coins store.
Proof.
  destruct (pay_then_receive mint_config pay_relay_config 64 (mint_offset 0) [] [1]%nat pay_args demo_cs pay_pool mint_app
    pay_invoice (ascii "r/") recipient_seed pay_relay [] pay_world) as (coin & id & w' & Hp & Hv & Hr).
  - exact pay_payment.
  - exact pay_deployed.
  - intros ep _. reflexivity.
  - exact pay_ready.
  - reflexivity.
  - reflexivity.
  - exists coin, id, w'. split; [exact Hp|]. split; [apply Hv; vm_refl|].
    destruct (Hr receive_args CoinStore_new (recipient_world (w_net w')))
      as (r & wr' & store & Hrun & [Hin|Hin] & _).
    + reflexivity.
    + exact (pay_reception (w_net w')).
    + exists r, wr', store. split; [exact Hrun|exact Hin].
    + destruct (not_elem_of_nil _ Hin).
Defined.
