(* ===== verification/Devnet.v ===== *)
(** * A Solana cluster as a client sees it

    What [crates/tardus-wallet-gui/src/runtime.rs] and
    [crates/tardus-cli/src/commands/devnet.rs] share: the calls of
    [solana_client] and [solana_sdk], the instructions they build for the
    program, and the checks of a coin against its accounts.  The cluster behind
    the RPC URL is on the other side of the network: the class [Cluster]. *)
From S2P Require Import Prelude Crypto Async Parallel Platform Core Wire MintBase Instruction Program Solana.
From S2P Require Import Wallet WalletFront.

Record AccountMeta : Type := { am_pubkey : bytes; am_is_signer : bool; am_is_writable : bool }.
Record SolInstruction : Type := { si_program_id : bytes; si_accounts : list AccountMeta; si_data : bytes }.
(** [Transaction::new_signed_with_payer]: the signers are public keys whose
    secret the client holds. *)
Record Transaction : Type := {
  tx_instructions : list SolInstruction;
  tx_payer : bytes;
  tx_signers : list bytes;
  tx_blockhash : bytes;
}.
Definition writable (k : bytes) (signer : bool) : AccountMeta :=
  {| am_pubkey := k; am_is_signer := signer; am_is_writable := true |}.
Definition readonly (k : bytes) (signer : bool) : AccountMeta :=
  {| am_pubkey := k; am_is_signer := signer; am_is_writable := false |}.

(** A failed call answers [None]; of a failed transaction, the text of the
    error. *)
Class Cluster `{C : Curve} (T : Transport) : Type := {
  get_account : bytes -> bytes -> prog net (option account);
  get_balance : bytes -> bytes -> prog net (option Z);
  get_latest_blockhash : bytes -> prog net (option bytes);
  send_and_confirm_transaction : bytes -> Transaction -> prog net (res bytes bytes);
  (** base 58, key files, new keys, the system program's transfer,
      [Rent::default().minimum_balance] and [SliceRandom::choose] *)
  pubkey_from_str : bytes -> option bytes;
  pubkey_to_string : bytes -> bytes;
  keypair_from_json : bytes -> option bytes;
  new_keypair : rng -> bytes * rng;
  transfer_instruction : bytes -> bytes -> Z -> SolInstruction;
  sysvar_instructions_id : bytes;
  rent_minimum_balance : Z -> Z;
  choose_index : nat -> rng -> nat * rng;
}.

Section calls.
Context `{C : Curve} `{T : Transport} {Cl : Cluster T} `{SO : Solana} {Out : Type}.
#[local] Abbreviation call := (io (world Out) FrontError.t).

(** A call of the RPC client whose failure is looked at, and one whose failure
    ends the command. *)
Definition ask {R} (request : prog net R) : call R := pmap Ok (remotely request).
Definition rpc {R} (request : prog net (option R)) : call R :=
  reply ← ask request;
  lift (ok_or FrontError.ClusterCall reply).

(** [read_keypair_file]: of a keypair, its public key. *)
Definition read_keypair_file (path : bytes) : call bytes :=
  content ← locally (on_disk (λ _, FrontError.KeypairFile) (disk_read path));
  lift (ok_or FrontError.KeypairFile (keypair_from_json content)).
Definition parse_pubkey (s : bytes) : res FrontError.t bytes := ok_or FrontError.BadAddress (pubkey_from_str s).

(** Instructions signed and paid by one key, sent with the latest
    blockhash. *)
Definition submit (rpc_url payer : bytes) (instructions : list SolInstruction) : call (res bytes bytes) :=
  blockhash ← rpc (get_latest_blockhash rpc_url);
  ask (send_and_confirm_transaction rpc_url
    {| tx_instructions := instructions; tx_payer := payer; tx_signers := [payer]; tx_blockhash := blockhash |}).
Definition send_signed (rpc_url payer : bytes) (instructions : list SolInstruction) : call bytes :=
  sent ← submit rpc_url payer instructions;
  lift (map_err (λ _, FrontError.ClusterCall) sent).

(** ** The instructions the clients build *)
Definition address (program_id : bytes) (seeds : list bytes) : bytes := (find_program_address seeds program_id).1.

Definition payout_instruction (program_id caller recipient : bytes) (lamports : Z) : SolInstruction :=
  {| si_program_id := program_id;
     si_accounts := [writable caller true; writable (address program_id sponsor_pool_seeds) false;
                     writable recipient false; readonly system_program_id false];
     si_data := Instruction.serialize (Instruction.SponsorPayout lamports recipient) |}.
Definition precompile_instruction (data : bytes) : SolInstruction :=
  {| si_program_id := ed25519_program_id; si_accounts := []; si_data := data |}.
Definition withdraw_instruction (program_id payer recipient coin_pubkey : bytes) (coin_signature : Signature) (denom : Z)
    : SolInstruction :=
  {| si_program_id := program_id;
     si_accounts := [writable payer true; readonly (address program_id keyset_registry_seeds) false;
                     writable (address program_id (vault_seeds denom)) false;
                     writable (address program_id nullifier_tree_seeds) false;
                     writable recipient false; readonly system_program_id false; readonly sysvar_instructions_id false];
     si_data := Instruction.serialize (Instruction.Withdraw coin_pubkey coin_signature denom recipient) |}.

(** ** The accounts of the program *)
Definition deserialize_padded {R} (r : reader R) (data : bytes) : res FrontError.t R :=
  fst <$> ok_or FrontError.BadAccount (r data).
(** An account that is all zeros has not been written yet. *)
Definition deserialize_or {R} (fresh : R) (r : reader R) (data : bytes) : res FrontError.t R :=
  if all_zero data then Ok fresh else deserialize_padded r data.

Definition active_entry (program_id rpc_url : bytes) (denom : Z) : call KeysetEntry :=
  reg_acc ← rpc (get_account rpc_url (address program_id keyset_registry_seeds));
  registry ← lift (deserialize_padded KeysetRegistry_read (acc_data reg_acc));
  lift (ok_or FrontError.NoActiveKeyset (KeysetRegistry_find_active_for_denom registry denom)).
Definition check_unspent (program_id rpc_url coin_pubkey : bytes) : call unit :=
  null_acc ← rpc (get_account rpc_url (address program_id nullifier_tree_seeds));
  nullifiers ← lift (deserialize_or NullifierSet_new NullifierSet_read (acc_data null_acc));
  lift (reject_if (NullifierSet_contains nullifiers (compute_nullifier coin_pubkey)) FrontError.DoubleSpend).
Definition check_vault (program_id rpc_url : bytes) (denom : Z) : call unit :=
  vault_acc ← rpc (get_account rpc_url (address program_id (vault_seeds denom)));
  lift (reject_if (acc_lamports vault_acc <? denom) (FrontError.VaultUnderfunded (acc_lamports vault_acc) denom)).
End calls.
