(* ===== verification/WalletGui.v ===== *)
(** * The graphical wallet

    Models [crates/tardus-wallet-gui/src/runtime.rs]: the commands of the user
    interface, the task each of them becomes, and the events the tasks send
    back ([Out] is [UiEvent]).  Every command runs as a task of its own, so
    the tasks of several commands interleave ([Async.exec]).  The times shown
    in events are outside the model; the text of an error is [error_text] and
    the quoting of a string [debug_str], parameters of the model. *)
From S2P Require Import Prelude Crypto Async Parallel Platform Core Wire MintBase Refresh Instruction Program Solana Ed25519.
From S2P Require Import ClientBase Invoice Client Transparency Validator Keys WalletStore Wallet WalletFront Devnet.

Record ActiveCoinSummary : Type := { as_label : bytes; as_denom : Z; as_pubkey_prefix_hex : bytes }.
Record KeysetSummary : Type := {
  ksm_name : bytes; ksm_denom : Z; ksm_joint_pk_hex : bytes; ksm_validators : list bytes;
}.

Inductive UiCommand : Type :=
| Ping (nonce : bytes)
| OpenWallet (phrase passphrase : bytes) (wallet_file keysets_file : option bytes)
| CmdKeysetList (master_seed keysets_file : bytes)
| CmdKeysetAdd (master_seed keysets_file name : bytes) (info : KeysetInfo)
| CmdKeysetRemove (master_seed keysets_file name : bytes)
| WithdrawOnDevnet (master_seed wallet_file coin_label recipient_b58 rpc_url program_id_b58 solana_keypair_path : bytes)
    (use_ephemeral_payer use_onchain_pool : bool)
| CmdRefresh (master_seed wallet_file keysets_file keyset_name coin_label : bytes)
| CmdReceive (master_seed wallet_file recipient_pk_hex relay_url : bytes) (keep_on_relay : bool) (label_prefix : bytes)
| CmdPay (master_seed keysets_file invoice_uri keyset_name : bytes) (encrypt : bool)
| Shutdown.

Inductive UiEvent : Type :=
| Pong (nonce : bytes)
| WalletOpened (recv_pubkey_hex master_seed : bytes) (coin_summary : list DenomBucket) (coin_total : Z)
    (keyset_summary : list KeysetSummary) (active_coins : list ActiveCoinSummary)
| EvError (op message : bytes)
| EvKeysetList (keysets : list KeysetSummary)
| KeysetAdded (name : bytes)
| KeysetRemoved (name : bytes)
| ReceiveResult (received deleted_from_relay skipped : Z)
| WithdrawOnDevnetResult (coin_label : bytes) (denom : Z) (recipient_b58 tx_signature explorer_url payer_strategy : bytes)
    (ephemeral_payer_b58 : option bytes)
| CoinRefreshed (old_label : option bytes) (new_label : bytes) (denom : Z) (old_pubkey_prefix_hex new_pubkey_prefix_hex : bytes)
    (coin_summary : list DenomBucket) (coin_total : Z) (active_coins : list ActiveCoinSummary)
| PaymentSent (recipient_prefix_hex : bytes) (denom : Z) (relay_url message_id : bytes) (encrypted : bool).

(** ** Redaction *)
Definition is_ascii_hexdigit (c : byte) : bool :=
  let x := Z_of_byte c in
  (48 <=? x) && (x <=? 57) || (65 <=? x) && (x <=? 70) || (97 <=? x) && (x <=? 102).
(** The length of the run of digits at the head, [j - i]. *)
Fixpoint hex_run (s : bytes) : nat :=
  match s with
  | c :: s => if is_ascii_hexdigit c then S (hex_run s) else O
  | [] => O
  end.
(** The loop: [s] is what is left from position [i], [fuel] its length. *)
Fixpoint redact_loop (fuel : nat) (s : bytes) : bytes :=
  match fuel, s with
  | S fuel, c :: rest =>
      let n := hex_run s in
      if (32 <=? n)%nat then ascii "<redacted>" ++ redact_loop fuel (drop n s)
      else c :: redact_loop fuel rest
  | _, _ => []
  end.
Definition redact (s : bytes) : bytes := redact_loop (length s) s.

(** ** What a wallet holds *)
Section summaries.
Context `{HX : Hex}.

Definition active_summary (c : StoredCoin) : ActiveCoinSummary :=
  let pubkey_hex := hex_encode (stc_pubkey_bytes c) in
  {| as_label := match stc_label c with Some l => l | None => ascii "unlabeled-" ++ take 8 pubkey_hex end;
     as_denom := stc_denom c; as_pubkey_prefix_hex := take 16 pubkey_hex |}.
Definition summarize_coin (acc : list DenomBucket * list ActiveCoinSummary) (c : StoredCoin)
    : list DenomBucket * list ActiveCoinSummary :=
  let '(buckets, active) := acc in
  (count_coin c buckets,
   match stc_status c with CoinStatus.Active => active ++ [active_summary c] | _ => active end).
Definition summarize_store (store : CoinStore) : list DenomBucket * Z * list ActiveCoinSummary :=
  let '(buckets, active) := foldl summarize_coin ([], []) (cst_coins store) in
  (buckets, Z.of_nat (length (cst_coins store)), active).
End summaries.

(** ** Endpoints of the validators: [(i + 1) as u16] *)
Definition gui_endpoint (i : nat) (url : bytes) : ValidatorEndpoint :=
  {| ep_my_index := wrap 16 (Z.of_nat i + 1); ep_base_url := url |}.
Definition gui_pool (validators : list bytes) : res FrontError.t WalletClientPool :=
  map_err FrontError.Wallet (WalletClientPool_new (imap gui_endpoint validators)).

Section gui.
Context `{C : Curve} `{T : Transport} {Cl : Cluster T} `{SO : Solana} `{HX : Hex} `{A : Aead} {X : X25519 C} `{PJ : PayloadJson}
  `{B : Bip39} (error_text : FrontError.t -> bytes) (debug_str : bytes -> bytes).

#[local] Abbreviation gui := (io (world UiEvent) FrontError.t).

(** [Path::exists]. *)
Definition file_exists (path : bytes) : gui bool :=
  locally (atomically (λ h, let '(b, d) := disk_exists path (h_disk h) in (b, set_disk h d))).

Definition open_wallet (phrase passphrase : bytes) (wallet_file : option bytes) : gui UiEvent :=
  seed ← lift (open_seed phrase passphrase);
  let '(_, recv_pk) := derive_receiving_keypair seed in
  summary ← (match wallet_file with
             | Some file => db ← in_host (WalletDb_open file seed); mret (summarize_store (wdb_store db))
             | None => mret ([], 0, [])
             end);
  let '(coin_summary, coin_total, active_coins) := summary in
  mret (WalletOpened (hex_encode recv_pk) seed coin_summary coin_total [] active_coins).

(** ** Keysets *)
Definition list_keysets (master_seed keysets_file : bytes) : gui (list KeysetSummary) :=
  present ← file_exists keysets_file;
  if negb present then mret []
  else
    db ← in_host (KeysetDb_open keysets_file master_seed);
    mret ((λ e : bytes * KeysetInfo, {| ksm_name := e.1; ksm_denom := ki_denom e.2;
             ksm_joint_pk_hex := ki_joint_pk_hex e.2; ksm_validators := ki_validators e.2 |})
            <$> sorted_entries (ks_entries (kdb_store db))).

Definition add_keyset (master_seed keysets_file name : bytes) (info : KeysetInfo) : gui unit :=
  _ ← lift (reject_if (bool_decide (trim name = [])) FrontError.EmptyName);
  _ ← lift (reject_if (negb (length (ki_joint_pk_hex info) =? 64)%nat
                       || bool_decide (hex_decode (ki_joint_pk_hex info) = None)) FrontError.BadKeyset);
  _ ← lift (reject_if (bool_decide (ki_validators info = [])) FrontError.NoValidators);
  db ← in_host (KeysetDb_open keysets_file master_seed);
  in_host (KeysetDb_save {| kdb_path := kdb_path db; kdb_store := KeysetStore_upsert (kdb_store db) name info |} master_seed).

Definition remove_keyset (master_seed keysets_file name : bytes) : gui bool :=
  db ← in_host (KeysetDb_open keysets_file master_seed);
  let '(removed, store) := KeysetStore_remove (kdb_store db) name in
  match removed with
  | Some _ => _ ← in_host (KeysetDb_save {| kdb_path := kdb_path db; kdb_store := store |} master_seed); mret true
  | None => mret false
  end.

(** The keyset of a name, which must have the given denomination. *)
Definition named_keyset (master_seed keysets_file keyset_name : bytes) (denom : Z) : gui KeysetInfo :=
  present ← file_exists keysets_file;
  _ ← lift (reject_if (negb present) FrontError.NoKeysetsFile);
  db ← in_host (KeysetDb_open keysets_file master_seed);
  info ← lift (ok_or FrontError.UnknownKeyset (KeysetStore_get (kdb_store db) keyset_name));
  _ ← lift (reject_if (negb (ki_denom info =? denom)) (FrontError.DenomMismatch (ki_denom info) denom));
  mret info.
Definition fresh_session : gui SessionId := a ← os_draw (rng_fill 16); mret {| sid := a |}.

(** ** Refreshing *)
(** The wallet after a refresh: the old coin spent, the new one active. *)
Definition refreshed_store (s : CoinStore) (found : StoredCoin) (new_coin : Coin) (new_label : bytes)
    : res FrontError.t CoinStore :=
  s ← map_err FrontError.Client (CoinStore_mark_spent s (StoredCoin_nullifier found));
  map_err FrontError.Client (CoinStore_add s (stored_coin new_coin (stc_denom found) CoinStatus.Active (Some new_label))).
Definition stored_to_coin (found : StoredCoin) : res FrontError.t Coin :=
  secret ← map_err FrontError.Core (SecretKey_from_bytes (stc_secret_bytes found));
  map_err FrontError.Refresh
    (Coin_new secret (stc_pubkey_bytes found) (Signature_from_bytes (stc_signature_bytes found))).

(** From the wallet as it was read to the event. *)
Definition refresh_opened (order1 order2 : list nat) (wallet : WalletDb)
    (master_seed keysets_file keyset_name coin_label : bytes) : gui UiEvent :=
  found ← lift (ok_or FrontError.NoActiveCoin (find_labelled coin_label (wdb_store wallet)));
  info ← named_keyset master_seed keysets_file keyset_name (stc_denom found);
  pool ← lift (gui_pool (ki_validators info));
  joint_pk ← lift (joint_key (ki_joint_pk_hex info));
  old_coin ← lift (stored_to_coin found);
  session_id ← fresh_session;
  new_coin ← in_wallet (refresh_coin order1 order2 pool old_coin joint_pk session_id);
  let new_label := ascii "refreshed-" ++ coin_label in
  store ← lift (refreshed_store (wdb_store wallet) found new_coin new_label);
  _ ← in_host (WalletDb_save {| wdb_path := wdb_path wallet; wdb_store := store |} master_seed);
  let '(coin_summary, coin_total, active_coins) := summarize_store store in
  mret (CoinRefreshed (stc_label found) new_label (stc_denom found)
          (take 16 (hex_encode (stc_pubkey_bytes found))) (take 16 (hex_encode (coin_pubkey_bytes new_coin)))
          coin_summary coin_total active_coins).
Definition refresh (order1 order2 : list nat) (master_seed wallet_file keysets_file keyset_name coin_label : bytes)
    : gui UiEvent :=
  wallet ← in_host (WalletDb_open wallet_file master_seed);
  refresh_opened order1 order2 wallet master_seed keysets_file keyset_name coin_label.

(** ** Receiving *)
Definition received_event (t : option Received) : UiEvent :=
  match t with
  | None => ReceiveResult 0 0 0
  | Some t => ReceiveResult (rc_added t) (rc_deleted t) (rc_skipped t)
  end.
Definition receive (master_seed wallet_file recipient_pk_hex relay_url : bytes) (keep_on_relay : bool)
    (label_prefix : bytes) : gui UiEvent :=
  t ← receive_from wallet_file master_seed relay_url recipient_pk_hex label_prefix keep_on_relay;
  mret (received_event t).

(** ** Paying *)
Definition PAY_TTL_SECS : Z := 604800.
Definition pay (order1 order2 : list nat) (master_seed keysets_file invoice_uri keyset_name : bytes) (encrypt : bool)
    : gui UiEvent :=
  inv ← lift (map_err FrontError.Client (Invoice_parse invoice_uri));
  info ← named_keyset master_seed keysets_file keyset_name (inv_denom inv);
  pool ← lift (gui_pool (ki_validators info));
  joint_pk ← lift (joint_key (ki_joint_pk_hex info));
  session_id ← fresh_session;
  coin ← in_wallet (issue_coin order1 order2 pool joint_pk session_id);
  payload_hex ← encode_payment coin inv encrypt;
  relay_url ← lift (ok_or FrontError.NoRelay (head (inv_relays inv)));
  deposit ← deliver relay_url payload_hex inv PAY_TTL_SECS;
  let '(msg_id, _) := deposit in
  mret (PaymentSent (take 16 (hex_encode (inv_recipient_pubkey inv))) (inv_denom inv) relay_url msg_id encrypt).

(** ** Withdrawing on the cluster *)
Definition EPHEMERAL_PAYER_LAMPORTS : Z := 1000000.
(** Who pays for the withdrawal, the name of the strategy, and the new key. *)
Definition choose_payer (program_id rpc_url sponsor : bytes) (use_ephemeral_payer use_onchain_pool : bool)
    : gui (bytes * bytes * option bytes) :=
  if use_ephemeral_payer then
    ephemeral ← os_draw new_keypair;
    if use_onchain_pool then
      _ ← send_signed rpc_url sponsor [payout_instruction program_id sponsor ephemeral EPHEMERAL_PAYER_LAMPORTS];
      mret (ephemeral, ascii "ephemeral-from-pool", Some (pubkey_to_string ephemeral))
    else
      _ ← send_signed rpc_url sponsor [transfer_instruction sponsor ephemeral EPHEMERAL_PAYER_LAMPORTS];
      mret (ephemeral, ascii "ephemeral-from-sponsor", Some (pubkey_to_string ephemeral))
  else mret (sponsor, ascii "sponsor-direct", None).

(** The data of the ed25519 instruction, pushed field by field. *)
Definition gui_precompile_data (signature_bytes joint_pk pubkey_bytes : bytes) : bytes :=
  le_bytes 1 1 ++ le_bytes 1 0 ++ le_bytes 2 16 ++ le_bytes 2 (2 ^ 16 - 1) ++ le_bytes 2 (16 + 64) ++
  le_bytes 2 (2 ^ 16 - 1) ++ le_bytes 2 (16 + 64 + 32) ++ le_bytes 2 32 ++ le_bytes 2 (2 ^ 16 - 1) ++
  signature_bytes ++ joint_pk ++ pubkey_bytes.
Definition withdraw_instructions (program_id payer recipient : bytes) (found : StoredCoin) (entry : KeysetEntry)
    : list SolInstruction :=
  [precompile_instruction (gui_precompile_data (stc_signature_bytes found) (ke_joint_pk entry) (stc_pubkey_bytes found));
   withdraw_instruction program_id payer recipient (stc_pubkey_bytes found)
     (Signature_from_bytes (stc_signature_bytes found)) (stc_denom found)].

(** The checks of the coin against the accounts of the program: the entry of
    its keyset. *)
Definition check_spendable (program_id rpc_url : bytes) (found : StoredCoin) : gui KeysetEntry :=
  entry ← active_entry program_id rpc_url (stc_denom found);
  _ ← check_unspent program_id rpc_url (stc_pubkey_bytes found);
  _ ← check_vault program_id rpc_url (stc_denom found);
  mret entry.

Definition withdraw_on_devnet (master_seed wallet_file coin_label recipient_b58 rpc_url program_id_b58 solana_keypair_path : bytes)
    (use_ephemeral_payer use_onchain_pool : bool) : gui UiEvent :=
  wallet ← in_host (WalletDb_open wallet_file master_seed);
  found ← lift (ok_or FrontError.NoActiveCoin (find_labelled coin_label (wdb_store wallet)));
  program_id ← lift (parse_pubkey program_id_b58);
  recipient ← lift (parse_pubkey recipient_b58);
  sponsor ← read_keypair_file solana_keypair_path;
  chosen ← choose_payer program_id rpc_url sponsor use_ephemeral_payer use_onchain_pool;
  let '(payer, payer_strategy, ephemeral_payer_b58) := chosen in
  entry ← check_spendable program_id rpc_url found;
  sig_str ← send_signed rpc_url payer (withdraw_instructions program_id payer recipient found entry);
  mret (WithdrawOnDevnetResult coin_label (stc_denom found) recipient_b58 sig_str
          (ascii "https://explorer.solana.com/tx/" ++ sig_str ++ ascii "?cluster=devnet")
          payer_strategy ephemeral_payer_b58).

(** ** The tasks *)
Definition attempt {R} (p : gui R) : gui (res FrontError.t R) := pmap Ok p.
Definition send_error (op : bytes) (e : FrontError.t) : gui unit := prints (EvError op (redact (error_text e))).
(** [match p { Ok(..) => .., Err(e) => send the error }]. *)
Definition on_result {R} (p : gui R) (op : bytes) (ok : R -> gui unit) : gui unit :=
  r ← attempt p;
  match r with
  | Ok a => ok a
  | Err e => send_error op e
  | Panic => lift Panic
  end.

Definition dispatch (order1 order2 : list nat) (cmd : UiCommand) : gui unit :=
  match cmd with
  | Ping nonce => prints (Pong nonce)
  | OpenWallet phrase passphrase wallet_file _ => on_result (open_wallet phrase passphrase wallet_file) (ascii "open_wallet") prints
  | CmdKeysetList seed file => on_result (list_keysets seed file) (ascii "keyset_list") (λ l, prints (EvKeysetList l))
  | CmdKeysetAdd seed file name info =>
      on_result (add_keyset seed file name info) (ascii "keyset_add") (λ _,
        _ ← prints (KeysetAdded name);
        on_result (list_keysets seed file) (ascii "keyset_list_after_add") (λ l, prints (EvKeysetList l)))
  | CmdKeysetRemove seed file name =>
      on_result (remove_keyset seed file name) (ascii "keyset_remove") (λ removed,
        if removed : bool then
          _ ← prints (KeysetRemoved name);
          r ← attempt (list_keysets seed file);
          match r with Ok l => prints (EvKeysetList l) | Err _ => mret tt | Panic => lift Panic end
        else prints (EvError (ascii "keyset_remove") (ascii "no keyset named " ++ debug_str name)))
  | WithdrawOnDevnet seed file label recipient rpc_url program_id keypair ephemeral pool =>
      on_result (withdraw_on_devnet seed file label recipient rpc_url program_id keypair ephemeral pool)
        (ascii "withdraw_on_devnet") prints
  | CmdRefresh seed file keysets name label =>
      on_result (refresh order1 order2 seed file keysets name label) (ascii "refresh") prints
  | CmdReceive seed file recipient url keep prefix =>
      on_result (receive seed file recipient url keep prefix) (ascii "receive") prints
  | CmdPay seed keysets uri name encrypt =>
      on_result (pay order1 order2 seed keysets uri name encrypt) (ascii "pay") prints
  | Shutdown => mret tt
  end.

(** [runtime_loop]: one task per command, with the orders in which the runtime
    polls the calls of its rounds. *)
Definition runtime_tasks (cmds : list (list nat * list nat * UiCommand)) : list (gui unit) :=
  (λ c, dispatch c.1.1 c.1.2 c.2) <$> cmds.
End gui.
