(* ===== verification/WalletGuiProps.v ===== *)
(** * What the graphical wallet shows

    Every interleaving of the tasks of the graphical wallet sends only
    redacted errors; and how both front ends number the validators of a
    keyset. *)
From S2P Require Import Prelude Crypto ToyCurve Async Rely Parallel Platform ToyPlatform Core Poly Wire MintBase Vss Sign.
From S2P Require Import Dkg Rotation Refresh RefreshProps Instruction Program Solana Ed25519 ClientBase Invoice Client Storage Transparency.
From S2P Require Import Sessions Validator ToyValidator ValidatorRun Relay RelayProps Keys WalletStore Wallet Services WalletMint.
From S2P Require Import WalletFront WalletCli WalletRun WalletInbox WalletPay Devnet WalletGui.

(** ** Redaction *)
Lemma ascii_redacted : ascii "<redacted>" =
  [Byte.x3c; Byte.x72; Byte.x65; Byte.x64; Byte.x61; Byte.x63; Byte.x74; Byte.x65; Byte.x64; Byte.x3e].
Proof. vm_refl. Qed.
(** No run of 32 hexadecimal digits, from any position. *)
Definition no_long_hex (s : bytes) : Prop := forall n, (hex_run (drop n s) < 32)%nat.

Lemma redact_loop_run fuel s : (hex_run (redact_loop fuel s) <= hex_run s)%nat.
Proof.
  revert s; induction fuel as [|fuel IH]; intros [|c s]; cbn [redact_loop]; rewrite ?ascii_redacted; try (cbn; lia).
  destruct (32 <=? hex_run (c :: s))%nat; [cbn; lia|].
  cbn [hex_run]. specialize (IH s). destruct (is_ascii_hexdigit c); lia.
Qed.
Lemma redact_loop_short fuel s : no_long_hex (redact_loop fuel s).
Proof.
  revert s; induction fuel as [|fuel IH]; intros [|c s] n; cbn [redact_loop]; rewrite ?ascii_redacted;
    try (rewrite drop_nil; cbn; lia).
  destruct (32 <=? hex_run (c :: s))%nat eqn:E.
  - do 10 (destruct n as [|n]; [cbn; lia|]). apply (IH _ n).
  - destruct n as [|n]; [|apply (IH _ n)]. apply Nat.leb_gt in E. rewrite drop_0.
    pose proof (redact_loop_run fuel s). cbn [hex_run] in *. destruct (is_ascii_hexdigit c); lia.
Qed.
Lemma redact_clean s : no_long_hex s -> redact s = s.
Proof.
  unfold redact. induction s as [|c s IH]; intros Hs; [done|]. cbn [length redact_loop].
  replace (32 <=? hex_run (c :: s))%nat with false by (symmetry; apply Nat.leb_gt, (Hs 0%nat)).
  f_equal. apply IH. intros n. apply (Hs (S n)).
Qed.

(** ** Events *)
(** Through the binds and matches of a program, to the calls it is made of. *)
Ltac walk := repeat first
  [ progress intros | solve [auto with steps] | apply steps_bind | apply steps_pmap | apply Forall_fmap, Forall_true
  | match goal with |- context [match ?x with _ => _ end] => destruct x end ].

Section quiet.
Context `{C : Curve} `{T : Transport} {Cl : Cluster T} `{SO : Solana} `{HX : Hex} `{A : Aead} {X : X25519 C} `{PJ : PayloadJson}
  `{B : Bip39} (P : UiEvent -> Prop).

(** Only events in [P] are sent, after those sent before. *)
Definition sends (w w' : world UiEvent) : Prop :=
  exists evs, w_out w' = w_out w ++ evs /\ Forall P evs.
#[export] Instance sends_preorder : PreOrder sends.
Proof.
  split; [intros w; exists []; by rewrite app_nil_r|].
  intros w1 w2 w3 (e1 & H1 & F1) (e2 & H2 & F2). exists (e1 ++ e2). rewrite H2, H1, app_assoc.
  split; [done|by apply Forall_app].
Qed.

#[local] Abbreviation quiet := (steps sends).
Lemma quiet_locally {R} (p : prog host R) : quiet (locally p).
Proof. apply steps_zoom. intros w h. exists []. by rewrite app_nil_r. Qed.
Lemma quiet_remotely {R} (p : prog net R) : quiet (remotely p).
Proof. apply steps_zoom. intros w h. exists []. by rewrite app_nil_r. Qed.
Lemma quiet_prints {E} ev : P ev -> quiet (prints (E := E) ev).
Proof. intros He. apply steps_updates. intros w. exists [ev]. split; [done|]. by apply Forall_singleton. Qed.
#[local] Hint Resolve quiet_locally quiet_remotely quiet_prints steps_lift steps_mret steps_pmap steps_try_join_all : steps.

Lemma quiet_draw_res {E R} (f : rng -> res E (R * rng)) : quiet (os_draw_res f).
Proof. unfold os_draw_res, os_draw. walk. Qed.
#[local] Hint Resolve quiet_draw_res : steps.
Lemma quiet_post {R} ep (decode : http_body -> option R) req : quiet (post ep decode req).
Proof. unfold post. walk. Qed.
#[local] Hint Resolve quiet_post : steps.
Lemma quiet_issue o1 o2 pool pk s : quiet (issue_coin o1 o2 pool pk s).
Proof. unfold issue_coin, os_draw, issue_round1_call, issue_round3_call. walk; apply steps_try_join_all; walk; unfold compose; walk. Qed.
Lemma quiet_refresh o1 o2 pool coin pk s : quiet (refresh_coin o1 o2 pool coin pk s).
Proof.
  unfold refresh_coin, refresh_round1_call, refresh_round5_call. walk; apply steps_try_join_all; walk; unfold compose; walk.
Qed.
#[local] Hint Resolve quiet_issue quiet_refresh : steps.

Lemma quiet_in_wallet {R} (p : io (world UiEvent) WalletError.t R) : quiet p -> quiet (in_wallet p).
Proof. apply steps_pmap. Qed.
Lemma quiet_in_host {R} (p : io host WalletError.t R) : quiet (in_host p).
Proof. apply quiet_in_wallet, quiet_locally. Qed.
Lemma quiet_call_relay url req : quiet (call_relay url req).
Proof. unfold call_relay. walk. Qed.
Lemma quiet_rpc {R} (call : prog net (option R)) : quiet (rpc call).
Proof. unfold rpc, ask. walk. Qed.
#[local] Hint Resolve quiet_in_wallet quiet_in_host quiet_call_relay quiet_rpc : steps.

Lemma quiet_receive_messages seed url rec prefix keep t ms : quiet (receive_messages seed url rec prefix keep t ms).
Proof.
  revert t; induction ms as [|m ms IH]; intros t; [done|]. cbn [receive_messages].
  unfold receive_message, delete_message. walk.
Qed.
#[local] Hint Resolve quiet_receive_messages : steps.
Lemma quiet_keyset seed file name denom : quiet (named_keyset seed file name denom).
Proof. unfold named_keyset, file_exists. walk. Qed.
Lemma quiet_session : quiet fresh_session.
Proof. unfold fresh_session, os_draw. walk. Qed.
Lemma quiet_send url payer ixs : quiet (send_signed url payer ixs).
Proof. unfold send_signed, submit, ask. walk. Qed.
#[local] Hint Resolve quiet_keyset quiet_session quiet_send : steps.
Lemma quiet_choose p u s e c : quiet (choose_payer p u s e c).
Proof. unfold choose_payer, os_draw. walk. Qed.
Lemma quiet_check p u f : quiet (check_spendable p u f).
Proof. unfold check_spendable, active_entry, check_unspent, check_vault. walk. Qed.
#[local] Hint Resolve quiet_choose quiet_check : steps.


(** The commands themselves send nothing. *)
Lemma quiet_open phrase pass file : quiet (open_wallet phrase pass file).
Proof. unfold open_wallet. walk. Qed.
Lemma quiet_list seed file : quiet (list_keysets seed file).
Proof. unfold list_keysets, file_exists. walk. Qed.
Lemma quiet_add seed file name info : quiet (add_keyset seed file name info).
Proof. unfold add_keyset. walk. Qed.
Lemma quiet_remove seed file name : quiet (remove_keyset seed file name).
Proof. unfold remove_keyset. walk. Qed.
Lemma quiet_withdraw seed file label rec url pid key e c :
  quiet (withdraw_on_devnet seed file label rec url pid key e c).
Proof. unfold withdraw_on_devnet, read_keypair_file. walk. Qed.
Lemma quiet_refresh_cmd o1 o2 seed file ks name label : quiet (refresh o1 o2 seed file ks name label).
Proof. unfold refresh, refresh_opened. walk. Qed.
Lemma quiet_receive seed file rec url keep prefix : quiet (receive seed file rec url keep prefix).
Proof. unfold receive, receive_from. walk. Qed.
Lemma quiet_pay o1 o2 seed ks uri name e : quiet (pay o1 o2 seed ks uri name e).
Proof. unfold pay, encode_payment, deliver. walk. Qed.
End quiet.

Section shown_events.
Context `{C : Curve} `{T : Transport} {Cl : Cluster T} `{SO : Solana} `{HX : Hex} `{A : Aead} {X : X25519 C} `{PJ : PayloadJson}
  `{B : Bip39} (error_text : FrontError.t -> bytes) (debug_str : bytes -> bytes).

(** The one error that is not redacted names the keyset it did not find. *)
Definition redacted (ev : UiEvent) : Prop :=
  match ev with
  | EvError op message => no_long_hex message \/ exists name, message = ascii "no keyset named " ++ debug_str name
  | _ => True
  end.
#[local] Abbreviation sends_redacted := (sends redacted).
#[local] Abbreviation quiet := (steps sends_redacted).
#[local] Hint Resolve quiet_prints steps_lift steps_mret steps_pmap quiet_open quiet_list quiet_add quiet_remove
  quiet_withdraw quiet_refresh_cmd quiet_receive quiet_pay : steps.

(** The commands return no error event of their own. *)
#[local] Abbreviation shows := (returns (S := world UiEvent) (λ r : res FrontError.t UiEvent, match r with Ok ev => redacted ev | _ => True end)).
Ltac show := repeat first
  [ progress intros | apply returns_bind | exact I | match goal with |- context [match ?x with _ => _ end] => destruct x end ].

Lemma quiet_send_error op e : quiet (send_error error_text op e).
Proof. apply quiet_prints. left. apply redact_loop_short. Qed.
#[local] Hint Resolve quiet_send_error : steps.
Lemma quiet_on_result {R} (p : io (world UiEvent) FrontError.t R) op ok : quiet p ->
  returns (λ r, match r with Ok a => quiet (ok a) | _ => True end) p -> quiet (on_result error_text p op ok).
Proof.
  unfold on_result, attempt, send_error, mbind, io_bind.
  induction p as [[a|e|]|Y g k IH]; intros Hp Hok; cbn; [exact Hok| |done|].
  - apply quiet_send_error.
  - destruct Hp as [Hg Hk]. split; [done|]. intros b. apply IH; [apply Hk|apply Hok].
Qed.
Lemma quiet_shows p op : quiet p -> shows p -> quiet (on_result error_text p op prints).
Proof.
  intros Hp Hs. apply quiet_on_result; [done|]. eapply returns_mono; [|exact Hs]. intros [ev|e|]; [|done..].
  by apply quiet_prints.
Qed.
Lemma quiet_any {R} (p : io (world UiEvent) FrontError.t R) op ok : quiet p -> (forall a, quiet (ok a)) ->
  quiet (on_result error_text p op ok).
Proof.
  intros Hp Hok. apply quiet_on_result; [done|]. clear Hp. induction p as [[a|e|]|Y g k IH]; cbn; [apply Hok|done..|].
  intros b. apply IH.
Qed.

Lemma quiet_dispatch o1 o2 cmd : quiet (dispatch error_text debug_str o1 o2 cmd).
Proof.
  destruct cmd; cbn [dispatch];
    first [apply quiet_shows | apply quiet_any; intros | apply quiet_prints; exact I | apply steps_mret].
  all: try solve [auto with steps].
  all: unfold open_wallet, withdraw_on_devnet, refresh, refresh_opened, receive, received_event, pay, attempt; try solve [show].
  all: walk; try (apply quiet_prints; first [exact I|right; by eexists]).
Qed.

Lemma quiet_tasks cmds : Forall (λ p, quiet p) (runtime_tasks error_text debug_str cmds).
Proof. apply Forall_fmap, Forall_true. intros c. apply quiet_dispatch. Qed.

(** No secret in an error.  Whatever commands the user sends and however
    their tasks interleave, the events sent are at the end of the events
    before, and none of the error messages has a run of 32 hexadecimal digits,
    apart from the one that quotes the name of a keyset that was not found.
    Redaction leaves a text without such a run as it is. *)
Theorem gui_errors_redacted cmds schedule (w : world UiEvent) :
  (exists evs, w_out (exec schedule (w, runtime_tasks error_text debug_str cmds)).1 = w_out w ++ evs /\ Forall redacted evs) /\
  (forall text, no_long_hex (redact text)) /\ (forall text, no_long_hex text -> redact text = text).
Proof.
  split; [exact (exec_steps sends_redacted schedule w _ (quiet_tasks cmds))|].
  split; [intros text; apply redact_loop_short|apply redact_clean].
Qed.
End shown_events.

(** ** Pools of validators *)
Lemma endpoints_from_exact i urls : Z.of_nat i < 65536 ->
  endpoints_from i urls =
  if Z.of_nat (i + length urls) <? 65536
  then Ok (imap (λ k url, {| ep_my_index := Z.of_nat (i + k) + 1; ep_base_url := url |}) urls)
  else Err FrontError.TooManyValidators.
Proof.
  revert i; induction urls as [|url urls IH]; intros i Hi; cbn [endpoints_from length].
  { by rewrite (proj2 (Z.ltb_lt _ _)) by lia. }
  unfold endpoint_at. change (2 ^ 16) with 65536. destruct (Z.ltb_spec (Z.of_nat i + 1) 65536) as [H|H]; cbn [mbind res_bind].
  - rewrite IH by lia. replace (S i + length urls)%nat with (i + S (length urls))%nat by lia.
    destruct (_ <? _); cbn [mbind res_bind]; [|done]. rewrite imap_cons, Nat.add_0_r. do 2 f_equal.
    apply imap_ext. intros k x _. cbn. f_equal. lia.
  - by rewrite (proj2 (Z.ltb_ge _ _)) by lia.
Qed.

Section pools.
(** C39: the indices of the validators, which the secret shares are evaluated
    at.  Both wallets refuse an empty list, and number a list of up to 65535
    validators from 1, without repetition.  Beyond that the command line
    refuses the list; the graphical wallet takes it, with the index 0 for the
    65536th validator and the index of the first again for the one after it. *)
Theorem pool_indices urls :
  match length urls with
  | O => build_pool urls = Err (FrontError.Wallet (WalletError.BadLength 1 0)) /\ gui_pool urls = build_pool urls
  | n => if Z.of_nat n <? 65536
         then exists pool, build_pool urls = Ok pool /\ gui_pool urls = Ok pool /\
           signing_set pool = (λ k, Z.of_nat k + 1) <$> seq 0 n /\ ep_base_url <$> pool_endpoints pool = urls /\
           NoDup (signing_set pool)
         else build_pool urls = Err FrontError.TooManyValidators /\
           exists pool, gui_pool urls = Ok pool /\ signing_set pool !! Z.to_nat 65535 = Some 0 /\
             (65536 < Z.of_nat n -> signing_set pool !! Z.to_nat 65536 = Some 1 /\ signing_set pool !! 0%nat = Some 1)
  end.
Proof.
  unfold build_pool, gui_pool. rewrite endpoints_from_exact by lia. cbn [Nat.add].
  destruct (length urls) as [|n'] eqn:Hl.
  { by destruct urls. }
  assert (forall f : nat -> bytes -> ValidatorEndpoint, imap f urls <> []) as Hne by (intros f E%(f_equal length); rewrite length_imap, Hl in E; done).
  set (f := λ (k : nat) (url : bytes), {| ep_my_index := Z.of_nat k + 1; ep_base_url := url |}).
  unfold WalletClientPool_new. rewrite (bool_decide_eq_false_2 (imap gui_endpoint urls = [])) by apply Hne.
  assert (forall g : nat -> bytes -> ValidatorEndpoint, (forall k u, ep_my_index (g k u) = ep_my_index (g k [])) ->
    ep_my_index <$> imap g urls = (λ k, ep_my_index (g k [])) <$> seq 0 (length urls)) as Hidx.
  { intros g Hg. apply list_eq. intros k. rewrite !list_lookup_fmap, list_lookup_imap.
    destruct (urls !! k) as [u|] eqn:E.
    - rewrite lookup_seq_lt by (by eapply lookup_lt_Some). cbn. by rewrite Hg.
    - rewrite lookup_seq_ge by (by apply lookup_ge_None). done. }
  destruct (Z.ltb_spec (Z.of_nat (S n')) 65536) as [Hn|Hn]; cbn [mbind res_bind reject_if].
  - fold f. rewrite bool_decide_eq_false_2 by apply Hne. cbn [reject_if mbind res_bind map_err].
    assert (imap gui_endpoint urls = imap f urls) as ->.
    { apply imap_ext. intros k x Hk%lookup_lt_Some. unfold gui_endpoint, f. f_equal. apply wrap_small.
      unfold in_width. rewrite Hl in Hk. change (2 ^ 16) with 65536. lia. }
    eexists. split; [done|]. split; [done|]. unfold signing_set. cbn [pool_endpoints]. rewrite Hidx, Hl by done.
    split; [done|]. split; [|apply NoDup_fmap_2; [intros x y E; cbn in E; lia|apply NoDup_seq]].
    rewrite fmap_imap. unfold f, compose. cbn. clear. rewrite <- (list_fmap_id urls) at 2. rewrite <- imap_const. done.
  - split; [done|]. eexists. split; [done|]. unfold signing_set. cbn [pool_endpoints]. rewrite Hidx, Hl by done.
    rewrite !list_lookup_fmap, !lookup_seq_lt by lia. split; [done|]. intros Hn'. rewrite lookup_seq_lt by lia. by split.
Qed.
End pools.
