(* ===== verification/WalletGuiRefresh.v ===== *)
(** * Refreshing in the graphical wallet

    The refresh command against the daemons of a keyset: what it does to the
    wallet file, and what happens to the coins of a receive command that runs
    at the same time. *)
From S2P Require Import Prelude Crypto ToyCurve Async Rely Parallel Platform ToyPlatform Core Poly Wire MintBase Vss Sign.
From S2P Require Import Dkg Rotation Refresh RefreshProps Instruction Program Solana Ed25519 ClientBase Invoice Client Storage Transparency.
From S2P Require Import Sessions Validator ToyValidator ValidatorRun Relay RelayProps Keys WalletStore Wallet Services WalletMint.
From S2P Require Import WalletFront WalletCli WalletRun WalletInbox WalletPay Devnet WalletGui.

(** ** The wallet after a refresh *)
Section refreshed.
Context `{CO : CurveOk}.

Lemma find_labelled_ok label s c : find_labelled label s = Some c ->
  exists i, cst_coins s !! i = Some c /\ stc_label c = Some label /\ stc_status c = CoinStatus.Active.
Proof using.
  unfold find_labelled. destruct (list_find _ (cst_coins s)) as [[i c']|] eqn:E; [|done]. intros [= ->].
  apply list_find_Some in E as (Hi & [Hl Ha] & _). by exists i.
Qed.

Lemma nullifiers_of_spent s i c : cst_coins s !! i = Some c ->
  StoredCoin_nullifier <$> <[i := set_status c CoinStatus.Spent]> (cst_coins s) = nullifiers_of s.
Proof using.
  intros Hi. unfold nullifiers_of. rewrite list_fmap_insert. apply list_insert_id. by rewrite list_lookup_fmap, Hi.
Qed.

(** The coin is found again by its nullifier, and marked; the new one is added
    unless a coin of its key is there. *)
Lemma refreshed_store_exact s label found new new_label : NoDup (nullifiers_of s) ->
  find_labelled label s = Some found -> exists i, cst_coins s !! i = Some found /\
  let c := stored_coin new (stc_denom found) CoinStatus.Active (Some new_label) in
  refreshed_store s found new new_label =
    if bool_decide (StoredCoin_nullifier c ∈ nullifiers_of s) then Err (FrontError.Client ClientError.DuplicateCoin)
    else Ok {| cst_version := cst_version s;
               cst_coins := <[i := set_status found CoinStatus.Spent]> (cst_coins s) ++ [c] |}.
Proof using.
  intros Hnd (i & Hi & _ & _)%find_labelled_ok. exists i. split; [done|]. intros c. unfold refreshed_store.
  assert (CoinStore_mark_spent s (StoredCoin_nullifier found) = Ok {| cst_version := cst_version s;
    cst_coins := <[i := set_status found CoinStatus.Spent]> (cst_coins s) |}) as ->.
  { unfold CoinStore_mark_spent, mark.
    destruct (list_find (λ c, StoredCoin_nullifier c = StoredCoin_nullifier found) (cst_coins s)) as [[j c']|] eqn:E.
    - apply list_find_Some in E as (Hj & Hn & _). cbn [ok_or mbind res_bind].
      assert (j = i) as ->; [|congruence]. eapply NoDup_lookup; [exact Hnd| |]; unfold nullifiers_of; rewrite list_lookup_fmap.
      + rewrite Hj. cbn. by rewrite Hn.
      + by rewrite Hi.
    - apply list_find_None in E. exfalso. rewrite Forall_forall in E. apply (E found); [by eapply list_elem_of_lookup_2|done]. }
  cbn [map_err mbind res_bind].
  pose proof (CoinStore_add_ok {| cst_version := cst_version s;
    cst_coins := <[i := set_status found CoinStatus.Spent]> (cst_coins s) |} c) as Hadd.
  unfold nullifiers_of at 1 in Hadd. cbn [cst_coins cst_version] in Hadd. rewrite nullifiers_of_spent in Hadd by done.
  fold c. case_bool_decide as Hin.
  - unfold CoinStore_add. cbn [cst_coins]. rewrite (proj2 (existsb_exists _ _)); [done|].
    rewrite <- (nullifiers_of_spent s i found) in Hin by done.
    apply list_elem_of_fmap in Hin as (x & Hx & Hin). exists x. split; [by apply list_elem_of_In|].
    by apply bool_decide_eq_true.
  - by rewrite (proj2 (Hadd _) (conj Hin eq_refl)).
Qed.

Lemma sum_u64_sum l : sum_u64 l = wrap 64 (foldr Z.add 0 l).
Proof using.
  unfold sum_u64. assert (forall acc, in_width 64 acc -> foldl (λ acc x, wrap 64 (acc + x)) acc l = wrap 64 (acc + foldr Z.add 0 l)) as H.
  { induction l as [|x l IH]; intros acc Ha; cbn; [by rewrite Z.add_0_r, wrap_small|].
    rewrite IH by (apply wrap_range; lia). unfold wrap. rewrite Zplus_mod_idemp_l. f_equal. lia. }
  apply H. by split.
Qed.

(** A refresh keeps the active balance of every denomination. *)
Lemma refreshed_balance s i found new new_label : cst_coins s !! i = Some found -> stc_status found = CoinStatus.Active ->
  forall d, CoinStore_active_balance_for_denom {| cst_version := cst_version s; cst_coins :=
      <[i := set_status found CoinStatus.Spent]> (cst_coins s) ++
      [stored_coin new (stc_denom found) CoinStatus.Active (Some new_label)] |} d =
    CoinStore_active_balance_for_denom s d.
Proof using.
  intros Hi Ha d. unfold CoinStore_active_balance_for_denom. cbn [cst_coins]. rewrite !sum_u64_sum. f_equal.
  pose proof (lookup_lt_Some _ _ _ Hi) as Hlt.
  rewrite insert_take_drop by done. rewrite <- (take_drop_middle _ _ _ Hi) at 3.
  rewrite !filter_app, !filter_cons, filter_nil. cbn [stored_coin set_status stc_denom stc_status].
  rewrite (decide_False (P := _ /\ CoinStatus.Spent = _)) by (by intros [_ ?]). rewrite Ha.
  rewrite !fmap_app, !foldr_app.
  assert (forall l a, foldr Z.add a l = foldr Z.add 0 l + a) as Hacc
    by (intros l; induction l as [|x l IH]; intros a; cbn; [done|rewrite IH; lia]).
  destruct (decide (stc_denom found = d)) as [E|E].
  - rewrite !decide_True by done. cbn.
    repeat match goal with |- context [foldr Z.add ?a ?l] => lazymatch a with 0 => fail | _ => rewrite (Hacc l a) end end. lia.
  - rewrite !decide_False by (by intros [? _]). done.
Qed.
End refreshed.

Section refreshing.
Context `{CO : CurveOk} `{RP : Rpc} `{A : Aead} {AOk : AeadOk A} `{HX : Hex} {HOk : HexOk HX} `{J : Json} `{DO : DirOrder}
  `{RO : RowOrder}.
Variables (config : bytes -> ValidatorConfig) (relay_config : bytes -> RelayConfig) (fuel : nat)
  (offset : bytes -> scalar).
#[local] Hint Extern 0 Transport => exact (the_services config relay_config fuel offset) : typeclass_instances.
Implicit Types w : world UiEvent.

(** The coin of a label, a keyset of its denomination whose daemons are
    deployed and honest, and the nullifier of the coin on the chain. *)
Record refresh_ready (seed keysets_file name label : bytes) (s0 : CoinStore) (found : StoredCoin) (coin : Coin)
    (F : list scalar) (eps : list ValidatorEndpoint) (apps : Z -> AppState) (w : world UiEvent) : Prop := {
  gr_disk : no_faults (w_host w);
  gr_found : find_labelled label s0 = Some found;
  gr_coin : stored_to_coin found = Ok coin;
  gr_valid : Coin_verify coin (PublicKey_from_secret {| sk_scalar := peval F 0 |}) = Ok true;
  gr_keyset : exists ks info, is_Some (files (w_host w) !! keysets_file) /\
    stored KeysetStore_new KeysetStore_read (files (w_host w)) keysets_file seed ks /\
    KeysetStore_get ks name = Some info /\ ki_denom info = stc_denom found /\
    ki_joint_pk_hex info = hex_encode (PublicKey_to_bytes (PublicKey_from_secret {| sk_scalar := peval F 0 |})) /\
    gui_pool (ki_validators info) = Ok {| pool_endpoints := eps |};
  gr_deployed : deployed config relay_config fuel offset F eps apps w;
  gr_session ep : ep ∈ eps ->
    app_refresh_sessions (apps (ep_my_index ep)) !! drawn_session config relay_config fuel offset w = None;
  gr_nullifier ep : ep ∈ eps -> nullifier_shown (config (ep_base_url ep)) (coin_pubkey_bytes coin) (apps (ep_my_index ep));
  gr_honest : sc_sum (offset ∘ ep_base_url <$> eps) = 0%sc;
}.

Lemma run_named_keyset seed file name ks info denom w : no_faults (w_host w) -> is_Some (files (w_host w) !! file) ->
  stored KeysetStore_new KeysetStore_read (files (w_host w)) file seed ks ->
  KeysetStore_get ks name = Some info -> ki_denom info = denom ->
  run (named_keyset seed file name denom) w = (Ok info, w).
Proof using.
  intros Hf Hp Hs Hg <-. unfold named_keyset, file_exists, locally.
  rewrite run_bind, run_zoom by (done || by destruct w).
  pose proof (run_exists file (w_host w) Hf) as He. unfold atomically in *. cbn [run] in *.
  destruct (disk_exists file (h_disk (w_host w))) as [b d]. injection He as -> ->. cbn [fst snd].
  rewrite bool_decide_eq_true_2 by done. cbn [negb reject_if]. rewrite run_bind, run_lift.
  assert (put_host w (w_host w) = w) as -> by (by destruct w).
  rewrite run_bind, (run_keysets_open config relay_config fuel offset _ _ ks) by done. cbn [kdb_store].
  rewrite run_bind, Hg. cbn [ok_or]. rewrite run_lift, run_bind, Z.eqb_refl. by rewrite run_lift, run_mret.
Qed.

Lemma stored_to_coin_ok found coin : wf_stored_coin found -> stored_to_coin found = Ok coin ->
  length (coin_pubkey_bytes coin) = 32%nat /\ wf_signature (coin_signature coin).
Proof using.
  intros (_ & Hp & Hs & _). unfold stored_to_coin, Coin_new. intros H. inv_res. subst. cbn.
  split; [done|]. unfold Signature_from_bytes. split; cbn; rewrite ?length_take, ?length_drop; lia.
Qed.

(** The store of [s0] after the coin at [i] was refreshed. *)
Definition refreshed_coins (s0 : CoinStore) (i : nat) (found c : StoredCoin) : CoinStore :=
  {| cst_version := cst_version s0; cst_coins := <[i := set_status found CoinStatus.Spent]> (cst_coins s0) ++ [c] |}.
Definition refreshed_event (label : bytes) (found : StoredCoin) (new : Coin) (store : CoinStore) : UiEvent :=
  let '(coin_summary, coin_total, active_coins) := summarize_store store in
  CoinRefreshed (stc_label found) (ascii "refreshed-" ++ label) (stc_denom found)
    (take 16 (hex_encode (stc_pubkey_bytes found))) (take 16 (hex_encode (coin_pubkey_bytes new)))
    coin_summary coin_total active_coins.

Lemma run_refresh_opened order1 order2 file seed keysets_file name label s0 old found coin F eps apps w :
  refresh_ready seed keysets_file name label s0 found coin F eps apps w ->
  wallet_opens_to (files (w_host w)) file seed old -> wf_store s0 -> NoDup (nullifiers_of s0) ->
  path_extension file <> Some (ascii "tmp") -> wf_string (ascii "refreshed-" ++ label) ->
  Z.of_nat (length (cst_coins s0)) + 1 < 2 ^ 32 ->
  exists new i r w', cst_coins s0 !! i = Some found /\ stc_status found = CoinStatus.Active /\
    Coin_verify new (PublicKey_from_secret {| sk_scalar := peval F 0 |}) = Ok true /\ own_coin new /\
    run (refresh_opened order1 order2 {| wdb_path := file; wdb_store := s0 |} seed keysets_file name label) w = (r, w') /\
    (w_out w' = w_out w /\ sv_relays (w_net w') = sv_relays (w_net w)) /\
    let c := stored_coin new (stc_denom found) CoinStatus.Active (Some (ascii "refreshed-" ++ label)) in
    let store := refreshed_coins s0 i found c in
    if bool_decide (StoredCoin_nullifier c ∈ nullifiers_of s0)
    then r = Err (FrontError.Client ClientError.DuplicateCoin) /\ wallet_opens_to (files (w_host w')) file seed old
    else Z.of_nat (length (CoinStore_to_vec store)) < 2 ^ 36 ->
         r = Ok (refreshed_event label found new store) /\ wallet_opens_to (files (w_host w')) file seed store.
Proof.
  intros [Hf Hfound Hcoin Hval (ks & info & Hp & Hks & Hget & Hden & Hkey & Hpool) Hd Hses Hnul Hhon] Hw Hwf Hnd Hext Hlab Hlen.
  set (pk := PublicKey_from_secret _) in *.
  destruct (find_labelled_ok _ _ _ Hfound) as (i0 & Hi0 & _ & Hact).
  assert (wf_stored_coin found) as Hwfc by (apply Hwf; by eapply list_elem_of_lookup_2).
  destruct (stored_to_coin_ok _ _ Hwfc Hcoin) as [Hpk Hsig].
  unfold refresh_opened. cbn [wdb_store wdb_path]. rewrite run_bind, Hfound. cbn [ok_or]. rewrite run_lift, run_bind.
  rewrite (run_named_keyset _ _ _ ks info) by done. rewrite run_bind, Hpool, run_lift, run_bind, Hkey. pose proof (joint_key_encode (peval F 0)) as Hjk.
  fold pk in Hjk. rewrite Hjk, run_lift.
  rewrite run_bind, Hcoin, run_lift, run_bind. unfold fresh_session. rewrite run_bind, run_os_draw, run_mret.
  change {| sid := (rng_fill 16 (h_rng (w_host w))).1 |} with (drawn_session config relay_config fuel offset w). set (w1 := put_host w _).
  destruct (refresh_runs config relay_config fuel offset order1 order2 F eps apps coin (drawn_session config relay_config fuel offset w) w1)
    as (result & w2 & Hr & Hres & (Ho2 & Hrel & r2 & Hh2) & _);
    [by apply deployed_host|apply rng_fill_length|done..|]. rewrite decide_True in Hres by done. fold pk in Hr, Hres.
  destruct Hres as (new & -> & Hnew & Hown). rewrite run_bind, run_in_wallet, Hr. cbn [fst snd map_err]. rewrite run_bind, run_lift.
  destruct (refreshed_store_exact s0 label found new (ascii "refreshed-" ++ label) Hnd Hfound) as (i & Hi & Hst).
  cbn zeta in Hst. rewrite Hst. set (c := stored_coin _ _ _ _) in *. exists new, i.
  assert (files (w_host w2) = files (w_host w)) as Hfiles by (by rewrite Hh2). cbn zeta. fold c.
  case_bool_decide as Hin.
  { do 2 eexists. do 4 (split; [eassumption|]). split; [reflexivity|]. split; [by split|].
    split; [done|by rewrite Hfiles]. }
  fold (refreshed_coins s0 i found c). rewrite run_bind, run_in_host.
  destruct (wallet_save_cases {| wdb_path := file; wdb_store := refreshed_coins s0 i found c |} seed old (w_host w2))
    as (rs & h3 & -> & Hc & Hok & _); [done| |by rewrite Hfiles|].
  { destruct Hwf as (H1 & H2 & H3). split; [done|]. cbn. split; [rewrite length_app, length_insert; cbn; lia|].
    intros c' [Hc'| ->%list_elem_of_singleton]%elem_of_app.
    - apply list_elem_of_lookup_1 in Hc' as [j [(_ & <- & _)|[_ Hj]]%list_lookup_insert_Some]; [exact Hwfc|].
      apply H3. by eapply list_elem_of_lookup_2.
    - destruct Hown as [Hop [Hor Hos]]. split_and!; cbn; [apply sc_to_bytes_length|by rewrite Hop; apply pt_compress_length| | |].
      + unfold Signature_to_bytes. rewrite length_app. lia.
      + apply Hwfc.
      + intros l [= <-]. exact Hlab. }
  cbn [fst snd wdb_store wdb_path] in *. unfold refreshed_event.
  destruct rs as [[]|e|]; cbn [map_err].
  - destruct (summarize_store _) as [[cs ct] ac]. rewrite run_mret. do 2 eexists. do 4 (split; [eassumption|]).
    split; [reflexivity|]. split; [by split|].
    intros _. destruct Hc as [[_ Hc]|[[? ?] _]]; [|done]. by split.
  - do 2 eexists. do 4 (split; [eassumption|]). split; [reflexivity|]. split; [by split|].
    intros Hsz. by specialize (Hok Hsz ltac:(by unfold no_faults; rewrite Hh2)).
  - exfalso. destruct Hc as [[? _]|[[? ?] _]]; congruence.
Qed.

Lemma run_wallet_open file seed s0 w : no_faults (w_host w) -> wallet_opens_to (files (w_host w)) file seed s0 ->
  run (in_host (WalletDb_open file seed)) w = (Ok {| wdb_path := file; wdb_store := s0 |}, w).
Proof using. intros Hf Hw. rewrite run_in_host, (Hw _ eq_refl Hf). by destruct w. Qed.
End refreshing.

(** ** Two tasks on one wallet *)
Section two_tasks.
Context `{CO : CurveOk} `{RP : Rpc} `{A : Aead} {AOk : AeadOk A} `{HX : Hex} {HOk : HexOk HX} `{J : Json} `{DO : DirOrder}
  `{RO : RowOrder} {X : X25519 C} `{PJ : PayloadJson} {PJOk : PayloadJsonOk PJ} `{B : Bip39} `{SO : Solana}.
Variables (config : bytes -> ValidatorConfig) (relay_config : bytes -> RelayConfig) (fuel : nat)
  (offset : bytes -> scalar).
#[local] Hint Extern 0 Transport => exact (the_services config relay_config fuel offset) : typeclass_instances.
Context {Cl : Cluster (the_services config relay_config fuel offset)}.
Variables (error_text : FrontError.t -> bytes) (debug_str : bytes -> bytes).
Implicit Types w : world UiEvent.
#[local] Abbreviation relays := (relays config relay_config fuel offset).
#[local] Abbreviation tasks := (runtime_tasks error_text debug_str).

Lemma run_on_result {R} (p : io (world UiEvent) FrontError.t R) op ok w a w' : run p w = (Ok a, w') ->
  run (on_result error_text p op ok) w = run (ok a) w'.
Proof using. intros Hp. unfold on_result, attempt. by rewrite run_bind, run_pmap, Hp. Qed.

Lemma on_result_net p op w :
  w_net (run (on_result error_text p op prints) w).2 = w_net (run p w).2.
Proof using. unfold on_result, attempt. rewrite run_bind, run_pmap. by destruct (run p w) as [[ev|e|] w']. Qed.

(** The refresh task stops after it has read the wallet, the receive task
    runs to its end, and the refresh task goes on. *)
Lemma exec_refresh_around (rest : WalletDb -> io (world UiEvent) FrontError.t UiEvent) (op : bytes)
    (other : io (world UiEvent) FrontError.t unit) file seed s0 w :
  no_faults (w_host w) -> wallet_opens_to (files (w_host w)) file seed s0 ->
  exists schedule, let w2 := (run other w).2 in
    let last := run (on_result error_text (rest {| wdb_path := file; wdb_store := s0 |}) op prints) w2 in
    exec schedule (w, [on_result error_text (in_host (WalletDb_open file seed) ≫= rest) op prints; other]) =
      (last.2, [Done last.1; Done (run other w).1]).
Proof using.
  intros Hf Hw.
  pose (K := λ m : io (world UiEvent) FrontError.t WalletDb, on_result error_text (m ≫= rest) op prints).
  destruct (exec_within K (in_host (WalletDb_open file seed)) 0 w
    [K (in_host (WalletDb_open file seed)); other] ltac:(done) eq_refl) as [n0 H0].
  rewrite (run_wallet_open config relay_config fuel offset _ _ s0) in H0 by done. cbn [fst snd] in H0.
  destruct (exec_within (λ p, p) other 1 w [K (Done (Ok {| wdb_path := file; wdb_store := s0 |})); other] ltac:(done) eq_refl)
    as [n1 H1].
  destruct (exec_within (λ p, p) (K (Done (Ok {| wdb_path := file; wdb_store := s0 |}))) 0 (run other w).2
    [K (Done (Ok {| wdb_path := file; wdb_store := s0 |})); Done (run other w).1] ltac:(done) eq_refl) as [n2 H2].
  exists (replicate n0 0%nat ++ replicate n1 1%nat ++ replicate n2 0%nat). rewrite !exec_app. unfold K in *.
  exact (eq_trans (f_equal (λ c, exec _ (exec _ c)) H0) (eq_trans (f_equal (exec _) H1) H2)).
Qed.

Lemma deployed_beside F eps apps w w' : sv_daemons (w_net w') = sv_daemons (w_net w) ->
  deployed config relay_config fuel offset F eps apps w -> deployed config relay_config fuel offset F eps apps w'.
Proof using. intros Hd [H1 H2 H3 H4 H5 H6]. split; try done. intros ep Hep. unfold daemons. rewrite Hd. by apply H5. Qed.

(** A ready refresh is ready after another task that leaves the daemons and
    the keysets file. *)
Lemma refresh_ready_beside seed keysets_file name label s0 found coin F eps apps file w w' :
  refresh_ready config relay_config fuel offset seed keysets_file name label s0 found coin F eps apps w ->
  (forall ep, ep ∈ eps -> app_refresh_sessions (apps (ep_my_index ep)) = ∅) ->
  keysets_file <> file -> keysets_file <> path_with_extension file (ascii "tmp") ->
  sv_daemons (w_net w') = sv_daemons (w_net w) -> no_faults (w_host w') -> other_files file (w_host w) (w_host w') ->
  refresh_ready config relay_config fuel offset seed keysets_file name label s0 found coin F eps apps w'.
Proof using.
  intros [Hf Hfound Hcoin Hval (ks & info & Hp & Hks & Hk) Hd Hses Hnul Hhon] Hnone Hk1 Hk2 Hb Hf' Ho.
  specialize (Ho _ Hk1 Hk2). split; try done.
  - exists ks, info. unfold stored in *. by rewrite Ho.
  - by eapply deployed_beside.
  - intros ep Hep. by rewrite (Hnone ep Hep).
Qed.
End two_tasks.

(** ** Properties *)
Section refresh_properties.
Context `{CO : CurveOk} `{RP : Rpc} `{A : Aead} {AOk : AeadOk A} `{HX : Hex} {HOk : HexOk HX} `{J : Json} `{DO : DirOrder}
  `{RO : RowOrder} {X : X25519 C} `{PJ : PayloadJson} {PJOk : PayloadJsonOk PJ} `{B : Bip39} `{SO : Solana}.
Variables (config : bytes -> ValidatorConfig) (relay_config : bytes -> RelayConfig) (fuel : nat)
  (offset : bytes -> scalar).
#[local] Hint Extern 0 Transport => exact (the_services config relay_config fuel offset) : typeclass_instances.
Context {Cl : Cluster (the_services config relay_config fuel offset)}.
Variables (error_text : FrontError.t -> bytes) (debug_str : bytes -> bytes).
#[local] Abbreviation relays := (relays config relay_config fuel offset).

(** C13: the refresh command of the graphical wallet, against honest daemons of
    the keyset, ends with the coin of the label spent and a new active coin
    that verifies under the joint key and has the same denomination, so that
    the active balance of every denomination is what it was; the file on the
    disk is opened to that wallet.  Only a new key that is already in the
    wallet makes it fail, and then the file is as before. *)
Theorem gui_refresh_exact order1 order2 file seed keysets_file name label s0 found coin F eps apps (w : world UiEvent) :
  refresh_ready config relay_config fuel offset seed keysets_file name label s0 found coin F eps apps w ->
  wallet_opens_to (files (w_host w)) file seed s0 -> wf_store s0 -> NoDup (nullifiers_of s0) ->
  path_extension file <> Some (ascii "tmp") -> wf_string (ascii "refreshed-" ++ label) ->
  Z.of_nat (length (cst_coins s0)) + 1 < 2 ^ 32 ->
  exists new i r w', cst_coins s0 !! i = Some found /\
    Coin_verify new (PublicKey_from_secret {| sk_scalar := peval F 0 |}) = Ok true /\ own_coin new /\
    run (refresh order1 order2 seed file keysets_file name label) w = (r, w') /\
    let c := stored_coin new (stc_denom found) CoinStatus.Active (Some (ascii "refreshed-" ++ label)) in
    let store := refreshed_coins s0 i found c in
    if bool_decide (StoredCoin_nullifier c ∈ nullifiers_of s0)
    then r = Err (FrontError.Client ClientError.DuplicateCoin) /\ wallet_opens_to (files (w_host w')) file seed s0
    else (forall d, CoinStore_active_balance_for_denom store d = CoinStore_active_balance_for_denom s0 d) /\
         (Z.of_nat (length (CoinStore_to_vec store)) < 2 ^ 36 ->
          r = Ok (refreshed_event label found new store) /\ wallet_opens_to (files (w_host w')) file seed store).
Proof.
  intros Hready Hw Hwf Hnd Hext Hlab Hlen.
  destruct (run_refresh_opened config relay_config fuel offset order1 order2 file seed keysets_file name label s0 s0 found coin
    F eps apps w Hready Hw Hwf Hnd Hext Hlab Hlen) as (new & i & r & w' & Hi & Ha & Hv & Hown & Hr & _ & Hres).
  exists new, i, r, w'. do 3 (split; [done|]). split.
  { unfold refresh. rewrite run_bind, (run_wallet_open config relay_config fuel offset _ _ s0);
      [exact Hr|apply Hready|done]. }
  cbn zeta in *. case_bool_decide; [exact Hres|]. split; [|exact Hres]. by apply refreshed_balance.
Qed.

(** C25: commands that work on one wallet file at a time lose coins.  A refresh
    reads the wallet before its rounds with the daemons and writes it after
    them.  When a receive command runs in between, both report success, the
    received coins are deleted from the relay, and the wallet file ends
    without them: it holds the coins from before and the refreshed one. *)
Theorem refresh_overwrites_receive order1 order2 order3 order4 file seed keysets_file name label s0 found coin F eps apps
    url rec recipient prefix a bucket (w : world UiEvent) :
  refresh_ready config relay_config fuel offset seed keysets_file name label s0 found coin F eps apps w ->
  (forall ep, ep ∈ eps -> app_refresh_sessions (apps (ep_my_index ep)) = ∅) ->
  keysets_file <> file -> keysets_file <> path_with_extension file (ascii "tmp") ->
  wallet_opens_to (files (w_host w)) file seed s0 -> wf_store s0 -> NoDup (nullifiers_of s0) ->
  path_extension file <> Some (ascii "tmp") -> wf_string (ascii "refreshed-" ++ label) ->
  Z.of_nat (length (cst_coins s0) + length bucket) + 1 < 2 ^ 32 ->
  trim recipient = hex_encode rec -> length rec = 32%nat ->
  relays w !! trim_end_slashes url = Some a -> inbox_of a rec bucket ->
  (forall m, m ∈ bucket -> label_ok prefix (msg_id (sm_msg m))) ->
  let ms := visible (h_instant (ra_host a)) bucket in
  let '(received, ids) := accepted seed prefix s0 ms in
  Z.of_nat (length (CoinStore_to_vec received)) < 2 ^ 36 ->
  exists schedule new i w' a' outcome,
    exec schedule (w, runtime_tasks error_text debug_str
      [(order1, order2, CmdRefresh seed file keysets_file name label);
       (order3, order4, CmdReceive seed file recipient url false prefix)]) = (w', [Done outcome; Done (Ok tt)]) /\
    relays w' !! trim_end_slashes url = Some a' /\
    inbox_of a' rec (filter (λ m, msg_id (sm_msg m) ∉ ids) bucket) /\
    let c := stored_coin new (stc_denom found) CoinStatus.Active (Some (ascii "refreshed-" ++ label)) in
    let store := refreshed_coins s0 i found c in
    (StoredCoin_nullifier c ∉ nullifiers_of s0 -> Z.of_nat (length (CoinStore_to_vec store)) < 2 ^ 36 ->
     outcome = Ok tt /\ nullifiers_of store = nullifiers_of s0 ++ [StoredCoin_nullifier c] /\
     w_out w' = w_out w ++ [received_event (receipt received ids false ms); refreshed_event label found new store] /\
     wallet_opens_to (files (w_host w')) file seed store).
Proof.
  intros Hready Hnone Hk1 Hk2 Hw Hwf Hnd Hext Hlab Hlen Htr Hrec Ha Hb Hids ms.
  pose proof (gr_disk _ _ _ _ _ _ _ _ _ _ _ _ _ _ _ Hready) as Hf.
  pose proof (run_receive_from config relay_config fuel offset file seed url rec recipient prefix false w a bucket s0 (w_host w)
    Hext (Hw _ eq_refl Hf) Hw Hwf ltac:(lia) Htr Hrec Ha Hb Hids) as Hrcv. cbn zeta in Hrcv. fold ms in Hrcv.
  destruct (accepted seed prefix s0 ms) as [received ids]. intros Hsz.
  destruct Hrcv as (r1 & w1 & a1 & Hr1 & Ha1 & Hb1 & (Hbes & Hf1 & Hof1) & Hc1 & Hok1).
  rewrite (Hok1 Hsz Hf) in *. destruct Hc1 as [[_ Hw1]|[[? ?] _]]; [|done].
  set (ev := received_event (receipt received ids false ms)).
  set (w2 := {| w_host := w_host w1; w_net := w_net w1; w_out := w_out w1 ++ [ev] |} : world UiEvent).
  set (t1 := dispatch error_text debug_str order3 order4 (CmdReceive seed file recipient url false prefix)).
  assert (run t1 w = (Ok tt, w2)) as Ht1.
  { unfold t1. cbn [dispatch]. erewrite run_on_result; [|unfold receive; rewrite run_bind, Hr1; reflexivity]. reflexivity. }
  destruct (exec_refresh_around config relay_config fuel offset error_text
    (λ wallet, refresh_opened order1 order2 wallet seed keysets_file name label) (ascii "refresh") t1 file seed s0 w Hf Hw)
    as [schedule Hexec]. cbn zeta in Hexec. rewrite Ht1 in Hexec. cbn [fst snd] in Hexec.
  assert (refresh_ready config relay_config fuel offset seed keysets_file name label s0 found coin F eps apps w2) as Hready2
    by (eapply (refresh_ready_beside config relay_config fuel offset _ _ _ _ _ _ _ _ _ _ file w w2 Hready Hnone Hk1 Hk2);
        [apply Hbes|by apply Hf1|exact Hof1]).
  destruct (run_refresh_opened config relay_config fuel offset order1 order2 file seed keysets_file name label s0 received found
    coin F eps apps w2 Hready2 Hw1 Hwf Hnd Hext Hlab ltac:(lia)) as (new & i & r & w3 & Hi & Ha3 & Hv & Hown & Hr3 & [Ho3 Hrel3] & Hres).
  exists schedule, new, i.
  match type of Hexec with exec _ _ = (?l.2, [Done ?o; _]) => exists l.2, a1, o end. split; [exact Hexec|]. split.
  { transitivity (relays w1 !! trim_end_slashes url); [|exact Ha1]. unfold WalletRun.relays. rewrite on_result_net.
    rewrite Hr3. cbn [snd]. by rewrite Hrel3. }
  split; [exact Hb1|]. cbn zeta in *. intros Hnew Hlen'. rewrite bool_decide_eq_false_2 in Hres by done.
  destruct (Hres Hlen') as [-> Hopen]. rewrite (run_on_result _ _ _ _ _ _ _ _ _ _ _ Hr3), run_prints. cbn [fst snd w_out w_host].
  split; [done|]. split; [|split; [|exact Hopen]].
  - unfold nullifiers_of at 1, refreshed_coins. cbn [cst_coins]. by rewrite fmap_app, nullifiers_of_spent.
  - rewrite Ho3. cbn [w_out w2]. rewrite (proj1 Hbes). by rewrite <- app_assoc.
Qed.
End refresh_properties.

(** ** Witnesses: a wallet with one coin, and an inbox with another *)
#[local] Existing Instance toy.
#[local] Existing Instance toy_ok.
#[local] Existing Instance toy_rpc.
#[local] Existing Instance toy_aead.
#[local] Existing Instance toy_aead_ok.
#[local] Existing Instance toy_hex.
#[local] Existing Instance toy_hex_ok.
#[local] Existing Instance toy_order.
#[local] Existing Instance toy_json.
#[local] Existing Instance toy_rows.
#[local] Existing Instance toy_x25519.
#[local] Existing Instance toy_bip39.
#[local] Existing Instance toy_payload_json.
#[local] Existing Instance toy_payload_json_ok.
#[local] Existing Instance Solana.sim.

#[local] Abbreviation gui_transport := (services_transport mint_config mint_relay_config 64 (mint_offset 0)).
(** A cluster that never answers. *)
Definition no_cluster : Cluster gui_transport := {|
  get_account _ _ := Done None; get_balance _ _ := Done None; get_latest_blockhash _ := Done None;
  send_and_confirm_transaction _ _ := Done (Err []); rent_minimum_balance n := n; choose_index _ r := (0%nat, r);
  pubkey_from_str s := Some s; pubkey_to_string k := k; keypair_from_json b := Some b;
  new_keypair r := rng_fill 32 r; transfer_instruction _ _ _ := {| si_program_id := []; si_accounts := []; si_data := [] |};
  sysvar_instructions_id := zeros 32;
|}.
#[local] Existing Instance no_cluster.
Definition gui_found : StoredCoin := stored_coin RefreshProps.demo_coin 1000 CoinStatus.Active (Some (ascii "gold")).
Definition gui_store : CoinStore := {| cst_version := 1; cst_coins := [gui_found] |}.
Definition gui_host : host :=
  (run (WalletDb_save {| wdb_path := ascii "w.bin"; wdb_store := gui_store |} pay_seed) pay_host).2.
Definition gui_services : services :=
  {| sv_daemons := sv_daemons pay_services; sv_relays := {[ascii "r" := inbox_relay]} |}.
Definition gui_world : @world toy gui_transport UiEvent :=
  {| w_host := gui_host; w_net := (gui_services : @net gui_transport); w_out := [] |}.

Lemma gui_store_wf : wf_store gui_store.
Proof.
  split; [by vm_compute|]. split; [done|]. intros c ->%list_elem_of_singleton.
  split; [done|]. split; [vm_refl|]. split; [vm_refl|]. split; [by vm_compute|]. intros l [= <-]. by vm_compute.
Qed.
Lemma gui_wallet_file : wallet_opens_to (files (w_host gui_world)) (ascii "w.bin") pay_seed gui_store.
Proof.
  apply (wallet_opens_iff (store_host [] ∅)). unfold stored. match goal with |- match ?x with _ => _ end =>
    assert (x = Some (default [] (files gui_host !! ascii "w.bin"))) as -> by vm_refl end.
  exists (CoinStore_to_vec gui_store). split; vm_refl.
Qed.
Lemma gui_ready : refresh_ready mint_config mint_relay_config 64 (mint_offset 0) pay_seed (ascii "k.bin") (ascii "main")
  (ascii "gold") gui_store gui_found RefreshProps.demo_coin demo_cs pay_pool mint_app gui_world.
Proof.
  split; [reflexivity|vm_refl|vm_refl|vm_refl| | |by intros ep _|by intros ep _|vm_refl].
  - exists pay_keysets. eexists. split; [|split; [|split; [reflexivity|split; [reflexivity|split; vm_refl]]]].
    + exists (default [] (files gui_host !! ascii "k.bin")). vm_refl.
    + unfold stored. match goal with |- match ?x with _ => _ end =>
        assert (x = Some (default [] (files gui_host !! ascii "k.bin"))) as -> by vm_refl end.
      exists (KeysetStore_to_vec pay_keysets). split; vm_refl.
  - apply (deployed_beside mint_config mint_relay_config 64 (mint_offset 0) demo_cs pay_pool mint_app
      {| w_host := pay_host; w_net := (gui_services : @net gui_transport); w_out := [] |}); [reflexivity|].
    destruct pay_deployed. by split.
Qed.

Lemma gui_store_distinct : NoDup (nullifiers_of gui_store).
Proof. apply NoDup_singleton. Qed.
Lemma gui_label : wf_string (ascii "refreshed-" ++ ascii "gold").
Proof. by vm_compute. Qed.
Lemma gui_file_name : path_extension (ascii "w.bin") <> Some (ascii "tmp").
Proof. by vm_compute. Qed.

Lemma gui_refresh_exact_witness :
  exists new r w', Coin_verify new demo_joint = Ok true /\
    run (refresh [1]%nat [] pay_seed (ascii "w.bin") (ascii "k.bin") (ascii "main") (ascii "gold")) gui_world = (r, w').
Proof.
  destruct (gui_refresh_exact mint_config mint_relay_config 64 (mint_offset 0) [1]%nat [] (ascii "w.bin") pay_seed
    (ascii "k.bin") (ascii "main") (ascii "gold") gui_store gui_found RefreshProps.demo_coin demo_cs pay_pool mint_app gui_world)
    as (new & i & r & w' & _ & Hv & _ & Hr & _).
  - exact gui_ready.
  - exact gui_wallet_file.
  - exact gui_store_wf.
  - exact gui_store_distinct.
  - exact gui_file_name.
  - exact gui_label.
  - reflexivity.
  - exists new, r, w'. split; [exact Hv|exact Hr].
Defined.

Definition gui_error_text (e : FrontError.t) : bytes := ascii "failed".
Definition gui_received : CoinStore * list bytes :=
  accepted pay_seed (ascii "in") gui_store (visible (h_instant (ra_host inbox_relay)) inbox_bucket).
Lemma gui_inbox : inbox_of inbox_relay inbox_owner inbox_bucket.
Proof. exists {[inbox_owner := inbox_bucket]}. split; vm_refl. Qed.
Lemma gui_relay : relays mint_config mint_relay_config 64 (mint_offset 0) gui_world !! trim_end_slashes (ascii "r/") = Some inbox_relay.
Proof. vm_refl. Qed.
Lemma gui_recipient : trim (hex_encode inbox_owner) = hex_encode inbox_owner.
Proof. vm_refl. Qed.

Lemma refresh_overwrites_receive_witness :
  gui_received.2 = [ascii "m2"] /\
  exists schedule w' outcome a', exec schedule (gui_world, runtime_tasks gui_error_text (λ s, s)
      [([1]%nat, [], CmdRefresh pay_seed (ascii "w.bin") (ascii "k.bin") (ascii "main") (ascii "gold"));
       ([], [], CmdReceive pay_seed (ascii "w.bin") (hex_encode inbox_owner) (ascii "r/") false (ascii "in"))]) =
      (w', [Done outcome; Done (Ok tt)]) /\
    relays mint_config mint_relay_config 64 (mint_offset 0) w' !! ascii "r" = Some a' /\
    inbox_of a' inbox_owner [inbox_message (ascii "m1") (ascii "zz") 10;
                             inbox_message (ascii "m3") (hex_encode inbox_payload) 0].
Proof.
  split; [vm_refl|].
  pose proof (refresh_overwrites_receive mint_config mint_relay_config 64 (mint_offset 0) gui_error_text (λ s, s) [1]%nat [] [] []
    (ascii "w.bin") pay_seed (ascii "k.bin") (ascii "main") (ascii "gold") gui_store gui_found RefreshProps.demo_coin demo_cs
    pay_pool mint_app (ascii "r/") inbox_owner (hex_encode inbox_owner) (ascii "in") inbox_relay inbox_bucket gui_world
    gui_ready ltac:(intros ep _; reflexivity) ltac:(discriminate) ltac:(discriminate) gui_wallet_file gui_store_wf gui_store_distinct
    gui_file_name gui_label ltac:(reflexivity) gui_recipient ltac:(reflexivity) gui_relay gui_inbox inbox_labels) as H.
  cbn zeta in H.
  assert (accepted pay_seed (ascii "in") gui_store (visible (h_instant (ra_host inbox_relay)) inbox_bucket) =
    (gui_received.1, [ascii "m2"])) as E by vm_refl.
  rewrite E in H. destruct H as (schedule & new & i & w' & a' & outcome & H1 & H2 & H3 & _).
  - unfold Z.lt. vm_refl.
  - exists schedule, w', outcome, a'. split; [exact H1|]. split; [exact H2|exact H3].
Defined.
