(* ===== verification/RecordSet.v ===== *)
(** * Functional update of record fields

    [r <| f := v |>] is the record [r] with field [f] replaced,
    [r <| f ::= g |>] with [g] applied to it; [r <| f ; g := v |>] reaches into
    the record in field [f].  A record type takes part once its expansion is an
    instance of [Eta]. *)
From S2P Require Import Prelude.

Class Eta (R : Type) : Type := eta : R -> R.
Class Setter {R E : Type} (field : R -> E) : Type := set_field : (E -> E) -> R -> R.
Arguments set_field {R E} field {_} _ _ /.

(** The expansion of the record with one field abstracted. *)
Ltac derive_setter :=
  lazymatch goal with
  | |- @Setter ?R ?E ?field =>
      let e := constr:(@eta R _) in
      let e := eval hnf in e in
      lazymatch eval pattern field in e with
      | ?with_field _ =>
          let s := eval cbv beta in (λ (g : E -> E), with_field (λ r : R, g (field r))) in exact s
      end
  end.
#[export] Hint Extern 0 (Setter _) => derive_setter : typeclass_instances.

Declare Scope record_set_scope.
Notation "r <| f ::= g |>" := (set_field f g r)
  (at level 12, left associativity, f at next level) : record_set_scope.
Notation "r <| f := v |>" := (set_field f (λ _, v) r)
  (at level 12, left associativity, f at next level) : record_set_scope.
Notation "r <| f ; g := v |>" := (set_field f (set_field g (λ _, v)) r)
  (at level 12, left associativity, f at next level, g at next level) : record_set_scope.
Notation "r <| f ; g ::= h |>" := (set_field f (set_field g h) r)
  (at level 12, left associativity, f at next level, g at next level) : record_set_scope.
