(* ===== verification/GuiApp.v ===== *)
(** * The window of the graphical wallet

    Models [crates/tardus-wallet-gui/src/{main,config}.rs]: the state of the
    window, the frame ([App_update]: the events received, then one input of
    the user on a widget), the guards of the buttons, what each sends to the
    runtime, and the preferences kept on disk.  A frame draws the widgets of
    the visible tab; what is only shown is not modelled, what a widget reads
    or writes is.  TOML and the directories of the platform are the class
    [Prefs]; the times shown are [elapsed]. *)
From S2P Require Import Prelude RecordSet Crypto Async Parallel Platform Core Wire MintBase Refresh Instruction Program Solana Ed25519.
From S2P Require Import ClientBase Invoice Client Transparency Validator Keys WalletStore Wallet WalletFront Devnet WalletGui.
Open Scope record_set_scope.

(** ** config.rs *)
Record Config : Type := {
  last_wallet_file : bytes;
  last_keysets_file : bytes;
  last_relay_url : bytes;
  last_word_count : Z;
}.
Definition Config_default : Config :=
  {| last_wallet_file := []; last_keysets_file := []; last_relay_url := []; last_word_count := 0 |}.

Class Prefs : Type := {
  ProjectDirs_config_file : option bytes;
  toml_from_str : bytes -> option Config;
  toml_to_string_pretty : Config -> option bytes;
}.

(** [Path::parent], of a path without empty or dot components. *)
Definition path_parent (p : bytes) : option bytes :=
  match rsplit_once slash p with
  | Some ([], name) => if decide (name = []) then None else Some [slash]
  | Some (dir, _) => Some dir
  | None => if decide (p = []) then None else Some []
  end.

Section config.
Context `{Prefs}.

Definition Config_load (d : disk) : Config * disk :=
  match ProjectDirs_config_file with
  | None => (Config_default, d)
  | Some path =>
      let '(s, d) := disk_read path d in
      match s with
      | Ok s => (if utf8_valid s then default Config_default (toml_from_str s) else Config_default, d)
      | _ => (Config_default, d)
      end
  end.

Definition Config_save (c : Config) (d : disk) : disk :=
  match ProjectDirs_config_file with
  | None => d
  | Some path =>
      let '(made, d) := match path_parent path with
                        | Some parent => disk_create_dir_all parent d
                        | None => (Ok tt, d)
                        end in
      match made, toml_to_string_pretty c with
      | Ok _, Some s => (disk_write path s d).2
      | _, _ => d
      end
  end.
End config.

(** ** main.rs: the state of the window *)
Module Mode.
Inductive t : Type := Locked | Unlocked.
End Mode.
Module Tab.
Inductive t : Type := Balance | Keysets | Pay | Receive | Refresh | Withdraw | Invoice.
End Tab.
#[export] Instance mode_eq_dec : EqDecision Mode.t.
Proof. solve_decision. Defined.
#[export] Instance tab_eq_dec : EqDecision Tab.t.
Proof. solve_decision. Defined.

Record PaymentReceipt : Type := {
  pr_recipient_prefix_hex : bytes; pr_denom : Z; pr_relay_url : bytes; pr_message_id : bytes;
  pr_encrypted : bool;
}.
Record ReceiveSummary : Type := { rv_received : Z; rv_deleted_from_relay : Z; rv_skipped : Z }.
Record WithdrawResult : Type := {
  wr_coin_label : bytes; wr_denom : Z; wr_recipient_b58 : bytes; wr_tx_signature : bytes;
  wr_explorer_url : bytes; wr_payer_strategy : bytes; wr_ephemeral_payer_b58 : option bytes;
}.
Record RefreshResult : Type := {
  rr_old_label : option bytes; rr_new_label : bytes; rr_denom : Z;
  rr_old_pubkey_prefix_hex : bytes; rr_new_pubkey_prefix_hex : bytes;
}.

(** The fields of [App], grouped as its comments group them. *)
Record LockedForm : Type := {
  mnemonic_input : bytes;
  passphrase : bytes;
  wallet_file : bytes;
  keysets_file_input : bytes;
  generated_mnemonic : option bytes;
  word_count : Z;
}.
Record Session : Type := {
  mode : Mode.t;
  master_seed : option bytes;
  keysets_file : bytes;
  recv_pubkey_hex : bytes;
  store_summary : list DenomBucket;
  coin_total : Z;
  keyset_summary : list KeysetSummary;
  active_coins : list ActiveCoinSummary;
  current_tab : Tab.t;
}.
Record Status : Type := { error : option bytes; busy : bool; status_line : option bytes }.
Record InvoiceForm : Type := { invoice_uri_input : bytes; invoice_parsed : option bytes }.
Record KeysetForm : Type := {
  keyset_add_name : bytes;
  keyset_add_joint_pk : bytes;
  keyset_add_denom : bytes;
  keyset_add_validator_buf : bytes;
  keyset_add_validators : list bytes;
  keyset_remove_target : option bytes;
}.
Record PayForm : Type := {
  pay_invoice_input : bytes;
  pay_selected_keyset : option bytes;
  pay_encrypt : bool;
  pay_last_receipt : option PaymentReceipt;
}.
Record ReceiveForm : Type := {
  receive_relay_url : bytes;
  receive_recipient_input : bytes;
  receive_keep_on_relay : bool;
  receive_label_prefix : bytes;
  receive_last_summary : option ReceiveSummary;
}.
Record RefreshForm : Type := {
  refresh_selected_keyset : option bytes;
  refresh_selected_coin : option bytes;
  refresh_last_result : option RefreshResult;
}.
Record WithdrawForm : Type := {
  withdraw_selected_coin : option bytes;
  withdraw_recipient_input : bytes;
  withdraw_rpc_input : bytes;
  withdraw_program_id_input : bytes;
  withdraw_keypair_path_input : bytes;
  withdraw_last_result : option WithdrawResult;
  withdraw_use_ephemeral_payer : bool;
  withdraw_use_onchain_pool : bool;
}.

(** [runtime] is what was sent to the runtime, oldest first; the disk holds the
    preferences, the clipboard the last text copied. *)
Record App : Type := {
  locked : LockedForm;
  session : Session;
  status : Status;
  invoice : InvoiceForm;
  keysets : KeysetForm;
  pay_form : PayForm;
  receive_form : ReceiveForm;
  refresh_form : RefreshForm;
  withdraw_form : WithdrawForm;
  runtime : list UiCommand;
  prefs : disk;
  clipboard : option bytes;
}.

#[export] Instance eta_LockedForm : Eta LockedForm := λ f,
  {| mnemonic_input := mnemonic_input f; passphrase := passphrase f; wallet_file := wallet_file f;
     keysets_file_input := keysets_file_input f; generated_mnemonic := generated_mnemonic f;
     word_count := word_count f |}.
#[export] Instance eta_Session : Eta Session := λ s,
  {| mode := mode s; master_seed := master_seed s; keysets_file := keysets_file s;
     recv_pubkey_hex := recv_pubkey_hex s; store_summary := store_summary s;
     coin_total := coin_total s; keyset_summary := keyset_summary s;
     active_coins := active_coins s; current_tab := current_tab s |}.
#[export] Instance eta_Status : Eta Status := λ s,
  {| error := error s; busy := busy s; status_line := status_line s |}.
#[export] Instance eta_InvoiceForm : Eta InvoiceForm := λ f,
  {| invoice_uri_input := invoice_uri_input f; invoice_parsed := invoice_parsed f |}.
#[export] Instance eta_KeysetForm : Eta KeysetForm := λ f,
  {| keyset_add_name := keyset_add_name f; keyset_add_joint_pk := keyset_add_joint_pk f;
     keyset_add_denom := keyset_add_denom f; keyset_add_validator_buf := keyset_add_validator_buf f;
     keyset_add_validators := keyset_add_validators f; keyset_remove_target := keyset_remove_target f |}.
#[export] Instance eta_PayForm : Eta PayForm := λ f,
  {| pay_invoice_input := pay_invoice_input f; pay_selected_keyset := pay_selected_keyset f;
     pay_encrypt := pay_encrypt f; pay_last_receipt := pay_last_receipt f |}.
#[export] Instance eta_ReceiveForm : Eta ReceiveForm := λ f,
  {| receive_relay_url := receive_relay_url f; receive_recipient_input := receive_recipient_input f;
     receive_keep_on_relay := receive_keep_on_relay f; receive_label_prefix := receive_label_prefix f;
     receive_last_summary := receive_last_summary f |}.
#[export] Instance eta_RefreshForm : Eta RefreshForm := λ f,
  {| refresh_selected_keyset := refresh_selected_keyset f;
     refresh_selected_coin := refresh_selected_coin f; refresh_last_result := refresh_last_result f |}.
#[export] Instance eta_WithdrawForm : Eta WithdrawForm := λ f,
  {| withdraw_selected_coin := withdraw_selected_coin f;
     withdraw_recipient_input := withdraw_recipient_input f; withdraw_rpc_input := withdraw_rpc_input f;
     withdraw_program_id_input := withdraw_program_id_input f;
     withdraw_keypair_path_input := withdraw_keypair_path_input f;
     withdraw_last_result := withdraw_last_result f;
     withdraw_use_ephemeral_payer := withdraw_use_ephemeral_payer f;
     withdraw_use_onchain_pool := withdraw_use_onchain_pool f |}.
#[export] Instance eta_App : Eta App := λ a,
  {| locked := locked a; session := session a; status := status a; invoice := invoice a;
     keysets := keysets a; pay_form := pay_form a; receive_form := receive_form a;
     refresh_form := refresh_form a; withdraw_form := withdraw_form a; runtime := runtime a;
     prefs := prefs a; clipboard := clipboard a |}.

Definition quoted (s : bytes) : bytes := byte_of_Z 34 :: s ++ [byte_of_Z 34].
Definition find_keyset (name : bytes) (l : list KeysetSummary) : option KeysetSummary :=
  snd <$> list_find (λ k, ksm_name k = name) l.
Definition find_coin (label : bytes) (l : list ActiveCoinSummary) : option ActiveCoinSummary :=
  snd <$> list_find (λ c, as_label c = label) l.

(** What the user does to a widget: the text of a field after an edit, the
    choice in a list by its position, a click, or nothing in this frame.
    [ClickGenerate] carries the operating system's generator. *)
Inductive input `{Curve} : Type :=
| NoInput
| ClickLock
| EditMnemonic (s : bytes) | EditPassphrase (s : bytes) | EditWalletFile (s : bytes)
| ClickUnlock | PickWords (n : Z) | ClickGenerate (os : rng) | ClickCopyMnemonic | ClickClearMnemonic
| PickTab (t : Tab.t)
| ClickCopyPubkey
| ClickRemove (i : nat) | ClickCancelRemoval
| EditKeysetName (s : bytes) | EditJointPk (s : bytes) | EditDenom (s : bytes)
| EditValidator (s : bytes) | ClickAddValidator | ClickDropValidator (i : nat) | ClickAddKeyset
| PickPayKeyset (i : nat) | EditPayInvoice (s : bytes) | SetEncrypt (b : bool) | ClickPay
| ClickCopyMessageId
| EditRelayUrl (s : bytes) | EditRecipient (s : bytes) | EditLabelPrefix (s : bytes)
| SetKeepOnRelay (b : bool) | ClickReceive
| PickRefreshKeyset (i : nat) | PickRefreshCoin (i : nat) | ClickRefresh
| PickWithdrawCoin (i : nat) | EditWithdrawRecipient (s : bytes) | EditRpc (s : bytes)
| EditProgramId (s : bytes) | EditKeypairPath (s : bytes) | SetEphemeralPayer (b : bool)
| SetOnchainPool (b : bool) | ClickSubmitWithdraw | ClickCopySignature
| EditInvoiceUri (s : bytes) | ClickParse.

Section window.
Context `{C : Curve} `{B : Bip39} `{HX : Hex} `{PF : Prefs}
  (elapsed : UiEvent -> bytes) (wallet_error_text : WalletError.t -> bytes)
  (client_error_text : ClientError.t -> bytes) (json_strings : list bytes -> bytes)
  (debug_str : bytes -> bytes).
Implicit Types (a : App) (i : input).

Definition say (s : bytes) a : App := a <| status; status_line := Some s |>.
Definition idle a : App := a <| status; busy := false |>.
Definition send (cmd : UiCommand) a : App := a <| runtime ::= λ sent, sent ++ [cmd] |>.
Definition copy (s : bytes) a : App := a <| clipboard := Some s |>.

(** [App::new]; [home] is the variable of the environment. *)
Definition App_new (config : Config) (home : option bytes) (d : disk) : App := {|
  locked := {| mnemonic_input := []; passphrase := []; wallet_file := last_wallet_file config;
               keysets_file_input := last_keysets_file config; generated_mnemonic := None;
               word_count := if decide (last_word_count config = 12 \/ last_word_count config = 24)
                             then last_word_count config else 24 |};
  session := {| mode := Mode.Locked; master_seed := None; keysets_file := []; recv_pubkey_hex := [];
                store_summary := []; coin_total := 0; keyset_summary := []; active_coins := [];
                current_tab := Tab.Balance |};
  status := {| error := None; busy := false; status_line := None |};
  invoice := {| invoice_uri_input := []; invoice_parsed := None |};
  keysets := {| keyset_add_name := []; keyset_add_joint_pk := []; keyset_add_denom := [];
                keyset_add_validator_buf := []; keyset_add_validators := []; keyset_remove_target := None |};
  pay_form := {| pay_invoice_input := []; pay_selected_keyset := None; pay_encrypt := true;
                 pay_last_receipt := None |};
  receive_form := {| receive_relay_url := last_relay_url config; receive_recipient_input := [];
                     receive_keep_on_relay := false; receive_label_prefix := ascii "from-relay";
                     receive_last_summary := None |};
  refresh_form := {| refresh_selected_keyset := None; refresh_selected_coin := None;
                     refresh_last_result := None |};
  withdraw_form := {| withdraw_selected_coin := None; withdraw_recipient_input := [];
                      withdraw_rpc_input := ascii "https://api.devnet.solana.com";
                      withdraw_program_id_input := ascii "AmY1ysgQyCC6CmorXkrNkogBSHmomy4kbsPziAYUx47u";
                      withdraw_keypair_path_input := default (ascii "/") home ++ ascii "/.config/solana/id.json";
                      withdraw_last_result := None; withdraw_use_ephemeral_payer := false;
                      withdraw_use_onchain_pool := false |};
  runtime := []; prefs := d; clipboard := None |}.

Definition persist_prefs a : App :=
  a <| prefs ::= Config_save
         {| last_wallet_file := wallet_file (locked a);
            last_keysets_file := keysets_file_input (locked a);
            last_relay_url := receive_relay_url (receive_form a);
            last_word_count := word_count (locked a) |} |>.

Definition resolved_keysets_file a : bytes :=
  if decide (keysets_file_input (locked a) <> []) then keysets_file_input (locked a)
  else if decide (wallet_file (locked a) = []) then ascii "./keysets.bin"
  else match path_parent (wallet_file (locked a)) with
       | None => ascii "./keysets.bin"
       | Some d => path_join d (ascii "keysets.bin")
       end.

Definition unlock_async a : App :=
  let a := say (ascii "unlocking…") (a <| status; error := None |>) in
  let a := a <| status; busy := true |> in
  let wallet := if decide (wallet_file (locked a) = []) then None else Some (wallet_file (locked a)) in
  let a := a <| session; keysets_file := resolved_keysets_file a |> in
  persist_prefs
    (send (OpenWallet (mnemonic_input (locked a)) (passphrase (locked a)) wallet
             (Some (keysets_file (session a)))) a).

Definition refresh_keyset_list a : App :=
  match master_seed (session a) with
  | Some seed => send (CmdKeysetList seed (keysets_file (session a))) a
  | None => a
  end.

(** One turn of the loop of [drain_events]. *)
Definition on_event (a : App) (ev : UiEvent) : App :=
  match ev with
  | Pong nonce => say (ascii "pong[" ++ nonce ++ ascii "] in " ++ elapsed ev ++ ascii " µs") a
  | WalletOpened recv_pubkey seed coin_summary total keysets active =>
      refresh_keyset_list (say (ascii "wallet open ✓") (idle
        (a <| session := {| mode := Mode.Unlocked; master_seed := Some seed;
                            keysets_file := keysets_file (session a); recv_pubkey_hex := recv_pubkey;
                            store_summary := coin_summary; coin_total := total;
                            keyset_summary := keysets; active_coins := active;
                            current_tab := current_tab (session a) |} |>)))
  | EvError op message =>
      say (op ++ ascii " failed")
        (idle (a <| status; error := Some (op ++ ascii ": " ++ message) |>))
  | EvKeysetList list => a <| session; keyset_summary := list |>
  | KeysetAdded name =>
      idle (say (ascii "keyset " ++ quoted name ++ ascii " added")
        (a <| keysets ::= λ f,
            f <| keyset_add_name := [] |> <| keyset_add_joint_pk := [] |> <| keyset_add_denom := [] |>
              <| keyset_add_validators := [] |> <| keyset_add_validator_buf := [] |> |>))
  | KeysetRemoved name =>
      idle (say (ascii "keyset " ++ quoted name ++ ascii " removed")
        (a <| keysets; keyset_remove_target := None |>))
  | WithdrawOnDevnetResult label denom recipient sig url strategy ephemeral =>
      idle (say (ascii "withdraw ✓  " ++ label ++ ascii " → " ++ recipient ++ ascii " (" ++ elapsed ev ++
                 ascii " ms, " ++ strategy ++ ascii ")")
        (a <| withdraw_form; withdraw_last_result :=
             Some {| wr_coin_label := label; wr_denom := denom; wr_recipient_b58 := recipient;
                     wr_tx_signature := sig; wr_explorer_url := url; wr_payer_strategy := strategy;
                     wr_ephemeral_payer_b58 := ephemeral |} |>))
  | CoinRefreshed old_label new_label denom old_prefix new_prefix coin_summary total active =>
      say (ascii "refresh ✓  (" ++ old_prefix ++ ascii " → " ++ new_prefix ++ ascii ") in " ++ elapsed ev ++
           ascii " ms")
        (idle (a <| session ::= λ s,
                   s <| store_summary := coin_summary |> <| coin_total := total |> <| active_coins := active |> |>
                 <| refresh_form ::= λ f,
                   f <| refresh_selected_coin := None |>
                     <| refresh_last_result :=
                          Some {| rr_old_label := old_label; rr_new_label := new_label; rr_denom := denom;
                                  rr_old_pubkey_prefix_hex := old_prefix;
                                  rr_new_pubkey_prefix_hex := new_prefix |} |> |>))
  | ReceiveResult received deleted skipped =>
      persist_prefs (idle
        (say (ascii "receive: " ++ print_u64 received ++ ascii " new, " ++ print_u64 deleted ++
              ascii " deleted, " ++ print_u64 skipped ++ ascii " skipped (" ++ elapsed ev ++ ascii " ms)")
          (a <| receive_form; receive_last_summary :=
               Some {| rv_received := received; rv_deleted_from_relay := deleted; rv_skipped := skipped |} |>)))
  | PaymentSent recipient denom relay_url message_id encrypted =>
      idle (say (ascii "payment sent in " ++ elapsed ev ++ ascii " ms ✓")
        (a <| pay_form ::= λ f,
             f <| pay_last_receipt :=
                    Some {| pr_recipient_prefix_hex := recipient; pr_denom := denom;
                            pr_relay_url := relay_url; pr_message_id := message_id;
                            pr_encrypted := encrypted |} |>
               <| pay_invoice_input := [] |> |>))
  end.
Definition drain_events (events : list UiEvent) a : App := foldl on_event a events.

(** [App::lock] *)
Definition lock a : App :=
  a <| locked ::= λ f, f <| mnemonic_input := [] |> <| passphrase := [] |> <| generated_mnemonic := None |> |>
    <| session := {| mode := Mode.Locked; master_seed := None; keysets_file := []; recv_pubkey_hex := [];
                     store_summary := []; coin_total := 0; keyset_summary := []; active_coins := [];
                     current_tab := Tab.Balance |} |>
    <| invoice; invoice_parsed := None |>
    <| keysets := {| keyset_add_name := []; keyset_add_joint_pk := []; keyset_add_denom := [];
                     keyset_add_validator_buf := []; keyset_add_validators := [];
                     keyset_remove_target := None |} |>
    <| pay_form ::= λ f, f <| pay_invoice_input := [] |> <| pay_selected_keyset := None |>
                           <| pay_last_receipt := None |> |>
    <| receive_form ::= λ f, f <| receive_relay_url := [] |> <| receive_recipient_input := [] |>
                               <| receive_last_summary := None |> |>
    <| refresh_form := {| refresh_selected_keyset := None; refresh_selected_coin := None;
                          refresh_last_result := None |} |>
    <| status ::= λ s, s <| error := None |> <| status_line := Some (ascii "locked") |> |>.

(** *** The locked screen *)
Definition ui_locked i a : App :=
  let a := match i with
           | EditMnemonic s => a <| locked; mnemonic_input := s |>
           | EditPassphrase s => a <| locked; passphrase := s |>
           | EditWalletFile s => a <| locked; wallet_file := s |>
           | ClickUnlock => if busy (status a) then a else unlock_async a
           | PickWords n => if decide (n = 12 \/ n = 24) then a <| locked; word_count := n |> else a
           | _ => a
           end in
  let a := if word_count (locked a) =? 0 then a <| locked; word_count := 24 |> else a in
  match i with
  | ClickGenerate os =>
      match generate_mnemonic (if word_count (locked a) =? 12 then WordCount.Twelve else WordCount.TwentyFour) os with
      | Ok (m, _) => a <| locked; generated_mnemonic := Some (mnemonic_to_string m) |>
      | Err e => a <| status; error := Some (ascii "generate: " ++ wallet_error_text e) |>
      | Panic => a
      end
  | ClickCopyMnemonic =>
      match generated_mnemonic (locked a) with
      | Some phrase => say (ascii "mnemonic copied to clipboard (paste then clear)") (copy phrase a)
      | None => a
      end
  | ClickClearMnemonic =>
      match generated_mnemonic (locked a) with
      | Some _ => say (ascii "mnemonic cleared from screen") (a <| locked; generated_mnemonic := None |>)
      | None => a
      end
  | _ => a
  end.

(** *** The tabs *)
Definition tab_balance i a : App :=
  match i with
  | ClickCopyPubkey => say (ascii "recv pubkey copied") (copy (recv_pubkey_hex (session a)) a)
  | _ => a
  end.

(** The first click on a row's button asks, the second commits. *)
Definition click_remove (k : KeysetSummary) a : App :=
  if busy (status a) then a
  else if decide (keyset_remove_target (keysets a) = Some (ksm_name k)) then
    match master_seed (session a) with
    | Some seed =>
        send (CmdKeysetRemove seed (keysets_file (session a)) (ksm_name k))
          (say (ascii "removing " ++ ksm_name k ++ ascii "…") (a <| status; busy := true |>))
    | None => a
    end
  else a <| keysets; keyset_remove_target := Some (ksm_name k) |>.

Definition can_add a : bool :=
  let f := keysets a in
  negb (busy (status a)) && negb (bool_decide (trim (keyset_add_name f) = [])) &&
  (length (keyset_add_joint_pk f) =? 64)%nat &&
  bool_decide (is_Some (hex_decode (keyset_add_joint_pk f))) &&
  bool_decide (is_Some (parse_u64 (keyset_add_denom f))) &&
  negb (bool_decide (keyset_add_validators f = [])).

Definition add_keyset_clicked a : App :=
  match master_seed (session a), parse_u64 (keyset_add_denom (keysets a)) with
  | Some seed, Some denom =>
      send (CmdKeysetAdd seed (keysets_file (session a)) (trim (keyset_add_name (keysets a)))
              {| ki_joint_pk_hex := keyset_add_joint_pk (keysets a); ki_denom := denom;
                 ki_validators := keyset_add_validators (keysets a); ki_ca_cert_path := None;
                 ki_client_cert_path := None |})
        (say (ascii "adding keyset " ++ quoted (keyset_add_name (keysets a)) ++ ascii "…")
           (a <| status; busy := true |>))
  | _, _ => a
  end.

Definition tab_keysets i a : App :=
  match i with
  | ClickRemove row =>
      match keyset_summary (session a) !! row with Some k => click_remove k a | None => a end
  | ClickCancelRemoval =>
      match keyset_summary (session a) with [] => a | _ => a <| keysets; keyset_remove_target := None |> end
  | EditKeysetName s => a <| keysets; keyset_add_name := s |>
  | EditJointPk s => a <| keysets; keyset_add_joint_pk := s |>
  | EditDenom s => a <| keysets; keyset_add_denom := s |>
  | EditValidator s => a <| keysets; keyset_add_validator_buf := s |>
  | ClickAddValidator =>
      let trimmed := trim (keyset_add_validator_buf (keysets a)) in
      if decide (trimmed = []) then a
      else a <| keysets ::= λ f, f <| keyset_add_validators ::= λ l, l ++ [trimmed] |>
                                   <| keyset_add_validator_buf := [] |> |>
  | ClickDropValidator row => a <| keysets; keyset_add_validators ::= delete row |>
  | ClickAddKeyset => if can_add a then add_keyset_clicked a else a
  | _ => a
  end.

(** A choice in a list; the first entry unless the user has chosen. *)
Definition picked {X} (f : X -> bytes) (l : list X) (n : nat) (old : option bytes) : option bytes :=
  match l !! n with Some x => Some (f x) | None => old end.
Definition preselect {X} (f : X -> bytes) (l : list X) (old : option bytes) : option bytes :=
  match old with Some _ => old | None => f <$> head l end.

Definition pay_selection a : option KeysetSummary :=
  name ← pay_selected_keyset (pay_form a); find_keyset name (keyset_summary (session a)).
Definition can_pay a : bool :=
  let parsed := Invoice_parse (trim (pay_invoice_input (pay_form a))) in
  negb (busy (status a)) &&
  match parsed, pay_selection a with
  | Ok inv, Some k => inv_denom inv =? ksm_denom k
  | _, _ => false
  end &&
  bool_decide (is_Some (pay_selected_keyset (pay_form a))) &&
  bool_decide (is_Some (master_seed (session a))).

Definition tab_pay i a : App :=
  match keyset_summary (session a) with
  | [] => a
  | l =>
      let a := a <| pay_form; pay_selected_keyset ::= preselect ksm_name l |> in
      match i with
      | PickPayKeyset n => a <| pay_form; pay_selected_keyset ::= picked ksm_name l n |>
      | EditPayInvoice s => a <| pay_form; pay_invoice_input := s |>
      | SetEncrypt b => a <| pay_form; pay_encrypt := b |>
      | ClickPay =>
          if can_pay a then
            match master_seed (session a), pay_selected_keyset (pay_form a) with
            | Some seed, Some name =>
                send (CmdPay seed (keysets_file (session a)) (trim (pay_invoice_input (pay_form a))) name
                        (pay_encrypt (pay_form a)))
                  (a <| status := {| error := None; busy := true; status_line := Some (ascii "paying…") |} |>)
            | _, _ => a
            end
          else a
      | ClickCopyMessageId =>
          match pay_last_receipt (pay_form a) with
          | Some r => say (ascii "message id copied") (copy (pr_message_id r) a)
          | None => a
          end
      | _ => a
      end
  end.

Definition can_receive a : bool :=
  let recipient := trim (receive_recipient_input (receive_form a)) in
  negb (busy (status a)) &&
  ((length recipient =? 64)%nat && bool_decide (is_Some (hex_decode recipient))) &&
  negb (bool_decide (trim (receive_relay_url (receive_form a)) = [])) &&
  negb (bool_decide (wallet_file (locked a) = [])) &&
  bool_decide (is_Some (master_seed (session a))).

Definition tab_receive i a : App :=
  let a := if decide (receive_recipient_input (receive_form a) = [] /\ recv_pubkey_hex (session a) <> [])
           then a <| receive_form; receive_recipient_input := recv_pubkey_hex (session a) |> else a in
  match i with
  | EditRelayUrl s => a <| receive_form; receive_relay_url := s |>
  | EditRecipient s => a <| receive_form; receive_recipient_input := s |>
  | EditLabelPrefix s => a <| receive_form; receive_label_prefix := s |>
  | SetKeepOnRelay b => a <| receive_form; receive_keep_on_relay := b |>
  | ClickReceive =>
      if can_receive a then
        match master_seed (session a) with
        | Some seed =>
            send (CmdReceive seed (wallet_file (locked a)) (trim (receive_recipient_input (receive_form a)))
                    (trim (receive_relay_url (receive_form a))) (receive_keep_on_relay (receive_form a))
                    (trim (receive_label_prefix (receive_form a))))
              (a <| status := {| error := None; busy := true; status_line := Some (ascii "receiving…") |} |>)
        | None => a
        end
      else a
  | _ => a
  end.

Definition denom_match a : bool :=
  default false (
    kn ← refresh_selected_keyset (refresh_form a);
    cl ← refresh_selected_coin (refresh_form a);
    k ← find_keyset kn (keyset_summary (session a));
    c ← find_coin cl (active_coins (session a));
    Some (ksm_denom k =? as_denom c)).
Definition can_refresh a : bool :=
  negb (busy (status a)) && denom_match a && bool_decide (is_Some (master_seed (session a))) &&
  negb (bool_decide (wallet_file (locked a) = [])).

Definition tab_refresh i a : App :=
  match active_coins (session a), keyset_summary (session a) with
  | [], _ | _, [] => a
  | coins, l =>
      let a := a <| refresh_form ::= λ f,
                 f <| refresh_selected_keyset ::= preselect ksm_name l |>
                   <| refresh_selected_coin ::= preselect as_label coins |> |> in
      match i with
      | PickRefreshKeyset n => a <| refresh_form; refresh_selected_keyset ::= picked ksm_name l n |>
      | PickRefreshCoin n => a <| refresh_form; refresh_selected_coin ::= picked as_label coins n |>
      | ClickRefresh =>
          if can_refresh a then
            match master_seed (session a), refresh_selected_keyset (refresh_form a),
                  refresh_selected_coin (refresh_form a) with
            | Some seed, Some keyset, Some label =>
                send (CmdRefresh seed (wallet_file (locked a)) (keysets_file (session a)) keyset label)
                  (a <| status := {| error := None; busy := true;
                                     status_line := Some (ascii "refreshing " ++ label ++ ascii "…") |} |>)
            | _, _, _ => a
            end
          else a
      | _ => a
      end
  end.

Definition withdraw_selection a : option ActiveCoinSummary :=
  label ← withdraw_selected_coin (withdraw_form a); find_coin label (active_coins (session a)).
Definition can_submit a : bool :=
  let recipient := trim (withdraw_recipient_input (withdraw_form a)) in
  negb (busy (status a)) &&
  (bool_decide (is_Some (withdraw_selection a)) && negb (bool_decide (recipient = [])) &&
   (32 <=? length recipient)%nat && (length recipient <=? 44)%nat) &&
  bool_decide (is_Some (master_seed (session a))) &&
  negb (bool_decide (wallet_file (locked a) = [])).

Definition submit_withdraw a : App :=
  let f := withdraw_form a in
  match master_seed (session a), withdraw_selection a with
  | Some seed, Some coin =>
      send (WithdrawOnDevnet seed (wallet_file (locked a)) (as_label coin) (trim (withdraw_recipient_input f))
              (trim (withdraw_rpc_input f)) (trim (withdraw_program_id_input f))
              (trim (withdraw_keypair_path_input f)) (withdraw_use_ephemeral_payer f)
              (withdraw_use_onchain_pool f))
        (a <| status := {| error := None; busy := true;
                           status_line := Some (ascii "withdrawing " ++ as_label coin ++ ascii "…") |} |>)
  | _, _ => a
  end.

(** The fields of the tab, with the toggle that depends on another. *)
Definition withdraw_inputs (coins : list ActiveCoinSummary) i a : App :=
  let a := a <| withdraw_form; withdraw_selected_coin ::= preselect as_label coins |> in
  let a := match i with
           | PickWithdrawCoin n => a <| withdraw_form; withdraw_selected_coin ::= picked as_label coins n |>
           | EditWithdrawRecipient s => a <| withdraw_form; withdraw_recipient_input := s |>
           | EditRpc s => a <| withdraw_form; withdraw_rpc_input := s |>
           | EditProgramId s => a <| withdraw_form; withdraw_program_id_input := s |>
           | EditKeypairPath s => a <| withdraw_form; withdraw_keypair_path_input := s |>
           | SetEphemeralPayer b => a <| withdraw_form; withdraw_use_ephemeral_payer := b |>
           | SetOnchainPool b =>
               if withdraw_use_ephemeral_payer (withdraw_form a)
               then a <| withdraw_form; withdraw_use_onchain_pool := b |> else a
           | _ => a
           end in
  if withdraw_use_ephemeral_payer (withdraw_form a) then a
  else a <| withdraw_form; withdraw_use_onchain_pool := false |>.

Definition tab_withdraw i a : App :=
  match active_coins (session a) with
  | [] => a
  | coins =>
      let a := withdraw_inputs coins i a in
      match i with
      | ClickSubmitWithdraw => if can_submit a then submit_withdraw a else a
      | ClickCopySignature =>
          match withdraw_last_result (withdraw_form a) with
          | Some r => say (ascii "tx signature copied") (copy (wr_tx_signature r) a)
          | None => a
          end
      | _ => a
      end
  end.

(** The text shown for an invoice. *)
Definition shown_invoice (inv : Invoice) : bytes :=
  let field name value := ascii "  " ++ quoted name ++ ascii ": " ++ value in
  let newline := [byte_of_Z 10] in
  let sep := ascii "," ++ newline in
  ascii "{" ++ newline ++
  field (ascii "recipient_pubkey") (quoted (hex_encode (inv_recipient_pubkey inv))) ++ sep ++
  field (ascii "denom") (print_u64 (inv_denom inv)) ++ sep ++
  field (ascii "relays") (json_strings (inv_relays inv)) ++ sep ++
  field (ascii "memo") (match inv_memo inv with
                | Some m => if utf8_valid m then debug_str m else ascii "null"
                | None => ascii "null"
                end) ++ newline ++ ascii "}".

Definition tab_invoice i a : App :=
  match i with
  | EditInvoiceUri s => a <| invoice; invoice_uri_input := s |>
  | ClickParse =>
      a <| invoice; invoice_parsed :=
        Some (match Invoice_parse (trim (invoice_uri_input (invoice a))) with
              | Ok inv => shown_invoice inv
              | Err e => ascii "parse error: " ++ client_error_text e
              | Panic => []
              end) |>
  | _ => a
  end.

Definition ui_unlocked i a : App :=
  let a := match i with PickTab t => a <| session; current_tab := t |> | _ => a end in
  match current_tab (session a) with
  | Tab.Balance => tab_balance i a
  | Tab.Keysets => tab_keysets i a
  | Tab.Pay => tab_pay i a
  | Tab.Receive => tab_receive i a
  | Tab.Refresh => tab_refresh i a
  | Tab.Withdraw => tab_withdraw i a
  | Tab.Invoice => tab_invoice i a
  end.

(** [update]: one frame. *)
Definition App_update (events : list UiEvent) i a : App :=
  let a := drain_events events a in
  let a := match i with
           | ClickLock => if decide (mode (session a) = Mode.Unlocked) then lock a else a
           | _ => a
           end in
  match mode (session a) with
  | Mode.Locked => ui_locked i a
  | Mode.Unlocked => ui_unlocked i a
  end.
End window.
