(* ===== verification/GuiAppProps.v ===== *)
(** * The window and its runtime

    What a command of the window is answered with, whatever the other commands
    in flight do; what the window sends, and when; and how far the flag [busy]
    keeps one command at a time in flight. *)
From S2P Require Import Prelude RecordSet Crypto Async Parallel Platform Core Wire MintBase Refresh Instruction Program Solana Ed25519.
From S2P Require Import ToyCurve ToyPlatform ClientBase Invoice Client Transparency Validator Keys WalletStore Wallet WalletFront Devnet WalletGui WalletGuiProps GuiApp.

(** ** The answers of the runtime *)
Inductive answer : UiCommand -> list UiEvent -> Prop :=
| answer_ping n : answer (Ping n) [Pong n]
| answer_shutdown : answer Shutdown []
| answer_opened phrase pass file ks pk seed buckets n coins :
    answer (OpenWallet phrase pass file ks) [WalletOpened pk seed buckets n [] coins]
| answer_listed seed file l : answer (CmdKeysetList seed file) [EvKeysetList l]
| answer_added seed file name info l :
    answer (CmdKeysetAdd seed file name info) [KeysetAdded name; EvKeysetList l]
| answer_added_unlisted seed file name info op e :
    answer (CmdKeysetAdd seed file name info) [KeysetAdded name; EvError op e]
| answer_removed seed file name l :
    answer (CmdKeysetRemove seed file name) [KeysetRemoved name; EvKeysetList l]
| answer_removed_unlisted seed file name : answer (CmdKeysetRemove seed file name) [KeysetRemoved name]
| answer_withdrawn seed file label rec url pid key e c denom sig xurl strategy payer :
    answer (WithdrawOnDevnet seed file label rec url pid key e c)
      [WithdrawOnDevnetResult label denom rec sig xurl strategy payer]
| answer_refreshed seed file ks name label old new denom p1 p2 buckets n coins :
    answer (CmdRefresh seed file ks name label) [CoinRefreshed old new denom p1 p2 buckets n coins]
| answer_received seed file rec url keep prefix n d s :
    answer (CmdReceive seed file rec url keep prefix) [ReceiveResult n d s]
| answer_paid seed ks uri name enc rec denom url id :
    answer (CmdPay seed ks uri name enc) [PaymentSent rec denom url id enc]
| answer_error cmd op e : (forall n, cmd <> Ping n) -> cmd <> Shutdown -> answer cmd [EvError op e].
Create HintDb answers.
#[export] Hint Constructors answer : answers.
#[export] Hint Extern 1 (_ <> _) => discriminate : answers.

(** ** What a task sends along every execution *)
Section emits.
Context `{C : Curve} `{T : Transport} {Cl : Cluster T} `{SO : Solana} `{HX : Hex} `{A : Aead} {X : X25519 C} `{PJ : PayloadJson}
  `{B : Bip39}.
Implicit Types (w : world UiEvent).

(** [L a l] holds of every result [a] and of the events [l] sent on the way,
    whatever other tasks do to the world between two sections. *)
Fixpoint emits {R} (L : R -> list UiEvent -> Prop) (p : prog (world UiEvent) R) : Prop :=
  match p with
  | Done a => L a []
  | Atomic f k => forall w, exists evs, w_out (f w).2 = w_out w ++ evs /\
      emits (λ a l, L a (evs ++ l)) (k (f w).1)
  end.

Lemma emits_mono {R} (L L' : R -> list UiEvent -> Prop) p :
  (forall a l, L a l -> L' a l) -> emits L p -> emits L' p.
Proof.
  revert L L'; induction p as [a|Y f k IH]; intros L L' HL; cbn; [by apply HL|].
  intros H w. destruct (H w) as (evs & Ho & Hk). exists evs. split; [done|].
  eapply IH; [|exact Hk]. intros a l. apply HL.
Qed.

(** A program that sends nothing and returns only values in [Q]. *)
Lemma emits_quiet {R} (L : R -> list UiEvent -> Prop) (Q : R -> Prop) p :
  steps (sends (λ _, False)) p -> returns Q p -> (forall a, Q a -> L a []) -> emits L p.
Proof.
  intros Hp Hq HL. induction p as [a|Y f k IH]; cbn in *; [by apply HL|].
  destruct Hp as [Hf Hk]. intros w. destruct (Hf w) as ([|ev evs] & Ho & He);
    [|by apply Forall_cons in He as [? _]].
  exists []. split; [done|]. by apply IH.
Qed.

Lemma emits_prints (L : res FrontError.t unit -> list UiEvent -> Prop) ev :
  L (Ok tt) [ev] -> emits L (prints ev).
Proof. intros H w. exists [ev]. by split. Qed.

Lemma emits_bind {E R R'} (L : res E R' -> list UiEvent -> Prop) (m : io (world UiEvent) E R) (f : R -> io (world UiEvent) E R') :
  emits (λ r l, match r with
                | Ok a => emits (λ b l', L b (l ++ l')) (f a)
                | Err e => L (Err e) l
                | Panic => L Panic l
                end) m -> emits L (m ≫= f).
Proof.
  unfold mbind, io_bind. revert L.
  induction m as [[a|e|]|Y g k IH]; intros L; cbn; [|done..|].
  - apply emits_mono. by intros b l.
  - intros H w. destruct (H w) as (evs & Ho & Hk). exists evs. split; [done|]. apply IH.
    eapply emits_mono; [|exact Hk]. intros [b|e|] l; cbn; [|done..].
    apply emits_mono. intros b' l'. by rewrite app_assoc.
Qed.

(** ** Tasks under a schedule

    Each event is tagged with the task that sent it. *)
Definition sent_by (i : nat) (tagged : list (nat * UiEvent)) : list UiEvent :=
  (filter (λ t, t.1 = i) tagged).*2.
Lemma sent_by_app i l1 l2 : sent_by i (l1 ++ l2) = sent_by i l1 ++ sent_by i l2.
Proof. unfold sent_by. by rewrite filter_app, fmap_app. Qed.
Lemma sent_by_same i (evs : list UiEvent) : sent_by i (pair i <$> evs) = evs.
Proof.
  unfold sent_by. induction evs as [|ev evs IH]; [done|].
  rewrite fmap_cons, filter_cons_True by done. rewrite fmap_cons. by f_equal.
Qed.
Lemma sent_by_other i j (evs : list UiEvent) : i <> j -> sent_by i (pair j <$> evs) = [].
Proof.
  intros Hij. unfold sent_by. induction evs as [|ev evs IH]; [done|].
  by rewrite fmap_cons, filter_cons_False by (cbn; congruence).
Qed.

Lemma emits_exec {R} (Ls : list (R -> list UiEvent -> Prop)) schedule w ps :
  Forall2 emits Ls ps ->
  exists tagged, w_out (exec schedule (w, ps)).1 = w_out w ++ tagged.*2 /\
    forall i L p, Ls !! i = Some L -> (exec schedule (w, ps)).2 !! i = Some p ->
      emits (λ a l, L a (sent_by i tagged ++ l)) p.
Proof.
  revert Ls w ps; induction schedule as [|j schedule IH]; intros Ls w ps Hps.
  { exists []. rewrite app_nil_r. split; [done|]. intros i L p HL Hp. by eapply Forall2_lookup_lr in Hps. }
  cbn [exec foldl]. fold (exec schedule (step_task (w, ps) j)).
  destruct (ps !! j) as [[a|Y f k]|] eqn:Hj.
  - rewrite (step_task_done _ _ a) by done. by apply IH.
  - rewrite (step_task_atomic _ _ _ _ f k) by done.
    destruct (Forall2_lookup_r _ _ _ _ _ Hps Hj) as (L & HL & Hem).
    destruct (Hem w) as (evs & Ho & Hk).
    destruct (IH (<[j := λ a l, L a (evs ++ l)]> Ls) (f w).2 (<[j := k (f w).1]> ps)) as (tagged & Ht & Hall).
    { by apply Forall2_insert. }
    exists ((pair j <$> evs) ++ tagged). split.
    { rewrite Ht, Ho, fmap_app, <- list_fmap_compose, <- app_assoc. do 2 f_equal.
      cbn. by rewrite list_fmap_id. }
    intros i L' p HL' Hp. rewrite sent_by_app. destruct (decide (i = j)) as [->|Hij].
    + rewrite HL in HL'. injection HL' as <-. rewrite sent_by_same.
      eapply emits_mono; [|apply (Hall j (λ a l, L a (evs ++ l)) p); [|exact Hp]].
      * intros a l. cbn. by rewrite <- app_assoc.
      * rewrite list_lookup_insert_eq; [done|]. by eapply lookup_lt_Some.
    + rewrite sent_by_other by done. apply (Hall i L' p); [|done].
      by rewrite list_lookup_insert_ne.
  - replace (step_task (w, ps) j) with (w, ps) by (cbn; by rewrite Hj). by apply IH.
Qed.

(** Every sequence of events sent can be completed. *)
Lemma emits_complete {R} (L : R -> list UiEvent -> Prop) p w : emits L p -> exists a l, L a l.
Proof.
  revert L w; induction p as [a|Y f k IH]; intros L w; cbn; [by exists a, []|].
  intros H. destruct (H w) as (evs & _ & Hk). destruct (IH _ _ (f w).2 Hk) as (a & l & Hl). eauto.
Qed.
End emits.

(** ** Every command is answered *)
Section answers.
Context `{C : Curve} `{T : Transport} {Cl : Cluster T} `{SO : Solana} `{HX : Hex} `{A : Aead} {X : X25519 C} `{PJ : PayloadJson}
  `{B : Bip39} (error_text : FrontError.t -> bytes) (debug_str : bytes -> bytes).

(** A task that ends has sent an answer, one that panics a part of one. *)
Definition answering (cmd : UiCommand) (r : res FrontError.t unit) (evs : list UiEvent) : Prop :=
  match r with
  | Ok _ => answer cmd evs
  | Err _ => False
  | Panic => exists rest, answer cmd (evs ++ rest)
  end.

Lemma emits_on_result {R} (L : res FrontError.t unit -> list UiEvent -> Prop) (p : io (world UiEvent) FrontError.t R) op ok :
  steps (sends (λ _, False)) p -> returns (λ r, match r with Ok a => emits L (ok a) | _ => True end) p ->
  (forall m, L (Ok tt) [EvError op m]) -> L Panic [] -> emits L (on_result error_text p op ok).
Proof.
  intros Hp Hq He Hpanic. unfold on_result, attempt, mbind, io_bind.
  induction p as [[a|e|]|Y g k IH]; cbn in *; [exact Hq|by apply emits_prints|done|].
  destruct Hp as [Hg Hk]. intros w. destruct (Hg w) as ([|ev evs] & Ho & Hf);
    [|by apply Forall_cons in Hf as [? _]].
  exists []. split; [done|]. apply IH; [apply Hk|apply Hq].
Qed.

(** A command whose result is the event. *)
Lemma emits_result cmd (p : io (world UiEvent) FrontError.t UiEvent) op :
  steps (sends (λ _, False)) p ->
  returns (λ r, match r with Ok ev => answer cmd [ev] | _ => True end) p ->
  (forall n, cmd <> Ping n) -> cmd <> Shutdown ->
  emits (answering cmd) (on_result error_text p op prints).
Proof.
  intros Hp Hq Hn Hs. apply emits_on_result; [done| |intros m; by constructor|].
  - eapply returns_mono; [|exact Hq]. intros [ev|e|]; [|done..]. intros H. by apply emits_prints.
  - exists [EvError [] []]. by constructor.
Qed.

Ltac returned := repeat first
  [ progress intros | apply returns_bind | exact I | solve [cbn; eauto with answers]
  | match goal with |- context [match ?x with _ => _ end] => destruct x end ].

Lemma returns_any {R} (Q : res FrontError.t R -> Prop) (p : io (world UiEvent) FrontError.t R) :
  (forall r, Q r) -> returns Q p.
Proof. intros HQ. induction p as [a|Y f k IH]; cbn; [apply HQ|done]. Qed.

Lemma returns_attempt {R} (p : io (world UiEvent) FrontError.t R) : returns (λ r, exists r', r = Ok r') (attempt p).
Proof. induction p as [a|Y g k IH]; cbn; [by eexists|done]. Qed.

Lemma emits_listing cmd evs (p : io (world UiEvent) FrontError.t (list KeysetSummary)) op :
  steps (sends (λ _, False)) p -> (forall l, answer cmd (evs ++ [EvKeysetList l])) ->
  (forall m, answer cmd (evs ++ [EvError op m])) ->
  emits (λ r l, answering cmd r (evs ++ l)) (on_result error_text p op (λ l, prints (EvKeysetList l))).
Proof.
  intros Hp Hl He. apply emits_on_result; [done| |done|].
  - apply returns_any. intros [l|e|]; [|done..]. apply emits_prints, Hl.
  - exists [EvKeysetList []]. rewrite app_nil_r. apply Hl.
Qed.

Lemma dispatch_emits o1 o2 cmd : emits (answering cmd) (dispatch error_text debug_str o1 o2 cmd).
Proof.
  destruct cmd as [n|phrase pass file ks|seed file|seed file name info|seed file name|
    seed file label rec url pid key e c|seed file ks name label|seed file rec url keep prefix|
    seed ks uri name enc|]; cbn [dispatch].
  - apply emits_prints. constructor.
  - apply emits_result; [apply quiet_open| |done..]. unfold open_wallet. returned.
  - apply (emits_listing _ []); [apply quiet_list|constructor|by constructor].
  - apply emits_on_result; [apply quiet_add|apply returns_any|intros m; by constructor|
      exists [KeysetAdded name; EvKeysetList []]; constructor].
    intros [[]|e|]; [|done..]. apply emits_bind, emits_prints. cbn beta iota.
    apply (emits_listing _ [KeysetAdded name]); [apply quiet_list|constructor|constructor].
  - apply emits_on_result; [apply quiet_remove|apply returns_any|intros m; by constructor|
      exists [KeysetRemoved name]; constructor].
    intros [[]|e|]; [| |done..].
    + apply emits_bind, emits_prints. cbn beta iota. apply emits_bind.
      eapply emits_quiet; [apply steps_pmap, quiet_list|apply returns_attempt|].
      intros r (r' & ->). destruct r' as [l|e|]; cbn beta iota;
        [apply emits_prints; constructor|constructor|exists []; constructor].
    + apply emits_prints. by constructor.
  - apply emits_result; [apply quiet_withdraw| |done..]. unfold withdraw_on_devnet. returned.
  - apply emits_result; [apply quiet_refresh_cmd| |done..]. unfold refresh, refresh_opened. returned.
  - apply emits_result; [apply quiet_receive| |done..]. unfold receive, received_event. returned.
  - apply emits_result; [apply quiet_pay| |done..]. unfold pay. returned.
  - apply answer_shutdown.
Qed.
(** C18: the protocol between the window and its runtime.  However the tasks of
    the commands interleave, with each other and between any two of their
    sections, the events sent are those of the tasks, in some order, and each
    task sends an answer to its command ([answer]): a task that has returned
    has sent exactly one, one that is still running or has panicked the
    beginning of one, and none returns an error of its own. *)
Theorem gui_commands_answered cmds schedule (w : world UiEvent) :
  let final := exec schedule (w, runtime_tasks error_text debug_str cmds) in
  exists tagged, w_out final.1 = w_out w ++ tagged.*2 /\
    forall i c, cmds !! i = Some c ->
      (exists rest, answer c.2 (sent_by i tagged ++ rest)) /\
      (final.2 !! i = Some (Done (Ok tt)) -> answer c.2 (sent_by i tagged)) /\
      (forall e, final.2 !! i <> Some (Done (Err e))).
Proof.
  intros final.
  destruct (emits_exec ((λ c, answering c.2) <$> cmds) schedule w (runtime_tasks error_text debug_str cmds))
    as (tagged & Ho & Hall).
  { apply Forall2_fmap, Forall_Forall2_diag, Forall_true. intros c. apply dispatch_emits. }
  fold final in Ho, Hall. exists tagged. split; [done|]. intros i c Hc.
  assert (((λ c, answering c.2) <$> cmds) !! i = Some (answering c.2)) as HL
    by by rewrite list_lookup_fmap, Hc.
  destruct (final.2 !! i) as [p|] eqn:Hp; cycle 1.
  { apply lookup_ge_None in Hp. unfold final in Hp. rewrite length_exec in Hp. cbn [snd] in Hp.
    unfold runtime_tasks in Hp. rewrite length_fmap in Hp. apply lookup_lt_Some in Hc. lia. }
  specialize (Hall i _ p HL Hp). split; [|split].
  - destruct (emits_complete _ p w Hall) as ([[]|e|] & l & H); cbn in H; [by exists l|done|].
    destruct H as [rest H]. exists (l ++ rest). by rewrite app_assoc.
  - intros [= ->]. cbn in Hall. by rewrite app_nil_r in Hall.
  - intros e [= ->]. by cbn in Hall.
Qed.
End answers.

(** ** What the window sends *)
Section window_sends.
Context `{C : Curve} `{B : Bip39} `{HX : Hex} `{PF : Prefs}
  (elapsed : UiEvent -> bytes) (wallet_error_text : WalletError.t -> bytes)
  (client_error_text : ClientError.t -> bytes) (json_strings : list bytes -> bytes)
  (debug_str : bytes -> bytes).
Implicit Types (a : App) (i : input).

#[local] Abbreviation event := (on_event elapsed).
#[local] Abbreviation update :=
  (App_update elapsed wallet_error_text client_error_text json_strings debug_str).

(** What holds of the window when a command is sent. *)
Definition justified a (cmd : UiCommand) : Prop :=
  let s := session a in
  let unlocked seed := mode s = Mode.Unlocked /\ master_seed s = Some seed in
  match cmd with
  | OpenWallet phrase pass file ks =>
      mode s = Mode.Locked /\ phrase = mnemonic_input (locked a) /\ pass = passphrase (locked a) /\
      file = (if decide (wallet_file (locked a) = []) then None else Some (wallet_file (locked a))) /\
      ks = Some (resolved_keysets_file a)
  | CmdKeysetAdd seed file name info =>
      unlocked seed /\ file = keysets_file s /\ name <> [] /\ length (ki_joint_pk_hex info) = 64%nat /\
      is_Some (hex_decode (ki_joint_pk_hex info)) /\ u64 (ki_denom info) /\ ki_validators info <> []
  | CmdKeysetRemove seed file name =>
      unlocked seed /\ file = keysets_file s /\ keyset_remove_target (keysets a) = Some name /\
      name ∈ ksm_name <$> keyset_summary s
  | CmdPay seed file uri name _ =>
      unlocked seed /\ file = keysets_file s /\ exists inv k, Invoice_parse uri = Ok inv /\
      find_keyset name (keyset_summary s) = Some k /\ inv_denom inv = ksm_denom k
  | CmdReceive seed file recipient url _ _ =>
      unlocked seed /\ file = wallet_file (locked a) /\ file <> [] /\ url <> [] /\
      length recipient = 64%nat /\ is_Some (hex_decode recipient)
  | CmdRefresh seed file ks name label =>
      unlocked seed /\ file = wallet_file (locked a) /\ file <> [] /\ ks = keysets_file s /\
      exists k c, find_keyset name (keyset_summary s) = Some k /\
      find_coin label (active_coins s) = Some c /\ ksm_denom k = as_denom c
  | WithdrawOnDevnet seed file label recipient _ _ _ ephemeral pool =>
      unlocked seed /\ file = wallet_file (locked a) /\ file <> [] /\
      is_Some (find_coin label (active_coins s)) /\ (32 <= length recipient <= 44)%nat /\
      (pool = true -> ephemeral = true)
  | _ => False
  end.

(** A frame that sends nothing leaves [busy]; one that sends was not busy and
    is. *)
Definition quiet_frame a a' : Prop :=
  runtime a' = runtime a /\ busy (status a') = busy (status a).
Definition sending_frame a a' (cmd : UiCommand) : Prop :=
  runtime a' = runtime a ++ [cmd] /\ busy (status a) = false /\ busy (status a') = true /\ justified a cmd.
Definition proper_frame a a' : Prop := quiet_frame a a' \/ exists cmd, sending_frame a a' cmd.

Ltac keeps := left; split; reflexivity.

Lemma find_coin_Some label l c : find_coin label l = Some c -> as_label c = label.
Proof.
  unfold find_coin. destruct (list_find _ _) as [[n k]|] eqn:E; [|done]. intros [= ->].
  by apply list_find_Some in E as (_ & ? & _).
Qed.

Lemma can_pay_ok a seed name : can_pay a = true -> master_seed (session a) = Some seed ->
  pay_selected_keyset (pay_form a) = Some name ->
  busy (status a) = false /\ exists inv k, Invoice_parse (trim (pay_invoice_input (pay_form a))) = Ok inv /\
    find_keyset name (keyset_summary (session a)) = Some k /\ inv_denom inv = ksm_denom k.
Proof.
  unfold can_pay, pay_selection. intros H _ Hn. rewrite Hn in H. cbn [mbind option_bind] in H.
  apply andb_true_iff in H as [[[H1 H2]%andb_true_iff _]%andb_true_iff _].
  split; [by apply negb_true_iff|]. destruct (Invoice_parse _) as [inv| |]; [|done..].
  destruct (find_keyset _ _) as [k|]; [|done]. exists inv, k. split; [done|]. split; [done|]. by apply Z.eqb_eq.
Qed.

Lemma locked_frame i a : mode (session a) = Mode.Locked ->
  proper_frame a (ui_locked wallet_error_text i a).
Proof.
  intros Hm. unfold ui_locked.
  destruct i; try (repeat case_match; keeps).
  destruct (busy (status a)) eqn:Hb; [repeat case_match; keeps|].
  right. eexists. split; [by case_match|]. split; [done|]. split; [by case_match|].
  cbn. unfold justified. destruct a. cbn. done.
Qed.

Lemma keysets_frame i a : mode (session a) = Mode.Unlocked -> proper_frame a (tab_keysets i a).
Proof.
  intros Hm. destruct i; cbn [tab_keysets]; try (repeat case_match; keeps).
  - destruct (keyset_summary (session a) !! _) as [k|] eqn:Hk; [|keeps]. unfold click_remove.
    destruct (busy (status a)) eqn:Hb; [keeps|]. case_decide as Ht; [|left; by split].
    destruct (master_seed (session a)) as [seed|] eqn:Hs; [|keeps].
    right. eexists. split; [done|]. split; [done|]. split; [done|]. cbn. split; [done|]. split; [done|].
    split; [done|]. apply list_elem_of_fmap. exists k. split; [done|]. by eapply list_elem_of_lookup_2.
  - destruct (can_add a) eqn:Hc; [|keeps]. unfold add_keyset_clicked.
    destruct (master_seed (session a)) as [seed|] eqn:Hs; [|keeps].
    destruct (parse_u64 _) as [denom|] eqn:Hd; [|keeps].
    right. eexists. split; [done|]. unfold can_add in Hc. rewrite !andb_true_iff in Hc.
    destruct Hc as (((((Hb & Hn) & Hl) & Hx) & _) & Hv). apply negb_true_iff in Hb. split; [done|].
    split; [done|]. cbn. apply negb_true_iff, bool_decide_eq_false in Hn, Hv. apply bool_decide_eq_true in Hx.
    apply Nat.eqb_eq in Hl. split; [done|]. split; [done|]. split; [done|]. split; [done|]. split; [done|].
    split; [by eapply parse_u64_range|done].
Qed.

Lemma gui_pay_frame i a : mode (session a) = Mode.Unlocked -> proper_frame a (tab_pay i a).
Proof.
  intros Hm. unfold tab_pay. destruct (keyset_summary (session a)) as [|k0 ks] eqn:Hk; [keeps|]. rewrite <- Hk.
  set (a1 := a <| pay_form; pay_selected_keyset ::= preselect ksm_name (keyset_summary (session a)) |>).
  destruct i; try (repeat case_match; keeps).
  destruct (can_pay a1) eqn:Hc; [|keeps].
  destruct (master_seed (session a1)) as [seed|] eqn:Hs; [|keeps].
  destruct (pay_selected_keyset (pay_form a1)) as [name|] eqn:Hn; [|keeps].
  destruct (can_pay_ok a1 seed name Hc Hs Hn) as (Hb & inv & k & Hp & Hf & He).
  right. eexists. split; [done|]. split; [done|]. split; [done|]. cbn. split; [done|]. split; [done|].
  by exists inv, k.
Qed.

Lemma receive_frame i a : mode (session a) = Mode.Unlocked -> proper_frame a (tab_receive i a).
Proof.
  intros Hm. unfold tab_receive.
  set (a1 := if decide _ then _ else a).
  assert (status a1 = status a /\ session a1 = session a /\ runtime a1 = runtime a /\ locked a1 = locked a)
    as (E1 & E2 & E3 & E4) by (unfold a1; by case_match).
  destruct i; try (left; split; cbn; by rewrite ?E1, ?E3).
  destruct (can_receive a1) eqn:Hc; [|left; split; by rewrite ?E1, ?E3].
  destruct (master_seed (session a1)) as [seed|] eqn:Hs; [|left; split; by rewrite ?E1, ?E3].
  unfold can_receive in Hc. rewrite !andb_true_iff in Hc.
  destruct Hc as ((((Hb & Hl & Hx) & Hu) & Hw) & _). rewrite !negb_true_iff in *.
  apply bool_decide_eq_true in Hx. apply bool_decide_eq_false in Hu, Hw. apply Nat.eqb_eq in Hl.
  right. eexists. split; [cbn; by rewrite E3|]. split; [by rewrite <- E1|]. split; [done|].
  cbn. rewrite E2 in Hs. rewrite E4 in *. done.
Qed.

Lemma refresh_frame i a : mode (session a) = Mode.Unlocked -> proper_frame a (tab_refresh i a).
Proof.
  intros Hm. unfold tab_refresh. destruct (active_coins (session a)) as [|c0 cs] eqn:Hcs; [keeps|].
  destruct (keyset_summary (session a)) as [|k0 ks] eqn:Hks; [keeps|]. rewrite <- Hcs, <- Hks.
  set (a1 := set_field refresh_form _ a).
  destruct i; try (repeat case_match; keeps).
  destruct (can_refresh a1) eqn:Hc; [|keeps].
  destruct (master_seed (session a1)) as [seed|] eqn:Hs; [|keeps].
  destruct (refresh_selected_keyset (refresh_form a1)) as [name|] eqn:Hn; [|keeps].
  destruct (refresh_selected_coin (refresh_form a1)) as [label|] eqn:Hl; [|keeps].
  unfold can_refresh, denom_match in Hc. rewrite Hn, Hl in Hc. cbn [mbind option_bind] in Hc.
  rewrite !andb_true_iff in Hc. destruct Hc as (((Hb & Hd) & _) & Hw). apply negb_true_iff in Hb, Hw.
  apply bool_decide_eq_false in Hw.
  destruct (find_keyset name _) as [k|] eqn:Hfk; [|done]. cbn [mbind option_bind] in Hd.
  destruct (find_coin label _) as [c|] eqn:Hfc; [|done]. cbn in Hd. apply Z.eqb_eq in Hd.
  right. eexists. split; [done|]. split; [done|]. split; [done|]. cbn.
  split; [done|]. split; [done|]. split; [done|]. split; [done|]. by exists k, c.
Qed.

Lemma withdraw_inputs_keep coins i a : let a' := withdraw_inputs coins i a in
  status a' = status a /\ session a' = session a /\ runtime a' = runtime a /\ locked a' = locked a /\
  (withdraw_use_onchain_pool (withdraw_form a') = true -> withdraw_use_ephemeral_payer (withdraw_form a') = true).
Proof.
  unfold withdraw_inputs. cbn zeta.
  match goal with |- context [if withdraw_use_ephemeral_payer (withdraw_form ?x) then ?x else _] =>
    assert (status x = status a /\ session x = session a /\ runtime x = runtime a /\ locked x = locked a)
      as (E1 & E2 & E3 & E4) by (destruct i; repeat case_match; done);
    generalize dependent x end.
  intros x E1 E2 E3 E4. destruct (withdraw_use_ephemeral_payer (withdraw_form x)) eqn:He; by cbn.
Qed.

Lemma withdraw_frame i a : mode (session a) = Mode.Unlocked -> proper_frame a (tab_withdraw i a).
Proof.
  intros Hm. unfold tab_withdraw. destruct (active_coins (session a)) as [|c0 cs] eqn:Hcs; [keeps|].
  destruct (withdraw_inputs_keep (c0 :: cs) i a) as (E1 & E2 & E3 & E4 & E5).
  set (a3 := withdraw_inputs (c0 :: cs) i a) in *.
  clearbody a3.
  destruct i; try (repeat case_match; left; split; cbn; by rewrite ?E1, ?E3).
  destruct (can_submit a3) eqn:Hc; [|left; split; by rewrite ?E1, ?E3].
  unfold submit_withdraw.
  destruct (master_seed (session a3)) as [seed|] eqn:Hs; [|left; split; by rewrite ?E1, ?E3].
  destruct (withdraw_selection a3) as [coin|] eqn:Hsel; [|left; split; by rewrite ?E1, ?E3].
  unfold can_submit in Hc. rewrite !andb_true_iff in Hc.
  destruct Hc as (((Hb & ((_ & _) & Hl) & Hu) & _) & Hw). rewrite !negb_true_iff in *.
  apply bool_decide_eq_false in Hw. apply Nat.leb_le in Hl, Hu.
  right. eexists. split; [cbn; by rewrite E3|]. split; [by rewrite <- E1|]. split; [done|].
  cbn. unfold withdraw_selection in Hsel. rewrite E2, E4 in *.
  destruct (withdraw_selected_coin _) as [label|]; [|done]. cbn [mbind option_bind] in Hsel.
  pose proof (find_coin_Some _ _ _ Hsel) as <-. split; [done|]. split; [done|]. split; [done|].
  split; [by exists coin|]. done.
Qed.

Lemma unlocked_frame i a : mode (session a) = Mode.Unlocked ->
  proper_frame a (ui_unlocked client_error_text json_strings debug_str i a).
Proof.
  intros Hm. unfold ui_unlocked.
  set (a1 := match i with PickTab _ => _ | _ => a end).
  assert (mode (session a1) = Mode.Unlocked /\ runtime a1 = runtime a /\ status a1 = status a /\
    forall cmd, justified a1 cmd -> justified a cmd) as (Hm1 & E1 & E2 & Hj).
  { unfold a1. by destruct i. }
  assert (proper_frame a1 (match current_tab (session a1) with
    | Tab.Balance => tab_balance i a1 | Tab.Keysets => tab_keysets i a1 | Tab.Pay => tab_pay i a1
    | Tab.Receive => tab_receive i a1 | Tab.Refresh => tab_refresh i a1
    | Tab.Withdraw => tab_withdraw i a1
    | Tab.Invoice => tab_invoice client_error_text json_strings debug_str i a1 end)) as [[H1 H2]|(cmd & H1 & H2 & H3 & H4)].
  { destruct (current_tab (session a1));
      [destruct i; keeps|by apply keysets_frame|by apply gui_pay_frame|by apply receive_frame|
       by apply refresh_frame|by apply withdraw_frame|destruct i; keeps]. }
  - left. split; [by rewrite H1|by rewrite H2, E2].
  - right. exists cmd. rewrite E1 in H1. rewrite E2 in H2. by split_and!; [..|apply Hj].
Qed.

(** The proof of the claim about frames; it has no hypotheses. *)
Lemma frame_proper i a : proper_frame a (update [] i a).
Proof.
  unfold App_update, drain_events. cbn [foldl].
  destruct i; try (destruct (mode (session a)) eqn:Hm; [by apply locked_frame|by apply unlocked_frame]).
  case_decide as Hm.
  - change (mode (session (lock a))) with Mode.Locked. unfold ui_locked. cbv match.
    case_match; keeps.
  - destruct (mode (session a)) eqn:Hm'; [by apply locked_frame|done].
Qed.

(** What the events of a frame send: a listing, when the wallet was opened. *)
Lemma event_sends a ev :
  runtime (event a ev) = runtime a /\ (forall pk seed b n k c, ev <> WalletOpened pk seed b n k c) \/
  exists pk seed b n k c, ev = WalletOpened pk seed b n k c /\
    runtime (event a ev) = runtime a ++ [CmdKeysetList seed (keysets_file (session a))].
Proof. destruct ev; [left|right; eauto 10|left..]; by split. Qed.

(** C14: what the window sends, and when.  Whatever the state of the window and
    whatever the user does in a frame, at most one command is sent by it; then
    no command was marked as in flight, one is afterwards, and the command is
    justified by what the window knew: the phrase typed on the locked screen,
    or the seed of the wallet that is open, an invoice that parses for a listed
    keyset of its denomination, a listed coin and a keyset of equal
    denominations, a recipient of 32 to 44 characters, a relay and a wallet
    file, a keyset with a name, a key of 64 hexadecimal digits, a 64-bit
    denomination and a validator, or a removal that was asked for before.  The
    events of the frame send nothing but the listing that follows an open
    wallet. *)
Theorem gui_sends_justified events i a :
  let drained := drain_events elapsed events a in
  (exists listings, runtime drained = runtime a ++ listings /\
     Forall (λ c, exists seed file, c = CmdKeysetList seed file) listings) /\
  (update events i a = update [] i drained) /\
  (quiet_frame drained (update events i a) \/ exists cmd, sending_frame drained (update events i a) cmd).
Proof.
  intros drained. split; [|split; [done|apply (frame_proper i drained)]].
  unfold drained, drain_events. clear drained. revert a.
  induction events as [|ev events IH]; intros a; cbn [foldl]; [by exists []; rewrite app_nil_r|].
  destruct (IH (event a ev)) as (l & Hr & Hl).
  destruct (event_sends a ev) as [[E _]|(pk & seed & b & n & k & c & _ & E)]; rewrite Hr, E.
  - by exists l.
  - exists (CmdKeysetList seed (keysets_file (session a)) :: l). rewrite <- app_assoc. split; [done|].
    constructor; eauto.
Qed.
End window_sends.

(** ** The window and the commands in flight *)
Section system.
Context `{C : Curve} `{B : Bip39} `{HX : Hex} `{PF : Prefs}
  (elapsed : UiEvent -> bytes) (wallet_error_text : WalletError.t -> bytes)
  (client_error_text : ClientError.t -> bytes) (json_strings : list bytes -> bytes)
  (debug_str : bytes -> bytes).
Implicit Types (a : App) (i : input).

#[local] Abbreviation event := (on_event elapsed).
#[local] Abbreviation update :=
  (App_update elapsed wallet_error_text client_error_text json_strings debug_str).

(** A command sent, with the events its task has still to send. *)
Record system : Type := { window : App; pending : list (UiCommand * list UiEvent) }.

Definition sent_since a a' : list UiCommand := drop (length (runtime a)) (runtime a').

(** The beginning of an answer, all that a task that panics sends. *)
Definition begins (c : UiCommand) (evs : list UiEvent) : Prop := exists rest, answer c (evs ++ rest).

(** A frame in which no event has arrived, and the arrival of the next event of
    one task; the answers to what they send are among those of [allowed]. *)
Inductive gstep (allowed : UiCommand -> list UiEvent -> Prop) : relation system :=
| step_frame a l i chosen :
    Forall2 allowed (sent_since a (update [] i a)) chosen ->
    gstep allowed {| window := a; pending := l |}
      {| window := update [] i a; pending := l ++ zip (sent_since a (update [] i a)) chosen |}
| step_event a l n c ev evs chosen :
    l !! n = Some (c, ev :: evs) ->
    Forall2 allowed (sent_since a (event a ev)) chosen ->
    gstep allowed {| window := a; pending := l |}
      {| window := event a ev;
         pending := <[n := (c, evs)]> l ++ zip (sent_since a (event a ev)) chosen |}.

Definition start (config : Config) (home : option bytes) (d : disk) : system :=
  {| window := App_new config home d; pending := [] |}.

(** *** One command at a time *)
Definition clears (ev : UiEvent) : bool :=
  match ev with Pong _ | EvKeysetList _ => false | _ => true end.
(** A listing of the keysets, the one event that the window may wait for without
    marking itself busy. *)
Definition is_listing (ev : UiEvent) : bool := match ev with EvKeysetList _ => true | _ => false end.
(** Still to come of a command is more than a listing of the keysets. *)
Definition in_flight (p : UiCommand * list UiEvent) : bool := existsb (λ ev, negb (is_listing ev)) p.2.
Definition only_listings (p : UiCommand * list UiEvent) : Prop := Forall (λ ev, is_listing ev = true) p.2.

(** No listing of the keysets fails. *)
Definition calm (c : UiCommand) (evs : list UiEvent) : Prop :=
  begins c evs /\
  match c, evs with
  | CmdKeysetList _ _, EvError _ _ :: _ => False
  | CmdKeysetAdd _ _ _ _, KeysetAdded _ :: EvError _ _ :: _ => False
  | _, _ => True
  end.

Lemma event_busy a ev : busy (status (event a ev)) = if clears ev then false else busy (status a).
Proof. by destruct ev. Qed.

Lemma sent_since_app a a' l : runtime a' = runtime a ++ l -> sent_since a a' = l.
Proof. unfold sent_since. intros ->. by rewrite drop_app_length. Qed.

Lemma not_in_flight p : in_flight p = false <-> only_listings p.
Proof.
  unfold in_flight, only_listings. induction p.2 as [|ev evs IH]; cbn; [by split|].
  rewrite orb_false_iff, negb_false_iff, Forall_cons. by rewrite IH.
Qed.

(** What is to come of a command begins with the event that ends it or with a
    listing, and goes on with listings. *)
Definition front (p : UiCommand * list UiEvent) : Prop :=
  match p.2 with
  | [] => True
  | ev :: evs => (clears ev = true \/ is_listing ev = true) /\ Forall (λ ev, is_listing ev = true) evs
  end.

Lemma calm_front c evs : (forall n, c <> Ping n) -> calm c evs -> front (c, evs).
Proof.
  unfold front. cbn [snd]. intros Hc [[rest H] Hcalm]. destruct evs as [|e1 [|e2 [|e3 evs]]]; [done|..].
  - split; [|constructor]. inversion H; subst; cbn; try (by left); try (by right). by destruct (Hc n).
  - inversion H; subst; cbn in *; try done; (split; [by left|by constructor]).
  - inversion H.
Qed.
Lemma calm_listing seed file evs : calm (CmdKeysetList seed file) evs -> in_flight (CmdKeysetList seed file, evs) = false.
Proof.
  intros [[rest H] Hc]. destruct evs as [|e1 [|e2 evs]]; [done| |inversion H].
  inversion H; subst; [done|by cbn in Hc].
Qed.

Record orderly (s : system) : Prop := {
  ord_idle : busy (status (window s)) = false -> Forall (λ p, in_flight p = false) (pending s);
  ord_one : (length (filter (λ p, in_flight p = true) (pending s)) <= 1)%nat;
  ord_front : Forall front (pending s);
}.

Lemma none_in_flight (l : list (UiCommand * list UiEvent)) :
  Forall (λ p, in_flight p = false) l <-> filter (λ p, in_flight p = true) l = [].
Proof.
  induction l as [|p l IH]; [by split|]. rewrite Forall_cons, filter_cons, IH.
  destruct (in_flight p); [rewrite decide_True by done|rewrite decide_False by done]; naive_solver.
Qed.

(** An entry replaced, in the terms of a count. *)
Lemma count_insert n (x y : UiCommand * list UiEvent) l : l !! n = Some y ->
  (length (filter (λ p, in_flight p = true) (<[n := x]> l)) + Nat.b2n (in_flight y) =
   length (filter (λ p, in_flight p = true) l) + Nat.b2n (in_flight x))%nat.
Proof.
  intros Hn. rewrite insert_take_drop by by eapply lookup_lt_Some.
  rewrite <- (take_drop_middle l n y Hn) at 3. rewrite !filter_app, !length_app, !filter_cons.
  repeat case_decide; destruct (in_flight x), (in_flight y); cbn; done || lia.
Qed.

Lemma orderly_event a l n c ev evs chosen :
  orderly {| window := a; pending := l |} -> l !! n = Some (c, ev :: evs) ->
  Forall2 calm (sent_since a (event a ev)) chosen ->
  orderly {| window := event a ev; pending := <[n := (c, evs)]> l ++ zip (sent_since a (event a ev)) chosen |}.
Proof.
  intros [Hidle Hone Hfront] Hn Hsent. cbn [window pending] in *.
  assert (front (c, ev :: evs)) as [Hev Hf] by by eapply Forall_lookup_1 in Hn.
  assert (in_flight (c, evs) = false) as Hx by by apply not_in_flight.
  set (news := zip _ chosen).
  assert (Forall (λ p, in_flight p = false) news /\ Forall front news) as [Hnew Hnewf].
  { unfold news. destruct (event_sends elapsed a ev) as [[E _]|(pk & seed & b & k & ks & cs & _ & E)].
    - rewrite (sent_since_app a (event a ev) []) by by rewrite app_nil_r. by split.
    - rewrite (sent_since_app a (event a ev) _ E) in Hsent |- *.
      apply Forall2_cons_inv_l in Hsent as (evs' & rest & Hc & Hr & ->). apply Forall2_nil_inv_l in Hr as ->.
      cbn [zip zip_with]. split; (constructor; [|constructor]); [by eapply calm_listing|by apply calm_front]. }
  pose proof (count_insert n (c, evs) _ l Hn) as Hcount. rewrite Hx in Hcount. cbn [Nat.b2n] in Hcount.
  apply none_in_flight in Hnew.
  split; cbn [window pending].
  - rewrite event_busy. intros Hb. apply Forall_app. split; [|by apply none_in_flight].
    apply none_in_flight, nil_length_inv. destruct (clears ev) eqn:He.
    + assert (in_flight (c, ev :: evs) = true) as Hy by (by destruct ev).
      rewrite Hy in Hcount. cbn in Hcount. lia.
    + specialize (Hidle Hb). apply none_in_flight in Hidle. rewrite Hidle in Hcount. cbn in Hcount. lia.
  - rewrite filter_app, Hnew, app_nil_r. lia.
  - apply Forall_app. split; [|done]. apply Forall_insert; [done|]. unfold front. cbn [snd].
    destruct evs as [|ev' evs]; [done|]. apply Forall_cons in Hf as [H1 H2]. split; [by right|done].
Qed.

Lemma orderly_frame a l i chosen :
  orderly {| window := a; pending := l |} -> Forall2 calm (sent_since a (update [] i a)) chosen ->
  orderly {| window := update [] i a; pending := l ++ zip (sent_since a (update [] i a)) chosen |}.
Proof.
  intros [Hidle Hone Hfront] Hsent. cbn [window pending] in *.
  destruct (frame_proper elapsed wallet_error_text client_error_text json_strings debug_str i a)
    as [[Hr Hb]|(cmd & Hr & Hb & Hb' & Hj)].
  - rewrite (sent_since_app _ _ []) by by rewrite app_nil_r. cbn [zip zip_with]. rewrite app_nil_r.
    split; cbn [window pending]; [by rewrite Hb|done..].
  - rewrite (sent_since_app _ _ _ Hr) in Hsent |- *.
    apply Forall2_cons_inv_l in Hsent as (evs & rest & Hc & Hrest & ->). apply Forall2_nil_inv_l in Hrest as ->.
    specialize (Hidle Hb). apply none_in_flight in Hidle.
    split; cbn [window pending zip zip_with]; [by rewrite Hb'| |].
    + rewrite filter_app, Hidle. cbn [app]. rewrite filter_cons. case_decide; cbn; lia.
    + apply Forall_app. split; [done|]. constructor; [|done]. apply calm_front; [by intros m ->|done].
Qed.

Lemma orderly_step s s' : orderly s -> gstep calm s s' -> orderly s'.
Proof. intros Hs Hstep. destruct Hstep; [by apply orderly_frame|by eapply orderly_event]. Qed.

(** C15: one command at a time, listings of the keysets apart, as long as no
    listing fails.  In every state of the window and of the tasks of its
    commands that is reached from the start, whatever the user does and in
    whatever order the events of different tasks arrive, at most one command
    has more to come than a listing of the keysets; and while the window does
    not show itself busy, listings are all that is to come.  Listings are not
    limited: the window asks for one after every unlock, and gets one after
    every keyset added or removed, without being busy until it arrives, so that
    a payment can be sent beside it. *)
Theorem gui_one_command_at_a_time config home d s :
  rtc (gstep calm) (start config home d) s ->
  (length (filter (λ p, in_flight p = true) (pending s)) <= 1)%nat /\
  (busy (status (window s)) = false -> Forall only_listings (pending s)).
Proof.
  intros H. assert (orderly s) as [Hidle Hone _].
  { assert (orderly (start config home d)) as H0 by by split; cbn; [constructor|lia|constructor].
    revert H0. induction H as [s|s s1 s2 Hstep _ IH]; intros Hs; [done|]. by apply IH, (orderly_step s). }
  split; [done|]. intros Hb. eapply Forall_impl; [exact (Hidle Hb)|]. intros p. apply not_in_flight.
Qed.

(** *** Executions *)
Inductive move : Type :=
| Frame (i : input) (answers : list (list UiEvent))
| Arrive (n : nat) (answers : list (list UiEvent)).

(** The answers a move may choose, by a test that implies [allowed]. *)
Definition chosen_ok (ok : UiCommand -> list UiEvent -> bool) (cmds : list UiCommand)
    (answers : list (list UiEvent)) : bool :=
  (length cmds =? length answers)%nat && forallb (λ p, ok p.1 p.2) (zip cmds answers).

Definition play_move (ok : UiCommand -> list UiEvent -> bool) (m : move) (s : system) : option system :=
  match m with
  | Frame i answers =>
      let a' := update [] i (window s) in
      let cmds := sent_since (window s) a' in
      if chosen_ok ok cmds answers
      then Some {| window := a'; pending := pending s ++ zip cmds answers |} else None
  | Arrive n answers =>
      match pending s !! n with
      | Some (c, ev :: evs) =>
          let a' := event (window s) ev in
          let cmds := sent_since (window s) a' in
          if chosen_ok ok cmds answers
          then Some {| window := a'; pending := <[n := (c, evs)]> (pending s) ++ zip cmds answers |} else None
      | _ => None
      end
  end.
Fixpoint play (ok : UiCommand -> list UiEvent -> bool) (moves : list move) (s : system) : option system :=
  match moves with [] => Some s | m :: moves => s ← play_move ok m s; play ok moves s end.

Lemma chosen_ok_spec (allowed : UiCommand -> list UiEvent -> Prop) ok cmds answers :
  (forall c evs, ok c evs = true -> allowed c evs) -> chosen_ok ok cmds answers = true ->
  Forall2 allowed cmds answers.
Proof.
  intros Hok [Hl Hall]%andb_true_iff. apply Nat.eqb_eq in Hl. revert answers Hl Hall.
  induction cmds as [|c cmds IH]; intros [|evs answers]; cbn; try done; intros Hl H. injection Hl as Hl.
  apply andb_true_iff in H as [H1 H2]. constructor; auto.
Qed.

Lemma play_reaches (allowed : UiCommand -> list UiEvent -> Prop) ok moves s s' :
  (forall c evs, ok c evs = true -> allowed c evs) -> play ok moves s = Some s' -> rtc (gstep allowed) s s'.
Proof.
  intros Hok. revert s. induction moves as [|m moves IH]; intros s; cbn [play]; [by intros [= ->]|].
  destruct (play_move ok m s) as [s1|] eqn:Hm; [|done]. cbn [mbind option_bind]. intros H.
  eapply rtc_l; [|by apply IH]. destruct s as [a l], m as [i answers|n answers]; cbn [play_move window pending] in Hm.
  - destruct (chosen_ok _ _ _) eqn:Hc; [|done]. injection Hm as <-.
    constructor. by eapply chosen_ok_spec.
  - destruct (l !! n) as [[c [|ev evs]]|] eqn:Hn; [done| |done].
    destruct (chosen_ok _ _ _) eqn:Hc; [|done]. injection Hm as <-.
    eapply step_event; [done|]. by eapply chosen_ok_spec.
Qed.
End system.

(** ** The preferences *)
Class PrefsOk (P : Prefs) : Prop := {
  toml_total c : exists s, toml_to_string_pretty c = Some s /\ utf8_valid s = true /\ toml_from_str s = Some c;
}.

Section preferences.
Context `{C : Curve} {P : Prefs} {POk : PrefsOk P}.

(** What was saved is loaded, when there is a place for it and no fault. *)
Lemma config_roundtrip c d path : ProjectDirs_config_file = Some path -> d_faults d = [] ->
  (Config_load (Config_save c d)).1 = c.
Proof.
  intros Hp Hd. destruct (toml_total c) as (s & Hs & Hu & Hf). unfold Config_load, Config_save. rewrite Hp, Hs.
  destruct d as [files faults]. cbn in Hd. subst faults.
  destruct (path_parent path); cbn; rewrite lookup_insert_eq; cbn; by rewrite Hu, Hf.
Qed.

(** [lock] empties the field of the relay, and opening the wallet again saves
    the preferences: the relay of the last session is forgotten. *)
Lemma relock_forgets_relay a path : ProjectDirs_config_file = Some path -> d_faults (prefs a) = [] ->
  last_relay_url (Config_load (prefs (unlock_async (lock a)))).1 = [].
Proof. intros Hp Hd. cbn. by erewrite config_roundtrip. Qed.

(** What [lock] leaves in the window. *)
Lemma lock_keeps a : withdraw_form (lock a) = withdraw_form a /\
  invoice_uri_input (invoice (lock a)) = invoice_uri_input (invoice a) /\
  busy (status (lock a)) = busy (status a) /\ runtime (lock a) = runtime a.
Proof. done. Qed.
End preferences.

(** ** Concrete executions *)
#[local] Existing Instance toy.
#[local] Existing Instance toy_hex.
#[local] Existing Instance toy_bip39.
Definition no_prefs : Prefs :=
  {| ProjectDirs_config_file := None; toml_from_str _ := None; toml_to_string_pretty _ := None |}.
#[local] Existing Instance no_prefs.

(** Some of the answers, decided. *)
Definition calm_answer (c : UiCommand) (evs : list UiEvent) : bool :=
  match c, evs with
  | OpenWallet _ _ _ _, [WalletOpened _ _ _ _ [] _] => true
  | CmdKeysetList _ _, [EvKeysetList _] => true
  | CmdPay _ _ _ _ enc, [PaymentSent _ _ _ _ enc'] => bool_decide (enc = enc')
  | CmdReceive _ _ _ _ _ _, [ReceiveResult _ _ _] => true
  | _, _ => false
  end.
Definition some_answer (c : UiCommand) (evs : list UiEvent) : bool :=
  calm_answer c evs || match c, evs with CmdKeysetList _ _, [EvError _ _] => true | _, _ => false end.

Lemma calm_answer_ok c evs : calm_answer c evs = true -> calm c evs.
Proof.
  destruct c; try done; destruct evs as [|[] evs]; try done; cbn; intros H; repeat (case_match; try done).
  - split; [exists []; constructor|done].
  - split; [exists []; constructor|done].
  - split; [exists []; constructor|done].
  - apply bool_decide_eq_true in H as <-. split; [exists []; constructor|done].
Qed.
Lemma some_answer_ok c evs : some_answer c evs = true -> begins c evs.
Proof.
  intros [H|H]%orb_true_iff; [by apply calm_answer_ok|]. destruct c; try done. destruct evs as [|[] []]; try done.
  exists []. by constructor.
Qed.

#[local] Abbreviation plays := (play (λ _, []) (λ _, []) (λ _, []) (λ _, []) (λ s, s)).
#[local] Abbreviation steps_of allowed := (gstep (λ _, []) (λ _, []) (λ _, []) (λ _, []) (λ s, s) allowed).
Definition no_disk : disk := {| d_files := ∅; d_faults := [] |}.
Definition demo_start : system := start Config_default None no_disk.

Definition demo_keyset : KeysetSummary :=
  {| ksm_name := ascii "k"; ksm_denom := 1000; ksm_joint_pk_hex := []; ksm_validators := [] |}.
Definition demo_opened : UiEvent := WalletOpened (ascii "pk") (ascii "seed") [] 0 [] [].
Definition demo_uri : bytes :=
  ascii "tardus://" ++ hex_encode (repeat Byte.x01 32) ++ ascii "?denom=1000&relay=https%3A%2F%2Fr".
Example demo_uri_parses : match Invoice_parse demo_uri with Ok i => inv_denom i =? 1000 | _ => false end = true.
Proof. vm_refl. Qed.

Definition demo_paid : list UiEvent := [PaymentSent [] 1000 [] [] true].
Definition failed_listing : list UiEvent := [EvError (ascii "keyset_list") (ascii "io")].
Definition open_pay_tab : list move :=
  [Frame (PickTab Tab.Pay) []; Frame (EditPayInvoice demo_uri) []].

(** The wallet is opened; before the listing of its keysets arrives, coins are
    received. *)
Definition calm_moves : list move :=
  [Frame (EditMnemonic (ascii "m")) []; Frame (EditWalletFile (ascii "w")) [];
   Frame ClickUnlock [[demo_opened]]; Arrive 0 [[EvKeysetList [demo_keyset]]];
   Frame (PickTab Tab.Receive) []; Frame (EditRelayUrl (ascii "https://r")) [];
   Frame (EditRecipient (hex_encode (repeat Byte.x01 32))) [];
   Frame ClickReceive [[ReceiveResult 1 1 0]]; Frame ClickReceive []].

(** The final state of an execution, as the witness of an existential. *)
Ltac played p := let s := eval vm_compute in p in lazymatch s with Some ?s => exists s end.

Lemma calm_run : exists s, rtc (steps_of calm) demo_start s /\
  snd <$> pending s = [[]; [EvKeysetList [demo_keyset]]; [ReceiveResult 1 1 0]] /\
  in_flight <$> pending s = [false; false; true].
Proof.
  played (plays calm_answer calm_moves demo_start). split.
  - eapply play_reaches; [exact calm_answer_ok|]. instantiate (1 := calm_moves). vm_refl.
  - split; vm_refl.
Qed.

Lemma gui_one_command_at_a_time_witness : exists s, rtc (steps_of calm) demo_start s /\
  snd <$> pending s = [[]; [EvKeysetList [demo_keyset]]; [ReceiveResult 1 1 0]] /\
  in_flight <$> pending s = [false; false; true] /\
  (length (filter (λ p, in_flight p = true) (pending s)) <= 1)%nat.
Proof.
  destruct calm_run as (s & H & Hp). exists s. split; [exact H|].
  split; [exact (proj1 Hp)|]. split; [exact (proj2 Hp)|].
  exact (proj1 (gui_one_command_at_a_time (λ _, []) (λ _, []) (λ _, []) (λ _, []) (λ s, s)
    Config_default None no_disk s H)).
Defined.

(** The listing of a first session is still on its way when the wallet is
    locked and opened again; its failure arrives during a payment. *)
Definition two_payments : list move :=
  [Frame (EditMnemonic (ascii "m")) []; Frame ClickUnlock [[demo_opened]]; Arrive 0 [failed_listing];
   Frame ClickLock []; Frame (EditMnemonic (ascii "m")) []; Frame ClickUnlock [[demo_opened]];
   Arrive 2 [[EvKeysetList [demo_keyset]]]; Arrive 3 []] ++ open_pay_tab ++
  [Frame ClickPay [demo_paid]; Arrive 1 []; Frame ClickPay [demo_paid]].

(** C40: the flag [busy] alone does not keep one command at a time in flight:
    any error clears it, whichever command it answers.  There is an execution
    of the window in which the invoice of one click on Pay is being paid while
    a listing asked for earlier fails, the button is enabled again, and a
    second click sends the same payment a second time, both unanswered. *)
Theorem failed_listing_pays_twice : exists s seed file, rtc (steps_of begins) demo_start s /\
  let payment := (CmdPay seed file demo_uri (ascii "k") true, demo_paid) in
  filter (λ p, p.2 <> []) (pending s) = [payment; payment].
Proof.
  played (plays some_answer two_payments demo_start).
  exists (ascii "seed"), (ascii "./keysets.bin"). split.
  - eapply play_reaches; [exact some_answer_ok|]. instantiate (1 := two_payments). vm_refl.
  - intros payment. vm_refl.
Qed.

(** The same, with two requests to open the wallet. *)
Definition two_unlocks : list move :=
  [Frame (EditMnemonic (ascii "m")) []; Frame ClickUnlock [[demo_opened]]; Arrive 0 [failed_listing];
   Frame ClickLock []; Frame (EditMnemonic (ascii "m")) []; Frame ClickUnlock [[demo_opened]];
   Arrive 1 []; Frame ClickUnlock [[demo_opened]]; Arrive 2 [[EvKeysetList []]]; Frame ClickLock []].

(** A late answer opens a locked wallet.  There is an execution after which
    the window has been locked, with no phrase, no passphrase and no seed left
    in it, and the next event to arrive, the answer to a request made before,
    unlocks it with the seed. *)
Theorem late_answer_unlocks : exists s s' seed, rtc (steps_of begins) demo_start s /\
  mode (session (window s)) = Mode.Locked /\ master_seed (session (window s)) = None /\
  mnemonic_input (locked (window s)) = [] /\ passphrase (locked (window s)) = [] /\
  steps_of begins s s' /\
  mode (session (window s')) = Mode.Unlocked /\ master_seed (session (window s')) = Some seed.
Proof.
  played (plays some_answer two_unlocks demo_start). eexists. exists (ascii "seed"). split.
  - eapply play_reaches; [exact some_answer_ok|]. instantiate (1 := two_unlocks). vm_refl.
  - split; [vm_refl|]. split; [vm_refl|]. split; [vm_refl|]. split; [vm_refl|]. split.
    + apply (step_event _ _ _ _ _ _ _ _ 3 (OpenWallet (ascii "m") [] None (Some (ascii "./keysets.bin")))
        demo_opened [] [[EvKeysetList []]]); [vm_refl|].
      change (Forall2 begins [CmdKeysetList (ascii "seed") []] [[EvKeysetList []]]).
      constructor; [exists []; apply answer_listed|constructor].
    + split; vm_refl.
Qed.
