(* ===== verification/CliDemo.v ===== *)
(** * The protocol simulations of the command line

    Models [crates/tardus-cli/src/commands/demo.rs]: a key generation, an
    issuance and a refresh between parties of one process, which call the
    crates in the order the daemons and the wallet do.  A printed JSON object
    is a record of the values in it; [OsRng] is the generator that is threaded
    through. *)
From S2P Require Import Prelude Crypto ToyCurve Core Poly Wire MintBase Vss Sign Dkg Refresh RefreshProps ClientBase Client.

Module CliError.
Inductive t : Type :=
| BadThreshold
| MissingShare
| NotVerified
| Mint (e : MintError.t)
| Client (e : ClientError.t)
| Refresh (e : RefreshError.t).
End CliError.

(** [iter.map(|a| f(a, &mut rng)).collect::<Result<Vec<_>, _>>()]. *)
Fixpoint try_collect {E A B R} (f : A -> R -> res E (B * R)) (l : list A) (r : R) : res E (list B * R) :=
  match l with
  | [] => Ok ([], r)
  | a :: l =>
      x ← f a r;
      let '(b, r) := x in
      y ← try_collect f l r;
      let '(bs, r) := y in
      Ok (b :: bs, r)
  end.
(** The same without a generator. *)
Fixpoint try_map {E A B} (f : A -> res E B) (l : list A) : res E (list B) :=
  match l with
  | [] => Ok []
  | a :: l => b ← f a; bs ← try_map f l; Ok (b :: bs)
  end.

Section demo.
Context `{C : Curve}.
Implicit Types r : rng.

Definition DKG_CEREMONY : CeremonyId := {| cid := repeat Byte.x42 16 |}.
Definition ISSUE_SESSION : SessionId := {| sid := repeat Byte.x43 16 |}.
Definition REFRESH_SESSION : SessionId := {| sid := repeat Byte.x44 16 |}.

(** ** A single mint *)
Record IssuedDemo : Type := { id_mint_pk : bytes; id_coin_pubkey : bytes; id_coin_signature : Signature }.
Definition issue_coin_demo r : IssuedDemo * rng :=
  let '(mint, r) := Keypair_random r in
  let '(coin_secret, r) := SecretKey_random r in
  let coin_pk_bytes := PublicKey_to_bytes (PublicKey_from_secret coin_secret) in
  let '(coin_sig, r) := schnorr_sign (kp_secret mint) (kp_public mint) coin_pk_bytes r in
  ({| id_mint_pk := PublicKey_to_bytes (kp_public mint); id_coin_pubkey := coin_pk_bytes;
      id_coin_signature := coin_sig |}, r).

(** ** Key generation *)
Definition peer_message (outputs : list DkgRound1Output) (i k : Z) : res CliError.t PeerContribution :=
  out_k ← expect (outputs !! Z.to_nat (k - 1));
  share ← expect (do_shares out_k !! Z.to_nat (i - 1));
  Ok {| pc_broadcast := do_broadcast out_k; pc_share_for_me := share |}.
Definition finalise_one (n : Z) (outputs : list DkgRound1Output) (h : point) (i : Z) : res CliError.t DkgFinalised :=
  received ← try_map (peer_message outputs i) (filter (λ k, k <> i) (seqZ 1 n));
  own ← expect (outputs !! Z.to_nat (i - 1));
  map_err CliError.Mint (dkg_finalize own received h).
Definition run_dkg (fuel : nat) (n t : Z) r : res CliError.t (list DkgFinalised * rng) :=
  h ← map_err CliError.Mint (h_generator fuel);
  params ← map_err CliError.Mint (VssParameters_new n t);
  out ← map_err CliError.Mint (try_collect (λ i r, dkg_start DKG_CEREMONY i params h r) (seqZ 1 n) r);
  let '(outputs, r) := out in
  finalisations ← try_map (finalise_one n outputs h) (seqZ 1 n);
  Ok (finalisations, r).

Record DkgDemo : Type := { dd_n : Z; dd_t : Z; dd_joint_pk : bytes; dd_qual : list Z }.
Definition dkg_sim (fuel : nat) (n t : Z) r : res CliError.t (DkgDemo * rng) :=
  _ ← reject_if ((t =? 0) || (n <? t)) CliError.BadThreshold;
  out ← run_dkg fuel n t r;
  let '(finalised, r) := out in
  first ← expect (finalised !! 0%nat);
  Ok ({| dd_n := n; dd_t := t; dd_joint_pk := PublicKey_to_bytes (df_joint_pk first); dd_qual := df_qual first |}, r).

(** ** Issuance *)
Definition share_of (finalised : list DkgFinalised) (i : Z) : res CliError.t SecretKey :=
  found ← ok_or CliError.MissingShare (list_find (λ f, df_my_index f = i) finalised);
  Ok (df_my_share found.2).
Definition first_signers (finalised : list DkgFinalised) (t : Z) : list Z :=
  df_my_index <$> take (Z.to_nat t) finalised.

Definition issue_coin (finalised : list DkgFinalised) (t : Z) (session_id : SessionId) r : res CliError.t (Coin * rng) :=
  first ← expect (finalised !! 0%nat);
  let joint_pk := df_joint_pk first in
  let signing_set := first_signers finalised t in
  out ← try_collect (λ i r, Ok (validator_round1 session_id i r)) signing_set r;
  let '(r1, r) := out in
  blind_commit ← map_err CliError.Mint (aggregate_commitments session_id signing_set r1.*1);
  out ← map_err CliError.Client (issue_request joint_pk blind_commit r);
  let '(challenge, session, r) := out in
  r3_outputs ← try_map (λ state,
    my_share ← share_of finalised (v1s_my_index state);
    map_err CliError.Mint (partial_sign state challenge my_share signing_set)) r1.*2;
  blind_response ← map_err CliError.Mint (aggregate_responses session_id signing_set r3_outputs);
  coin ← map_err CliError.Client (issue_finalize session blind_response);
  Ok (coin, r).

(** ** Refresh *)
Definition refresh_coin (finalised : list DkgFinalised) (t : Z) (session_id : SessionId) (melted : Coin) r
    : res CliError.t (Coin * rng) :=
  first ← expect (finalised !! 0%nat);
  let joint_pk := df_joint_pk first in
  let signing_set := first_signers finalised t in
  out ← map_err CliError.Refresh
          (try_collect (λ i r, validator_refresh_round1 session_id i DEFAULT_KAPPA r) signing_set r);
  let '(val_r1, r) := out in
  mint_r1 ← map_err CliError.Refresh (aggregate_refresh_round1 session_id DEFAULT_KAPPA signing_set val_r1.*1);
  out ← map_err CliError.Refresh (user_refresh_round2 session_id mint_r1 joint_pk melted r);
  let '(user_r2, user_state, r) := out in
  challenge ← map_err CliError.Refresh (mint_refresh_round3 session_id user_r2 joint_pk);
  reveal ← map_err CliError.Refresh (user_refresh_round4 user_state challenge);
  _ ← map_err CliError.Refresh (mint_refresh_verify_reveal user_r2 mint_r1 challenge reveal joint_pk);
  r5_outputs ← try_map (λ state,
    my_share ← share_of finalised (vrs_my_index state);
    map_err CliError.Refresh (validator_refresh_round5 state user_r2 challenge my_share signing_set)) val_r1.*2;
  mint_r5 ← map_err CliError.Refresh (aggregate_refresh_round5 session_id signing_set r5_outputs);
  coin ← map_err CliError.Refresh (user_refresh_round6 user_state challenge mint_r5 joint_pk);
  Ok (coin, r).

(** ** The whole life of a coin *)
Record LifecycleDemo : Type := {
  ld_joint_pk : bytes; ld_denom : Z;
  ld_initial_pubkey : bytes; ld_initial_nullifier : bytes; ld_initial_verify : bool;
  ld_refreshed_pubkey : bytes; ld_refreshed_nullifier : bytes; ld_refreshed_verify : bool;
  ld_unlinkable : bool;
}.
Definition lifecycle_sim (fuel : nat) r : res CliError.t (LifecycleDemo * rng) :=
  out ← run_dkg fuel 4 3 r;
  let '(finalised, r) := out in
  first ← expect (finalised !! 0%nat);
  let joint_pk := df_joint_pk first in
  out ← issue_coin finalised 3 ISSUE_SESSION r;
  let '(initial_coin, r) := out in
  initial_ok ← map_err CliError.Refresh (Coin_verify initial_coin joint_pk);
  _ ← reject_if (negb initial_ok) CliError.NotVerified;
  out ← refresh_coin finalised 3 REFRESH_SESSION initial_coin r;
  let '(refreshed, r) := out in
  refresh_ok ← map_err CliError.Refresh (Coin_verify refreshed joint_pk);
  _ ← reject_if (negb refresh_ok) CliError.NotVerified;
  Ok ({| ld_joint_pk := PublicKey_to_bytes joint_pk; ld_denom := 10000000;
         ld_initial_pubkey := coin_pubkey_bytes initial_coin; ld_initial_nullifier := Coin_nullifier initial_coin;
         ld_initial_verify := initial_ok;
         ld_refreshed_pubkey := coin_pubkey_bytes refreshed; ld_refreshed_nullifier := Coin_nullifier refreshed;
         ld_refreshed_verify := refresh_ok;
         ld_unlinkable := negb (bool_decide (coin_pubkey_bytes initial_coin = coin_pubkey_bytes refreshed)) |}, r).
End demo.

(** ** Lemmas *)
Lemma try_map_of {E E' A B} (f : A -> res E B) (g : A -> res E' B) l bs :
  mapM (λ a, match g a with Ok b => Some b | _ => None end) l = Some bs ->
  (forall a b, a ∈ l -> g a = Ok b -> f a = Ok b) -> try_map f l = Ok bs.
Proof.
  revert bs. induction l as [|a l IH]; intros bs H Hf; cbn in *; [by injection H as <-|].
  destruct (g a) as [b| |] eqn:Ha; try discriminate. rewrite (Hf a b) by (done || by left). cbn in *.
  destruct (mapM _ l) as [k|]; [|discriminate]. injection H as <-. rewrite (IH k); [done|done|].
  intros x y Hx. apply Hf. by right.
Qed.
Lemma try_map_ok {E A B} (f : A -> res E B) g l : (forall a, a ∈ l -> f a = Ok (g a)) -> try_map f l = Ok (g <$> l).
Proof. intros H. apply (try_map_of f f); [|done]. apply mapM_decode. intros a Ha. by rewrite H. Qed.
Lemma try_map_fmap {E A A' B} (f : A' -> res E B) (h : A -> A') l : try_map f (h <$> l) = try_map (f ∘ h) l.
Proof. induction l as [|a l IH]; cbn; [done|]. by destruct (f (h a)) as [b| |]; cbn; rewrite ?IH. Qed.

(** Calls that never fail give each element its own state of the generator. *)
Lemma try_collect_ok {E B R} (f : Z -> R -> res E (B * R)) (b0 : B) l r : NoDup l ->
  (forall a r, a ∈ l -> exists b r', f a r = Ok (b, r')) ->
  exists (outs : Z -> B) (rngs : Z -> R) r', try_collect f l r = Ok (outs <$> l, r') /\
    forall a, a ∈ l -> exists r'', f a (rngs a) = Ok (outs a, r'').
Proof.
  revert r. induction l as [|a l IH]; intros r Hnd Hf; cbn.
  { exists (λ _, b0), (λ _, r), r. split; [done|]. by intros a Ha%not_elem_of_nil. }
  apply NoDup_cons in Hnd as [Ha Hnd]. destruct (Hf a r ltac:(by left)) as (b & r1 & Hb).
  destruct (IH r1 Hnd) as (outs & rngs & r' & Hc & Ho); [intros; apply Hf; by right|].
  exists (λ x, if decide (x = a) then b else outs x), (λ x, if decide (x = a) then r else rngs x), r'.
  rewrite Hb. step. rewrite Hc. step. split.
  - rewrite decide_True by done. do 3 f_equal. apply list_fmap_ext.
    intros i x Hx%list_elem_of_lookup_2. by rewrite decide_False by (intros ->; done).
  - intros x Hx. destruct (decide (x = a)) as [->|Hne]; [by exists r1|]. apply Ho. set_solver.
Qed.
Lemma try_collect_pure {E B R} (f : Z -> R -> B * R) (b0 : B) l r : NoDup l ->
  exists (rngs : Z -> R) r', try_collect (E := E) (λ a r, Ok (f a r)) l r = Ok ((λ a, (f a (rngs a)).1) <$> l, r').
Proof.
  intros Hnd. destruct (try_collect_ok (E := E) (λ a r, Ok (f a r)) b0 l r Hnd) as (outs & rngs & r' & Hc & Ho).
  { intros a r0 _. destruct (f a r0) as [b r1]. by exists b, r1. }
  exists rngs, r'. rewrite Hc. do 2 f_equal. apply list_fmap_ext. intros i a Ha%list_elem_of_lookup_2.
  destruct (Ho a Ha) as [r'' H%(inj Ok)]. by rewrite H.
Qed.

Section demo_lemmas.
Context `{CO : CurveOk}.

(** What a key generation of [n] parties ends with, for a joint polynomial. *)
Definition party (F : list scalar) (n i : Z) : DkgFinalised :=
  {| df_my_index := i; df_joint_pk := PublicKey_from_secret {| sk_scalar := peval F 0 |};
     df_my_share := {| sk_scalar := peval F (sc_of_u64 i) |}; df_qual := seqZ 1 n |}.
Definition parties (F : list scalar) (n : Z) : list DkgFinalised := party F n <$> seqZ 1 n.

Lemma lookup_outs {B} (f : Z -> B) n i : 1 <= i <= n -> (f <$> seqZ 1 n) !! Z.to_nat (i - 1) = Some (f i).
Proof.
  intros H. rewrite list_lookup_fmap, lookup_seqZ_lt by lia. cbn. f_equal. f_equal. lia.
Qed.

Lemma finalise_one_ok params h polys outs j : 1 <= vp_n params < 2 ^ 16 ->
  (forall i, 1 <= i <= vp_n params -> honest_output DKG_CEREMONY params h (polys i) i (outs i)) ->
  1 <= j <= vp_n params ->
  finalise_one (vp_n params) (outs <$> seqZ 1 (vp_n params)) h j =
    Ok (party (joint_poly polys (vp_n params)) (vp_n params) j).
Proof.
  intros Hn Hhon Hj. set (order := filter (λ k, k <> j) (seqZ 1 (vp_n params))).
  set (no_share := {| share_index := 0; f_share := sc_zero; g_share := sc_zero |}).
  set (msg := λ k, {| pc_broadcast := do_broadcast (outs k);
    pc_share_for_me := default no_share (do_shares (outs k) !! Z.to_nat (j - 1)) |}).
  assert (forall k, k ∈ order -> 1 <= k <= vp_n params /\
    do_shares (outs k) !! Z.to_nat (j - 1) = Some (pc_share_for_me (msg k))) as Hk.
  { intros k [_ Hr%elem_of_seqZ]%list_elem_of_filter. split; [lia|].
    destruct (ho_share _ _ _ _ _ _ (Hhon k ltac:(lia)) j Hj) as (s & Hs & _). cbn. by rewrite Hs. }
  unfold finalise_one. fold order. rewrite (try_map_ok _ msg).
  2:{ intros k [Hr Hs]%Hk. unfold peer_message. rewrite lookup_outs by lia. step. by rewrite Hs. }
  step. rewrite lookup_outs by lia. step.
  rewrite (honest_finalize DKG_CEREMONY params h polys outs Hn Hhon j order); [done|lia| |].
  - apply NoDup_Permutation; [|apply NoDup_seqZ|].
    + apply NoDup_cons. split; [by intros [? _]%list_elem_of_filter|apply NoDup_filter, NoDup_seqZ].
    + intros k. rewrite elem_of_cons. unfold order. rewrite list_elem_of_filter, elem_of_seqZ.
      split; [lia|]. destruct (decide (k = j)); [by left|right; done].
  - apply Forall2_fmap_r, Forall_Forall2_diag, Forall_forall. intros k [_ Hs]%Hk.
    unfold deliver. by rewrite Hs.
Qed.

Lemma run_dkg_ok fuel h n t r : h_generator fuel = Ok h -> pt_torsion_free h = true ->
  1 <= t <= n -> n < 2 ^ 16 ->
  exists F r', run_dkg fuel n t r = Ok (parties F n, r') /\ (length F <= Z.to_nat t)%nat.
Proof.
  intros Hh Htf Ht Hn. set (params := {| vp_n := n; vp_t := t |}).
  assert (forall i r, i ∈ seqZ 1 n -> exists o r', dkg_start DKG_CEREMONY i params h r = Ok (o, r')) as Hs.
  { intros i r0 Hi%elem_of_seqZ. destruct (dkg_start_ok DKG_CEREMONY i params h r0) as (o & r' & H & _);
      [cbn; lia..|done|]. by exists o, r'. }
  destruct (Hs 1 r ltac:(apply elem_of_seqZ; lia)) as (o0 & _ & _).
  destruct (try_collect_ok _ o0 (seqZ 1 n) r (NoDup_seqZ _ _) Hs) as (outs & rngs & r' & Hc & Ho).
  set (polys := λ i, dkg_poly params (rngs i)). set (F := joint_poly polys n).
  assert (forall i, 1 <= i <= vp_n params -> honest_output DKG_CEREMONY params h (polys i) i (outs i)) as Hhon.
  { apply started_honest; [cbn; lia|done|]. intros i Hi. apply Ho, elem_of_seqZ. cbn in Hi. lia. }
  exists F, r'. split.
  2:{ apply length_joint. intros i. unfold polys. rewrite length_dkg_poly by (cbn; lia). cbn. lia. }
  unfold run_dkg. rewrite Hh. step. unfold VssParameters_new.
  replace (t =? 0) with false by lia. replace (n <? t) with false by lia. cbn [orb]. step. fold params.
  rewrite Hc. step. rewrite (try_map_ok _ (party F n)); [done|].
  intros j Hj%elem_of_seqZ. apply (finalise_one_ok params h polys outs j); [cbn; lia|done|cbn; lia].
Qed.

Lemma first_party F n : 1 <= n -> parties F n !! 0%nat = Some (party F n 1).
Proof. intros H. by apply (lookup_outs (party F n) n 1). Qed.

Lemma first_signers_eq F n t : 1 <= t <= n -> first_signers (parties F n) t = seqZ 1 t.
Proof.
  intros H. unfold first_signers, parties. rewrite <- fmap_take, <- list_fmap_compose.
  rewrite (list_fmap_ext _ id) by done. rewrite list_fmap_id. unfold seqZ.
  rewrite <- fmap_take, take_seq. by rewrite Nat.min_l by lia.
Qed.

Lemma share_of_ok F n i : 1 <= i <= n -> share_of (parties F n) i = Ok {| sk_scalar := peval F (sc_of_u64 i) |}.
Proof.
  intros H. unfold share_of.
  rewrite (proj2 (list_find_Some _ _ (Z.to_nat (i - 1)) (party F n i))); [done|].
  split_and!; [by apply lookup_outs|done|]. intros j y Hj Hlt.
  apply list_lookup_fmap_Some in Hj as (k & -> & Hk). apply lookup_seqZ in Hk as [-> _]. cbn. lia.
Qed.

(** The signing set of the first [t] parties. *)
Lemma signers_ok t : 1 <= t < 2 ^ 16 ->
  NoDup (seqZ 1 t) /\ Forall u16 (seqZ 1 t) /\ 0 ∉ seqZ 1 t /\ length (seqZ 1 t) = Z.to_nat t.
Proof.
  intros Ht. split_and!; [apply NoDup_seqZ| | |apply length_seqZ].
  - apply Forall_forall. intros i Hi%elem_of_seqZ. unfold u16, in_width. lia.
  - rewrite elem_of_seqZ. lia.
Qed.

Definition joint (F : list scalar) : PublicKey := PublicKey_from_secret {| sk_scalar := peval F 0 |}.

Lemma issue_coin_ok F n t session r : 1 <= t <= n -> n < 2 ^ 16 -> (length F <= Z.to_nat t)%nat ->
  exists coin r', issue_coin (parties F n) t session r = Ok (coin, r') /\ Coin_verify coin (joint F) = Ok true.
Proof.
  intros Ht Hn HF. destruct (signers_ok t ltac:(lia)) as (Hnd & Hu & H0 & Hl).
  unfold issue_coin. rewrite first_party, first_signers_eq by lia. step.
  destruct (try_collect_pure (E := CliError.t) (validator_round1 session) (validator_round1 session 0 r).1 _ r Hnd)
    as (rngs & r1 & Hc). rewrite Hc. step.
  destruct (rng_fill 32 r1) as [seed r2] eqn:Hseed.
  set (sk := {| sk_scalar := derive_coin_secret seed |}).
  set (cp := PublicKey_to_bytes (PublicKey_from_secret sk)).
  destruct (threshold_session session (seqZ 1 t) rngs (λ i, {| sk_scalar := peval F (sc_of_u64 i) |}) F cp r2
    (round1_msgs session (seqZ 1 t) rngs)) as (commit & ch & us & r' & outs & Ha & Hb & H3 & Hr); try done; [lia|].
  change (λ a, (validator_round1 session a (rngs a)).1) with (round1_of session rngs).
  assert ((round1_of session rngs <$> seqZ 1 t).*1 = round1_msgs session (seqZ 1 t) rngs) as ->
    by (by rewrite <- list_fmap_compose).
  rewrite Ha. step.
  unfold issue_request. rewrite Hseed. rewrite derived_key_ok. cbn [expect_res mbind res_bind]. fold sk. fold cp.
  change (df_joint_pk (party F n 1)) with (joint F). fold (joint F) in Hb. rewrite Hb. step.
  rewrite <- list_fmap_compose, try_map_fmap.
  rewrite (try_map_of _ _ _ outs H3).
  2:{ intros i o Hi%elem_of_seqZ Ho. cbn [compose]. rewrite round1_of_eq in *. cbn [snd v1s_my_index].
      rewrite share_of_ok by lia. step. unfold round3_of in Ho. rewrite round1_of_eq in Ho. cbn [snd] in Ho.
      by rewrite Ho. }
  step. destruct (Hr outs ltac:(done)) as (resp & sig & -> & Hu' & Hv). step.
  unfold issue_finalize. cbn [is_user_state is_seed is_cp_bytes]. rewrite Hu'. step.
  rewrite derived_key_ok. cbn [expect_res mbind res_bind]. rewrite Coin_new_derived by done. step.
  eexists _, r'. split; [done|]. unfold Coin_verify. cbn [coin_pubkey_bytes coin_signature].
  unfold joint. by rewrite Hv.
Qed.

Lemma refresh_coin_ok F n t session melted r : 1 <= t <= n -> n < 2 ^ 16 -> (length F <= Z.to_nat t)%nat ->
  Coin_verify melted (joint F) = Ok true ->
  exists coin r', refresh_coin (parties F n) t session melted r = Ok (coin, r') /\
    Coin_verify coin (joint F) = Ok true.
Proof.
  intros Ht Hn HF Hm. destruct (signers_ok t ltac:(lia)) as (Hnd & Hu & H0 & Hl).
  unfold refresh_coin. rewrite first_party, first_signers_eq by lia. step.
  assert (forall i r, exists b r', validator_refresh_round1 session i DEFAULT_KAPPA r = Ok (b, r')) as Hone.
  { intros i r0. rewrite validator_refresh_round1_eq by (unfold DEFAULT_KAPPA; lia). eauto. }
  destruct (Hone 0 r) as (b0 & _ & _).
  destruct (try_collect_ok _ b0 (seqZ 1 t) r Hnd (λ i r0 _, Hone i r0)) as (outs1 & rngs & r1 & Hc & Ho).
  rewrite Hc. step.
  destruct (refresh_session session DEFAULT_KAPPA rngs (seqZ 1 t) (λ i, {| sk_scalar := peval F (sc_of_u64 i) |}) F melted r1
    (λ i, (outs1 i).1) (λ i, (outs1 i).2) (outs1 <$> seqZ 1 t).*1) as (mr1 & ur2 & urs & r' & ch & rv & outs5 & H1 & H2 & H3 & H4 & Hv & H5 & H6);
    try done; [lia| | |].
  { intros i Hi. destruct (Ho i Hi) as [r'' Hi']. exists r''. rewrite Hi'. by destruct (outs1 i). }
  { by rewrite <- list_fmap_compose. }
  fold (joint F) in H2, H3, Hv, H6. change (df_joint_pk (party F n 1)) with (joint F).
  rewrite H1. step. rewrite H2. step. rewrite H3. step. rewrite H4. step. rewrite Hv. step.
  rewrite <- list_fmap_compose, try_map_fmap. rewrite (try_map_of _ _ _ outs5 H5).
  2:{ intros i o Hi Hok. cbn [compose]. destruct (Ho i Hi) as [r'' Hi'].
      rewrite validator_refresh_round1_eq in Hi' by (unfold DEFAULT_KAPPA; lia). injection Hi' as Hi' _.
      rewrite <- Hi' in Hok |- *. cbn [snd vrs_my_index] in *. apply elem_of_seqZ in Hi.
      rewrite share_of_ok by lia. step. by rewrite Hok. }
  step. destruct (H6 outs5 ltac:(done)) as (resp & coin & -> & H7 & Hcv).
  step. rewrite H7. step. by exists coin, r'.
Qed.
End demo_lemmas.

(** ** Properties *)
Section demo_properties.
Context `{CO : CurveOk}.

(** C12: the simulations end to end.  With a second generator found, a key
    generation of [n] parties with threshold [t] ends, for every state of the
    generator of randomness, in one joint key and the qualified set of all
    parties, unless [t] is 0 or above [n], which is refused.  The first three
    of four parties then issue a coin that verifies under their key and
    refresh it into another that verifies: no call of the six protocol steps
    fails, and the report says so.  The coin of a single mint verifies under
    the printed key. *)
Theorem simulations_succeed fuel h : h_generator fuel = Ok h ->
  (forall n t r, u16 n -> u16 t ->
     if (t =? 0) || (n <? t) then dkg_sim fuel n t r = Err CliError.BadThreshold
     else exists pk r', dkg_sim fuel n t r =
       Ok ({| dd_n := n; dd_t := t; dd_joint_pk := pk; dd_qual := seqZ 1 n |}, r')) /\
  (forall r, exists pk initial refreshed r', lifecycle_sim fuel r =
     Ok ({| ld_joint_pk := PublicKey_to_bytes pk; ld_denom := 10000000;
            ld_initial_pubkey := coin_pubkey_bytes initial; ld_initial_nullifier := Coin_nullifier initial;
            ld_initial_verify := true;
            ld_refreshed_pubkey := coin_pubkey_bytes refreshed; ld_refreshed_nullifier := Coin_nullifier refreshed;
            ld_refreshed_verify := true;
            ld_unlinkable := negb (bool_decide (coin_pubkey_bytes initial = coin_pubkey_bytes refreshed)) |}, r') /\
     Coin_verify initial pk = Ok true /\ Coin_verify refreshed pk = Ok true) /\
  (forall r, let d := (issue_coin_demo r).1 in
     exists pk, PublicKey_from_bytes (id_mint_pk d) = Ok pk /\
       schnorr_verify pk (id_coin_pubkey d) (id_coin_signature d) = Ok true).
Proof.
  intros Hh. pose proof (h_generator_tf _ _ Hh) as Htf. split; [|split].
  - intros n t r Hn Ht. unfold u16, in_width in *. unfold dkg_sim. destruct (_ || _) eqn:E; step; [done|].
    apply orb_false_iff in E as [E1 E2].
    destruct (run_dkg_ok fuel h n t r Hh Htf) as (F & r' & -> & _); [lia..|]. step.
    rewrite first_party by lia. step. by eexists _, r'.
  - intros r. unfold lifecycle_sim.
    destruct (run_dkg_ok fuel h 4 3 r Hh Htf) as (F & r1 & -> & HF); [lia..|]. step. rewrite first_party by lia. step.
    destruct (issue_coin_ok F 4 3 ISSUE_SESSION r1) as (coin & r2 & -> & Hv); [lia..|]. step.
    change (df_joint_pk (party F 4 1)) with (joint F). rewrite Hv. step.
    destruct (refresh_coin_ok F 4 3 REFRESH_SESSION coin r2) as (new & r3 & -> & Hv'); [lia..|done|]. step.
    rewrite Hv'. step. by exists (joint F), coin, new, r3.
  - intros r. unfold issue_coin_demo, Keypair_random.
    destruct (SecretKey_random r) as [mint r1]. cbn [kp_secret kp_public].
    destruct (SecretKey_random r1) as [secret r2].
    pose proof (schnorr_sign_ok mint (PublicKey_to_bytes (PublicKey_from_secret secret)) r2) as Hs.
    destruct (schnorr_sign _ _ _ _) as [sig r3]. cbn [fst id_mint_pk id_coin_pubkey id_coin_signature] in *.
    eexists. split; [|exact Hs]. apply PublicKey_from_bytes_compress. auto with tardus.
Qed.
End demo_properties.

#[local] Existing Instance toy.
#[local] Existing Instance toy_ok.

Lemma simulations_succeed_witness :
  (exists pk r', dkg_sim 64 4 3 (demo_rng 5) = Ok ({| dd_n := 4; dd_t := 3; dd_joint_pk := pk; dd_qual := [1; 2; 3; 4] |}, r')) /\
  exists report r', lifecycle_sim 64 (demo_rng 9) = Ok (report, r') /\ ld_refreshed_verify report = true.
Proof.
  destruct (simulations_succeed 64 demo_h) as (Hd & Hl & _); [vm_refl|]. split.
  - exact (Hd 4 3 (demo_rng 5) ltac:(unfold u16, in_width; lia) ltac:(unfold u16, in_width; lia)).
  - destruct (Hl (demo_rng 9)) as (pk & c1 & c2 & r' & H & _). eexists _, r'. split; [exact H|reflexivity].
Defined.
