(* ===== verification/CliTools.v ===== *)
(** * The coin and invoice commands of the command line

    Models [crates/tardus-cli/src/commands/coin.rs] and [invoice.rs]: what
    each prints, from its parsed arguments, and the exit status.  What is
    printed is a record of the values in it. *)
From S2P Require Import Prelude Crypto ToyCurve Platform ToyPlatform Core Wire MintBase Instruction ClientBase Invoice Client Refresh Wallet WalletFront WalletCli.

Module ToolError.
Inductive t : Type :=
| Front (e : FrontError.t)
| CoinLength (len : Z)
| MemoTooLong (len : Z).
End ToolError.

Section tools.
Context `{C : Curve} `{HX : Hex}.

Definition decode_hex_32 (s : bytes) : res ToolError.t bytes := map_err ToolError.Front (parse_hex32 s).

(** ** coin *)
Record VerifyReport : Type := { vr_verify : bool; vr_coin_pubkey : bytes; vr_joint_pk : bytes }.
(** [process::exit(2)] when the signature does not verify. *)
Definition exit_code (v : VerifyReport) : Z := if vr_verify v then 0 else 2.

Definition verify (coin_hex joint_pk_hex : bytes) : res ToolError.t VerifyReport :=
  coin_bytes ← ok_or (ToolError.Front FrontError.Hex) (hex_decode coin_hex);
  _ ← reject_if (negb (length coin_bytes =? 32 + 32 + 64)%nat) (ToolError.CoinLength (Z.of_nat (length coin_bytes)));
  let pubkey_bytes := take 32 (drop 32 coin_bytes) in
  let sig_bytes := take 64 (drop 64 coin_bytes) in
  joint_pk_arr ← decode_hex_32 joint_pk_hex;
  joint_pk ← map_err (ToolError.Front ∘ FrontError.Core) (PublicKey_from_bytes joint_pk_arr);
  let sig := Signature_from_bytes sig_bytes in
  ok ← map_err (ToolError.Front ∘ FrontError.Core) (schnorr_verify joint_pk pubkey_bytes sig);
  Ok {| vr_verify := ok; vr_coin_pubkey := hex_encode pubkey_bytes; vr_joint_pk := joint_pk_hex |}.

(** ** invoice *)
Definition make (pubkey_hex : bytes) (denom : Z) (relays : list bytes) (memo : option bytes) : res ToolError.t bytes :=
  pubkey ← decode_hex_32 pubkey_hex;
  _ ← (match memo with
       | Some m => reject_if (MEMO_MAX_BYTES <? length m)%nat (ToolError.MemoTooLong (Z.of_nat (length m)))
       | None => Ok tt
       end);
  Ok (Invoice_to_uri {| inv_recipient_pubkey := pubkey; inv_denom := denom; inv_relays := relays; inv_memo := memo |}).

Record ParsedInvoice : Type := { pi_recipient : bytes; pi_denom : Z; pi_relays : list bytes; pi_memo : shown_memo }.
Definition parse (uri : bytes) : res ToolError.t ParsedInvoice :=
  inv ← map_err (ToolError.Front ∘ FrontError.Client) (Invoice_parse uri);
  Ok {| pi_recipient := hex_encode (inv_recipient_pubkey inv); pi_denom := inv_denom inv; pi_relays := inv_relays inv;
        pi_memo := match inv_memo inv with
                   | None => MemoNull
                   | Some m => if utf8_valid m then MemoText m else MemoHex (hex_encode m)
                   end |}.
End tools.

(** ** Lemmas *)
Section lemmas.
Context `{CO : CurveOk} `{HX : Hex} {HO : HexOk HX}.

Lemma decode_hex_32_encode b : length b = 32%nat -> decode_hex_32 (hex_encode b) = Ok b.
Proof. intros Hl. unfold decode_hex_32, parse_hex32, parse_hex. by rewrite hex_decode_encode; cbn; rewrite Hl. Qed.

(** A coin that verifies in [tardus-refresh] passes, with exit status 0 ... *)
Lemma verify_accepts_coin sk pk sig joint : length sk = 32%nat -> length pk = 32%nat -> wf_signature sig ->
  PublicKey_from_bytes (PublicKey_to_bytes joint) = Ok joint -> length (PublicKey_to_bytes joint) = 32%nat ->
  schnorr_verify joint pk sig = Ok true ->
  exists v, verify (hex_encode (sk ++ pk ++ Signature_to_bytes sig)) (hex_encode (PublicKey_to_bytes joint)) = Ok v /\
    exit_code v = 0.
Proof.
  intros Hs Hp Hw HP Hl Hv. unfold verify. rewrite hex_decode_encode. cbn [ok_or]. step.
  pose proof (length_Signature_to_bytes sig Hw) as Hsl.
  rewrite !length_app, Hs, Hp, Hsl. cbn [Nat.eqb Nat.add negb reject_if]. step.
  rewrite decode_hex_32_encode by done. step. rewrite HP. step.
  rewrite !drop_app_length' by done. rewrite take_app_length' by done.
  rewrite (app_assoc sk), drop_app_length' by (rewrite length_app, Hs, Hp; done).
  rewrite take_ge by (rewrite Hsl; done). destruct Hw as [Hr _].
  rewrite Signature_from_to_bytes by done. rewrite Hv. step. by eexists.
Qed.
(** ... but the secret is not looked at: a coin with any other secret passes
    too, though [Coin_new] refuses it. *)
Lemma verify_ignores_secret sk sk' rest joint_pk_hex : length sk = 32%nat -> length sk' = 32%nat ->
  verify (hex_encode (sk ++ rest)) joint_pk_hex = verify (hex_encode (sk' ++ rest)) joint_pk_hex.
Proof.
  intros Hs Hs'. unfold verify. rewrite !hex_decode_encode. cbn [ok_or]. step.
  rewrite !length_app, Hs, Hs'.
  assert (forall s, length s = 32%nat -> drop 64 (s ++ rest) = drop 32 rest) as Hd.
  { intros s Hl. rewrite <- (drop_drop _ 32 32). by rewrite drop_app_length'. }
  rewrite !Hd by done. by rewrite !drop_app_length'.
Qed.

(** An invoice that is made is read back, as the fields that were given. *)
Lemma make_parse pubkey denom relays memo : length pubkey = 32%nat -> u64 denom ->
  let inv := {| inv_recipient_pubkey := pubkey; inv_denom := denom; inv_relays := relays; inv_memo := memo |} in
  carried inv -> exists uri, make (hex_encode pubkey) denom relays memo = Ok uri /\ Invoice_parse uri = Ok inv.
Proof.
  intros Hl Hd inv Hc. unfold make. rewrite decode_hex_32_encode by done. step. exists (Invoice_to_uri inv).
  split; [|apply parse_to_uri; done]. destruct memo as [m|]; [|done].
  assert (length m <= MEMO_MAX_BYTES)%nat as Hm by (by apply Hc). by rewrite (proj2 (Nat.ltb_ge _ _) Hm).
Qed.
End lemmas.
