(* ===== verification/DevnetCli.v ===== *)
(** * The devnet commands of the command line

    Models [crates/tardus-cli/src/commands/devnet.rs] without its two demos,
    which start daemons as processes: the commands that set up the accounts of
    the program, report on them, and refresh and withdraw coins.  A line or a
    group of lines that is printed is a constructor of [said] with the values
    in it.  [keypair_path] is the path of the default key file, taken from the
    environment.  Arithmetic on [usize] is that of the release profile. *)
From S2P Require Import Prelude Crypto Async Parallel Platform Core Wire MintBase Instruction Program Solana.
From S2P Require Import Ed25519 Transparency Wallet WalletFront Devnet.

(** The accounts of the program. *)
Inductive item : Type := Registry | NullifierTree | Vault_of (denom : Z) | Pool.
Definition item_seeds (i : item) : list bytes :=
  match i with
  | Registry => keyset_registry_seeds
  | NullifierTree => nullifier_tree_seeds
  | Vault_of denom => vault_seeds denom
  | Pool => sponsor_pool_seeds
  end.

Inductive said : Type :=
| SayProgram (rpc_url program_id : bytes)
| SayProgramAccount (owner : bytes) (data_len : Z)
| SayAddresses (addresses : list bytes)
| SayPayer (payer : bytes)
| SayBalance (lamports : Z)
| SayNumbers (l : list Z)
| SayKey (key : bytes)
| SayMissing (i : item)
| SayPresent (i : item) (data_len : Z)
| SaySkip (i : item) (address : bytes)
| SayEmptyRegistry
| SayUndecodable (i : item)
| SayEntries (entries : list KeysetEntry)
| SayNullifierCount (n : Z)
| SayOk (signature : bytes)
| SayExplorer (url : bytes)
| SayAlreadyInitialised
| SayResize (address : bytes) (current_size current_lamports new_size new_rent topup : Z)
| SayCapacity (i : item) (entries estimated_cap total : Z)
| SayPoolBalance (lamports drainable rent : Z)
| SaySponsor (sponsor : bytes) (pool_size : Z)
| SayEphemeral (ephemeral : bytes) (source : list bytes) (lamports : Z)
| SayEphemeralFunded (ephemeral signature : bytes) (from_pool : bool)
| SayCoin (payer role : bytes) (denom : Z) (joint_pk coin_pubkey : bytes) (extra : list bytes)
| SayNullifier (nullifier : bytes)
| SayStrategy (strategy : bytes) (ephemeral : option bytes)
| SaySpent (coin_pubkey nullifier : bytes) (spent : bool) (on_chain_total : Z).

Definition REGISTRY_SIZE : Z := 1024.
Definition NULLIFIER_SIZE : Z := 8192.
Definition EPHEMERAL_PAYER_LAMPORTS : Z := 1000000.

(** [str::contains]. *)
Definition contains_text (needle s : bytes) : bool :=
  existsb (λ i, bool_decide (take (length needle) (drop i s) = needle)) (seq 0 (S (length s))).
(** [str::split] at commas and colons. *)
Fixpoint split_paths (s : bytes) : list bytes :=
  match s with
  | [] => [[]]
  | c :: s =>
      if Byte.eqb c "," || Byte.eqb c ":" then [] :: split_paths s
      else match split_paths s with
           | p :: l => (c :: p) :: l
           | [] => [[c]]
           end
  end.

Definition explorer (sig : bytes) : bytes :=
  ascii "https://explorer.solana.com/tx/" ++ sig ++ ascii "?cluster=devnet".

(** The bytes of the ed25519 instruction, written field by field into 144
    zeros. *)
Definition build_ed25519_precompile_data (sig : Signature) (pk msg : bytes) : bytes :=
  foldl (λ data w, take w.1 data ++ w.2 ++ drop (w.1 + length w.2) data) (zeros (16 + 64 + 32 + 32))
    [(0%nat, le_bytes 1 1); (1%nat, le_bytes 1 0); (2%nat, le_bytes 2 16); (4%nat, le_bytes 2 (2 ^ 16 - 1));
     (6%nat, le_bytes 2 80); (8%nat, le_bytes 2 (2 ^ 16 - 1)); (10%nat, le_bytes 2 112); (12%nat, le_bytes 2 32);
     (14%nat, le_bytes 2 (2 ^ 16 - 1)); (16%nat, sig_r sig); (48%nat, sig_s sig); (80%nat, pk); (112%nat, msg)].

Section devnet.
Context `{C : Curve} `{T : Transport} {Cl : Cluster T} `{SO : Solana} `{HX : Hex} (keypair_path : bytes).
#[local] Abbreviation cli := (io (world said) FrontError.t).

(** ** Who pays *)
Definition pick_sponsor_from_pool (pool_spec : bytes) : cli bytes :=
  let trimmed := trim pool_spec in
  if bool_decide (trimmed = []) then read_keypair_file keypair_path
  else
    let paths := filter (λ p, p <> []) (trim <$> split_paths trimmed) in
    _ ← lift (reject_if (bool_decide (paths = [])) FrontError.NoSponsorPaths);
    i ← os_draw (choose_index (length paths));
    chosen ← lift (ok_or FrontError.NoSponsorPaths (paths !! i));
    read_keypair_file chosen.
Definition ephemeral_payer_from_pool (pool_caller rpc_url program_id : bytes) (lamports : Z) : cli bytes :=
  ephemeral ← os_draw new_keypair;
  _ ← send_signed rpc_url pool_caller [payout_instruction program_id pool_caller ephemeral lamports];
  mret ephemeral.
Definition ephemeral_payer_from_sponsor (sponsor rpc_url : bytes) (lamports : Z) : cli bytes :=
  ephemeral ← os_draw new_keypair;
  _ ← send_signed rpc_url sponsor [transfer_instruction sponsor ephemeral lamports];
  mret ephemeral.

(** ** Reports *)
Definition say_registry (a : option account) : cli unit :=
  match a with
  | None => prints (SayMissing Registry)
  | Some account =>
      _ ← prints (SayPresent Registry (Z.of_nat (length (acc_data account))));
      if all_zero (acc_data account) then prints SayEmptyRegistry
      else match deserialize_padded KeysetRegistry_read (acc_data account) with
           | Ok registry => prints (SayEntries (kr_entries registry))
           | _ => prints (SayUndecodable Registry)
           end
  end.
Definition say_nullifiers (a : option account) : cli unit :=
  match a with
  | None => prints (SayMissing NullifierTree)
  | Some account =>
      _ ← prints (SayPresent NullifierTree (Z.of_nat (length (acc_data account))));
      if all_zero (acc_data account) then prints (SayNullifierCount 0)
      else match deserialize_padded NullifierSet_read (acc_data account) with
           | Ok nullifiers => prints (SayNullifierCount (NullifierSet_len nullifiers))
           | _ => prints (SayUndecodable NullifierTree)
           end
  end.
Definition info (program_id_b58 rpc_url : bytes) : cli unit :=
  program_id ← lift (parse_pubkey program_id_b58);
  _ ← prints (SayProgram rpc_url program_id);
  prog_account ← rpc (get_account rpc_url program_id);
  _ ← prints (SayProgramAccount (acc_owner prog_account) (Z.of_nat (length (acc_data prog_account))));
  let registry_pda := address program_id keyset_registry_seeds in
  let nullifier_pda := address program_id nullifier_tree_seeds in
  _ ← prints (SayAddresses [registry_pda; nullifier_pda]);
  a ← ask (get_account rpc_url registry_pda);
  _ ← say_registry a;
  a ← ask (get_account rpc_url nullifier_pda);
  say_nullifiers a.

(** [unwrap_or_else(|_| ..::new())]. *)
Definition read_or {R} (fresh : R) (r : reader R) (data : bytes) : R :=
  match deserialize_or fresh r data with Ok x => x | _ => fresh end.
Definition capacity (program_id_b58 rpc_url : bytes) : cli unit :=
  program_id ← lift (parse_pubkey program_id_b58);
  reg ← ask (get_account rpc_url (address program_id keyset_registry_seeds));
  _ ← (match reg with
       | Some reg =>
           let total := Z.of_nat (length (acc_data reg)) in
           let registry := read_or KeysetRegistry_new KeysetRegistry_read (acc_data reg) in
           prints (SayCapacity Registry (Z.of_nat (length (kr_entries registry))) (wrap 64 (total - 4) / 82) total)
       | None => prints (SayMissing Registry)
       end);
  null_acc ← ask (get_account rpc_url (address program_id nullifier_tree_seeds));
  _ ← (match null_acc with
       | Some null_acc =>
           let total := Z.of_nat (length (acc_data null_acc)) in
           let nullifiers := read_or NullifierSet_new NullifierSet_read (acc_data null_acc) in
           prints (SayCapacity NullifierTree (NullifierSet_len nullifiers) (wrap 64 (total - 4) / (32 + 10)) total)
       | None => prints (SayMissing NullifierTree)
       end);
  pool_acc ← ask (get_account rpc_url (address program_id sponsor_pool_seeds));
  match pool_acc with
  | Some pool_acc =>
      let rent_exempt := rent_minimum_balance (Z.of_nat (length (acc_data pool_acc))) in
      prints (SayPoolBalance (acc_lamports pool_acc) (sat_sub (acc_lamports pool_acc) rent_exempt) rent_exempt)
  | None => prints (SayMissing Pool)
  end.

Definition query_nullifier (coin_pubkey_hex program_id_b58 rpc_url : bytes) : cli unit :=
  coin_pk ← lift (parse_hex32 coin_pubkey_hex);
  program_id ← lift (parse_pubkey program_id_b58);
  account ← rpc (get_account rpc_url (address program_id nullifier_tree_seeds));
  nullifier_set ← lift (deserialize_or NullifierSet_new NullifierSet_read (acc_data account));
  let expected := compute_nullifier coin_pk in
  prints (SaySpent coin_pk expected (NullifierSet_contains nullifier_set expected) (NullifierSet_len nullifier_set)).

(** ** Setting up the accounts *)
Definition bootstrap_instruction (program_id payer pda : bytes) (kind : BootstrapKind.t) (size denom : Z) : SolInstruction :=
  {| si_program_id := program_id;
     si_accounts := [writable payer true; writable pda false; readonly system_program_id false];
     si_data := Instruction.serialize (Instruction.Bootstrap kind size denom) |}.
Definition bootstrap_if_missing (rpc_url program_id payer : bytes) (i : item) (kind : BootstrapKind.t) (size denom : Z) : cli unit :=
  let pda := address program_id (item_seeds i) in
  present ← ask (get_account rpc_url pda);
  match present with
  | Some _ => prints (SaySkip i pda)
  | None =>
      sig ← send_signed rpc_url payer [bootstrap_instruction program_id payer pda kind size denom];
      prints (SayOk sig)
  end.

Definition bootstrap_singletons (program_id_b58 rpc_url : bytes) : cli unit :=
  program_id ← lift (parse_pubkey program_id_b58);
  payer ← read_keypair_file keypair_path;
  _ ← prints (SayPayer payer);
  balance ← rpc (get_balance rpc_url payer);
  _ ← prints (SayBalance balance);
  _ ← lift (reject_if (balance <? 50000000) FrontError.LowBalance);
  _ ← bootstrap_if_missing rpc_url program_id payer Registry BootstrapKind.KeysetRegistry REGISTRY_SIZE 0;
  bootstrap_if_missing rpc_url program_id payer NullifierTree BootstrapKind.NullifierTree NULLIFIER_SIZE 0.

Definition bootstrap_vault (denom : Z) (program_id_b58 rpc_url : bytes) : cli unit :=
  program_id ← lift (parse_pubkey program_id_b58);
  payer ← read_keypair_file keypair_path;
  _ ← prints (SayPayer payer);
  _ ← prints (SayAddresses [address program_id (vault_seeds denom)]);
  bootstrap_if_missing rpc_url program_id payer (Vault_of denom) BootstrapKind.Vault 0 denom.

Definition register_instruction (program_id payer keyset_id joint_pk : bytes) (denom epoch : Z) : SolInstruction :=
  {| si_program_id := program_id;
     si_accounts := [writable payer true; writable (address program_id keyset_registry_seeds) false];
     si_data := Instruction.serialize (Instruction.RegisterKeyset keyset_id denom joint_pk epoch []) |}.
Definition register_keyset (joint_pk_hex : bytes) (denom epoch : Z) (program_id_b58 rpc_url : bytes) : cli unit :=
  joint_pk ← lift (parse_hex32 joint_pk_hex);
  program_id ← lift (parse_pubkey program_id_b58);
  payer ← read_keypair_file keypair_path;
  let keyset_id := le_bytes 1 2 ++ joint_pk in
  _ ← prints (SayPayer payer);
  _ ← prints (SayAddresses [address program_id keyset_registry_seeds]);
  _ ← prints (SayKey keyset_id);
  _ ← prints (SayNumbers [denom; epoch]);
  sig ← send_signed rpc_url payer [register_instruction program_id payer keyset_id joint_pk denom epoch];
  prints (SayOk sig).

Definition resize_instruction (program_id payer pda : bytes) (kind : BootstrapKind.t) (new_size : Z) : SolInstruction :=
  {| si_program_id := program_id;
     si_accounts := [writable payer true; writable pda false; readonly system_program_id false];
     si_data := Instruction.serialize (Instruction.ResizeAccount kind new_size 0) |}.
Definition resize (i : item) (kind : BootstrapKind.t) (new_size : Z) (program_id_b58 rpc_url : bytes) : cli unit :=
  program_id ← lift (parse_pubkey program_id_b58);
  payer ← read_keypair_file keypair_path;
  let pda := address program_id (item_seeds i) in
  acc ← rpc (get_account rpc_url pda);
  let new_rent := rent_minimum_balance new_size in
  let topup := sat_sub new_rent (acc_lamports acc) in
  _ ← prints (SayPayer payer);
  _ ← prints (SayResize pda (Z.of_nat (length (acc_data acc))) (acc_lamports acc) new_size new_rent topup);
  let top_up := if 0 <? topup then [transfer_instruction payer pda topup] else [] in
  sig ← send_signed rpc_url payer (top_up ++ [resize_instruction program_id payer pda kind new_size]);
  _ ← prints (SayOk sig);
  prints (SayExplorer (explorer sig)).
Definition resize_registry (new_size : Z) : bytes -> bytes -> cli unit :=
  resize Registry BootstrapKind.KeysetRegistry new_size.
Definition resize_nullifier_tree (new_size : Z) : bytes -> bytes -> cli unit :=
  resize NullifierTree BootstrapKind.NullifierTree new_size.

(** ** The sponsor pool *)
Definition sponsor_bootstrap (program_id_b58 rpc_url : bytes) : cli unit :=
  program_id ← lift (parse_pubkey program_id_b58);
  payer ← read_keypair_file keypair_path;
  let sponsor_pda := address program_id sponsor_pool_seeds in
  _ ← prints (SayPayer payer);
  _ ← prints (SayAddresses [sponsor_pda]);
  sent ← submit rpc_url payer [bootstrap_instruction program_id payer sponsor_pda BootstrapKind.SponsorPool 32 0];
  match sent with
  | Ok sig => _ ← prints (SayOk sig); prints (SayExplorer (explorer sig))
  | Err s =>
      if contains_text (ascii "custom program error") s && contains_text (ascii "0xf") s
      then prints SayAlreadyInitialised
      else lift (Err FrontError.ClusterCall)
  | Panic => lift Panic
  end.
Definition deposit_instruction (program_id payer : bytes) (amount : Z) : SolInstruction :=
  {| si_program_id := program_id;
     si_accounts := [writable payer true; writable (address program_id sponsor_pool_seeds) false;
                     readonly system_program_id false];
     si_data := Instruction.serialize (Instruction.SponsorDeposit amount) |}.
Definition sponsor_deposit (amount : Z) (program_id_b58 rpc_url : bytes) : cli unit :=
  program_id ← lift (parse_pubkey program_id_b58);
  payer ← read_keypair_file keypair_path;
  let sponsor_pda := address program_id sponsor_pool_seeds in
  _ ← prints (SayPayer payer);
  _ ← prints (SayAddresses [sponsor_pda]);
  _ ← prints (SayNumbers [amount]);
  sig ← send_signed rpc_url payer
          [transfer_instruction payer sponsor_pda amount; deposit_instruction program_id payer amount];
  _ ← prints (SayOk sig);
  prints (SayExplorer (explorer sig)).
Definition sponsor_payout (lamports : Z) (recipient_b58 program_id_b58 rpc_url : bytes) : cli unit :=
  program_id ← lift (parse_pubkey program_id_b58);
  recipient ← lift (parse_pubkey recipient_b58);
  payer ← read_keypair_file keypair_path;
  _ ← prints (SayPayer payer);
  _ ← prints (SayAddresses [address program_id sponsor_pool_seeds; recipient]);
  _ ← prints (SayNumbers [lamports]);
  sig ← send_signed rpc_url payer [payout_instruction program_id payer recipient lamports];
  _ ← prints (SayOk sig);
  prints (SayExplorer (explorer sig)).

(** ** Refreshing a coin on the chain *)
Definition refresh_payer (rpc_url program_id sponsor sponsor_pool_spec : bytes) (use_ephemeral_payer use_onchain_pool : bool)
    : cli (bytes * bytes) :=
  if use_onchain_pool then
    pool_caller ← (if bool_decide (trim sponsor_pool_spec = []) then mret sponsor
                   else pick_sponsor_from_pool sponsor_pool_spec);
    eph ← ephemeral_payer_from_pool pool_caller rpc_url program_id EPHEMERAL_PAYER_LAMPORTS;
    _ ← prints (SayEphemeral eph [address program_id sponsor_pool_seeds; pool_caller] EPHEMERAL_PAYER_LAMPORTS);
    mret (eph, ascii "ephemeral-from-pool")
  else if use_ephemeral_payer then
    eph ← ephemeral_payer_from_sponsor sponsor rpc_url EPHEMERAL_PAYER_LAMPORTS;
    _ ← prints (SayEphemeral eph [sponsor] EPHEMERAL_PAYER_LAMPORTS);
    mret (eph, ascii "ephemeral")
  else mret (sponsor, ascii "sponsor").
Definition refresh_instruction (program_id payer coin_pubkey : bytes) (coin_signature : Signature) (denom : Z) : SolInstruction :=
  {| si_program_id := program_id;
     si_accounts := [writable payer true; readonly (address program_id keyset_registry_seeds) false;
                     writable (address program_id nullifier_tree_seeds) false; readonly sysvar_instructions_id false];
     si_data := Instruction.serialize (Instruction.Refresh coin_pubkey coin_signature denom) |}.
Definition refresh_full (coin_pubkey_hex coin_signature_hex : bytes) (denom : Z) (program_id_b58 rpc_url : bytes)
    (use_ephemeral_payer : bool) (sponsor_pool_spec : bytes) (use_onchain_pool : bool) : cli unit :=
  coin_pk ← lift (parse_hex32 coin_pubkey_hex);
  sig_bytes ← lift (parse_hex64 coin_signature_hex);
  let coin_sig := Signature_from_bytes sig_bytes in
  program_id ← lift (parse_pubkey program_id_b58);
  sponsor ← pick_sponsor_from_pool sponsor_pool_spec;
  _ ← (if bool_decide (trim sponsor_pool_spec = []) then mret tt
       else prints (SaySponsor sponsor (Z.of_nat (length (split_paths sponsor_pool_spec)))));
  paid ← refresh_payer rpc_url program_id sponsor sponsor_pool_spec use_ephemeral_payer use_onchain_pool;
  let '(payer, payer_role) := paid in
  registry_account ← rpc (get_account rpc_url (address program_id keyset_registry_seeds));
  _ ← lift (reject_if (all_zero (acc_data registry_account)) FrontError.NoKeysets);
  registry ← lift (deserialize_padded KeysetRegistry_read (acc_data registry_account));
  entry ← lift (ok_or FrontError.NoActiveKeyset (KeysetRegistry_find_active_for_denom registry denom));
  _ ← prints (SayCoin payer payer_role denom (ke_joint_pk entry) coin_pk []);
  _ ← check_unspent program_id rpc_url coin_pk;
  sig ← send_signed rpc_url payer
          [precompile_instruction (build_ed25519_precompile_data coin_sig (ke_joint_pk entry) coin_pk);
           refresh_instruction program_id payer coin_pk coin_sig denom];
  _ ← prints (SayOk sig);
  _ ← prints (SayExplorer (explorer sig));
  prints (SayNullifier (compute_nullifier coin_pk)).
Definition refresh_with_sponsor_pool (coin_pubkey_hex coin_signature_hex : bytes) (denom : Z) (program_id_b58 rpc_url : bytes)
    (use_ephemeral_payer : bool) (sponsor_pool_spec : bytes) : cli unit :=
  refresh_full coin_pubkey_hex coin_signature_hex denom program_id_b58 rpc_url use_ephemeral_payer sponsor_pool_spec false.
Definition refresh_with_payer_option (coin_pubkey_hex coin_signature_hex : bytes) (denom : Z) (program_id_b58 rpc_url : bytes)
    (use_ephemeral_payer : bool) : cli unit :=
  refresh_with_sponsor_pool coin_pubkey_hex coin_signature_hex denom program_id_b58 rpc_url use_ephemeral_payer [].
Definition refresh (coin_pubkey_hex coin_signature_hex : bytes) (denom : Z) (program_id_b58 rpc_url : bytes) : cli unit :=
  refresh_with_payer_option coin_pubkey_hex coin_signature_hex denom program_id_b58 rpc_url false.

(** ** Withdrawing a coin *)
Definition withdraw_payer (rpc_url program_id sponsor : bytes) (use_ephemeral_payer use_onchain_pool : bool)
    : cli (bytes * bytes * option bytes) :=
  if use_ephemeral_payer then
    eph_pk ← os_draw new_keypair;
    let fund := if use_onchain_pool then payout_instruction program_id sponsor eph_pk EPHEMERAL_PAYER_LAMPORTS
                else transfer_instruction sponsor eph_pk EPHEMERAL_PAYER_LAMPORTS in
    sig ← send_signed rpc_url sponsor [fund];
    _ ← prints (SayEphemeralFunded (pubkey_to_string eph_pk) sig use_onchain_pool);
    mret (eph_pk, (if use_onchain_pool then ascii "ephemeral-from-pool" else ascii "ephemeral-from-sponsor"),
          Some (pubkey_to_string eph_pk))
  else mret (sponsor, ascii "sponsor-direct", None).
Definition withdraw (coin_pubkey_hex coin_signature_hex : bytes) (denom : Z) (recipient_b58 program_id_b58 rpc_url : bytes)
    (use_ephemeral_payer use_onchain_pool : bool) : cli unit :=
  coin_pk ← lift (parse_hex32 coin_pubkey_hex);
  sig_bytes ← lift (parse_hex64 coin_signature_hex);
  let coin_sig := Signature_from_bytes sig_bytes in
  program_id ← lift (parse_pubkey program_id_b58);
  recipient ← lift (parse_pubkey recipient_b58);
  sponsor ← read_keypair_file keypair_path;
  paid ← withdraw_payer rpc_url program_id sponsor use_ephemeral_payer use_onchain_pool;
  let '(payer, payer_strategy, ephemeral_b58) := paid in
  entry ← active_entry program_id rpc_url denom;
  _ ← prints (SayCoin payer payer_strategy denom (ke_joint_pk entry) coin_pk
                [address program_id (vault_seeds denom); recipient]);
  _ ← check_unspent program_id rpc_url coin_pk;
  _ ← check_vault program_id rpc_url denom;
  sig ← send_signed rpc_url payer
          [precompile_instruction (build_ed25519_precompile_data coin_sig (ke_joint_pk entry) coin_pk);
           withdraw_instruction program_id payer recipient coin_pk coin_sig denom];
  _ ← prints (SayOk sig);
  _ ← prints (SayExplorer (explorer sig));
  _ ← prints (SayNullifier (compute_nullifier coin_pk));
  prints (SayStrategy payer_strategy ephemeral_b58).

(** ** The commands: [DevnetAction] of [main.rs], without the demos *)
Inductive DevnetAction : Type :=
| Info (program_id rpc_url : bytes)
| BootstrapSingletons (program_id rpc_url : bytes)
| QueryNullifier (coin_pubkey program_id rpc_url : bytes)
| BootstrapVault (denom : Z) (program_id rpc_url : bytes)
| RegisterKeyset (joint_pk : bytes) (denom epoch : Z) (program_id rpc_url : bytes)
| RefreshCoin (coin_pubkey coin_signature : bytes) (denom : Z) (program_id rpc_url : bytes)
| ResizeRegistry (new_size : Z) (program_id rpc_url : bytes)
| ResizeNullifierTree (new_size : Z) (program_id rpc_url : bytes)
| Capacity (program_id rpc_url : bytes)
| WithdrawCoin (coin_pubkey coin_signature : bytes) (denom : Z) (recipient program_id rpc_url : bytes)
| SponsorBootstrap (program_id rpc_url : bytes)
| SponsorDeposit (amount : Z) (program_id rpc_url : bytes)
| SponsorPayout (lamports : Z) (recipient program_id rpc_url : bytes).
Definition devnet (action : DevnetAction) : cli unit :=
  match action with
  | Info p u => info p u
  | BootstrapSingletons p u => bootstrap_singletons p u
  | QueryNullifier pk p u => query_nullifier pk p u
  | BootstrapVault denom p u => bootstrap_vault denom p u
  | RegisterKeyset pk denom epoch p u => register_keyset pk denom epoch p u
  | RefreshCoin pk sig denom p u => refresh pk sig denom p u
  | ResizeRegistry n p u => resize_registry n p u
  | ResizeNullifierTree n p u => resize_nullifier_tree n p u
  | Capacity p u => capacity p u
  | WithdrawCoin pk sig denom to p u => withdraw pk sig denom to p u false false
  | SponsorBootstrap p u => sponsor_bootstrap p u
  | SponsorDeposit amount p u => sponsor_deposit amount p u
  | SponsorPayout lamports to p u => sponsor_payout lamports to p u
  end.
End devnet.
