(* ===== verification/Chain.v ===== *)
(** * The cluster on the other side

    What a client relies on when it sends a transaction: the documented
    behaviour of the Solana runtime ([RuntimeOk], [execute]) around the program
    of [Sbf], and of the RPC node ([ClusterOk]).  The program is the one at
    [pid]; the ed25519 and the system program are parameters. *)
From S2P Require Import Prelude Crypto Async Parallel Platform Wire Core MintBase Instruction Program Solana Ed25519 Sbf SbfFrame.
From S2P Require Import Wallet WalletFront Devnet.

(** What an address without an account reads as. *)
Definition nothing `{SO : Solana} : account := {| acc_lamports := 0; acc_data := []; acc_owner := system_program_id |}.

#[global] Instance account_eq_dec : EqDecision account.
Proof. solve_decision. Defined.

(** ** The runtime *)
Class Runtime `{SO : Solana} : Type := {
  (** the environment of the instruction at an index, given the programs and
      the data of all, and the slot *)
  tx_env : list (bytes * bytes) -> Z -> Z -> env;
  (** the instructions (the precompile's signatures count) and the signers *)
  tx_fee : list SolInstruction -> list bytes -> Z;
  ed25519_precompile : bytes -> bool;
  (** any other program *)
  other_program : bytes -> list AccountInfo -> bytes -> store -> option store;
  (** the balance below which an account may not end, unless it is empty *)
  rent_minimum : account -> Z;
}.

Section execution.
Context `{C : Curve} `{SO : Solana} {R : Runtime}.
Variable pid : bytes.

Definition info_of (m : AccountMeta) : AccountInfo := {| ai_key := am_pubkey m; ai_is_signer := am_is_signer m |}.

(** An instruction changes the accounts passed as writable only. *)
Definition kept (writable : list bytes) (st st' : store) : Prop :=
  set_Forall (λ k, k ∈ writable \/ account_at st' k = account_at st k) (dom st ∪ dom st').
#[global] Instance kept_dec l st st' : Decision (kept l st st').
Proof. unfold kept. apply _. Defined.
Definition writables (ix : SolInstruction) : list bytes := am_pubkey <$> filter (λ m, am_is_writable m = true) (si_accounts ix).

Definition execute_instruction (slot : Z) (ixs : list SolInstruction) (i : Z) (st : store) (ix : SolInstruction)
    : option store :=
  let infos := info_of <$> si_accounts ix in
  st' ← (if decide (si_program_id ix = ed25519_program_id)
         then if ed25519_precompile (si_data ix) then Some st else None
         else if decide (si_program_id ix = pid)
         then ok_value (process_instruction pid (tx_env ((λ ix, (si_program_id ix, si_data ix)) <$> ixs) i slot)
                          infos (si_data ix) st)
         else other_program (si_program_id ix) infos (si_data ix) st);
  if decide (kept (writables ix) st st') then Some st' else None.
Fixpoint execute_from (slot : Z) (ixs : list SolInstruction) (i : Z) (st : store) (rest : list SolInstruction)
    : option store :=
  match rest with
  | [] => Some st
  | ix :: rest => st ← execute_instruction slot ixs i st ix; execute_from slot ixs (i + 1) st rest
  end.

(** Accounts without lamports are gone at the end of a transaction. *)
Definition alive (kv : bytes * account) : Prop := acc_lamports kv.2 <> 0.
Definition purge (st : store) : store := filter alive st.
Definition rent_state_ok (before after : account) : Prop :=
  acc_lamports after = 0 \/ rent_minimum after <= acc_lamports after \/ after = before.
#[global] Instance rent_state_dec a b : Decision (rent_state_ok a b).
Proof. unfold rent_state_ok. apply _. Defined.

Definition charge (st : store) (payer : bytes) (fee : Z) : store :=
  <[payer := set_lamports (account_at st payer) (acc_lamports (account_at st payer) - fee)]> st.
(** A transaction: the signatures, the fee, the instructions in order, the
    balances at the end.  [None] leaves the accounts as they were. *)
Definition execute (slot : Z) (tx : Transaction) (st : store) : option store :=
  let ixs := tx_instructions tx in
  let payer := tx_payer tx in
  if decide (payer ∈ tx_signers tx /\
             Forall (λ m, am_is_signer m = true -> am_pubkey m ∈ tx_signers tx) (ixs ≫= si_accounts) /\
             acc_owner (account_at st payer) = system_program_id /\
             tx_fee ixs (tx_signers tx) <= acc_lamports (account_at st payer))
  then
    st' ← execute_from slot ixs 0 (charge st payer (tx_fee ixs (tx_signers tx))) ixs;
    if decide (set_Forall (λ k, rent_state_ok (account_at st k) (account_at st' k)) (dom st ∪ dom st'))
    then Some (purge st') else None
  else None.
End execution.

(** ** Laws *)
Class RuntimeOk `{C : Curve} {T : Transport} {Cl : Cluster T} `{SO : Solana} (R : Runtime) : Prop := {
  env_index ixs i slot : load_current_index_checked (tx_env ixs i slot) sysvar_instructions_id = Ok i;
  env_instruction ixs i j slot ix : 0 <= j -> ixs !! Z.to_nat j = Some ix ->
    load_instruction_at_checked (tx_env ixs i slot) j sysvar_instructions_id = Ok ix;
  (** the rent the program, the node and the runtime compute *)
  env_rent ixs i slot n : 0 <= n -> Rent_minimum_balance (tx_env ixs i slot) n = Ok (rent_minimum_balance n);
  rent_minimum_covered a : rent_minimum a <= rent_minimum_balance (Z.of_nat (length (acc_data a)));
  rent_positive n : 0 <= n -> 0 < rent_minimum_balance n;
  fee_nonneg ixs signers : 0 <= tx_fee ixs signers;
  rent_minimum_size a b : length (acc_data a) = length (acc_data b) -> rent_minimum a = rent_minimum b;
  (** the precompile verifies what a Schnorr verification accepts *)
  precompile_accepts pk P msg sig : length pk = 32%nat -> wf_signature sig -> PublicKey_from_bytes pk = Ok P -> schnorr_verify P msg sig = Ok true ->
    ed25519_precompile (precompile_data pk msg sig) = true;
  (** a system transfer that a program signs for its address succeeds *)
  transfer_total pid st seeds to l :
    let from := (find_program_address seeds pid).1 in
    acc_owner (account_at st from) = system_program_id -> acc_data (account_at st from) = [] ->
    0 <= l <= acc_lamports (account_at st from) ->
    invoke_transfer pid st from to l (seeds ++ [le_bytes 1 (find_program_address seeds pid).2]) =
      Ok (move_lamports st from to l);
  (** and so does the creation of an account of up to 10240 bytes that is not
      there yet *)
  create_total pid st funder seeds l space owner :
    let to := (find_program_address seeds pid).1 in
    acc_owner (account_at st funder) = system_program_id -> acc_data (account_at st funder) = [] ->
    0 <= l <= acc_lamports (account_at st funder) -> funder <> to ->
    account_at st to = nothing -> 0 <= space <= 10240 ->
    is_Some (ok_value (invoke_create_account pid st funder to l space owner
                         (seeds ++ [le_bytes 1 (find_program_address seeds pid).2])));
}.

(** An RPC node of the cluster that answers: [chain] are the accounts,
    [up] says that it is reachable. *)
Class ClusterOk `{C : Curve} {T : Transport} (Cl : Cluster T) `{SO : Solana} (R : Runtime) (pid : bytes) : Type := {
  chain : net -> store;
  slot : net -> Z;
  up : net -> Prop;
  get_account_ok url k n : up n -> exists n', run (get_account url k) n = (chain n !! k, n') /\ chain n' = chain n /\ up n';
  get_balance_ok url k n : up n -> exists n', run (get_balance url k) n =
    (Some (acc_lamports (account_at (chain n) k)), n') /\ chain n' = chain n /\ up n';
  get_latest_blockhash_ok url n : up n -> exists b n', run (get_latest_blockhash url) n = (Some b, n') /\
    chain n' = chain n /\ up n';
  send_ok url tx n : up n -> exists r n', run (send_and_confirm_transaction url tx) n = (r, n') /\ up n' /\
    match execute pid (slot n) tx (chain n) with
    | Some st => chain n' = st /\ exists sig, r = Ok sig
    | None => chain n' = chain n /\ exists e, r = Err e
    end;
}.
