(* ===== verification/SimChain.v ===== *)
(** * A simulated cluster

    An instance of the runtime and the RPC node on the simulated Solana and
    the toy curve, for the witnesses: one program, the ed25519 precompile and
    the transfer of the system program. *)
From S2P Require Import Prelude Crypto ToyCurve Async Parallel Platform Wire Core MintBase Instruction Program Solana Ed25519.
From S2P Require Import Sbf SbfFrame SbfDemo Wallet WalletFront Devnet Chain.

#[local] Existing Instance toy.
#[local] Existing Instance toy_ok.
#[local] Existing Instance sim.

Record sim_net : Type := { sn_store : store; sn_slot : Z }.
Definition sim_transport : Transport := {| net := sim_net; exchange _ _ := Done SendFailed |}.
#[local] Existing Instance sim_transport.
Definition sim_sysvar : bytes := repeat Byte.x0f 32.

Definition sim_precompile (data : bytes) : bool :=
  match PublicKey_from_bytes (take 32 (drop 80 data)) with
  | Ok P => match schnorr_verify P (drop 112 data) (Signature_from_bytes (take 64 (drop 16 data))) with
            | Ok b => b
            | _ => false
            end
  | _ => false
  end.
(** A system transfer: from, to, and the lamports as eight bytes. *)
Definition sim_other (program : bytes) (accounts : list AccountInfo) (data : bytes) (st : store) : option store :=
  match accounts with
  | [from; to] =>
      if decide (program = zeros 32 /\ ai_is_signer from = true /\ acc_owner (account_at st (ai_key from)) = zeros 32 /\
                 le_Z data <= acc_lamports (account_at st (ai_key from)))
      then Some (move_lamports st (ai_key from) (ai_key to) (le_Z data)) else None
  | _ => None
  end.
Definition sim_runtime : Runtime (SO := sim) := {|
  tx_env ixs i slot := {| se_instructions := ixs; se_current := i; se_sysvar := sim_sysvar; se_slot := slot |} : env (Solana := sim);
  tx_fee _ signers := 5 * Z.of_nat (length signers);
  ed25519_precompile := sim_precompile;
  other_program := sim_other;
  rent_minimum _ := 0;
|}.
#[local] Existing Instance sim_runtime.

(** The program is at [Demo.pid]. *)
Definition sim_send (tx : Transaction) (n : sim_net) : res bytes bytes * sim_net :=
  match execute Demo.pid (sn_slot n) tx (sn_store n) with
  | Some st => (Ok (ascii "sig"), {| sn_store := st; sn_slot := sn_slot n + 1 |})
  | None => (Err (ascii "failed"), n)
  end.
Definition sim_cluster : Cluster sim_transport := {|
  get_account _ k := Atomic (λ n : sim_net, (sn_store n !! k, n)) Done;
  get_balance _ k := Atomic (λ n : sim_net, (Some (acc_lamports (account_at (sn_store n) k)), n)) Done;
  get_latest_blockhash _ := Done (Some (zeros 32));
  send_and_confirm_transaction _ tx := Atomic (sim_send tx) Done;
  pubkey_from_str s := Some s; pubkey_to_string k := k; keypair_from_json b := Some b;
  new_keypair r := rng_fill 32 r;
  transfer_instruction from to l :=
    {| si_program_id := zeros 32; si_accounts := [writable from true; writable to false]; si_data := le_bytes 8 l |};
  sysvar_instructions_id := sim_sysvar;
  rent_minimum_balance n := (128 + n) * 6960;
  choose_index _ r := (0%nat, r);
|}.
#[local] Existing Instance sim_cluster.

Lemma sim_precompile_ok pk P msg sig : length pk = 32%nat -> wf_signature sig -> PublicKey_from_bytes pk = Ok P ->
  schnorr_verify P msg sig = Ok true -> sim_precompile (precompile_data pk msg sig) = true.
Proof.
  intros Hl Hw HP Hv. pose proof (precompile_split pk msg sig []) as Hs. rewrite !app_nil_r in Hs.
  assert (length (Signature_to_bytes sig) = 64%nat) as Hsl by (by apply length_Signature_to_bytes).
  unfold sim_precompile.
  assert (precompile_data pk msg sig = precompile_header (length msg) ++ Signature_to_bytes sig ++ pk ++ msg) as ->.
  { unfold Signature_to_bytes. rewrite Hs. by rewrite <- !app_assoc. }
  assert (length (precompile_header (length msg)) = 16%nat) as Hh by done.
  rewrite (app_assoc _ (Signature_to_bytes sig)), drop_app_length' by (rewrite length_app; lia).
  rewrite take_app_length' by done. rewrite HP. rewrite app_assoc, drop_app_length' by (rewrite !length_app; lia).
  rewrite <- !app_assoc, drop_app_length' by done. rewrite take_app_length' by done.
  destruct Hw as [Hr _]. rewrite Signature_from_to_bytes by done. by rewrite Hv.
Qed.

Lemma sim_runtime_ok : RuntimeOk sim_runtime.
Proof.
  split.
  - intros ixs i slot. cbn. by rewrite decide_True.
  - intros ixs i j slot ix Hj Hi. cbn. rewrite decide_True by done. by rewrite Hi.
  - intros ixs i slot n Hn. cbn. by rewrite (proj2 (Z.leb_le _ _) Hn).
  - intros a. cbn. lia.
  - intros n Hn. cbn. lia.
  - intros ixs signers. cbn. lia.
  - done.
  - apply sim_precompile_ok.
  - intros pid st seeds to l from Ho Hd Hl. cbn. rewrite decide_True; [done|]. split; [exact Ho|apply Hl].
  - intros pid st funder seeds l space owner to Ho Hd Hl Hne Hto Hsp.
    cbv beta iota zeta delta [invoke_create_account sim]. case_decide as H; [by eexists|]. exfalso. apply H.
    split; [exact (f_equal acc_lamports Hto)|]. split; [exact (f_equal acc_data Hto)|]. split; [exact Ho|apply Hl].
Qed.
Definition sim_cluster_ok : ClusterOk sim_cluster sim_runtime Demo.pid.
Proof.
  refine {| chain := sn_store : net -> store; slot := sn_slot : net -> Z; up := λ _ : net, True |}.
  - intros url k n _. by exists n.
  - intros url k n _. by exists n.
  - intros url n _. by exists (zeros 32), n.
  - intros url tx n _. cbn. unfold sim_send. destruct (execute _ _ _ _) as [st|].
    + eexists _, _. split; [reflexivity|]. split; [done|]. split; [done|]. by eexists.
    + eexists _, _. split; [reflexivity|]. split; [done|]. split; [done|]. by eexists.
Defined.
