(* ===== verification/ChainProps.v ===== *)
(** * The clients and the program agree

    The transactions [Devnet] builds, executed by the program of [Sbf]: what
    the commands of [WalletGui] and [DevnetCli] do to the chain. *)
From S2P Require Import Prelude Crypto ToyCurve Async Parallel Platform Wire Core MintBase Refresh Instruction Program Solana.
From S2P Require Import Ed25519 Sbf SbfFrame SbfRefine ClientBase Invoice Client Keys WalletStore Wallet WalletFront Devnet.
From S2P Require Import WalletGui DevnetCli Chain ToyPlatform SbfDemo SimChain WalletPay.

(** ** The program *)
Section program.
Context `{CO : CurveOk} `{SK : SolanaOk}.
Variable pid : bytes.

Lemma try_serialize ix : Instruction.wf ix -> try_from_slice Instruction.deserialize_reader (Instruction.serialize ix) = Some ix.
Proof.
  intros Hw. unfold try_from_slice. rewrite <- (app_nil_r (Instruction.serialize ix)).
  by rewrite Instruction_reads.
Qed.

(** The two clients write the layout the bridge expects. *)
Lemma cli_precompile_data sig pk msg : wf_signature sig -> length pk = 32%nat -> length msg = 32%nat ->
  build_ed25519_precompile_data sig pk msg = precompile_data pk msg sig.
Proof.
  destruct sig as [r s]. intros [Hr Hs] Hp Hm. cbn in Hr, Hs.
  do 32 (destruct r as [|? r]; [discriminate|]). destruct r; [|discriminate].
  do 32 (destruct s as [|? s]; [discriminate|]). destruct s; [|discriminate].
  do 32 (destruct pk as [|? pk]; [discriminate|]). destruct pk; [|discriminate].
  do 32 (destruct msg as [|? msg]; [discriminate|]). destruct msg; [|discriminate].
  reflexivity.
Qed.
Lemma gui_precompile_layout sig_bytes pk msg : length sig_bytes = 64%nat -> length msg = 32%nat ->
  gui_precompile_data sig_bytes pk msg = precompile_data pk msg (Signature_from_bytes sig_bytes).
Proof.
  intros Hs Hm. unfold gui_precompile_data, precompile_data, u16_max. rewrite Signature_to_from_bytes, Hm. reflexivity.
Qed.

(** The room the nullifier account has for one more entry. *)
Definition room_for (st : store) (s : NullifierSet) (pk : bytes) : Prop :=
  exists enc, NullifierSet_to_vec {| ns_leaves := {[ compute_nullifier pk ]} ∪ ns_leaves s |} = Some enc /\
    (length enc <= length (acc_data (account_at st (nkey pid))))%nat.

Lemma records_accepts st s pk : holds_nullifiers pid st s -> compute_nullifier pk ∉ ns_leaves s -> room_for st s pk ->
  exists st1, records pid st pk st1.
Proof.
  intros Hs Hn (enc & He & Hlen). unfold holds_nullifiers in Hs.
  eexists _, {| ai_key := nkey pid; ai_is_signer := false |}, s, {| ns_leaves := {[ compute_nullifier pk ]} ∪ ns_leaves s |}.
  split; [done|]. split; [exact Hs|]. split.
  - unfold NullifierSet_insert. by rewrite bool_decide_eq_false_2.
  - unfold store_nullifiers. rewrite He. step. apply store_padded_ok. split; [exact Hlen|reflexivity].
Qed.

Lemma records_length st pk st' : records pid st pk st' ->
  length (acc_data (account_at st' (nkey pid))) = length (acc_data (account_at st (nkey pid))).
Proof.
  intros (a & s & s' & <- & _ & _ & Hs). unfold store_nullifiers in Hs. inv_ok.
  apply store_padded_ok in Hs as [Hl ->]. rewrite account_at_insert. cbn. rewrite length_app, length_drop. lia.
Qed.

(** A withdrawal whose conditions hold goes through. *)
Lemma withdraw_accepts e st r entry payer sysvar pk sig d rec st1 st' :
  holds_registry pid st r -> KeysetRegistry_find_active_for_denom r d = Some entry ->
  verify_ed25519_precompile e {| ai_key := sysvar; ai_is_signer := false |} (ke_joint_pk entry) pk sig = Ok tt ->
  records pid st pk st1 -> d <= acc_lamports (account_at st1 (pda pid (vault_seeds d))) ->
  invoke_transfer pid st1 (pda pid (vault_seeds d)) rec d
    (vault_seeds d ++ [le_bytes 1 (find_program_address (vault_seeds d) pid).2]) = Ok st' ->
  let info k := {| ai_key := k; ai_is_signer := false |} in
  Sbf.withdraw pid e [{| ai_key := payer; ai_is_signer := true |}; info (rkey pid); info (pda pid (vault_seeds d));
    info (nkey pid); info rec; info system_program_id; info sysvar] (Instruction.Withdraw pk sig d rec) st = Ok st'.
Proof.
  intros Hr Hf Hv (a & s0 & s1 & Ha & Hl & Hi & Hst) Hd Ht info. unfold Sbf.withdraw, info. cbn [ai_is_signer ai_key].
  rewrite !bool_decide_eq_true_2 by done. step.
  unfold verify_keyset_registry_pda, verify_vault_pda, verify_nullifier_tree_pda.
  unfold rkey, nkey. rewrite !verify_pda_is. step.
  assert (load_registry st {| ai_key := pda pid keyset_registry_seeds; ai_is_signer := false |} = Ok r) as -> by exact Hr.
  step. rewrite Hf. step. rewrite bool_decide_eq_true_2 by (by eapply find_active_active). step. rewrite Hv. step.
  unfold load_nullifiers, store_nullifiers in Hl, Hst. rewrite Ha in Hl, Hst.
  unfold load_nullifiers, store_nullifiers. cbn [ai_key]. fold (nkey pid). rewrite Hl. step. rewrite Hi. step.
  rewrite Hst. step. replace (_ <? d) with false by lia. step. exact Ht.
Qed.
End program.

(** ** A transaction *)
Section transactions.
Context `{CO : CurveOk} {T : Transport} {Cl : Cluster T} `{SK : SolanaOk} {R : Runtime} {RO : RuntimeOk R}.
Variable pid : bytes.

Lemma account_at_purge st k : acc_lamports (account_at (purge st) k) = acc_lamports (account_at st k) /\
  (acc_lamports (account_at st k) <> 0 -> account_at (purge st) k = account_at st k).
Proof.
  unfold account_at, purge. destruct (st !! k) as [a|] eqn:Hk.
  - destruct (decide (acc_lamports a = 0)) as [H0|H0].
    + rewrite map_lookup_filter_None_2; [cbn; split; [done|congruence]|]. right. intros b Hb. rewrite Hk in Hb. injection Hb as <-.
      unfold alive. cbn. auto.
    + rewrite (map_lookup_filter_Some_2 alive _ k a) by done. done.
  - rewrite map_lookup_filter_None_2 by (by left). done.
Qed.

Lemma charge_data st payer fee k : acc_data (account_at (charge st payer fee) k) = acc_data (account_at st k) /\
  acc_owner (account_at (charge st payer fee) k) = acc_owner (account_at st k).
Proof. unfold charge. rewrite account_at_insert_case. case_decide; by subst. Qed.
Lemma charge_other st payer fee k : k <> payer -> account_at (charge st payer fee) k = account_at st k.
Proof. intros Hk. unfold charge. by rewrite account_at_insert_ne by congruence. Qed.

(** The precompile instruction of a valid coin. *)
Lemma execute_precompile slot ixs i st pk P msg sig : length pk = 32%nat -> wf_signature sig -> PublicKey_from_bytes pk = Ok P -> schnorr_verify P msg sig = Ok true ->
  execute_instruction pid slot ixs i st (precompile_instruction (precompile_data pk msg sig)) = Some st.
Proof.
  intros Hl Hw HP Hv. unfold execute_instruction. cbn [precompile_instruction si_program_id si_data].
  rewrite decide_True by done. rewrite (precompile_accepts pk P msg sig Hl Hw HP Hv). cbn [mbind option_bind].
  rewrite decide_True; [done|]. intros k _. by right.
Qed.

(** An instruction of the program. *)
Lemma execute_program slot ixs i st ix st' : ed25519_program_id <> pid -> si_program_id ix = pid ->
  process_instruction pid (tx_env ((λ ix, (si_program_id ix, si_data ix)) <$> ixs) i slot)
    (info_of <$> si_accounts ix) (si_data ix) st = Ok st' ->
  (forall k, k ∉ writables ix -> account_at st' k = account_at st k) ->
  execute_instruction pid slot ixs i st ix = Some st'.
Proof.
  intros Hne Hp Hst Hk. unfold execute_instruction. rewrite Hp, decide_False, decide_True by done.
  rewrite Hst. cbn [ok_value mbind option_bind]. rewrite decide_True; [done|]. intros k _.
  destruct (decide (k ∈ writables ix)) as [Hi|Hi]; [by left|right]. by apply Hk.
Qed.

(** What a withdrawal needs of the accounts: an active keyset of the
    denomination that signed the coin, a nullifier not yet recorded and room
    for it, the denomination in the vault, the fee, and balances that end
    above the rent minimum. *)
Record withdrawable (st : store) (r : KeysetRegistry) (s : NullifierSet) (entry : KeysetEntry)
    (pk : bytes) (sig : Signature) (d : Z) (payer rec : bytes) (fee : Z) : Prop := {
  wd_registry : holds_registry pid st r;
  wd_entry : KeysetRegistry_find_active_for_denom r d = Some entry;
  wd_coin : exists P, PublicKey_from_bytes (ke_joint_pk entry) = Ok P /\ schnorr_verify P pk sig = Ok true;
  wd_lengths : length (ke_joint_pk entry) = 32%nat /\ length pk = 32%nat /\ wf_signature sig /\ length rec = 32%nat /\ u64 d;
  wd_nullifiers : holds_nullifiers pid st s;
  wd_fresh : compute_nullifier pk ∉ ns_leaves s;
  wd_room : room_for pid st s pk;
  wd_vault : let v := account_at st (pda pid (vault_seeds d)) in
    acc_owner v = system_program_id /\ acc_data v = [] /\ d <= acc_lamports v;
  wd_payer : acc_owner (account_at st payer) = system_program_id /\ fee <= acc_lamports (account_at st payer) /\
    payer ∉ [rkey pid; nkey pid; pda pid (vault_seeds d)];
  wd_recipient : rec ∉ [rkey pid; nkey pid; pda pid (vault_seeds d)];
  wd_live : acc_lamports (account_at st (rkey pid)) <> 0 /\ acc_lamports (account_at st (nkey pid)) <> 0 /\
    rent_minimum (account_at st (nkey pid)) <= acc_lamports (account_at st (nkey pid));
  wd_rent k : k ∈ [payer; pda pid (vault_seeds d); rec] ->
    rent_state_ok (account_at st k) (account_at (move_lamports (charge st payer fee) (pda pid (vault_seeds d)) rec d) k);
}.

(** The accounts after it. *)
Definition withdrawn (st st' : store) (r : KeysetRegistry) (s : NullifierSet) (pk : bytes) (d : Z) (payer rec : bytes) (fee : Z) : Prop :=
  holds_registry pid st' r /\ holds_nullifiers pid st' {| ns_leaves := {[ compute_nullifier pk ]} ∪ ns_leaves s |} /\
  forall k, acc_lamports (account_at st' k) =
    acc_lamports (account_at (move_lamports (charge st payer fee) (pda pid (vault_seeds d)) rec d) k).

Lemma execute_withdraw slot st r s entry pk sig d payer rec bh : ed25519_program_id <> pid ->
  let ixs := [precompile_instruction (precompile_data (ke_joint_pk entry) pk sig);
              withdraw_instruction pid payer rec pk sig d] in
  let tx := {| tx_instructions := ixs; tx_payer := payer; tx_signers := [payer]; tx_blockhash := bh |} in
  withdrawable st r s entry pk sig d payer rec (tx_fee ixs [payer]) ->
  exists st', execute pid slot tx st = Some st' /\ withdrawn st st' r s pk d payer rec (tx_fee ixs [payer]).
Proof.
  intros Hed ixs tx W. destruct W. set (fee := tx_fee ixs [payer]) in *. set (vault := pda pid (vault_seeds d)) in *.
  destruct wd_coin0 as (P & HP & Hv), wd_lengths0 as (Hl1 & Hl2 & Hws & Hl3 & Hd).
  destruct wd_vault0 as (Hvo & Hvd & Hvl), wd_payer0 as (Hpo & Hfee & Hpn), wd_live0 as (Hlr & Hln & Hmin).
  set (stc := charge st payer fee).
  assert (forall k, acc_data (account_at stc k) = acc_data (account_at st k)) as Hcd by (intros; apply charge_data).
  destruct (records_accepts pid stc s pk) as (st1 & Hrec).
  { unfold holds_nullifiers. by rewrite Hcd. }
  { done. }
  { unfold room_for. by rewrite Hcd. }
  apply records_store in Hrec as Hrs. destruct Hrs as (s0 & Hs0 & _ & _ & Hs1 & Hlam & Hoth).
  unfold holds_nullifiers in wd_nullifiers0. rewrite Hcd, wd_nullifiers0 in Hs0.
  injection Hs0 as <-.
  set (mv := move_lamports st1 vault rec d).
  rewrite !not_elem_of_cons in Hpn, wd_recipient0.
  destruct Hpn as (Hpr & Hpk & Hpv & _), wd_recipient0 as (Hrr & Hrn & Hrv & _).
  assert (vault <> nkey pid) as Hvn by apply vault_ne_nullifier.
  assert (vault <> rkey pid) as Hvk by (by apply pda_ne).
  assert (rkey pid <> nkey pid) as Hrk by apply registry_ne_nullifier.
  assert (vault <> rec) as Hvr by congruence. assert (vault <> payer) as Hvp by congruence.
  assert (account_at st1 vault = account_at st vault) as Hv1.
  { rewrite Hoth by done. by apply charge_other. }
  assert (Sbf.withdraw pid (tx_env ((λ ix, (si_program_id ix, si_data ix)) <$> ixs) 1 slot)
    (info_of <$> si_accounts (withdraw_instruction pid payer rec pk sig d)) (Instruction.Withdraw pk sig d rec) stc = Ok mv) as Hw.
  { apply (withdraw_accepts pid _ _ r entry _ _ _ _ _ _ st1).
    - unfold holds_registry. by rewrite Hcd.
    - done.
    - apply verify_ed25519_precompile_iff; [done|done|rewrite Hl2; done|]. exists 1, []. cbn [ai_key].
      split; [apply env_index|]. split; [done|]. rewrite app_nil_r. by apply env_instruction.
    - done.
    - fold vault. by rewrite Hv1.
    - pose proof (transfer_total pid st1 (vault_seeds d) rec d) as Ht. cbn zeta in Ht.
      fold (pda pid (vault_seeds d)) in Ht. fold vault in Ht. rewrite Hv1 in Ht.
      apply Ht; [done|done|]. unfold u64, in_width in Hd. lia. }
  assert (forall k, k ∉ [payer; vault; nkey pid; rec] -> account_at mv k = account_at stc k) as Hkeep.
  { intros k Hk. unfold mv. rewrite move_lamports_spec by done.
    rewrite !not_elem_of_cons in Hk. destruct Hk as (H1 & H2 & H3 & H4 & _).
    rewrite !decide_False by done. by apply Hoth. }
  assert (execute_from pid slot ixs 0 stc ixs = Some mv) as Hex.
  { unfold ixs at 2. cbn [execute_from].
    rewrite (execute_precompile slot ixs 0 stc _ P _ _ Hl1 Hws HP Hv). cbn [mbind option_bind].
    rewrite (execute_program slot ixs _ stc (withdraw_instruction pid payer rec pk sig d) mv Hed eq_refl); [done| |].
    - unfold process_instruction. cbn [withdraw_instruction si_data]. rewrite try_serialize by (by split_and!). exact Hw.
    - intros k Hk. apply Hkeep. intros Hi. apply Hk. revert Hi. cbn. clear. set_solver. }
  assert (forall k, k <> nkey pid -> account_at mv k = account_at (move_lamports stc vault rec d) k) as Hmv.
  { intros k Hk. unfold mv. rewrite !move_lamports_spec by done.
    repeat case_decide; subst; by rewrite ?Hoth. }
  assert (account_at mv (nkey pid) = account_at st1 (nkey pid)) as Hmn.
  { unfold mv. rewrite move_lamports_spec by done. by rewrite !decide_False by congruence. }
  assert (account_at stc (nkey pid) = account_at st (nkey pid)) as Hsn by (by apply charge_other).
  assert (account_at mv (rkey pid) = account_at st (rkey pid)) as Hmr.
  { rewrite Hkeep; [apply charge_other; congruence|]. rewrite !not_elem_of_cons. split_and!; try congruence. apply not_elem_of_nil. }
  exists (purge mv). split.
  - unfold execute. cbn [tx tx_instructions tx_payer tx_signers]. rewrite decide_True.
    2:{ split; [by left|]. split; [|done]. cbn. repeat constructor; cbn; intros; (by left) || done. }
    fold fee. fold stc. rewrite Hex. cbn [mbind option_bind]. rewrite decide_True; [done|].
    intros k _. destruct (decide (k = nkey pid)) as [->|Hk].
    { right. left. rewrite Hmn, (proj1 (Hlam _)), Hsn.
      rewrite (rent_minimum_size _ (account_at st (nkey pid))); [done|].
      rewrite (records_length _ _ _ _ Hrec). by rewrite Hsn. }
    destruct (decide (k ∈ [payer; vault; rec])) as [Hi|Hi]; [rewrite Hmv by done; by apply wd_rent0|].
    rewrite !not_elem_of_cons in Hi. destruct Hi as (H1 & H2 & H3 & _).
    right. right. rewrite Hkeep; [by apply charge_other|]. rewrite !not_elem_of_cons. split_and!; try done. apply not_elem_of_nil.
  - assert (account_at (purge mv) (rkey pid) = account_at st (rkey pid)) as Hreg.
    { rewrite (proj2 (account_at_purge mv (rkey pid))), Hmr; [done|by rewrite Hmr]. }
    assert (account_at (purge mv) (nkey pid) = account_at st1 (nkey pid)) as Hpn'.
    { rewrite (proj2 (account_at_purge mv (nkey pid))), Hmn; [done|]. by rewrite Hmn, (proj1 (Hlam _)), Hsn. }
    split_and!.
    + unfold holds_registry. by rewrite Hreg.
    + unfold holds_nullifiers. by rewrite Hpn'.
    + intros k. rewrite (proj1 (account_at_purge mv k)). destruct (decide (k = nkey pid)) as [->|Hk]; [|by rewrite Hmv].
      rewrite Hmn, (proj1 (Hlam _)). fold vault stc. by rewrite move_lamports_spec, !decide_False by congruence.
Qed.
End transactions.

(** ** Commands *)
Section runs.
Context `{CO : CurveOk} {T : Transport} {Cl : Cluster T} `{SK : SolanaOk} {R : Runtime} {RO : RuntimeOk R}.
Context (pid : bytes) {CK : ClusterOk Cl R pid} {Out : Type}.
Implicit Types w : world Out.

Lemma run_locally_any {X} (p : prog host X) w : run (locally p) w = ((run p (w_host w)).1, put_host w (run p (w_host w)).2).
Proof using. unfold locally. rewrite run_zoom by (done || by destruct w). done. Qed.
Lemma run_remotely_any {X} (p : prog net X) w : run (remotely p) w = ((run p (w_net w)).1, put_net w (run p (w_net w)).2).
Proof using. unfold remotely. rewrite run_zoom by (done || by destruct w). done. Qed.
Lemma run_ask {X} (p : prog net X) w : run (ask p) w = (Ok (run p (w_net w)).1, put_net w (run p (w_net w)).2).
Proof using. unfold ask. by rewrite run_pmap, run_remotely_any. Qed.
Lemma run_host {X} (p : io host WalletError.t X) w :
  run (in_host p) w = (map_err FrontError.Wallet (run p (w_host w)).1, put_host w (run p (w_host w)).2).
Proof using. unfold in_host, in_wallet. by rewrite run_pmap, run_locally_any. Qed.
Lemma run_printed {E} (o : Out) w : run (prints (E := E) o) w =
  (Ok tt, {| w_host := w_host w; w_net := w_net w; w_out := w_out w ++ [o] |}).
Proof using. done. Qed.
Lemma run_keypair path content key w : no_faults (w_host w) -> files (w_host w) !! path = Some content ->
  keypair_from_json content = Some key -> run (read_keypair_file path) w = (Ok key, w).
Proof using.
  intros Hf Hc Hk. unfold read_keypair_file. rewrite run_bind, run_locally_any, run_disk_read by done. rewrite Hc.
  cbn [fst snd ok_or map_err]. rewrite run_lift, Hk. by destruct w.
Qed.

(** The host, what was shown and the accounts are as before. *)
Definition calm w w' : Prop :=
  w_host w' = w_host w /\ w_out w' = w_out w /\ chain (w_net w') = chain (w_net w) /\ up (w_net w').
Lemma calm_refl w : up (w_net w) -> calm w w.
Proof using. intros Hu. by repeat split. Qed.
Lemma calm_trans w1 w2 w3 : calm w1 w2 -> calm w2 w3 -> calm w1 w3.
Proof using. intros (?&?&?&?) (?&?&?&?). split_and!; congruence. Qed.

Lemma chain_lookup (st : store) k : acc_lamports (account_at st k) <> 0 -> st !! k = Some (account_at st k).
Proof using. unfold account_at. by destruct (st !! k). Qed.

Lemma run_get_account url k w : up (w_net w) -> exists w', calm w w' /\
  run (ask (get_account url k)) w = (Ok (chain (w_net w) !! k), w').
Proof using.
  intros Hup. destruct (get_account_ok url k (w_net w) Hup) as (n' & Hr & Hc & Hu).
  exists (put_net w n'). rewrite run_ask, Hr. done.
Qed.
Lemma run_rpc_account url k w : up (w_net w) -> acc_lamports (account_at (chain (w_net w)) k) <> 0 ->
  exists w', calm w w' /\ run (rpc (get_account url k)) w = (Ok (account_at (chain (w_net w)) k), w').
Proof using.
  intros Hup Hk. destruct (run_get_account url k w Hup) as (w' & Hc & Hr). exists w'. split; [done|].
  unfold rpc. by rewrite run_bind, Hr, run_lift, (chain_lookup _ _ Hk).
Qed.

Lemma find_nonempty r d entry : KeysetRegistry_find_active_for_denom r d = Some entry -> kr_entries r <> [].
Proof using. unfold KeysetRegistry_find_active_for_denom. by destruct (kr_entries r). Qed.
Lemma holds_registry_read st r d entry : holds_registry pid st r -> KeysetRegistry_find_active_for_denom r d = Some entry ->
  deserialize_padded KeysetRegistry_read (acc_data (account_at st (rkey pid))) = Ok r.
Proof using.
  unfold holds_registry, load_padded, deserialize_padded. intros H Hf%find_nonempty. destruct (all_zero _).
  - apply (inj Ok) in H as <-. done.
  - destruct (KeysetRegistry_read _) as [[r' rest]|]; [|done]. by apply (inj Ok) in H as <-.
Qed.
Lemma holds_nullifiers_read st s : holds_nullifiers pid st s ->
  deserialize_or NullifierSet_new NullifierSet_read (acc_data (account_at st (nkey pid))) = Ok s.
Proof using.
  unfold holds_nullifiers, load_padded, deserialize_or, deserialize_padded. destruct (all_zero _); [by intros ->%(inj Ok)|].
  destruct (NullifierSet_read _) as [[s' rest]|]; [|done]. by intros ->%(inj Ok).
Qed.

Lemma run_active_entry url r d entry w : up (w_net w) -> acc_lamports (account_at (chain (w_net w)) (rkey pid)) <> 0 ->
  holds_registry pid (chain (w_net w)) r -> KeysetRegistry_find_active_for_denom r d = Some entry ->
  exists w', calm w w' /\ run (active_entry pid url d) w = (Ok entry, w').
Proof using.
  intros Hup Hl Hr Hf. destruct (run_rpc_account url (rkey pid) w Hup Hl) as (w1 & Hc & Hg).
  exists w1. split; [done|]. unfold active_entry. change (address pid keyset_registry_seeds) with (rkey pid).
  rewrite run_bind, Hg. cbn [fst snd]. rewrite run_bind, run_lift, (holds_registry_read _ r d entry Hr Hf).
  cbn [fst snd]. by rewrite run_lift, Hf.
Qed.
Lemma run_check_unspent url s pk w : up (w_net w) -> acc_lamports (account_at (chain (w_net w)) (nkey pid)) <> 0 ->
  holds_nullifiers pid (chain (w_net w)) s ->
  exists w', calm w w' /\ run (check_unspent pid url pk) w =
    (reject_if (bool_decide (compute_nullifier pk ∈ ns_leaves s)) FrontError.DoubleSpend, w').
Proof using.
  intros Hup Hl Hs. destruct (run_rpc_account url (nkey pid) w Hup Hl) as (w1 & Hc & Hg).
  exists w1. split; [done|]. unfold check_unspent. change (address pid nullifier_tree_seeds) with (nkey pid).
  rewrite run_bind, Hg. cbn [fst snd]. rewrite run_bind, run_lift, (holds_nullifiers_read _ s Hs).
  cbn [fst snd]. by rewrite run_lift.
Qed.
Lemma run_check_vault url d w : up (w_net w) -> 0 < d <= acc_lamports (account_at (chain (w_net w)) (pda pid (vault_seeds d))) ->
  exists w', calm w w' /\ run (check_vault pid url d) w = (Ok tt, w').
Proof using.
  intros Hup [H0 Hl]. assert (acc_lamports (account_at (chain (w_net w)) (pda pid (vault_seeds d))) <> 0) as Hne by lia.
  destruct (run_rpc_account url (pda pid (vault_seeds d)) w Hup Hne) as (w1 & Hc & Hg).
  exists w1. split; [done|]. unfold check_vault. change (address pid (vault_seeds d)) with (pda pid (vault_seeds d)).
  rewrite run_bind, Hg. cbn [fst snd]. rewrite run_lift. by rewrite (proj2 (Z.ltb_ge _ _)).
Qed.

(** A transaction that the cluster executes. *)
Lemma run_send_signed (url payer : bytes) (ixs : list SolInstruction) w (Q : store -> Prop) : up (w_net w) ->
  (forall slot bh, exists st', execute pid slot
     {| tx_instructions := ixs; tx_payer := payer; tx_signers := [payer]; tx_blockhash := bh |} (chain (w_net w)) = Some st' /\ Q st') ->
  exists sig w', run (send_signed url payer ixs) w = (Ok sig, w') /\ Q (chain (w_net w')) /\ up (w_net w') /\
    w_host w' = w_host w /\ w_out w' = w_out w.
Proof using.
  intros Hup He. unfold send_signed, submit, rpc.
  destruct (get_latest_blockhash_ok url (w_net w) Hup) as (b & n1 & Hb & Hc & Hu).
  set (tx := {| tx_instructions := ixs; tx_payer := payer; tx_signers := [payer]; tx_blockhash := b |}).
  destruct (send_ok url tx n1 Hu) as (r & n2 & Hr & Hu2 & Hx). rewrite Hc in Hx.
  destruct (He (slot n1) b) as (st' & Hex & HQ). fold tx in Hex. rewrite Hex in Hx. destruct Hx as [<- [sig ->]].
  exists sig, (put_net (put_net w n1) n2). split; [|done].
  rewrite !run_bind, run_ask, Hb. cbn [fst snd]. rewrite run_lift. cbn [fst snd ok_or].
  rewrite run_ask. cbn [put_net w_net]. fold tx. rewrite Hr. cbn [fst snd]. by rewrite run_lift.
Qed.
End runs.

(** ** Properties *)
Section properties.
Context `{CO : CurveOk} {T : Transport} {Cl : Cluster T} `{SK : SolanaOk} {R : Runtime} {RO : RuntimeOk R}.
Context (pid : bytes) {CK : ClusterOk Cl R pid} `{A : Aead} {HX : Hex}.
Hypothesis Hpid : ed25519_program_id <> pid.

Lemma withdrawn_live st st' r s entry pk sig d payer rec fee : withdrawable pid st r s entry pk sig d payer rec fee ->
  withdrawn pid st st' r s pk d payer rec fee ->
  acc_lamports (account_at st' (rkey pid)) <> 0 /\ acc_lamports (account_at st' (nkey pid)) <> 0.
Proof using SK.
  intros [] (_ & _ & Hl). rewrite !Hl. rewrite !not_elem_of_cons in *.
  destruct wd_payer0 as (_ & _ & Hp1 & Hp2 & Hp3 & _), wd_recipient0 as (Hr1 & Hr2 & Hr3 & _), wd_live0 as (Hl1 & Hl2 & _).
  assert (pda pid (vault_seeds d) <> nkey pid) by apply vault_ne_nullifier.
  assert (pda pid (vault_seeds d) <> rkey pid) by (by apply pda_ne).
  rewrite !move_lamports_spec by congruence. rewrite !decide_False by congruence.
  by rewrite !charge_other by congruence.
Qed.

(** The command once the coin, the addresses and the key are found. *)
Lemma run_withdraw_found seed file label rec_b58 url pid_b58 keypair content payer rec s0 found (w : world UiEvent) :
  no_faults (w_host w) -> wallet_opens_to (files (w_host w)) file seed s0 ->
  find_labelled label s0 = Some found -> pubkey_from_str pid_b58 = Some pid -> pubkey_from_str rec_b58 = Some rec ->
  files (w_host w) !! keypair = Some content -> keypair_from_json content = Some payer ->
  run (withdraw_on_devnet seed file label rec_b58 url pid_b58 keypair false false) w =
  run (entry ← check_spendable pid url found;
       sig ← send_signed url payer (withdraw_instructions pid payer rec found entry);
       mret (WithdrawOnDevnetResult label (stc_denom found) rec_b58 sig (explorer sig) (ascii "sponsor-direct") None)
       : io (world UiEvent) FrontError.t UiEvent) w.
Proof using.
  intros Hf Hw Hl Hp Hr Hk Hj. unfold withdraw_on_devnet.
  rewrite run_bind, run_host, (Hw _ eq_refl Hf). cbn [map_err fst snd wdb_store].
  replace (put_host w (w_host w)) with w by (by destruct w).
  rewrite run_bind, run_lift, Hl. cbn [fst snd ok_or]. rewrite run_bind, run_lift. unfold parse_pubkey. rewrite Hp.
  cbn [fst snd ok_or]. rewrite run_bind, run_lift, Hr. cbn [fst snd ok_or].
  rewrite run_bind, (run_keypair _ _ _ _ Hf Hk Hj). cbn [fst snd]. unfold choose_payer.
  rewrite run_bind, run_mret. reflexivity.
Qed.

(** The checks of a coin: its nullifier, then the vault. *)
Lemma run_checks url found r s entry (w : world UiEvent) : up (w_net w) ->
  acc_lamports (account_at (chain (w_net w)) (rkey pid)) <> 0 ->
  acc_lamports (account_at (chain (w_net w)) (nkey pid)) <> 0 ->
  holds_registry pid (chain (w_net w)) r -> KeysetRegistry_find_active_for_denom r (stc_denom found) = Some entry ->
  holds_nullifiers pid (chain (w_net w)) s ->
  if decide (compute_nullifier (stc_pubkey_bytes found) ∈ ns_leaves s)
  then exists w', calm pid w w' /\ run (check_spendable pid url found) w = (Err FrontError.DoubleSpend, w')
  else 0 < stc_denom found <= acc_lamports (account_at (chain (w_net w)) (pda pid (vault_seeds (stc_denom found)))) ->
       exists w', calm pid w w' /\ run (check_spendable pid url found) w = (Ok entry, w').
Proof using.
  intros Hup Hlr Hln Hr Hf Hs. unfold check_spendable.
  destruct (run_active_entry pid url r _ entry w Hup Hlr Hr Hf) as (w1 & C1 & R1).
  destruct C1 as (Hh1 & Ho1 & Hc1 & Hu1). rewrite <- Hc1 in Hln, Hs.
  destruct (run_check_unspent pid url s (stc_pubkey_bytes found) w1 Hu1 Hln Hs) as (w2 & C2 & R2).
  assert (calm pid w w2) as Hw2 by (eapply calm_trans; [|exact C2]; done).
  case_decide as Hin.
  - exists w2. split; [done|]. rewrite run_bind, R1. cbn [fst snd]. rewrite run_bind, R2, bool_decide_eq_true_2 by done. done.
  - intros Hv. destruct C2 as (_ & _ & Hc2 & Hu2). rewrite <- Hc1, <- Hc2 in Hv.
    destruct (run_check_vault pid url (stc_denom found) w2 Hu2 Hv) as (w3 & C3 & R3).
    exists w3. split; [by eapply calm_trans|]. rewrite run_bind, R1. cbn [fst snd].
    rewrite run_bind, R2, bool_decide_eq_false_2 by done. cbn [reject_if fst snd].
    rewrite run_bind, R3. cbn [fst snd]. by rewrite run_mret.
Qed.

(** C4: a withdrawal from the graphical wallet pays.  The command finds the
    coin of the label in the wallet file, its keyset and its nullifier on the
    chain, and sends one transaction, which the program accepts: the
    denomination moves from the vault to the recipient, the payer pays the
    fee, the nullifier of the coin is recorded, and no other balance
    changes.  The wallet file is not touched: the coin is still active in it, and a second
    withdrawal is refused as a double spend before anything is sent. *)
Theorem gui_withdraw_pays seed file label rec_b58 url pid_b58 keypair content payer rec s0 found r s entry (w : world UiEvent) :
  no_faults (w_host w) -> wallet_opens_to (files (w_host w)) file seed s0 ->
  find_labelled label s0 = Some found -> length (stc_signature_bytes found) = 64%nat ->
  pubkey_from_str pid_b58 = Some pid -> pubkey_from_str rec_b58 = Some rec ->
  files (w_host w) !! keypair = Some content -> keypair_from_json content = Some payer ->
  up (w_net w) -> 0 < stc_denom found ->
  let pk := stc_pubkey_bytes found in
  let d := stc_denom found in
  let fee := tx_fee (withdraw_instructions pid payer rec found entry) [payer] in
  let command : io (world UiEvent) FrontError.t UiEvent :=
    withdraw_on_devnet seed file label rec_b58 url pid_b58 keypair false false in
  withdrawable pid (chain (w_net w)) r s entry pk (Signature_from_bytes (stc_signature_bytes found)) d payer rec fee ->
  exists sig w', run command w =
      (Ok (WithdrawOnDevnetResult label d rec_b58 sig (explorer sig) (ascii "sponsor-direct") None), w') /\
    withdrawn pid (chain (w_net w)) (chain (w_net w')) r s pk d payer rec fee /\ w_host w' = w_host w /\
    exists w'', run command w' = (Err FrontError.DoubleSpend, w'') /\ chain (w_net w'') = chain (w_net w').
Proof.
  intros Hf Hw Hl Hs Hp Hr Hk Hj Hup Hd pk d fee command W.
  pose proof (λ w' : world UiEvent, run_withdraw_found seed file label rec_b58 url pid_b58 keypair content payer rec s0 found w') as Hrun.
  fold command in Hrun. fold d in Hrun. destruct (wd_live _ _ _ _ _ _ _ _ _ _ _ W) as (Hlr & Hln & _).
  destruct (wd_vault _ _ _ _ _ _ _ _ _ _ _ W) as (_ & _ & Hv).
  pose proof (run_checks url found r s entry w Hup Hlr Hln (wd_registry _ _ _ _ _ _ _ _ _ _ _ W) (wd_entry _ _ _ _ _ _ _ _ _ _ _ W)
    (wd_nullifiers _ _ _ _ _ _ _ _ _ _ _ W)) as Hck.
  rewrite decide_False in Hck by apply W. destruct (Hck (conj Hd Hv)) as (w1 & (Hh & Ho & Hc & Hu) & R1). clear Hck.
  destruct (run_send_signed pid url payer (withdraw_instructions pid payer rec found entry) w1
    (λ st', withdrawn pid (chain (w_net w)) st' r s pk d payer rec fee) Hu) as (sig & w2 & R2 & HQ & Hu2 & Hh2 & Ho2).
  { intros slot bh. rewrite Hc. destruct (wd_lengths _ _ _ _ _ _ _ _ _ _ _ W) as (_ & Hl2 & _).
    pose proof (gui_precompile_layout (stc_signature_bytes found) (ke_joint_pk entry) pk Hs Hl2) as Hlay.
    unfold fee in W |- *. unfold withdraw_instructions in W |- *. fold pk in W |- *. rewrite Hlay in W |- *.
    exact (execute_withdraw pid slot _ r s entry pk _ d payer rec bh Hpid W). }
  exists sig, w2. split.
  { rewrite Hrun by done. rewrite run_bind, R1. cbn [fst snd]. rewrite run_bind, R2. cbn [fst snd]. by rewrite run_mret. }
  split; [exact HQ|]. split; [congruence|].
  destruct (withdrawn_live _ _ _ _ _ _ _ _ _ _ _ W HQ) as [Hlr2 Hln2]. destruct HQ as (Hr2 & Hn2 & _).
  pose proof (run_checks url found r _ entry w2 Hu2 Hlr2 Hln2 Hr2 (wd_entry _ _ _ _ _ _ _ _ _ _ _ W) Hn2) as Hck.
  rewrite decide_True in Hck by (apply elem_of_union_l, elem_of_singleton; done). destruct Hck as (w3 & (_ & _ & Hc3 & _) & R3).
  exists w3. split; [|done]. assert (w_host w2 = w_host w) as Hhw by congruence.
  rewrite Hrun by (rewrite ?Hhw; done). rewrite run_bind, R3. done.
Qed.
End properties.

(** ** Witness: the simulated cluster *)
#[local] Existing Instance toy.
#[local] Existing Instance toy_ok.
#[local] Existing Instance toy_aead.
#[local] Existing Instance toy_aead_ok.
#[local] Existing Instance toy_hex.
#[local] Existing Instance toy_hex_ok.
#[local] Existing Instance sim.
#[local] Existing Instance sim_ok.
#[local] Existing Instance sim_transport.
#[local] Existing Instance sim_runtime.
#[local] Existing Instance sim_runtime_ok.
#[local] Existing Instance sim_cluster.
#[local] Existing Instance sim_cluster_ok.

Definition chain_coin : StoredCoin :=
  {| stc_secret_bytes := zeros 32; stc_pubkey_bytes := demo_coin_pk; stc_signature_bytes := Signature_to_bytes demo_coin_sig;
     stc_denom := 1000; stc_status := CoinStatus.Active; stc_label := Some (ascii "gold") |}.
Definition chain_wallet : CoinStore := {| cst_version := 1; cst_coins := [chain_coin] |}.
Definition chain_host : host :=
  (run (WalletDb_save {| wdb_path := ascii "w.bin"; wdb_store := chain_wallet |} pay_seed)
     (store_host [] {[ascii "key.json" := Demo.user_key]})).2.
Definition chain_recipient : bytes := repeat Byte.x0b 32.
Definition chain_world : @world toy sim_transport UiEvent :=
  {| w_host := chain_host; w_net := ({| sn_store := Demo.chain; sn_slot := 100 |} : @net sim_transport); w_out := [] |}.

Lemma chain_wallet_file : wallet_opens_to (files (w_host chain_world)) (ascii "w.bin") pay_seed chain_wallet.
Proof.
  apply (wallet_opens_iff (store_host [] ∅)). unfold stored. match goal with |- match ?x with _ => _ end =>
    assert (x = Some (default [] (files chain_host !! ascii "w.bin"))) as -> by vm_refl end.
  exists (CoinStore_to_vec chain_wallet). split; vm_refl.
Qed.
Lemma chain_withdrawable : withdrawable Demo.pid (chain (w_net chain_world)) demo_registry NullifierSet_new demo_entry
  demo_coin_pk (Signature_from_bytes (Signature_to_bytes demo_coin_sig)) 1000 Demo.user_key chain_recipient 5.
Proof.
  change (chain (w_net chain_world)) with Demo.chain. split.
  - exact demo_holds_registry.
  - vm_refl.
  - exists (PublicKey_from_secret demo_sk). split; vm_refl.
  - split; [vm_refl|]. split; [vm_refl|]. split; [split; vm_refl|]. split; [vm_refl|]. by vm_compute.
  - exact demo_holds_nullifiers.
  - apply not_elem_of_empty.
  - exists (default [] (NullifierSet_to_vec {| ns_leaves := {[ compute_nullifier demo_coin_pk ]} ∪ ns_leaves NullifierSet_new |})).
    split; [vm_refl|]. apply Nat.leb_le. vm_refl.
  - split; [vm_refl|]. split; [vm_refl|]. by vm_compute.
  - split; [vm_refl|]. split; [by vm_compute|]. by apply (bool_decide_unpack _); vm_compute.
  - by apply (bool_decide_unpack _); vm_compute.
  - split; [by vm_compute|]. split; by vm_compute.
  - intros k Hk. right. left. rewrite !elem_of_cons in Hk. destruct Hk as [->|[->|[->|Hk]]]; [by vm_compute..|by apply elem_of_nil in Hk].
Qed.

Lemma gui_withdraw_pays_witness :
  let command : io (@world toy sim_transport UiEvent) FrontError.t UiEvent :=
    withdraw_on_devnet pay_seed (ascii "w.bin") (ascii "gold") chain_recipient [] Demo.pid (ascii "key.json") false false in
  exists sig w', run command chain_world =
      (Ok (WithdrawOnDevnetResult (ascii "gold") 1000 chain_recipient sig (explorer sig) (ascii "sponsor-direct") None), w') /\
    withdrawn Demo.pid (chain (w_net chain_world)) (chain (w_net w')) demo_registry NullifierSet_new demo_coin_pk 1000
      Demo.user_key chain_recipient 5 /\ w_host w' = w_host chain_world /\
    exists w'', run command w' = (Err FrontError.DoubleSpend, w'') /\ chain (w_net w'') = chain (w_net w').
Proof.
  refine (gui_withdraw_pays Demo.pid _ pay_seed (ascii "w.bin") (ascii "gold") chain_recipient [] Demo.pid (ascii "key.json")
    Demo.user_key Demo.user_key chain_recipient chain_wallet chain_coin demo_registry NullifierSet_new demo_entry chain_world
    _ chain_wallet_file _ _ _ _ _ _ _ _ chain_withdrawable).
  - discriminate.
  - reflexivity.
  - vm_refl.
  - vm_refl.
  - reflexivity.
  - reflexivity.
  - vm_refl.
  - reflexivity.
  - exact I.
  - reflexivity.
Defined.
