(* ===== verification/ChainSetup.v ===== *)
(** * A deployment set up by the command line

    The commands of [DevnetCli] that create the accounts of a new deployment
    and register a keyset, against the program of [Sbf]: what they leave on
    the chain, and what keeps them from it. *)
From S2P Require Import Prelude Crypto ToyCurve Async Parallel Platform Wire Core MintBase Refresh Instruction Program Solana.
From S2P Require Import Ed25519 Sbf SbfFrame SbfRefine ClientBase Transparency Wallet WalletFront Devnet DevnetCli Chain ToyPlatform SbfDemo SimChain ChainProps WalletStore.

(** ** Transactions of one instruction *)
Section transactions.
Context `{CO : CurveOk} {T : Transport} {Cl : Cluster T} `{SK : SolanaOk} {R : Runtime} {RO : RuntimeOk R}.
Variable pid : bytes.
Hypothesis Hpid : ed25519_program_id <> pid.
Implicit Types st : store.

Lemma account_at_eq st st' k : st' !! k = st !! k -> account_at st' k = account_at st k.
Proof using. unfold account_at. by intros ->. Qed.
Lemma account_at_some st k a : st !! k = Some a -> account_at st k = a.
Proof using. unfold account_at. by intros ->. Qed.
Lemma account_at_none st k : st !! k = None -> account_at st k = nothing.
Proof using. unfold account_at. by intros ->. Qed.

Lemma purge_alive st k a : st !! k = Some a -> acc_lamports a <> 0 -> purge st !! k = Some a.
Proof using. intros Hk Ha. by apply map_lookup_filter_Some. Qed.
Lemma purge_same st st' k : st' !! k = st !! k -> purge st' !! k = purge st !! k.
Proof using. intros Hk. unfold purge. by rewrite !map_lookup_filter, Hk. Qed.
Lemma purge_none st k : st !! k = None -> purge st !! k = None.
Proof using. intros Hk. unfold purge. by rewrite map_lookup_filter, Hk. Qed.

(** An account that pays, and stays above the minimum of an account without
    data. *)
Definition can_pay (st : store) (payer : bytes) (a : account) (cost : Z) : Prop :=
  st !! payer = Some a /\ acc_owner a = system_program_id /\ acc_data a = [] /\
  cost + rent_minimum_balance 0 <= acc_lamports a.

Lemma covered (a : account) (l : Z) : acc_data a = [] -> rent_minimum_balance 0 <= l ->
  rent_minimum (set_lamports a l) <= l /\ l <> 0.
Proof using RO.
  intros Hd Hl. pose proof (rent_minimum_covered (set_lamports a l)) as H.
  assert (acc_data (set_lamports a l) = []) as E by done. rewrite E in H. change (Z.of_nat (length [])) with 0 in H.
  pose proof (rent_positive 0 ltac:(lia)). lia.
Qed.

Lemma execute_one slot st payer a bh ix stp : let fee := tx_fee [ix] [payer] in
  si_program_id ix = pid -> can_pay st payer a fee ->
  Forall (λ m, am_is_signer m = true -> am_pubkey m = payer) (si_accounts ix) -> payer ∈ writables ix ->
  process_instruction pid (tx_env [(si_program_id ix, si_data ix)] 0 slot) (info_of <$> si_accounts ix) (si_data ix)
    (charge st payer fee) = Ok stp ->
  (forall k, k ∉ writables ix -> stp !! k = st !! k) ->
  (forall k, k ∈ writables ix -> rent_state_ok (account_at st k) (account_at stp k)) ->
  execute pid slot {| tx_instructions := [ix]; tx_payer := payer; tx_signers := [payer]; tx_blockhash := bh |} st = Some (purge stp).
Proof using Hpid RO.
  intros fee Hp (Ha & Ho & _ & Hl) Hs Hw Hst Hk Hr. unfold execute. cbn [tx_instructions tx_payer tx_signers].
  pose proof (rent_positive 0 ltac:(lia)) as Hpos.
  rewrite decide_True; [|rewrite (account_at_some _ _ _ Ha); split; [by left|]; split; [|split; [done|unfold fee in Hl; lia]]].
  2:{ cbn. rewrite app_nil_r. eapply Forall_impl; [exact Hs|]. intros m Hm E. rewrite (Hm E). by left. }
  cbn [execute_from]. fold fee. rewrite (execute_program pid slot [ix] 0 _ ix stp Hpid Hp Hst); cbn [mbind option_bind].
  - rewrite decide_True; [done|]. intros k _. destruct (decide (k ∈ writables ix)) as [Hi|Hi]; [by apply Hr|].
    right. right. by apply account_at_eq, Hk.
  - intros k Hi. rewrite (account_at_eq st stp k) by (by apply Hk). rewrite charge_other; [done|]. by intros ->.
Qed.

(** ** Creating an account *)
Lemma execute_bootstrap slot st payer bh kind seeds size a :
  let k := pda pid seeds in
  let rent := rent_minimum_balance size in
  let ix := bootstrap_instruction pid payer k kind size 0 in
  let fee := tx_fee [ix] [payer] in
  bootstrap_target pid kind size 0 = Ok (seeds, size, pid) -> 0 <= size <= 10240 ->
  st !! k = None -> can_pay st payer a (fee + rent) ->
  exists st', execute pid slot {| tx_instructions := [ix]; tx_payer := payer; tx_signers := [payer]; tx_blockhash := bh |} st = Some st' /\
    st' !! k = Some {| acc_lamports := rent; acc_data := zeros (Z.to_nat size); acc_owner := pid |} /\
    st' !! payer = Some (set_lamports a (acc_lamports a - fee - rent)) /\
    forall k', k' ∉ [payer; k] -> st' !! k' = purge st !! k'.
Proof using Hpid SK RO.
  intros k rent ix fee Ht Hsz Hk Hpay. destruct (Hpay) as (Ha & Ho & Hd & Hl).
  assert (payer <> k) as Hne by (intros ->; congruence).
  pose proof (rent_positive size ltac:(lia)) as Hrent. fold rent in Hrent.
  pose proof (rent_positive 0 ltac:(lia)) as Hpos.
  set (stc := charge st payer fee). assert (stc !! k = None) as Hkc by (unfold stc, charge; by rewrite lookup_insert_ne).
  assert (account_at stc payer = set_lamports a (acc_lamports a - fee)) as Hpc.
  { unfold stc, charge. by rewrite account_at_insert, (account_at_some _ _ _ Ha). }
  pose proof (create_total pid stc payer seeds rent size pid) as Hcr. cbn zeta in Hcr. fold (pda pid seeds) in Hcr. fold k in Hcr.
  destruct Hcr as [stp Hstp]; [by rewrite Hpc|by rewrite Hpc|rewrite Hpc; cbn; lia|done|by apply account_at_none|done|].
  destruct (invoke_create_account pid stc payer k rent size pid _) as [stp'| |] eqn:Hinv; [|done..].
  injection Hstp as ->. destruct (create_ok _ _ _ _ _ _ _ _ _ Hinv) as (_ & _ & _ & _ & Hstp).
  assert (stp !! k = Some {| acc_lamports := rent; acc_data := zeros (Z.to_nat size); acc_owner := pid |}) as Hnew.
  { rewrite Hstp, lookup_insert_eq. do 2 f_equal. rewrite move_lamports_spec by done. rewrite decide_False, decide_True by congruence.
    rewrite (account_at_none _ _ Hkc). cbn. lia. }
  assert (stp !! payer = Some (set_lamports a (acc_lamports a - fee - rent))) as Hpn.
  { rewrite Hstp. unfold move_lamports. rewrite !lookup_insert_ne, lookup_insert_eq by congruence. by rewrite Hpc. }
  assert (forall k', k' ∉ [payer; k] -> stp !! k' = st !! k') as Hoth.
  { intros k' Hk'. rewrite !not_elem_of_cons in Hk'. destruct Hk' as (H1 & H2 & _). rewrite Hstp.
    unfold move_lamports, stc, charge. by rewrite !lookup_insert_ne by congruence. }
  destruct (covered a (acc_lamports a - fee - rent) Hd ltac:(lia)) as [Hcov Hnz].
  exists (purge stp). split.
  - apply (execute_one slot st payer a bh ix stp).
    + done.
    + split_and!; [done..|]. fold fee. lia.
    + by repeat constructor.
    + by left.
    + unfold process_instruction. cbn [ix bootstrap_instruction si_data si_accounts si_program_id].
      rewrite try_serialize by (split; [unfold in_width; lia|by split]). step.
      unfold bootstrap. cbn [fmap list_fmap info_of ai_is_signer ai_key writable readonly am_pubkey am_is_signer negb reject_if]. step.
      rewrite bool_decide_eq_true_2 by done. step. rewrite Ht. step.
      rewrite (surjective_pairing (find_program_address seeds pid)). rewrite bool_decide_eq_true_2 by reflexivity. step.
      fold fee. fold stc. rewrite (account_at_none _ _ Hkc). step. rewrite env_rent by lia. step. exact Hinv.
    + intros k' Hk'. apply Hoth. exact Hk'.
    + intros k' Hk'. change (k' ∈ [payer; k]) in Hk'. right. left. rewrite !elem_of_cons in Hk'. destruct Hk' as [->|[->|Hk']]; [| |by apply elem_of_nil in Hk'].
      * by rewrite (account_at_some _ _ _ Hpn).
      * rewrite (account_at_some _ _ _ Hnew). etrans; [apply rent_minimum_covered|]. cbn [acc_data acc_lamports]. unfold zeros; rewrite repeat_length, Z2Nat.id; [done|lia].
  - split; [apply purge_alive; [done|cbn; lia]|]. split; [by apply purge_alive|].
    intros k' Hk'. by apply purge_same, Hoth.
Qed.

(** ** Registering a keyset *)
Lemma execute_register slot st payer bh keyset_id jpk denom epoch a reg r r' enc :
  let ix := register_instruction pid payer keyset_id jpk denom epoch in
  let fee := tx_fee [ix] [payer] in
  let call := Instruction.RegisterKeyset keyset_id denom jpk epoch [] in
  Instruction.wf call -> can_pay st payer a fee -> payer <> rkey pid ->
  st !! rkey pid = Some reg -> acc_lamports reg <> 0 -> rent_minimum reg <= acc_lamports reg ->
  load_padded KeysetRegistry_new KeysetRegistry_read (acc_data reg) = Ok r ->
  process_register_keyset r call = (r', Ok tt) -> KeysetRegistry_to_vec r' = Some enc ->
  (length enc <= length (acc_data reg))%nat ->
  exists st', execute pid slot {| tx_instructions := [ix]; tx_payer := payer; tx_signers := [payer]; tx_blockhash := bh |} st = Some st' /\
    st' !! rkey pid = Some (set_data reg (enc ++ drop (length enc) (acc_data reg))) /\
    st' !! payer = Some (set_lamports a (acc_lamports a - fee)) /\
    forall k', k' ∉ [payer; rkey pid] -> st' !! k' = purge st !! k'.
Proof using Hpid SK RO.
  intros ix fee call Hwf Hpay Hne Hreg Hlam Hmin Hr Hproc Henc Hlen. destruct (Hpay) as (Ha & Ho & Hd & Hl).
  pose proof (rent_positive 0 ltac:(lia)) as Hpos.
  set (stc := charge st payer fee). set (reg' := set_data reg (enc ++ drop (length enc) (acc_data reg))).
  assert (stc !! rkey pid = Some reg) as Hregc by (unfold stc, charge; by rewrite lookup_insert_ne).
  set (stp := <[rkey pid := reg']> stc).
  assert (stp !! payer = Some (set_lamports a (acc_lamports a - fee))) as Hpn.
  { unfold stp, stc, charge. rewrite lookup_insert_ne, lookup_insert_eq by done. by rewrite (account_at_some _ _ _ Ha). }
  assert (stp !! rkey pid = Some reg') as Hnew by apply lookup_insert_eq.
  assert (forall k', k' ∉ [payer; rkey pid] -> stp !! k' = st !! k') as Hoth.
  { intros k' Hk'. rewrite !not_elem_of_cons in Hk'. destruct Hk' as (H1 & H2 & _).
    unfold stp, stc, charge. by rewrite !lookup_insert_ne by congruence. }
  destruct (covered a (acc_lamports a - fee) Hd ltac:(lia)) as [Hcov Hnz].
  exists (purge stp). split.
  - apply (execute_one slot st payer a bh ix stp).
    + done.
    + done.
    + by repeat constructor.
    + by left.
    + unfold process_instruction. cbn [ix register_instruction si_data si_accounts si_program_id].
      rewrite try_serialize by done. step. unfold Sbf.register_keyset.
      cbn [fmap list_fmap info_of ai_is_signer ai_key writable am_pubkey am_is_signer negb reject_if]. step.
      unfold verify_keyset_registry_pda. change (address pid keyset_registry_seeds) with (rkey pid).
      unfold rkey, info_of; cbn [am_pubkey am_is_signer writable].
      rewrite verify_pda_is. step. fold (rkey pid). fold fee. fold stc. unfold load_registry. cbn [ai_key].
      rewrite (account_at_some _ _ _ Hregc), Hr. step. fold call. rewrite Hproc. step.
      unfold store_registry. rewrite Henc. step. apply store_padded_ok. cbn [ai_key].
      rewrite (account_at_some _ _ _ Hregc). done.
    + intros k' Hk'. apply Hoth. exact Hk'.
    + intros k' Hk'. change (k' ∈ [payer; rkey pid]) in Hk'. right. left.
      rewrite !elem_of_cons in Hk'. destruct Hk' as [->|[->|Hk']]; [| |by apply elem_of_nil in Hk'].
      * by rewrite (account_at_some _ _ _ Hpn).
      * rewrite (account_at_some _ _ _ Hnew). rewrite (rent_minimum_size _ reg); [done|].
        cbn. rewrite length_app, length_drop. lia.
  - split; [by apply purge_alive|]. split; [by apply purge_alive|].
    intros k' Hk'. by apply purge_same, Hoth.
Qed.
End transactions.

(** ** The commands *)
Section commands.
Context `{CO : CurveOk} {T : Transport} {Cl : Cluster T} `{SK : SolanaOk} {R : Runtime} {RO : RuntimeOk R}.
Context (pid : bytes) {CK : ClusterOk Cl R pid} `{HX : Hex}.
Hypothesis Hpid : ed25519_program_id <> pid.
Context (keypair_path content payer pid_b58 url : bytes).
Hypothesis Hparse : pubkey_from_str pid_b58 = Some pid.
Hypothesis Hkey : keypair_from_json content = Some payer.
Implicit Types w : world said.

(** The key file is there and the cluster answers. *)
Definition ready w : Prop := no_faults (w_host w) /\ files (w_host w) !! keypair_path = Some content /\ up (w_net w).
(** The same host, and more output. *)
Definition says w w' (l : list said) : Prop := w_host w' = w_host w /\ up (w_net w') /\ w_out w' = w_out w ++ l.
Lemma says_ready w w' l : ready w -> says w w' l -> ready w'.
Proof using. intros (Hf & Hk & _) (Hh & Hu & _). unfold ready. by rewrite Hh. Qed.
Lemma says_trans w1 w2 w3 l1 l2 : says w1 w2 l1 -> says w2 w3 l2 -> says w1 w3 (l1 ++ l2).
Proof using. intros (H1 & _ & O1) (H2 & U & O2). split; [congruence|]. split; [done|]. by rewrite O2, O1, <- app_assoc. Qed.

Lemma run_bootstrap_present program_payer i kind size d a w : up (w_net w) ->
  chain (w_net w) !! pda pid (item_seeds i) = Some a ->
  exists w', run (bootstrap_if_missing url pid program_payer i kind size d) w = (Ok tt, w') /\
    chain (w_net w') = chain (w_net w) /\ says w w' [SaySkip i (pda pid (item_seeds i))].
Proof using.
  intros Hu Ha. destruct (run_get_account pid url (pda pid (item_seeds i)) w Hu) as (w1 & (Hh & Ho & Hc & Hu1) & Hr).
  rewrite Ha in Hr. eexists. split; [|split; [|split; [|split]]].
  - unfold bootstrap_if_missing. change (address pid (item_seeds i)) with (pda pid (item_seeds i)).
    rewrite run_bind, Hr. cbn [fst snd]. by rewrite run_printed.
  - exact Hc.
  - exact Hh.
  - exact Hu1.
  - cbn. by rewrite Ho.
Qed.

Lemma run_bootstrap_missing i kind size a w :
  let k := pda pid (item_seeds i) in
  let rent := rent_minimum_balance size in
  let fee := tx_fee [bootstrap_instruction pid payer k kind size 0] [payer] in
  let st := chain (w_net w) in
  up (w_net w) -> bootstrap_target pid kind size 0 = Ok (item_seeds i, size, pid) -> 0 <= size <= 10240 ->
  st !! k = None -> can_pay st payer a (fee + rent) ->
  exists w' sig, run (bootstrap_if_missing url pid payer i kind size 0) w = (Ok tt, w') /\ says w w' [SayOk sig] /\
    chain (w_net w') !! k = Some {| acc_lamports := rent; acc_data := zeros (Z.to_nat size); acc_owner := pid |} /\
    chain (w_net w') !! payer = Some (set_lamports a (acc_lamports a - fee - rent)) /\
    forall k', k' ∉ [payer; k] -> chain (w_net w') !! k' = purge st !! k'.
Proof using Hpid SK RO.
  intros k rent fee st Hu Ht Hsz Hk Hpay.
  destruct (run_get_account pid url k w Hu) as (w1 & (Hh & Ho & Hc & Hu1) & Hr). fold st in Hr, Hc. rewrite Hk in Hr.
  destruct (run_send_signed pid url payer [bootstrap_instruction pid payer k kind size 0] w1 (λ st',
    st' !! k = Some {| acc_lamports := rent; acc_data := zeros (Z.to_nat size); acc_owner := pid |} /\
    st' !! payer = Some (set_lamports a (acc_lamports a - fee - rent)) /\
    forall k', k' ∉ [payer; k] -> st' !! k' = purge st !! k') Hu1) as (sig & w2 & R2 & HQ & Hu2 & Hh2 & Ho2).
  { intros slot bh. rewrite Hc. by apply (execute_bootstrap pid Hpid slot st payer bh kind (item_seeds i) size a). }
  exists {| w_host := w_host w2; w_net := w_net w2; w_out := w_out w2 ++ [SayOk sig] |}, sig. split; [|split; [split; [|split]|exact HQ]].
  - unfold bootstrap_if_missing. change (address pid (item_seeds i)) with k.
    rewrite run_bind, Hr. cbn [fst snd]. rewrite run_bind, R2. cbn [fst snd]. by rewrite run_printed.
  - cbn. congruence.
  - exact Hu2.
  - cbn. by rewrite Ho2, Ho.
Qed.

(** The start of [bootstrap_singletons]: the key, and a balance of at least
    0.05 SOL. *)
Lemma run_singletons w a : ready w -> chain (w_net w) !! payer = Some a -> 50000000 <= acc_lamports a ->
  exists w', chain (w_net w') = chain (w_net w) /\ says w w' [SayPayer payer; SayBalance (acc_lamports a)] /\
    run (bootstrap_singletons keypair_path pid_b58 url) w =
    run (_ ← bootstrap_if_missing url pid payer Registry BootstrapKind.KeysetRegistry REGISTRY_SIZE 0;
         bootstrap_if_missing url pid payer NullifierTree BootstrapKind.NullifierTree NULLIFIER_SIZE 0) w'.
Proof using Hparse Hkey.
  intros (Hf & Hc & Hu) Ha Hb.
  set (w1 := {| w_host := w_host w; w_net := w_net w; w_out := w_out w ++ [SayPayer payer] |}).
  destruct (get_balance_ok url payer (w_net w) Hu) as (n' & Hr & Hch & Hu'). rewrite (account_at_some _ _ _ Ha) in Hr.
  exists {| w_host := w_host w; w_net := n'; w_out := w_out w1 ++ [SayBalance (acc_lamports a)] |}.
  split; [exact Hch|]. split; [split; [done|split; [done|]]; cbn; by rewrite <- app_assoc|].
  unfold bootstrap_singletons. rewrite run_bind, run_lift. unfold parse_pubkey. rewrite Hparse. cbn [ok_or fst snd].
  rewrite run_bind, (run_keypair _ _ _ _ Hf Hc Hkey). cbn [fst snd]. rewrite run_bind, run_printed. cbn [fst snd]. fold w1.
  unfold rpc. rewrite run_bind, run_bind, run_ask. change (w_net w1) with (w_net w). rewrite Hr. cbn [fst snd].
  rewrite run_lift. cbn [ok_or fst snd]. rewrite run_bind, run_printed. cbn [fst snd].
  rewrite run_bind, run_lift, (proj2 (Z.ltb_ge _ _) Hb). reflexivity.
Qed.

(** [register_keyset] up to its transaction. *)
Definition register_says (keyset_id : bytes) (denom epoch : Z) : list said :=
  [SayPayer payer; SayAddresses [rkey pid]; SayKey keyset_id; SayNumbers [denom; epoch]].
Lemma run_register_sends joint_hex joint denom epoch w : ready w -> parse_hex32 joint_hex = Ok joint ->
  let keyset_id := le_bytes 1 2 ++ joint in
  run (register_keyset keypair_path joint_hex denom epoch pid_b58 url) w =
  run (sig ← send_signed url payer [register_instruction pid payer keyset_id joint denom epoch]; prints (SayOk sig))
    {| w_host := w_host w; w_net := w_net w; w_out := w_out w ++ register_says keyset_id denom epoch |}.
Proof using Hparse Hkey.
  intros (Hf & Hc & Hu) Hj keyset_id. unfold register_keyset. rewrite run_bind, run_lift, Hj. cbn [fst snd].
  rewrite run_bind, run_lift. unfold parse_pubkey. rewrite Hparse. cbn [ok_or fst snd].
  rewrite run_bind, (run_keypair _ _ _ _ Hf Hc Hkey). cbn [fst snd].
  do 4 (rewrite run_bind, run_printed; cbn [fst snd w_host w_net w_out]). rewrite <- !app_assoc. cbn [app]. reflexivity.
Qed.

Lemma run_register joint_hex joint denom epoch a reg r r' enc w :
  let keyset_id := le_bytes 1 2 ++ joint in
  let fee := tx_fee [register_instruction pid payer keyset_id joint denom epoch] [payer] in
  let call := Instruction.RegisterKeyset keyset_id denom joint epoch [] in
  let st := chain (w_net w) in
  ready w -> parse_hex32 joint_hex = Ok joint -> Instruction.wf call ->
  can_pay st payer a fee -> payer <> rkey pid -> st !! rkey pid = Some reg -> acc_lamports reg <> 0 ->
  rent_minimum reg <= acc_lamports reg -> load_padded KeysetRegistry_new KeysetRegistry_read (acc_data reg) = Ok r ->
  process_register_keyset r call = (r', Ok tt) -> KeysetRegistry_to_vec r' = Some enc ->
  (length enc <= length (acc_data reg))%nat ->
  exists w' l, run (register_keyset keypair_path joint_hex denom epoch pid_b58 url) w = (Ok tt, w') /\ says w w' l /\
    chain (w_net w') !! rkey pid = Some (set_data reg (enc ++ drop (length enc) (acc_data reg))) /\
    chain (w_net w') !! payer = Some (set_lamports a (acc_lamports a - fee)) /\
    forall k', k' ∉ [payer; rkey pid] -> chain (w_net w') !! k' = purge st !! k'.
Proof using Hpid Hparse Hkey SK RO.
  intros keyset_id fee call st (Hf & Hc & Hu) Hj Hwf Hpay Hne Hreg Hl Hmin Hr Hproc Henc Hlen.
  pose proof (λ slot bh, execute_register pid Hpid slot st payer bh keyset_id joint denom epoch a reg r r' enc
    Hwf Hpay Hne Hreg Hl Hmin Hr Hproc Henc Hlen) as Hex. cbn zeta in Hex. fold fee in Hex.
  set (l := register_says keyset_id denom epoch).
  set (w1 := {| w_host := w_host w; w_net := w_net w; w_out := w_out w ++ l |}).
  destruct (run_send_signed pid url payer [register_instruction pid payer keyset_id joint denom epoch] w1 _ Hu Hex)
    as (sig & w2 & R2 & HQ & Hu2 & Hh2 & Ho2).
  exists {| w_host := w_host w2; w_net := w_net w2; w_out := w_out w2 ++ [SayOk sig] |}, (l ++ [SayOk sig]). split; [|split; [split; [|split]|exact HQ]].
  - rewrite (run_register_sends _ joint) by done. fold keyset_id. fold l. fold w1.
    rewrite run_bind, R2. cbn [fst snd]. by rewrite run_printed.
  - exact Hh2.
  - exact Hu2.
  - cbn [w_out]. rewrite Ho2. unfold w1. cbn [w_out]. by rewrite <- app_assoc.
Qed.

(** *** A new deployment *)
Definition created (rent : Z) (data : bytes) : account := {| acc_lamports := rent; acc_data := data; acc_owner := pid |}.
Definition singleton_cost (i : item) (kind : BootstrapKind.t) (size : Z) : Z :=
  tx_fee [bootstrap_instruction pid payer (pda pid (item_seeds i)) kind size 0] [payer] + rent_minimum_balance size.
Definition bootstrap_cost : Z :=
  singleton_cost Registry BootstrapKind.KeysetRegistry REGISTRY_SIZE +
  singleton_cost NullifierTree BootstrapKind.NullifierTree NULLIFIER_SIZE.
Definition register_cost (keyset_id joint : bytes) (denom epoch : Z) : Z :=
  tx_fee [register_instruction pid payer keyset_id joint denom epoch] [payer].

Lemma singletons_created a w : ready w -> chain (w_net w) !! rkey pid = None -> chain (w_net w) !! nkey pid = None ->
  can_pay (chain (w_net w)) payer a bootstrap_cost -> 50000000 <= acc_lamports a ->
  exists w' l, run (bootstrap_singletons keypair_path pid_b58 url) w = (Ok tt, w') /\ says w w' l /\
    chain (w_net w') !! rkey pid = Some (created (rent_minimum_balance REGISTRY_SIZE) (zeros (Z.to_nat REGISTRY_SIZE))) /\
    chain (w_net w') !! nkey pid = Some (created (rent_minimum_balance NULLIFIER_SIZE) (zeros (Z.to_nat NULLIFIER_SIZE))) /\
    chain (w_net w') !! payer = Some (set_lamports a (acc_lamports a - bootstrap_cost)).
Proof using Hpid Hparse Hkey SK RO.
  intros Hrd Hr Hn (Ha & Ho & Hd & Hl) Hb. destruct (run_singletons w a Hrd Ha Hb) as (w0 & Hc0 & Hs0 & ->).
  pose proof (says_ready _ _ _ Hrd Hs0) as (_ & _ & Hu0). unfold bootstrap_cost in Hl |- *.
  unfold singleton_cost in Hl |- *. cbn [item_seeds] in Hl |- *.
  change (pda pid keyset_registry_seeds) with (rkey pid) in *. change (pda pid nullifier_tree_seeds) with (nkey pid) in *.
  set (f1 := tx_fee [bootstrap_instruction pid payer (rkey pid) _ _ _] _) in *.
  set (f2 := tx_fee [bootstrap_instruction pid payer (nkey pid) _ _ _] _) in *.
  assert (rkey pid <> payer) as Hrp by (intros E; rewrite E in Hr; congruence).
  assert (nkey pid <> payer) as Hnp by (intros E; rewrite E in Hn; congruence).
  assert (rkey pid <> nkey pid) as Hrn by apply registry_ne_nullifier.
  pose proof (fee_nonneg [bootstrap_instruction pid payer (nkey pid) BootstrapKind.NullifierTree NULLIFIER_SIZE 0] [payer]) as Hf2.
  pose proof (rent_positive NULLIFIER_SIZE ltac:(by compute)) as Hp2. pose proof (rent_positive REGISTRY_SIZE ltac:(by compute)) as Hp1.
  fold f2 in Hf2.
  destruct (run_bootstrap_missing Registry BootstrapKind.KeysetRegistry REGISTRY_SIZE a w0) as (w1 & s1 & R1 & S1 & N1 & P1 & O1).
  { done. } { done. } { by compute. } { by rewrite Hc0. }
  { rewrite Hc0. split_and!; [done..|]. cbn [item_seeds]. change (pda pid keyset_registry_seeds) with (rkey pid). fold f1. lia. }
  cbn [item_seeds] in N1, P1, O1. change (pda pid keyset_registry_seeds) with (rkey pid) in N1, P1, O1. fold f1 in P1.
  set (a1 := set_lamports a (acc_lamports a - f1 - rent_minimum_balance REGISTRY_SIZE)) in *.
  pose proof (says_ready _ _ _ Hrd (says_trans _ _ _ _ _ Hs0 S1)) as (_ & _ & Hu1).
  destruct (run_bootstrap_missing NullifierTree BootstrapKind.NullifierTree NULLIFIER_SIZE a1 w1) as (w2 & s2 & R2 & S2 & N2 & P2 & O2).
  { done. } { done. } { by compute. }
  { cbn [item_seeds]. change (pda pid nullifier_tree_seeds) with (nkey pid).
    rewrite O1 by (rewrite !not_elem_of_cons; split_and!; [done..|apply not_elem_of_nil]). rewrite Hc0. by apply purge_none. }
  { split_and!; [done..|]. cbn [item_seeds]. change (pda pid nullifier_tree_seeds) with (nkey pid). fold f2. cbn. lia. }
  cbn [item_seeds] in N2, P2, O2. change (pda pid nullifier_tree_seeds) with (nkey pid) in N2, P2, O2. fold f2 in P2.
  eexists w2, _. split; [|split; [|split; [|split]]].
  - rewrite run_bind, R1. cbn [fst snd]. exact R2.
  - eapply says_trans; [exact Hs0|]. eapply says_trans; [exact S1|exact S2].
  - rewrite O2 by (rewrite !not_elem_of_cons; split_and!; [done..|apply not_elem_of_nil]).
    apply purge_alive; [exact N1|]. cbn. lia.
  - exact N2.
  - rewrite P2. unfold a1, set_lamports. cbn. do 2 f_equal. lia.
Qed.

Lemma register_first joint_hex joint denom epoch a w :
  let keyset_id := le_bytes 1 2 ++ joint in
  let entry := {| ke_keyset_id := keyset_id; ke_denom := denom; ke_joint_pk := joint; ke_epoch := epoch;
                  ke_status := KeysetStatus.Active |} in
  let st := chain (w_net w) in
  ready w -> parse_hex32 joint_hex = Ok joint -> length joint = 32%nat -> u64 denom -> u64 epoch ->
  st !! rkey pid = Some (created (rent_minimum_balance REGISTRY_SIZE) (zeros (Z.to_nat REGISTRY_SIZE))) ->
  st !! nkey pid = Some (created (rent_minimum_balance NULLIFIER_SIZE) (zeros (Z.to_nat NULLIFIER_SIZE))) ->
  can_pay st payer a (register_cost keyset_id joint denom epoch) -> payer <> rkey pid -> payer <> nkey pid ->
  exists w' l reg, run (register_keyset keypair_path joint_hex denom epoch pid_b58 url) w = (Ok tt, w') /\ says w w' l /\
    chain (w_net w') !! rkey pid = Some reg /\ acc_lamports reg <> 0 /\
    holds_registry pid (chain (w_net w')) {| kr_version := 1; kr_entries := [entry] |} /\
    chain (w_net w') !! nkey pid = Some (created (rent_minimum_balance NULLIFIER_SIZE) (zeros (Z.to_nat NULLIFIER_SIZE))) /\
    chain (w_net w') !! payer = Some (set_lamports a (acc_lamports a - register_cost keyset_id joint denom epoch)).
Proof using Hpid Hparse Hkey SK RO.
  intros keyset_id entry st Hrd Hj Hlj Hd He Hr Hn Hpay Hpr Hpn.
  set (r := {| kr_version := 1; kr_entries := [entry] |}).
  assert (wf_registry r) as Hwr.
  { split; [by compute|]. constructor; [|constructor].
    split; [unfold entry, keyset_id; cbn [ke_keyset_id]; rewrite length_app, length_le_bytes, Hlj; done|]. by repeat (split; [assumption|]). }
  pose proof (rent_positive NULLIFIER_SIZE ltac:(by compute)) as Hp2. pose proof (rent_positive REGISTRY_SIZE ltac:(by compute)) as Hp1.
  set (enc := le_bytes 1 1 ++ borsh_vec KeysetEntry_to_vec [entry]).
  assert (KeysetRegistry_to_vec r = Some enc) as Henc by done.
  set (reg0 := created (rent_minimum_balance REGISTRY_SIZE) (zeros (Z.to_nat REGISTRY_SIZE))) in Hr.
  destruct (run_register joint_hex joint denom epoch a reg0 KeysetRegistry_new r enc w Hrd Hj)
    as (w' & l & R1 & S1 & N1 & P1 & O1).
  - split; [unfold keyset_id; rewrite length_app, length_le_bytes, Hlj; done|]. split; [exact Hd|]. split; [exact Hlj|]. split; [exact He|done].
  - exact Hpay.
  - exact Hpr.
  - exact Hr.
  - cbn. lia.
  - etrans; [apply rent_minimum_covered|]. unfold reg0; cbn [created acc_data acc_lamports]. unfold zeros. rewrite repeat_length. done.
  - unfold reg0; cbn [created acc_data]. unfold load_padded. by rewrite all_zero_zeros.
  - done.
  - exact Henc.
  - unfold reg0; cbn [created acc_data]. unfold zeros. rewrite repeat_length. unfold enc, borsh_vec. change (mjoin (KeysetEntry_to_vec <$> [entry])) with (KeysetEntry_to_vec entry ++ []).
    rewrite app_nil_r. unfold KeysetEntry_to_vec, entry, KeysetStatus_to_vec, keyset_id. cbn [ke_keyset_id ke_denom ke_joint_pk ke_epoch ke_status].
    rewrite !length_app, !length_le_bytes, !Hlj. cbn [length]. unfold REGISTRY_SIZE. lia.
  - exists w', l. eexists. split; [exact R1|]. split; [exact S1|]. split; [exact N1|]. split; [cbn; lia|]. split; [|split].
    + unfold holds_registry. rewrite (account_at_some _ _ _ N1). cbn [set_data acc_data].
      apply load_stored; [by apply reads_KeysetRegistry|]. by rewrite (nonzero_registry r enc).
    + rewrite O1 by (rewrite !not_elem_of_cons; split_and!; [done| |apply not_elem_of_nil]; intros E; by apply (registry_ne_nullifier pid)).
      apply purge_alive; [exact Hn|]. cbn. lia.
    + exact P1.
Qed.

(** *** An address that was paid before the deployment *)
Lemma run_send_refused p ixs w : up (w_net w) ->
  (forall slot bh, execute pid slot {| tx_instructions := ixs; tx_payer := p; tx_signers := [p]; tx_blockhash := bh |}
     (chain (w_net w)) = None) ->
  exists w', run (send_signed url p ixs) w = (Err FrontError.ClusterCall, w') /\ chain (w_net w') = chain (w_net w).
Proof using.
  intros Hup He. unfold send_signed, submit, rpc.
  destruct (get_latest_blockhash_ok url (w_net w) Hup) as (b & n1 & Hb & Hc & Hu).
  set (tx := {| tx_instructions := ixs; tx_payer := p; tx_signers := [p]; tx_blockhash := b |}).
  destruct (send_ok url tx n1 Hu) as (r & n2 & Hr & Hu2 & Hx). rewrite Hc in Hx. unfold tx in Hx. rewrite He in Hx.
  destruct Hx as [Hc2 [e ->]]. exists (put_net (put_net w n1) n2). split; [|exact Hc2].
  rewrite !run_bind, run_ask, Hb. cbn [fst snd]. rewrite run_lift. cbn [fst snd ok_or].
  rewrite run_ask. cbn [put_net w_net]. fold tx. rewrite Hr. cbn [fst snd]. by rewrite run_lift.
Qed.

Lemma execute_refused slot st p bh ix : si_program_id ix = pid ->
  (forall e st', ok_value (process_instruction pid e (info_of <$> si_accounts ix) (si_data ix)
     (charge st p (tx_fee [ix] [p]))) <> Some st') ->
  execute pid slot {| tx_instructions := [ix]; tx_payer := p; tx_signers := [p]; tx_blockhash := bh |} st = None.
Proof using Hpid.
  intros Hp Hno. unfold execute. cbn [tx_instructions tx_payer tx_signers]. case_decide; [|done].
  cbn [execute_from]. unfold execute_instruction. rewrite Hp, decide_False, decide_True by done.
  destruct (ok_value _) as [st'|] eqn:E; [|done]. by apply Hno in E.
Qed.

(** Lamports at the address of the registry, sent before the account is
    created: the command reports the account as there and succeeds, the
    program refuses to create it, and no keyset can be registered. *)
Lemma paid_address_blocks_setup joint_hex joint denom epoch dust w : ready w ->
  chain (w_net w) !! rkey pid = Some dust -> 0 < acc_lamports dust -> acc_data dust = [] ->
  parse_hex32 joint_hex = Ok joint -> length joint = 32%nat -> u64 denom -> u64 epoch -> payer <> rkey pid ->
  (exists w', run (bootstrap_if_missing url pid payer Registry BootstrapKind.KeysetRegistry REGISTRY_SIZE 0) w = (Ok tt, w') /\
     chain (w_net w') = chain (w_net w) /\ says w w' [SaySkip Registry (rkey pid)]) /\
  (forall e accs size d st', bootstrap pid e accs (Instruction.Bootstrap BootstrapKind.KeysetRegistry size d) (chain (w_net w)) <> Ok st') /\
  exists w', run (register_keyset keypair_path joint_hex denom epoch pid_b58 url) w = (Err FrontError.ClusterCall, w') /\
    chain (w_net w') = chain (w_net w).
Proof using Hpid Hparse Hkey SK.
  intros (Hf & Hc & Hu) Hr Hl Hd Hj Hlj Hdn Hep Hne. split; [|split].
  - exact (run_bootstrap_present payer Registry BootstrapKind.KeysetRegistry REGISTRY_SIZE 0 dust w Hu Hr).
  - intros e accs size d st' Hb. apply (bootstrap_effect pid) in Hb as (f & t & seeds & alloc & owner & rent & _ & Ht & Htg & _ & H0 & _).
    unfold bootstrap_target in Htg. inv_ok. rewrite Ht in H0. subst seeds.
    rewrite (account_at_some _ (pda pid _) dust Hr) in H0. lia.
  - set (keyset_id := le_bytes 1 2 ++ joint).
    set (w1 := {| w_host := w_host w; w_net := w_net w;
                  w_out := w_out w ++ register_says keyset_id denom epoch |}).
    destruct (run_send_refused payer [register_instruction pid payer keyset_id joint denom epoch] w1 Hu) as (w2 & R2 & C2).
    { intros slot bh. apply execute_refused; [done|]. intros e st'. unfold process_instruction.
      cbn [register_instruction si_data si_accounts]. rewrite try_serialize.
      2:{ split; [unfold keyset_id; rewrite length_app, length_le_bytes, Hlj; done|]. split; [exact Hdn|]. split; [exact Hlj|]. split; [exact Hep|done]. }
      step. unfold Sbf.register_keyset. cbn [fmap list_fmap info_of ai_is_signer ai_key writable am_pubkey am_is_signer negb reject_if]. step.
      unfold verify_keyset_registry_pda. change (address pid keyset_registry_seeds) with (rkey pid).
      unfold rkey, info_of; cbn [am_pubkey am_is_signer writable]. rewrite verify_pda_is. step. fold (rkey pid).
      unfold load_registry, store_registry, store_padded. cbn [ai_key]. rewrite charge_other by done.
      rewrite (account_at_some _ (rkey pid) dust Hr), Hd. step. done. }
    exists w2. split; [|exact C2].
    rewrite (run_register_sends _ joint) by done. fold keyset_id. fold w1.
    by rewrite run_bind, R2.
Qed.
End commands.

(** ** Property *)
Section property.
Context `{CO : CurveOk} {T : Transport} {Cl : Cluster T} `{SK : SolanaOk} {R : Runtime} {RO : RuntimeOk R}.
Context (pid : bytes) {CK : ClusterOk Cl R pid} `{HX : Hex}.

(** C11: the command line sets up a deployment.  On a chain without the
    accounts of the registry and the nullifiers, [bootstrap_singletons] and then
    [register_keyset] create both accounts, empty, and enter the keyset: from then on
    the wallets find it as the active keyset of its denomination, no nullifier
    is recorded, and the payer has paid the fees and the rent.  Setting up
    once more skips both accounts and changes nothing. *)
Theorem devnet_setup keypair_path content payer pid_b58 url joint_hex joint denom epoch a (w : world said) :
  ed25519_program_id <> pid -> pubkey_from_str pid_b58 = Some pid -> keypair_from_json content = Some payer ->
  ready pid keypair_path content w -> parse_hex32 joint_hex = Ok joint -> length joint = 32%nat -> u64 denom -> u64 epoch ->
  chain (w_net w) !! rkey pid = None -> chain (w_net w) !! nkey pid = None ->
  let keyset_id := le_bytes 1 2 ++ joint in
  let cost := bootstrap_cost pid payer + register_cost pid payer keyset_id joint denom epoch in
  let entry := {| ke_keyset_id := keyset_id; ke_denom := denom; ke_joint_pk := joint; ke_epoch := epoch;
                  ke_status := KeysetStatus.Active |} in
  let bootstrap : io (world said) FrontError.t unit := bootstrap_singletons keypair_path pid_b58 url in
  can_pay (chain (w_net w)) payer a cost -> 50000000 + cost <= acc_lamports a ->
  exists w1 w2, run bootstrap w = (Ok tt, w1) /\ holds_registry pid (chain (w_net w1)) KeysetRegistry_new /\
    run (register_keyset keypair_path joint_hex denom epoch pid_b58 url) w1 = (Ok tt, w2) /\
    holds_registry pid (chain (w_net w2)) {| kr_version := 1; kr_entries := [entry] |} /\
    holds_nullifiers pid (chain (w_net w2)) NullifierSet_new /\
    acc_lamports (account_at (chain (w_net w2)) payer) = acc_lamports a - cost /\
    (exists w3, run (active_entry pid url denom : io (world said) FrontError.t KeysetEntry) w2 = (Ok entry, w3)) /\
    exists w4, run bootstrap w2 = (Ok tt, w4) /\ chain (w_net w4) = chain (w_net w2) /\
      w_out w4 = w_out w2 ++ [SayPayer payer; SayBalance (acc_lamports a - cost);
                              SaySkip Registry (rkey pid); SaySkip NullifierTree (nkey pid)].
Proof.
  intros Hpid Hparse Hkey Hrd Hj Hlj Hd He Hr Hn keyset_id cost entry bootstrap (Ha & Ho & Hda & Hl) Hb.
  pose proof (fee_nonneg [register_instruction pid payer keyset_id joint denom epoch] [payer]) as Hf3.
  fold (register_cost pid payer keyset_id joint denom epoch) in Hf3.
  pose proof (rent_positive NULLIFIER_SIZE ltac:(by compute)) as Hp2. pose proof (rent_positive REGISTRY_SIZE ltac:(by compute)) as Hp1.
  pose proof (fee_nonneg [bootstrap_instruction pid payer (pda pid (item_seeds NullifierTree)) BootstrapKind.NullifierTree NULLIFIER_SIZE 0] [payer]) as Hf2.
  pose proof (fee_nonneg [bootstrap_instruction pid payer (pda pid (item_seeds Registry)) BootstrapKind.KeysetRegistry REGISTRY_SIZE 0] [payer]) as Hf1.
  assert (0 <= bootstrap_cost pid payer) as Hbc by (unfold bootstrap_cost, singleton_cost; lia).
  assert (payer <> rkey pid) as Hpr by (intros ->; congruence). assert (payer <> nkey pid) as Hpn by (intros ->; congruence).
  destruct (singletons_created pid Hpid keypair_path content payer pid_b58 url Hparse Hkey a w Hrd Hr Hn) as (w1 & l1 & R1 & S1 & Hr1 & Hn1 & Ha1).
  { split_and!; [done..|]. unfold cost in Hl. lia. }
  { unfold cost in Hb. lia. }
  pose proof (says_ready _ _ _ _ _ _ Hrd S1) as Hrd1.
  destruct (register_first pid Hpid keypair_path content payer pid_b58 url Hparse Hkey joint_hex joint denom epoch
    (set_lamports a (acc_lamports a - bootstrap_cost pid payer)) w1
    Hrd1 Hj Hlj Hd He Hr1 Hn1) as (w2 & l2 & reg & R2 & S2 & Hr2 & Hlr & Hh2 & Hn2 & Ha2); [|done|done|].
  { split_and!; [exact Ha1|done|done|]. cbn [set_lamports acc_lamports]. unfold cost, keyset_id in Hl. lia. }
  fold keyset_id in R2, Hh2, Ha2. fold entry in Hh2.
  assert (acc_lamports a - bootstrap_cost pid payer - register_cost pid payer keyset_id joint denom epoch = acc_lamports a - cost) as Hac
    by (unfold cost; lia).
  pose proof (says_ready _ _ _ _ _ _ Hrd1 S2) as Hrd2. destruct (Hrd2) as (_ & _ & Hu2).
  exists w1, w2. split; [exact R1|]. split; [|split; [exact R2|split; [exact Hh2|split; [|split; [|split]]]]].
  - unfold holds_registry. rewrite (account_at_some _ _ _ Hr1). cbn [created acc_data]. unfold load_padded. by rewrite all_zero_zeros.
  - unfold holds_nullifiers. rewrite (account_at_some _ _ _ Hn2). cbn [created acc_data]. unfold load_padded. by rewrite all_zero_zeros.
  - rewrite (account_at_some _ _ _ Ha2). cbn. exact Hac.
  - destruct (run_active_entry pid url {| kr_version := 1; kr_entries := [entry] |} denom entry w2 Hu2) as (w3 & _ & R3).
    + by rewrite (account_at_some _ _ _ Hr2).
    + exact Hh2.
    + unfold KeysetRegistry_find_active_for_denom. cbn [kr_entries]. by rewrite filter_cons_True, filter_nil by done.
    + by exists w3.
  - destruct (run_singletons pid keypair_path content payer pid_b58 url Hparse Hkey w2
      (set_lamports a (acc_lamports a - bootstrap_cost pid payer - register_cost pid payer keyset_id joint denom epoch)) Hrd2 Ha2) as (w5 & C5 & S5 & R5).
    { cbn [set_lamports acc_lamports]. unfold cost in Hb. lia. }
    destruct (run_bootstrap_present pid url payer Registry BootstrapKind.KeysetRegistry REGISTRY_SIZE 0 reg w5) as (w6 & R6 & C6 & S6);
      [apply S5|by rewrite C5|].
    destruct (run_bootstrap_present pid url payer NullifierTree BootstrapKind.NullifierTree NULLIFIER_SIZE 0
      (created pid (rent_minimum_balance NULLIFIER_SIZE) (zeros (Z.to_nat NULLIFIER_SIZE))) w6
      (proj1 (proj2 S6)) ltac:(rewrite C6, C5; exact Hn2)) as (w7 & R7 & C7 & S7).
    exists w7. split; [|split].
    + unfold bootstrap. rewrite R5, run_bind, R6. cbn [fst snd]. exact R7.
    + congruence.
    + destruct (says_trans _ _ _ _ _ _ S5 (says_trans _ _ _ _ _ _ S6 S7)) as (_ & _ & ->). cbn [app set_lamports acc_lamports]. by rewrite <- Hac.
Qed.
End property.

(** ** Witness: the simulated cluster with one account *)
#[local] Existing Instance toy.
#[local] Existing Instance toy_ok.
#[local] Existing Instance toy_hex.
#[local] Existing Instance sim.
#[local] Existing Instance sim_ok.
#[local] Existing Instance sim_transport.
#[local] Existing Instance sim_runtime.
#[local] Existing Instance sim_runtime_ok.
#[local] Existing Instance sim_cluster.
#[local] Existing Instance sim_cluster_ok.

Definition setup_payer : account := {| acc_lamports := 200000000; acc_data := []; acc_owner := system_program_id |}.
Definition setup_joint : bytes := repeat Byte.x03 32.
Definition setup_world : @world toy sim_transport said :=
  {| w_host := store_host [] {[ascii "id.json" := Demo.user_key]};
     w_net := ({| sn_store := {[Demo.user_key := setup_payer]}; sn_slot := 0 |} : @net sim_transport); w_out := [] |}.

Lemma devnet_setup_witness :
  let keyset_id := le_bytes 1 2 ++ setup_joint in
  let entry := {| ke_keyset_id := keyset_id; ke_denom := 1000; ke_joint_pk := setup_joint; ke_epoch := 1;
                  ke_status := KeysetStatus.Active |} in
  let bootstrap : io (@world toy sim_transport said) FrontError.t unit := bootstrap_singletons (ascii "id.json") Demo.pid [] in
  exists w1 w2, run bootstrap setup_world = (Ok tt, w1) /\
    run (register_keyset (ascii "id.json") (hex_encode setup_joint) 1000 1 Demo.pid []) w1 = (Ok tt, w2) /\
    holds_registry Demo.pid (chain (w_net w2)) {| kr_version := 1; kr_entries := [entry] |} /\
    acc_lamports (account_at (chain (w_net w2)) Demo.user_key) =
      200000000 - (bootstrap_cost Demo.pid Demo.user_key + register_cost Demo.pid Demo.user_key keyset_id setup_joint 1000 1).
Proof.
  destruct (devnet_setup Demo.pid (ascii "id.json") Demo.user_key Demo.user_key Demo.pid [] (hex_encode setup_joint) setup_joint
    1000 1 setup_payer setup_world) as (w1 & w2 & R1 & _ & R2 & H & _ & L & _).
  - discriminate.
  - reflexivity.
  - reflexivity.
  - split; [reflexivity|]. split; [vm_refl|exact I].
  - vm_refl.
  - reflexivity.
  - by vm_compute.
  - by vm_compute.
  - vm_refl.
  - vm_refl.
  - split; [vm_refl|]. split; [reflexivity|]. split; [reflexivity|]. by vm_compute.
  - by vm_compute.
  - exists w1, w2. split; [exact R1|]. split; [exact R2|]. split; [exact H|exact L].
Defined.
