(* ===== verification/ChainTakeover.v ===== *)
(** * Who can register a keyset

    [register_keyset] leaves the authorization of its instruction unread and
    accepts any signer, and of the active keysets of a denomination the one of
    the highest epoch is in force: what follows for a vault, in two
    transactions of the clients ([DevnetCli], [WalletGui]) executed by the
    program of [Sbf]. *)
From S2P Require Import Prelude Crypto ToyCurve Async Parallel Platform Wire Core MintBase Refresh Instruction Program Solana.
From S2P Require Import Ed25519 Sbf SbfFrame SbfRefine ClientBase Transparency Wallet WalletFront Devnet DevnetCli Chain ToyPlatform SbfDemo SimChain ChainProps ChainSetup.

Definition U64_MAX : Z := 2 ^ 64 - 1.

(** The keyset an outsider enters, and the registry with it. *)
Definition outsider_entry `{Curve} (sk : SecretKey) (denom : Z) : KeysetEntry :=
  let joint := PublicKey_to_bytes (PublicKey_from_secret sk) in
  {| ke_keyset_id := le_bytes 1 2 ++ joint; ke_denom := denom; ke_joint_pk := joint; ke_epoch := U64_MAX;
     ke_status := KeysetStatus.Active |}.
Definition with_entry (r : KeysetRegistry) (e : KeysetEntry) : KeysetRegistry :=
  {| kr_version := kr_version r; kr_entries := kr_entries r ++ [e] |}.

(** The last of the highest epochs is in force. *)
Lemma max_by_key_last {A} (key : A -> Z) l a : (forall x, x ∈ l -> key x <= key a) -> max_by_key key (l ++ [a]) = Some a.
Proof.
  intros Hl. pose proof (max_by_key_Some key l) as Hm. unfold max_by_key in *. rewrite foldl_app. cbn.
  destruct (foldl _ None l) as [m|]; [|done]. destruct Hm as [Hm _].
  by rewrite (proj2 (Z.ltb_ge _ _) (Hl m Hm)).
Qed.

Section takeover.
Context `{CO : CurveOk}.

Lemma outsider_in_force r sk denom : wf_registry r ->
  KeysetRegistry_find_active_for_denom (with_entry r (outsider_entry sk denom)) denom = Some (outsider_entry sk denom).
Proof.
  intros [_ Hr]. unfold KeysetRegistry_find_active_for_denom, with_entry. cbn [kr_entries].
  rewrite filter_app, filter_cons_True, filter_nil by done. apply max_by_key_last.
  intros x [_ Hx]%list_elem_of_filter. rewrite Forall_forall in Hr. destruct (Hr x Hx) as (_ & _ & _ & He).
  unfold u64, in_width in He. cbn. unfold U64_MAX. lia.
Qed.

Lemma outsider_registers r sk denom :
  KeysetRegistry_find r (ke_keyset_id (outsider_entry sk denom)) = None ->
  Z.of_nat (length (kr_entries r)) < KEYSET_REGISTRY_CAPACITY ->
  process_register_keyset r (Instruction.RegisterKeyset (ke_keyset_id (outsider_entry sk denom)) denom
    (ke_joint_pk (outsider_entry sk denom)) U64_MAX []) = (with_entry r (outsider_entry sk denom), Ok tt).
Proof.
  intros Hf Hc. unfold process_register_keyset. rewrite Hf, bool_decide_eq_false_2 by (by intros []).
  by rewrite (proj2 (Z.leb_gt _ _) Hc).
Qed.
End takeover.

Section property.
Context `{CO : CurveOk} {T : Transport} {Cl : Cluster T} `{SK : SolanaOk} {R : Runtime} {RO : RuntimeOk R}.
Variable pid : bytes.
Hypothesis Hpid : ed25519_program_id <> pid.
Implicit Types st : store.

Definition signed_by (payer : bytes) (ixs : list SolInstruction) (blockhash : bytes) : Transaction :=
  {| tx_instructions := ixs; tx_payer := payer; tx_signers := [payer]; tx_blockhash := blockhash |}.
Definition vault_of (d : Z) : bytes := pda pid (vault_seeds d).

(** A deployment, with room for one more keyset and one more nullifier, and a
    vault that holds the denomination. *)
Record deployed st (r : KeysetRegistry) (s : NullifierSet) (d : Z) (entry : KeysetEntry) (pk : bytes) : Prop := {
  dp_registry : holds_registry pid st r;
  dp_new : KeysetRegistry_find r (ke_keyset_id entry) = None;
  dp_capacity : Z.of_nat (length (kr_entries r)) < KEYSET_REGISTRY_CAPACITY;
  dp_registry_room : exists enc, KeysetRegistry_to_vec (with_entry r entry) = Some enc /\
    (length enc <= length (acc_data (account_at st (rkey pid))))%nat;
  dp_nullifiers : holds_nullifiers pid st s;
  dp_fresh : compute_nullifier pk ∉ ns_leaves s;
  dp_room : room_for pid st s pk;
  dp_live k : k ∈ [rkey pid; nkey pid] ->
    acc_lamports (account_at st k) <> 0 /\ rent_minimum (account_at st k) <= acc_lamports (account_at st k);
  dp_vault : let v := account_at st (vault_of d) in
    acc_owner v = system_program_id /\ acc_data v = [] /\ u64 d /\ 0 < d <= acc_lamports v /\
    (acc_lamports v = d \/ rent_minimum v <= acc_lamports v - d);
}.

(** Registering, whoever signs. *)
Lemma outsider_enters slot st r s d sk pk thief a bh :
  let entry := outsider_entry sk d in
  let register := register_instruction pid thief (ke_keyset_id entry) (ke_joint_pk entry) d U64_MAX in
  let fee := tx_fee [register] [thief] in
  deployed st r s d entry pk -> can_pay st thief a fee -> thief <> rkey pid ->
  exists st1, execute pid slot (signed_by thief [register] bh) st = Some st1 /\
    holds_registry pid st1 (with_entry r entry) /\
    acc_lamports (account_at st1 (rkey pid)) = acc_lamports (account_at st (rkey pid)) /\
    st1 !! thief = Some (set_lamports a (acc_lamports a - fee)) /\
    forall k, k ∉ [thief; rkey pid] -> acc_lamports (account_at st k) <> 0 -> account_at st1 k = account_at st k.
Proof using Hpid SK RO CO.
  intros entry register fee D Hpay Hne. destruct D.
  destruct (dp_live0 (rkey pid) ltac:(by left)) as [Hl Hmin]. destruct dp_registry_room0 as (enc & He & Hlen).
  destruct dp_vault0 as (_ & _ & Hd & _).
  assert (st !! rkey pid = Some (account_at st (rkey pid))) as Hreg by (by apply chain_lookup).
  assert (length (ke_joint_pk entry) = 32%nat) as Hj by apply pt_compress_length.
  assert (length (ke_keyset_id entry) = 33%nat) as Hk by (unfold entry; cbn; by rewrite pt_compress_length).
  assert (u64 U64_MAX) as Hu by (by compute).
  pose proof (holds_registry_wf pid st r dp_registry0) as Hwf.
  destruct (execute_register pid Hpid slot st thief bh (ke_keyset_id entry) (ke_joint_pk entry) d U64_MAX a
    (account_at st (rkey pid)) r (with_entry r entry) enc) as (st1 & Hx & Hr1 & Ht1 & Ho1);
    [by split_and!|done..|by apply outsider_registers|done|done|].
  exists st1. split; [exact Hx|]. split; [|split; [|split; [exact Ht1|]]].
  - unfold holds_registry. rewrite (account_at_some _ _ _ Hr1). cbn [set_data acc_data].
    apply load_stored; [apply reads_KeysetRegistry; [|done]|].
    + split; [apply Hwf|]. apply Forall_app. split; [apply Hwf|]. constructor; [|constructor]. by split_and!.
    + rewrite (nonzero_registry (with_entry r entry) enc); [done| |done]. cbn. by destruct (kr_entries r).
  - by rewrite (account_at_some _ _ _ Hr1).
  - intros k Hk' Hlk. apply account_at_some. rewrite Ho1 by done. apply purge_alive; [by apply chain_lookup|done].
Qed.

(** The outsider's own coin. *)
Lemma outsider_withdrawable st st1 r s d sk coin rg thief a fee1 fee2 :
  let entry := outsider_entry sk d in
  let pk := PublicKey_to_bytes (PublicKey_from_secret coin) in
  let sig := (schnorr_sign sk (PublicKey_from_secret sk) pk rg).1 in
  deployed st r s d entry pk -> can_pay st thief a (fee1 + fee2) -> 0 <= fee1 -> 0 <= fee2 -> length thief = 32%nat ->
  thief ∉ [rkey pid; nkey pid; vault_of d] ->
  holds_registry pid st1 (with_entry r entry) ->
  acc_lamports (account_at st1 (rkey pid)) = acc_lamports (account_at st (rkey pid)) ->
  st1 !! thief = Some (set_lamports a (acc_lamports a - fee1)) ->
  (forall k, k ∉ [thief; rkey pid] -> acc_lamports (account_at st k) <> 0 -> account_at st1 k = account_at st k) ->
  withdrawable pid st1 (with_entry r entry) s entry pk sig d thief thief fee2.
Proof using Hpid SK RO CO.
  intros entry pk sig D (Ha & Ho & Hda & Hl) Hf1 Hf2 Hlt Hne Hr1 Hlr Ht1 Hk1. destruct D.
  destruct (dp_live0 (rkey pid) ltac:(by left)) as [Hrl _], (dp_live0 (nkey pid) ltac:(right; by left)) as [Hnl Hnm].
  destruct dp_vault0 as (Hvo & Hvd & Hd & Hvl & Hvr). rewrite !not_elem_of_cons in Hne. destruct Hne as (Htr & Htn & Htv & _).
  pose proof (rent_positive 0 ltac:(lia)) as Hpos.
  assert (rkey pid <> nkey pid) as Hrn by apply registry_ne_nullifier.
  assert (vault_of d <> nkey pid) as Hvn by apply vault_ne_nullifier.
  assert (vault_of d <> rkey pid) as Hvk by (by apply pda_ne).
  assert (account_at st1 (nkey pid) = account_at st (nkey pid)) as Hn1.
  { apply Hk1; [|done]. rewrite !not_elem_of_cons. split_and!; [congruence..|apply not_elem_of_nil]. }
  assert (account_at st1 (vault_of d) = account_at st (vault_of d)) as Hv1.
  { apply Hk1; [|lia]. rewrite !not_elem_of_cons. split_and!; [congruence..|apply not_elem_of_nil]. }
  pose proof (account_at_some _ _ _ Ht1) as Ha1. fold (vault_of d). split.
  - exact Hr1.
  - by apply outsider_in_force, (holds_registry_wf pid st).
  - exists (PublicKey_from_secret sk). split; [|apply schnorr_sign_ok].
    apply PublicKey_from_bytes_compress. auto with tardus.
  - split; [apply pt_compress_length|]. split; [apply pt_compress_length|]. split; [|by split].
    unfold sig, schnorr_sign. destruct (sc_random rg) as [k rg']. split; cbn; auto with tardus.
  - unfold holds_nullifiers. by rewrite Hn1.
  - exact dp_fresh0.
  - unfold room_for. by rewrite Hn1.
  - cbn zeta. fold (vault_of d). rewrite Hv1. split_and!; [done..|lia].
  - rewrite Ha1. cbn. split_and!; [done|lia|]. fold (vault_of d). rewrite !not_elem_of_cons. split_and!; [done..|apply not_elem_of_nil].
  - fold (vault_of d). rewrite !not_elem_of_cons. split_and!; [done..|apply not_elem_of_nil].
  - rewrite Hlr, Hn1. done.
  - intros k Hk. fold (vault_of d) in Hk |- *. rewrite move_lamports_spec by congruence.
    rewrite !elem_of_cons in Hk. destruct (decide (k = vault_of d)) as [->|Hkv].
    + rewrite charge_other, Hv1 by congruence. destruct Hvr as [Hvr|Hvr]; [left; cbn; lia|right; left].
      by rewrite (rent_minimum_size _ (account_at st (vault_of d))).
    + assert (k = thief) as -> by (destruct Hk as [?|[?|[?|?%elem_of_nil]]]; done). rewrite decide_True by done.
      unfold charge. rewrite account_at_insert, Ha1. right. left.
      assert (rent_minimum_balance 0 <= acc_lamports a - fee1 - fee2 + d) as Hc by lia.
      apply (covered a _ Hda) in Hc as [Hc _]. exact Hc.
Qed.

(** C5: whoever can sign a transaction can take the collateral of a
    denomination.  Against any deployment with room for one more keyset, a
    stranger enters a key of its own with the highest epoch: from then on it is
    the keyset in force, and the coins of the mint are no longer honoured.
    With that key it signs a coin, and a second transaction pays it the
    denomination out of the vault. *)
Theorem outsider_takes_collateral slot1 slot2 bh1 bh2 st r s d sk coin rg thief a :
  let entry := outsider_entry sk d in
  let pk := PublicKey_to_bytes (PublicKey_from_secret coin) in
  let sig := (schnorr_sign sk (PublicKey_from_secret sk) pk rg).1 in
  let register := [register_instruction pid thief (ke_keyset_id entry) (ke_joint_pk entry) d U64_MAX] in
  let claim := [precompile_instruction (precompile_data (ke_joint_pk entry) pk sig);
                withdraw_instruction pid thief thief pk sig d] in
  let cost := tx_fee register [thief] + tx_fee claim [thief] in
  deployed st r s d entry pk -> can_pay st thief a cost -> length thief = 32%nat ->
  thief ∉ [rkey pid; nkey pid; vault_of d] ->
  exists st1 st2, execute pid slot1 (signed_by thief register bh1) st = Some st1 /\
    holds_registry pid st1 (with_entry r entry) /\
    KeysetRegistry_find_active_for_denom (with_entry r entry) d = Some entry /\
    execute pid slot2 (signed_by thief claim bh2) st1 = Some st2 /\
    acc_lamports (account_at st2 thief) = acc_lamports a - cost + d /\
    acc_lamports (account_at st2 (vault_of d)) = acc_lamports (account_at st (vault_of d)) - d.
Proof using Hpid SK RO CO.
  intros entry pk sig register claim cost D Hpay Hlt Hne.
  pose proof (fee_nonneg register [thief]) as Hf1. pose proof (fee_nonneg claim [thief]) as Hf2.
  destruct (Hpay) as (Ha & Ho & Hda & Hl).
  assert (can_pay st thief a (tx_fee register [thief])) as Hpay1 by (split_and!; [done..|unfold cost in Hl; lia]).
  assert (thief <> rkey pid /\ thief <> vault_of d) as [Htr Htv] by (rewrite !not_elem_of_cons in Hne; tauto).
  destruct (outsider_enters slot1 st r s d sk pk thief a bh1 D Hpay1 Htr) as (st1 & Hx1 & Hr1 & Hlr & Ht1 & Hk1).
  pose proof (outsider_withdrawable st st1 r s d sk coin rg thief a _ _ D Hpay Hf1 Hf2 Hlt Hne Hr1 Hlr Ht1 Hk1) as W.
  destruct (execute_withdraw pid slot2 st1 (with_entry r entry) s entry pk sig d thief thief bh2 Hpid W)
    as (st2 & Hx2 & _ & _ & Hlam).
  assert (account_at st1 (vault_of d) = account_at st (vault_of d)) as Hv1.
  { apply Hk1; [|destruct D; destruct dp_vault0 as (_ & _ & _ & ? & _); lia].
    rewrite !not_elem_of_cons. split_and!; [done|by apply pda_ne|apply not_elem_of_nil]. }
  exists st1, st2. split; [exact Hx1|]. split; [exact Hr1|]. split; [apply W|]. split; [exact Hx2|].
  set (fee1 := tx_fee register [thief]) in *. set (fee2 := tx_fee claim [thief]) in *.
  change (st1 !! thief = Some (set_lamports a (acc_lamports a - fee1))) in Ht1.
  change (forall k, acc_lamports (account_at st2 k) =
    acc_lamports (account_at (move_lamports (charge st1 thief fee2) (vault_of d) thief d) k)) in Hlam.
  rewrite !Hlam, !move_lamports_spec by done.
  rewrite decide_False, !decide_True by done. unfold charge. rewrite account_at_insert.
  rewrite account_at_insert_ne, Hv1, (account_at_some _ _ _ Ht1) by done. cbn [set_lamports acc_lamports]. unfold cost. split; lia.
Qed.
End property.

(** ** Witness: a stranger on the small chain *)
#[local] Existing Instance toy.
#[local] Existing Instance toy_ok.
#[local] Existing Instance sim.
#[local] Existing Instance sim_ok.
#[local] Existing Instance sim_transport.
#[local] Existing Instance sim_runtime.
#[local] Existing Instance sim_runtime_ok.
#[local] Existing Instance sim_cluster.

Definition stranger : bytes := repeat Byte.x0c 32.
Definition stranger_account : account := {| acc_lamports := 2000000; acc_data := []; acc_owner := system_program_id |}.
Definition stranger_sk : SecretKey := {| sk_scalar := sc_of_u64 5 |}.
Definition stranger_coin : SecretKey := {| sk_scalar := sc_of_u64 9 |}.
Definition takeover_chain : store := <[stranger := stranger_account]> Demo.chain.

Lemma takeover_deployed : deployed Demo.pid takeover_chain demo_registry NullifierSet_new 1000
  (outsider_entry stranger_sk 1000) (PublicKey_to_bytes (PublicKey_from_secret stranger_coin)).
Proof.
  split.
  - unfold holds_registry. vm_refl.
  - vm_refl.
  - by vm_compute.
  - exists (default [] (KeysetRegistry_to_vec (with_entry demo_registry (outsider_entry stranger_sk 1000)))).
    split; [vm_refl|]. apply Nat.leb_le. vm_refl.
  - unfold holds_nullifiers. vm_refl.
  - apply not_elem_of_empty.
  - exists (default [] (NullifierSet_to_vec {| ns_leaves :=
      {[ compute_nullifier (PublicKey_to_bytes (PublicKey_from_secret stranger_coin)) ]} ∪ ns_leaves NullifierSet_new |})).
    split; [vm_refl|]. apply Nat.leb_le. vm_refl.
  - intros k Hk. rewrite !elem_of_cons in Hk. destruct Hk as [->|[->|Hk]]; [..|by apply elem_of_nil in Hk]; split; by vm_compute.
  - split; [vm_refl|]. split; [vm_refl|]. split; [by vm_compute|]. split; [by vm_compute|]. right. by vm_compute.
Qed.

Lemma outsider_takes_collateral_witness : exists st1 st2,
  execute Demo.pid 100 (signed_by stranger [register_instruction Demo.pid stranger
    (ke_keyset_id (outsider_entry stranger_sk 1000)) (ke_joint_pk (outsider_entry stranger_sk 1000)) 1000 U64_MAX] [])
    takeover_chain = Some st1 /\
  (exists tx, tx_signers tx = [stranger] /\ execute Demo.pid 101 tx st1 = Some st2) /\
  acc_lamports (account_at st2 stranger) = 2000000 - 10 + 1000 /\
  acc_lamports (account_at st2 (vault_of Demo.pid 1000)) = 4000.
Proof.
  assert (ed25519_program_id (Solana := Solana.sim) <> Demo.pid) as Hp by discriminate.
  destruct (outsider_takes_collateral Demo.pid Hp 100 101 [] [] takeover_chain demo_registry NullifierSet_new
    1000 stranger_sk stranger_coin (demo_rng 3) stranger stranger_account takeover_deployed)
    as (st1 & st2 & H1 & _ & _ & H2 & H3 & H4).
  - split; [vm_refl|]. split; [reflexivity|]. split; [reflexivity|]. by vm_compute.
  - reflexivity.
  - by apply (bool_decide_unpack _); vm_compute.
  - exists st1, st2. split; [exact H1|]. split; [eexists; split; [|exact H2]; reflexivity|]. split; [exact H3|exact H4].
Defined.
